(* ===== verification/_CoqProject ===== *)
-Q . S2P
Prelude.v
Carve.v
FreeList.v
Buddy.v
BuddyInv.v
BuddyStep.v
BuddySpec.v
PmmInit.v
PmmSpec.v
StealDeque.v
Task.v
Sys.v
Sched.v
TaskSleep.v
Heuristic.v
RunQueue.v
SchedInv.v
Dispatch.v
SchedCalls.v
SchedSleep.v
TaskLife.v
SchedBoot.v
SchedSpec.v
SchedPick.v
SchedPlace.v
TaskKill.v
WaitQueue.v
PiMutex.v
PiSpec.v
PiSessions.v
HeapBlocks.v
MsgRing.v
MsgQueue.v
MsgSpec.v
MsgSessions.v
PageDesc.v
Vmm.v
VmmTree.v
VmmUser.v
VmmTear.v
Asid.v
KString.v
UserMem.v
UserSpec.v
Elf.v
ElfSpec.v
ElfArgs.v
UserBuild.v
ElfUser.v
UserSessions.v
VmmKernel.v
Kbuf.v
KbufSpec.v
KbufSessions.v
SharedBuf.v
SharedSpec.v
