(* ===== verification/Prelude.v ===== *)
(** * SLM-OS kernel core: verification development

    The program is the C kernel of SLM-OS (src/kernel; paths below are relative to
    it).  What is modelled is its core: physical memory, tasks and scheduling,
    locking and messages, page tables and user memory, program loading, and the
    buffers built on them.  The page allocator is at the bottom.  The scheduler takes
    stacks from it, mutexes and message queues block and wake tasks through the
    scheduler, page tables are pages of the allocator, and system calls, program
    loaders, kernel buffers and shared buffers allocate pages and map them.

    ** Reading the models

    A C function is a Rocq function of the same name on an explicit state record; a
    loop is a [Fixpoint], often with a name of its own.  Pointers and integers are
    [Z], NULL is 0, and every operation that can wrap is written with the wrap of its
    type ([+64], [-32], [u64], ...).  The result is an [option]: [None] is a panic, a
    failed assertion, a NULL dereference, an access outside an array, or a loop that
    outruns its fuel, so a theorem that ends in [Some] also says that none of these
    happens.  C error codes are ordinary results.

    A kernel call is one step.  The code protects its data with spinlocks taken with
    interrupts off; interleavings of calls from several CPUs are sequences of steps.
    A call that gives up the CPU in its middle (a blocking send, a contended lock) is
    split there.  Windows the code leaves between two locked parts are not explored,
    except the one in [pi_mutex_lock], which has a theorem of its own.

    ** Files and sources

    - This file: machine integers, notations, tactics, hints, shared lemmas.
    - Physical memory, mm/pmm.c.  [Carve]: [pmm_carve_reserves].  [FreeList]: the
      intrusive free lists.  [Buddy]: splitting, coalescing, the allocation and
      release calls.  [PmmInit]: reservations, [pmm_init] on each platform of
      include/platform.h, statistics.  [BuddyInv], [BuddyStep], [BuddySpec],
      [PmmSpec]: invariant, steps, contracts, sessions.
    - Tasks and scheduling, include/task.h, sched/task.c, sched/sched.c,
      sched/task_sleep.c, sched/steal_deque.c, sched/sched_heuristic.c.  [Task]: the
      control block.  [StealDeque]: the work-stealing deque.  [Sys]: the shared state
      and the task table.  [Sched], [TaskSleep], [Heuristic]: the operations.
      [RunQueue], [SchedInv], [Dispatch], [SchedCalls], [SchedSleep], [TaskLife],
      [SchedBoot]: the invariant and its preservation.  [SchedSpec], [SchedPick],
      [SchedPlace]: what callers get.  [TaskKill]: [cmd_kill] of src/shell_exec.c and
      [l_task_kill] of src/lua_slm.c.  A policy enters through the record [policy];
      the class [PolicyOk] is what the scheduler needs of it, and the heuristic
      policy is an instance.
    - Mutexes, ipc/pi_mutex.c.  [PiMutex], [PiSpec], [PiSessions].
    - Messages, ipc/ipc.c.  [MsgRing]: rings in byte memory.  [MsgQueue]: creation,
      destruction, waiting, waking.  [MsgSpec], [MsgSessions].  [WaitQueue] and
      [HeapBlocks] extend the scheduler's invariant by wait queues and by memory that
      other components hold (class [Ghost]).
    - Page tables, mm/vmm.c, include/vmm.h.  [PageDesc]: descriptors.  [Vmm]: table
      memory, TLB maintenance, mapping.  [VmmTree], [VmmUser], [VmmTear]: user tables
      as trees.  [VmmKernel]: the kernel's block mappings.  [Asid]: the ASID pool.
    - User memory, src/syscall.c ([SYS_MMAP], [SYS_MUNMAP]) and the address spaces of
      [task_create_user], [task_create_user_elf] and [task_destroy] in sched/task.c.
      [UserMem], [UserSpec], [UserBuild], [UserSessions].
    - Programs, include/elf.h, src/elf.c, src/elf_user.c.  [Elf], [ElfSpec],
      [ElfArgs], [ElfUser].
    - Buffers.  [Kbuf], [KbufSpec], [KbufSessions]: mm/kbuf.c.  [SharedBuf],
      [SharedSpec]: the shared buffers of ipc/ipc.c over gpu/gpu.c and the stub
      driver gpu/gpu_stub.c.
    - [KString]: src/string.c.

    ** What the theorems show

    - Sessions: for each component, any sequence of calls that meet their stated
      preconditions runs to its end, keeps the component's invariant and loses no
      memory.  The invariants say that blocks are disjoint, that a task is in the one
      place its state names, that no holder of a mutex ranks below a task waiting for
      it that holds none, that no receiver sleeps beside a message nobody was woken
      for, and that user tasks share no writable page.  Sessions of shared buffers
      exclude memory of the GPU layer, whose release loses pages.
    - Functional contracts of single calls on every branch: allocation and release,
      choice of the running task, placement, hand-off, [mmap] and [munmap], region
      mapping, buffers, program loading.
    - Refinements: free lists, deque and rings are the expected sequences.
    - Liveness and bounds: round robin, service of the lowest message level, sizes of
      queues; start-up establishes the invariants.
    - Behaviour that departs from the intent, as theorems: [log2_ceil] on huge
      counts, buffers across a gigabyte boundary, segments with more file than memory
      bytes, killed sleepers, the hand-off window, padding of GPU buffers.

    ** Bounds and fuel

    - [LOG2_FUEL] = 65: the accumulator is a power of two below 2^64, so the loop ends
      within 64 turns or never ([log2_ceil_diverges]).
    - [QUEUE_FUEL] and [MAP_FUEL] = 65: lists of distinct tasks, of which there are 64.
    - [DEQUE_FUEL] = 33: a deque has 32 slots.
    - Walks of free lists get the list's counter plus one, the carving loop two more
      turns than there are reservations, adding a region one turn per page and two.
    - [STR_FUEL] = 2^20 bounds argument strings; the theorem on argument stacks asks
      for shorter strings.  The functions of [KString] take their fuel as an argument.
    Session theorems end in [Some], so the fuel is enough on every reachable state.

    Scheduling follows the x86-64 build without the AI scheduler, page tables and
    programs the 64-bit Arm build.

    ** Not modelled

    - Concurrency inside a call, cache maintenance, memory ordering: the model has
      no weaker memory than sequential steps.
    - Assembly (arch/), register switches, exception entry, and [vmm_init], which
      programs the MMU of each platform: their effect is on hardware state.
    - The task slot a user or ELF task fills and its address space are separate
      states; their union is not built.
    - Other system calls, the shell, Lua bindings, [kprintf], panic output: input and
      output.  Multi-core start-up (sched/smp.c), cross-CPU preemption
      (sched/preempt.c), supervision and the AI policies (sched/ai).
    - Device drivers, GPU command submission, accelerators, USB, network, file
      systems, device-tree parsing (reservations are an arbitrary list), telemetry,
      the component runtime, the Rust runtime, host tools, tests and vendored
      libraries under lib/. *)

From Stdlib Require Export ZArith Lia.
From stdpp Require Export base numbers functions gmap list.

#[export] Set Default Goal Selector "!".

(** ** Machine integers

    C's unsigned types are integers modulo a power of two.  Values are kept as
    [Z] and every operation of the source that can wrap is written with the
    wrap of its type. *)

Definition u8 (x : Z) : Z := x mod 2 ^ 8.
Definition u16 (x : Z) : Z := x mod 2 ^ 16.
Definition u32 (x : Z) : Z := x mod 2 ^ 32.
Definition u64 (x : Z) : Z := x mod 2 ^ 64.

(** The value ranges of the types. *)
Definition is_u8 (x : Z) : Prop := (0 <= x < 2 ^ 8)%Z.
Definition is_u32 (x : Z) : Prop := (0 <= x < 2 ^ 32)%Z.
Definition is_u64 (x : Z) : Prop := (0 <= x < 2 ^ 64)%Z.

Declare Scope slm_scope.
Delimit Scope slm_scope with slm.
Notation "x '+64' y" := (u64 (x + y)) (at level 50, left associativity) : slm_scope.
Notation "x '-64' y" := (u64 (x - y)) (at level 50, left associativity) : slm_scope.
Notation "x '+32' y" := (u32 (x + y)) (at level 50, left associativity) : slm_scope.
Notation "x '-32' y" := (u32 (x - y)) (at level 50, left associativity) : slm_scope.

Create HintDb slm.

Lemma u8_small x : is_u8 x -> u8 x = x.
Proof. apply Z.mod_small. Qed.

Lemma u32_small x : is_u32 x -> u32 x = x.
Proof. apply Z.mod_small. Qed.

Lemma u64_small x : is_u64 x -> u64 x = x.
Proof. apply Z.mod_small. Qed.

Lemma u8_range x : is_u8 (u8 x).
Proof. apply Z.mod_pos_bound. lia. Qed.

Lemma u32_range x : is_u32 (u32 x).
Proof. apply Z.mod_pos_bound. lia. Qed.

Lemma u64_range x : is_u64 (u64 x).
Proof. apply Z.mod_pos_bound. lia. Qed.

#[export] Hint Resolve u8_range u32_range u64_range : slm.

(** ** Lists *)

(** Replacing one list of a family: up to order, the concatenation is the new
    list and what the others hold. *)
Lemma concat_insert_perm {A} (L : list (list A)) o l l' :
  L !! o = Some l -> concat (<[o := l']> L) ≡ₚ l' ++ concat (delete o L).
Proof.
  intros Ho. pose proof (lookup_lt_Some _ _ _ Ho) as Hlt.
  rewrite insert_take_drop, delete_take_drop by done.
  rewrite !concat_app. simpl. rewrite !(assoc (++)). apply Permutation_app; [|done].
  apply Permutation_app_comm.
Qed.

Lemma concat_lookup_perm {A} (L : list (list A)) o l :
  L !! o = Some l -> concat L ≡ₚ l ++ concat (delete o L).
Proof. intros Ho. rewrite <- (list_insert_id L o l) at 1 by done. by apply concat_insert_perm with l. Qed.

(** A list without duplicates of integers in a range is no longer than the range. *)
Lemma NoDup_range_length (l : list Z) (lo hi : Z) :
  NoDup l -> (forall a, a ∈ l -> lo <= a < hi)%Z -> (Z.of_nat (length l) <= Z.max 0 (hi - lo))%Z.
Proof.
  intros Hnd Hin. destruct (decide (lo <= hi)%Z) as [Hle|Hle].
  - assert (Hsub : (length l <= length (seqZ lo (hi - lo)))%nat).
    { apply NoDup_incl_length; [by apply NoDup_ListNoDup|].
      intros a Ha%list_elem_of_In. apply list_elem_of_In, elem_of_seqZ.
      specialize (Hin a Ha). lia. }
    rewrite length_seqZ in Hsub. lia.
  - destruct l as [|a l]; [simpl; lia|].
    specialize (Hin a ltac:(apply elem_of_cons; auto)). lia.
Qed.

Lemma elem_of_concat_lookup {A} (L : list (list A)) a :
  a ∈ concat L <-> exists o l, L !! o = Some l /\ a ∈ l.
Proof.
  rewrite list_elem_of_In, in_concat. split.
  - intros (l & Hl & Ha). apply list_elem_of_In, list_elem_of_lookup in Hl as [o Ho].
    exists o, l. by rewrite list_elem_of_In.
  - intros (o & l & Ho & Ha). exists l. rewrite <- !list_elem_of_In. split; [|done].
    by eapply list_elem_of_lookup_2.
Qed.

Lemma elem_of_concat_delete {A} (L : list (list A)) o o' l a :
  o <> o' -> L !! o' = Some l -> a ∈ l -> a ∈ concat (delete o L).
Proof.
  intros Hne Ho' Ha. apply elem_of_concat_lookup.
  destruct (decide (o' < o)) as [Hlt|Hge].
  - exists o', l. by rewrite list_lookup_delete_lt.
  - exists (o' - 1), l. rewrite list_lookup_delete_ge by lia. split; [|done].
    replace (S (o' - 1)) with o' by lia. done.
Qed.

(** An updated memory. *)
Lemma fn_lookup_insert_Z {A} (f : Z -> A) a b v : <[b := v]> f a = if decide (a = b) then v else f a.
Proof. case_decide as E; [subst; apply fn_lookup_insert|by apply fn_lookup_insert_ne]. Qed.
