(* ===== verification/Carve.v ===== *)
(** Splitting a RAM region around reserved ranges: [pmm_carve_reserves] of
    kernel/mm/pmm.c, which decides what memory the buddy allocator may own. *)

From S2P Require Import Prelude.

Open Scope Z_scope.
Open Scope slm_scope.

Module Carve.

(** [dtb_memreserve_t]: one reserved physical range. *)
Record memreserve := MemReserve { addr : Z; size : Z }.

(** [re] of the inner loop: the exclusive end, in [uintptr_t] arithmetic. *)
Definition rsv_end (r : memreserve) : Z := addr r +64 size r.

(** One iteration of the inner [for] loop over the reservations, on
    [(next_rsv_start, next_rsv_end, found)]. *)
Definition scan_step (cursor end_ : Z) (acc : Z * Z * bool) (r : memreserve)
  : Z * Z * bool :=
  let '(next_start, next_end, found) := acc in
  let rs := addr r in
  let re := rsv_end r in
  if re <=? rs then acc
  else if (re <=? cursor) || (end_ <=? rs) then acc
  else if negb found || (rs <? next_start) then
    (if cursor <? rs then rs else cursor, if re <? end_ then re else end_, true)
  else acc.

Definition next_reservation (rsv : list memreserve) (cursor end_ : Z) : Z * Z * bool :=
  foldl (scan_step cursor end_) (end_, end_, false) rsv.

(** The outer [while (cursor < end)] loop; [out] is the pairs written so far,
    [None] is running out of fuel. *)
Fixpoint carve_loop (fuel : nat) (rsv : list memreserve) (end_ max_out cursor : Z)
    (out : list (Z * Z)) : option (list (Z * Z)) :=
  match fuel with
  | O => None
  | S fuel =>
      if cursor <? end_ then
        let '(next_start, next_end, found) := next_reservation rsv cursor end_ in
        if negb found then
          if max_out <=? Z.of_nat (length out) then Some out
          else Some (out ++ [(cursor, end_)])
        else if cursor <? next_start then
          if max_out <=? Z.of_nat (length out) then Some out
          else carve_loop fuel rsv end_ max_out next_end (out ++ [(cursor, next_start)])
        else carve_loop fuel rsv end_ max_out next_end out
      else Some out
  end.

(** [pmm_carve_reserves]: [rsv] is [None] for a NULL array, of which the first
    [n_rsv] entries are read; [outs] says whether both output arrays are
    non-NULL.  The result is the prefix of [out_starts]/[out_ends] written,
    whose length is the C function's return value. *)
Definition pmm_carve_reserves (start end_ : Z) (rsv : option (list memreserve))
    (n_rsv : Z) (outs : bool) (max_out : Z) : option (list (Z * Z)) :=
  if (max_out <=? 0) || negb outs then Some []
  else if end_ <=? start then Some []
  else
    match rsv with
    | Some l =>
        if n_rsv <=? 0 then Some [(start, end_)]
        else
          let l := take (Z.to_nat n_rsv) l in
          carve_loop (S (S (length l))) l end_ max_out start []
    | None => Some [(start, end_)]
    end.

(** ** Correctness *)

(** [x] lies in the range a reservation really protects. *)
Definition reserved (r : memreserve) (x : Z) : Prop := addr r <= x < rsv_end r.

(** [x] lies in one of the ranges of [l]. *)
Definition covered (l : list (Z * Z)) (x : Z) : Prop :=
  exists s e, (s, e) ∈ l /\ s <= x < e.

(** The ranges of [l] are non-empty, in increasing order and separated, and lie
    in [lo, hi]. *)
Fixpoint separated (lo hi : Z) (l : list (Z * Z)) : Prop :=
  match l with
  | [] => True
  | (s, e) :: l' => lo <= s < e /\ e <= hi /\ separated (e + 1) hi l'
  end.

(** The reservation overlaps [cursor, end_). *)
Definition overlaps (cursor end_ : Z) (r : memreserve) : Prop :=
  addr r < rsv_end r /\ cursor < rsv_end r /\ addr r < end_.

#[export] Instance overlaps_dec cursor end_ r : Decision (overlaps cursor end_ r).
Proof. unfold overlaps. apply _. Defined.

(** The result of a scan: nothing overlaps, or a reservation that overlaps with
    the least clamped start. *)
Definition scan_spec (rsv : list memreserve) (cursor end_ : Z) (res : Z * Z * bool) : Prop :=
  let '(ns, ne, found) := res in
  if found then
    (exists r, r ∈ rsv /\ overlaps cursor end_ r /\
       ns = Z.max (addr r) cursor /\ ne = Z.min (rsv_end r) end_) /\
    (forall r, r ∈ rsv -> overlaps cursor end_ r -> ns <= Z.max (addr r) cursor)
  else forall r, r ∈ rsv -> ~ overlaps cursor end_ r.

Lemma scan_step_miss cursor end_ acc r :
  ~ overlaps cursor end_ r -> scan_step cursor end_ acc r = acc.
Proof.
  destruct acc as [[ns ne] found]; unfold overlaps, scan_step; intros H.
  destruct (Z.leb_spec (rsv_end r) (addr r)); [done|].
  destruct (Z.leb_spec (rsv_end r) cursor); [done|].
  destruct (Z.leb_spec end_ (addr r)); [done|]. lia.
Qed.

Lemma scan_step_hit cursor end_ ns ne found r :
  overlaps cursor end_ r ->
  scan_step cursor end_ (ns, ne, found) r =
  if negb found || (addr r <? ns)
  then (Z.max (addr r) cursor, Z.min (rsv_end r) end_, true) else (ns, ne, found).
Proof.
  unfold overlaps, scan_step; intros H.
  rewrite (proj2 (Z.leb_gt (rsv_end r) (addr r))) by lia.
  rewrite (proj2 (Z.leb_gt (rsv_end r) cursor)) by lia.
  rewrite (proj2 (Z.leb_gt end_ (addr r))) by lia. simpl.
  destruct (negb found || (addr r <? ns)); [|done].
  f_equal. f_equal; case_match; lia.
Qed.

Lemma scan_step_spec rsv r cursor end_ acc :
  scan_spec rsv cursor end_ acc ->
  scan_spec (rsv ++ [r]) cursor end_ (scan_step cursor end_ acc r).
Proof.
  destruct acc as [[ns ne] found]; intros Hspec.
  assert (Hin : forall x, x ∈ rsv ++ [r] <-> x ∈ rsv \/ x = r).
  { intros x. rewrite elem_of_app, list_elem_of_singleton. done. }
  destruct (decide (overlaps cursor end_ r)) as [Hov|Hov].
  - rewrite scan_step_hit by done.
    unfold scan_spec in *. destruct found; simpl.
    2:{ setoid_rewrite Hin. naive_solver lia. }
    destruct Hspec as [(r0 & Hr0 & Ho & -> & ->) Hmin].
    destruct (Z.ltb_spec (addr r) (Z.max (addr r0) cursor)); setoid_rewrite Hin.
    + split; [exists r; auto|]. intros r1 [Hr1| ->] Hov1; [|lia].
      specialize (Hmin r1 Hr1 Hov1). lia.
    + split; [exists r0; auto|]. intros r1 [Hr1| ->] Hov1; [auto|lia].
  - rewrite scan_step_miss by done. unfold scan_spec in *.
    destruct found; setoid_rewrite Hin.
    + destruct Hspec as [(r0 & Hr0 & H) Hmin]. split; [exists r0; auto|].
      intros r1 [Hr1| ->] Hov1; [auto|done].
    + intros r1 [Hr1| ->]; [auto|done].
Qed.

Lemma next_reservation_spec rsv cursor end_ :
  scan_spec rsv cursor end_ (next_reservation rsv cursor end_).
Proof.
  unfold next_reservation. induction rsv as [|r rsv IH] using rev_ind.
  - simpl. intros r Hr. by apply not_elem_of_nil in Hr.
  - rewrite foldl_app. simpl. by apply scan_step_spec.
Qed.

(** The reservations that still end after [cursor]: the loop's measure. *)
Definition pending (cursor end_ : Z) (rsv : list memreserve) : nat :=
  length (filter (fun r => cursor < Z.min (rsv_end r) end_) rsv).

Lemma pending_cons cursor end_ r rsv :
  pending cursor end_ (r :: rsv) =
  ((if decide (cursor < Z.min (rsv_end r) end_)%Z then 1 else 0) + pending cursor end_ rsv)%nat.
Proof. unfold pending. rewrite filter_cons. by case_decide. Qed.

Lemma pending_mono cursor cursor' end_ rsv :
  cursor <= cursor' -> (pending cursor' end_ rsv <= pending cursor end_ rsv)%nat.
Proof.
  intros Hc. induction rsv as [|r rsv IH]; [done|].
  rewrite !pending_cons. repeat case_decide; lia.
Qed.

Lemma pending_decreases cursor cursor' end_ rsv r :
  r ∈ rsv -> cursor < Z.min (rsv_end r) end_ <= cursor' ->
  (pending cursor' end_ rsv < pending cursor end_ rsv)%nat.
Proof.
  intros Hr Hc. induction rsv as [|r0 rsv IH]; [by apply not_elem_of_nil in Hr|].
  rewrite !pending_cons. pose proof (pending_mono cursor cursor' end_ rsv ltac:(lia)).
  apply elem_of_cons in Hr as [<-|Hr].
  - repeat case_decide; lia.
  - specialize (IH Hr). repeat case_decide; lia.
Qed.

Lemma separated_weaken lo lo' hi l : lo <= lo' -> separated lo' hi l -> separated lo hi l.
Proof. destruct l as [|[s e] l]; simpl; [done|]. intros ? (?&?&?). split_and!; [lia..|done]. Qed.

Lemma covered_nil x : covered [] x <-> False.
Proof. split; [intros (?&?&H&_); by apply not_elem_of_nil in H|done]. Qed.

Lemma covered_cons s e l x : covered ((s, e) :: l) x <-> s <= x < e \/ covered l x.
Proof. unfold covered. setoid_rewrite elem_of_cons. naive_solver. Qed.

(** What the loop leaves to the allocator from [cursor] on. *)
Definition carved (rsv : list memreserve) (cursor end_ : Z) (rest : list (Z * Z)) : Prop :=
  separated cursor end_ rest /\
  (length rest <= S (pending cursor end_ rsv))%nat /\
  (forall x, covered rest x <-> cursor <= x < end_ /\ forall r, r ∈ rsv -> ~ reserved r x).

Lemma carved_done rsv cursor end_ : end_ <= cursor -> carved rsv cursor end_ [].
Proof.
  intros H. split_and!; simpl; [done|lia|]. intros x. rewrite covered_nil. lia.
Qed.

Lemma carved_last rsv cursor end_ :
  cursor < end_ -> (forall r, r ∈ rsv -> ~ overlaps cursor end_ r) ->
  carved rsv cursor end_ [(cursor, end_)].
Proof.
  intros Hlt Hno. split_and!; simpl; [split_and!; [lia..|done]|lia|].
  intros x. rewrite covered_cons, covered_nil. split; [|intros [? _]; auto].
  intros [Hx|[]]. split; [done|]. intros r Hr Hres. apply (Hno r Hr).
  unfold overlaps, reserved in *. lia.
Qed.

(** Skipping the least overlapping reservation, after emitting the free range in
    front of it when that is not empty. *)
Lemma carved_skip rsv cursor end_ r rest :
  cursor < end_ -> r ∈ rsv -> overlaps cursor end_ r ->
  (forall r', r' ∈ rsv -> overlaps cursor end_ r' ->
     Z.max (addr r) cursor <= Z.max (addr r') cursor) ->
  carved rsv (Z.min (rsv_end r) end_) end_ rest ->
  carved rsv cursor end_
    (if cursor <? Z.max (addr r) cursor then (cursor, Z.max (addr r) cursor) :: rest else rest).
Proof.
  intros Hlt Hr (Ho1 & Ho2 & Ho3) Hmin (Hsep & Hlen & Hcov).
  pose proof (pending_decreases cursor (Z.min (rsv_end r) end_) end_ rsv r Hr ltac:(lia)).
  assert (Hfree : forall x r', cursor <= x < Z.max (addr r) cursor -> r' ∈ rsv -> ~ reserved r' x).
  { intros x r' Hx Hr' Hres. unfold reserved in Hres.
    specialize (Hmin r' Hr' ltac:(unfold overlaps; lia)). lia. }
  assert (Hcut : forall x, Z.max (addr r) cursor <= x < Z.min (rsv_end r) end_ -> reserved r x)
    by (unfold reserved; lia).
  assert (Hcov' : forall x, cursor <= x < Z.max (addr r) cursor \/ covered rest x <->
    cursor <= x < end_ /\ forall r', r' ∈ rsv -> ~ reserved r' x).
  { intros x. rewrite Hcov. split.
    - intros [Hx|[Hx Hn]]; (split; [lia|eauto]).
    - intros [Hx Hn]. specialize (Hn r Hr) as Hnr.
      destruct (decide (x < Z.max (addr r) cursor)); [lia|].
      destruct (decide (x < Z.min (rsv_end r) end_)); [exfalso; apply Hnr, Hcut; lia|].
      right. split; [lia|done]. }
  destruct (Z.ltb_spec cursor (Z.max (addr r) cursor)); split_and!; simpl.
  - split_and!; [lia..|]. eapply separated_weaken; [|done]. lia.
  - lia.
  - intros x. rewrite covered_cons. apply Hcov'.
  - eapply separated_weaken; [|done]. lia.
  - lia.
  - intros x. rewrite <- Hcov'. naive_solver lia.
Qed.

Lemma carve_loop_spec rsv end_ max_out : forall fuel cursor out,
  (pending cursor end_ rsv < fuel)%nat ->
  Z.of_nat (length out) + Z.of_nat (pending cursor end_ rsv) < max_out ->
  exists rest, carve_loop fuel rsv end_ max_out cursor out = Some (out ++ rest) /\
    carved rsv cursor end_ rest.
Proof.
  induction fuel as [|fuel IH]; intros cursor out Hfuel Hroom; [lia|].
  simpl. destruct (Z.ltb_spec cursor end_) as [Hlt|Hge].
  2:{ exists []. rewrite app_nil_r. split; [done|]. by apply carved_done. }
  pose proof (next_reservation_spec rsv cursor end_) as Hscan.
  destruct (next_reservation rsv cursor end_) as [[ns ne] [|]]; simpl in Hscan |- *.
  2:{ rewrite (proj2 (Z.leb_gt _ _)) by lia.
      eexists. split; [done|]. by apply carved_last. }
  destruct Hscan as [(r & Hr & Hov & -> & ->) Hmin].
  assert (Hpend : (pending (Z.min (rsv_end r) end_) end_ rsv < pending cursor end_ rsv)%nat).
  { apply (pending_decreases _ _ _ _ r); [done|]. unfold overlaps in Hov. lia. }
  destruct (Z.ltb_spec cursor (Z.max (addr r) cursor)) as [Hgap|Hgap].
  - rewrite (proj2 (Z.leb_gt _ _)) by lia.
    destruct (IH (Z.min (rsv_end r) end_) (out ++ [(cursor, Z.max (addr r) cursor)]))
      as (rest & -> & Hrest); [lia|rewrite length_app; simpl; lia|].
    eexists. rewrite <- app_assoc. split; [done|]. simpl.
    pose proof (carved_skip _ _ _ _ _ Hlt Hr Hov Hmin Hrest) as Hskip.
    by rewrite (proj2 (Z.ltb_lt _ _)) in Hskip.
  - destruct (IH (Z.min (rsv_end r) end_) out) as (rest & -> & Hrest); [lia..|].
    eexists. split; [done|].
    pose proof (carved_skip _ _ _ _ _ Hlt Hr Hov Hmin Hrest) as Hskip.
    by rewrite (proj2 (Z.ltb_ge _ _)) in Hskip.
Qed.

(** Every bound of a carved range is a bound of the region or of a reservation. *)
Lemma carve_loop_bounds (Q : Z -> Prop) rsv end_ max_out : forall fuel cursor out res,
  Q end_ -> (forall r, r ∈ rsv -> Q (addr r) /\ Q (rsv_end r)) -> Q cursor ->
  (forall s e, (s, e) ∈ out -> Q s /\ Q e) ->
  carve_loop fuel rsv end_ max_out cursor out = Some res ->
  forall s e, (s, e) ∈ res -> Q s /\ Q e.
Proof.
  induction fuel as [|fuel IH]; intros cursor out res He Hr Hc Hout; [done|]. cbn [carve_loop].
  destruct (cursor <? end_); [|by intros [= <-]].
  pose proof (next_reservation_spec rsv cursor end_) as Hspec.
  destruct (next_reservation rsv cursor end_) as [[ns ne] found]. simpl in Hspec.
  assert (Hsnoc : forall z, Q z -> forall s e, (s, e) ∈ out ++ [(cursor, z)] -> Q s /\ Q e).
  { intros z Hz s e. rewrite elem_of_app, list_elem_of_singleton. intros [?|[= -> ->]]; auto. }
  destruct found; cbn [negb].
  - destruct Hspec as [(r & Hin & _ & -> & ->) _]. destruct (Hr r Hin) as [Hq1 Hq2].
    assert (Q (Z.max (addr r) cursor)) by (destruct (Z.max_spec (addr r) cursor) as [[_ ->]|[_ ->]]; done).
    assert (Q (Z.min (rsv_end r) end_)) by (destruct (Z.min_spec (rsv_end r) end_) as [[_ ->]|[_ ->]]; done).
    destruct (_ <? _); [destruct (_ <=? _); [by intros [= <-]|]|]; 
      intros E; refine (IH _ _ _ He Hr _ _ E); auto; by apply Hsnoc.
  - destruct (_ <=? _); intros [= <-]; [done|]. by apply Hsnoc.
Qed.

Lemma carve_reserves_bounds (Q : Z -> Prop) start end_ rsv n max_out out :
  Q start -> Q end_ -> (forall r, r ∈ rsv -> Q (addr r) /\ Q (rsv_end r)) ->
  pmm_carve_reserves start end_ (Some rsv) n true max_out = Some out ->
  forall s e, (s, e) ∈ out -> Q s /\ Q e.
Proof.
  intros Hs He Hr. unfold pmm_carve_reserves.
  assert (Hnil : forall s e : Z, (s, e) ∈ [] -> Q s /\ Q e) by (intros ? ? []%not_elem_of_nil).
  destruct (_ || _); [by intros [= <-]|]. destruct (_ <=? _); [by intros [= <-]|].
  destruct (_ <=? _).
  - intros [= <-] s e [= -> ->]%list_elem_of_singleton. done.
  - apply (carve_loop_bounds Q); [done| |done|done].
    intros r Hin. apply Hr. by eapply subseteq_take.
Qed.

Lemma carve_reserves_spec (start end_ max_out : Z) (rsv : list memreserve) :
  start < end_ ->
  Z.of_nat (length rsv) < max_out ->
  exists out,
    pmm_carve_reserves start end_ (Some rsv) (Z.of_nat (length rsv)) true max_out = Some out /\
    separated start end_ out /\
    (length out <= S (length rsv))%nat /\
    (forall x, covered out x <->
       start <= x < end_ /\ forall r, r ∈ rsv -> ~ reserved r x).
Proof.
  intros Hse Hmax. unfold pmm_carve_reserves.
  rewrite (proj2 (Z.leb_gt max_out 0)), (proj2 (Z.leb_gt end_ start)) by lia.
  cbn [orb negb]. cbv zeta.
  destruct (Z.leb_spec (Z.of_nat (length rsv)) 0) as [Hz|Hz].
  - destruct rsv; [|simpl in Hz; lia]. eexists. split; [done|].
    destruct (carved_last [] start end_ Hse) as (?&?&?); [|done].
    intros r Hr. by apply not_elem_of_nil in Hr.
  - rewrite Nat2Z.id, take_ge by lia.
    assert (Hp : (pending start end_ rsv <= length rsv)%nat) by apply length_filter.
    destruct (carve_loop_spec rsv end_ max_out (S (S (length rsv))) start [])
      as (rest & -> & Hsep & Hlen & Hcov); [lia|simpl; lia|].
    exists rest. split_and!; [done..|lia|done].
Qed.

(** C30. [pmm_carve_reserves] is exact: given room for one more range than there are
    reservations, it terminates and the ranges it writes are non-empty, ordered,
    separated, at most one more than the reservations, and contain an address of
    [start, end) exactly when no reservation contains it. *)
Theorem pmm_carve_reserves_exact (start end_ max_out : Z) (rsv : list memreserve) :
  start < end_ ->
  Z.of_nat (length rsv) < max_out ->
  exists out,
    pmm_carve_reserves start end_ (Some rsv) (Z.of_nat (length rsv)) true max_out = Some out /\
    separated start end_ out /\
    (length out <= S (length rsv))%nat /\
    (forall x, covered out x <->
       start <= x < end_ /\ forall r, r ∈ rsv -> ~ reserved r x).
Proof. apply carve_reserves_spec. Qed.

(** Witness of C30: a 1 MB region with two overlapping reservations and one outside it. *)
Lemma pmm_carve_reserves_exact_witness :
  let rsv := [MemReserve 0x40020000 0x1000; MemReserve 0x40010000 0x10800;
              MemReserve 0x80000000 0x1000] in
  pmm_carve_reserves 0x40000000 0x40100000 (Some rsv) 3 true 4 =
    Some [(0x40000000, 0x40010000); (0x40021000, 0x40100000)] /\
  exists out, pmm_carve_reserves 0x40000000 0x40100000 (Some rsv) 3 true 4 = Some out /\
    (forall x, covered out x <-> 0x40000000 <= x < 0x40100000 /\
       forall r, r ∈ rsv -> ~ reserved r x).
Proof.
  intros rsv. split; [vm_compute; reflexivity|].
  destruct (pmm_carve_reserves_exact 0x40000000 0x40100000 4 rsv) as (out & ? & _ & _ & ?);
    [lia|simpl; lia|]. exists out. split; assumption.
Defined.

End Carve.
