(* ===== verification/FreeList.v ===== *)
(** The buddy allocator's free lists (kernel/mm/pmm.c, "Free List Operations"):
    intrusive doubly linked lists whose [next]/[prev] words are stored in the
    free blocks themselves.

    [free_list_add], [free_list_remove] and [free_list_pop] are translated on a
    memory of link words; [repr] relates them to one list of addresses per
    order, and the refinement lemmas say each operation is the obvious one on
    those lists. *)

From S2P Require Import Prelude.

Open Scope Z_scope.
Open Scope slm_scope.

Module FreeList.

(** [MAX_ORDER] and the failure sentinel [PMM_ALLOC_FAIL], [(uintptr_t)-1]. *)
Definition MAX_ORDER : nat := 19.
Definition PMM_ALLOC_FAIL : Z := 2 ^ 64 - 1.

(** [struct free_block]; NULL is address 0. *)
Record free_block := FreeBlock { next : Z; prev : Z }.

(** The list heads and counters of [buddy_state], and the link words of memory. *)
Record freelists := FreeLists {
  heads : list Z;
  counts : list Z;
  mem : Z -> free_block
}.

Definition set_next (m : Z -> free_block) (a v : Z) : Z -> free_block :=
  <[a := FreeBlock v (prev (m a))]> m.
Definition set_prev (m : Z -> free_block) (a v : Z) : Z -> free_block :=
  <[a := FreeBlock (next (m a)) v]> m.

Definition free_list_add (a : Z) (order : nat) (s : freelists) : freelists :=
  let head := heads s !!! order in
  let m := set_next (set_prev (mem s) a 0) a head in
  let m := if head =? 0 then m else set_prev m head a in
  {| heads := <[order := a]> (heads s);
     counts := <[order := (counts s !!! order) +64 1]> (counts s);
     mem := m |}.

Definition free_list_remove (a : Z) (order : nat) (s : freelists) : freelists :=
  let m := mem s in
  let m1 := if prev (m a) =? 0 then m else set_next m (prev (m a)) (next (m a)) in
  let h1 := if prev (m a) =? 0 then <[order := next (m a)]> (heads s) else heads s in
  let m2 := if next (m1 a) =? 0 then m1 else set_prev m1 (next (m1 a)) (prev (m1 a)) in
  {| heads := h1;
     counts := <[order := (counts s !!! order) -64 1]> (counts s);
     mem := m2 |}.

Definition free_list_pop (order : nat) (s : freelists) : Z * freelists :=
  let block := heads s !!! order in
  if block =? 0 then (PMM_ALLOC_FAIL, s)
  else
    let m := mem s in
    let h := <[order := next (m block)]> (heads s) in
    let m := if next (m block) =? 0 then m else set_prev m (next (m block)) 0 in
    let m := set_prev (set_next m block 0) block 0 in
    (block, {| heads := h;
               counts := <[order := (counts s !!! order) -64 1]> (counts s);
               mem := m |}).

(** ** Representation *)

(** From [h], the words of [m] form the doubly linked list [l], whose first
    node's [prev] is [p]. *)
Fixpoint dll (m : Z -> free_block) (p h : Z) (l : list Z) : Prop :=
  match l with
  | [] => h = 0
  | a :: l' => h = a /\ a <> 0 /\ prev (m a) = p /\ dll m a (next (m a)) l'
  end.

(** The free lists [s] hold [L], one list of block addresses per order. *)
Record repr (s : freelists) (L : list (list Z)) : Prop := {
  repr_heads : length (heads s) = S MAX_ORDER;
  repr_counts : length (counts s) = S MAX_ORDER;
  repr_lists : length L = S MAX_ORDER;
  repr_nodup : NoDup (concat L);
  repr_addr : forall a, a ∈ concat L -> 0 < a < 2 ^ 64;
  repr_dll : forall o l, L !! o = Some l ->
    dll (mem s) 0 (heads s !!! o) l /\ counts s !!! o = Z.of_nat (length l)
}.

Lemma dll_frame m m' p h l :
  dll m p h l -> (forall a, a ∈ l -> m' a = m a) -> dll m' p h l.
Proof.
  revert p h. induction l as [|a l IH]; simpl; [done|].
  intros p h (-> & Ha & Hp & Hl) Hm.
  rewrite (Hm a) by apply elem_of_cons, or_introl, eq_refl.
  split_and!; [done..|]. apply IH; [done|]. intros b Hb. apply Hm, elem_of_cons. auto.
Qed.

Lemma dll_nonzero m p h l a : dll m p h l -> a ∈ l -> a <> 0.
Proof.
  revert p h. induction l as [|b l IH]; simpl; intros p h Hl Ha; [by apply not_elem_of_nil in Ha|].
  destruct Hl as (-> & Hb & _ & Hl). apply elem_of_cons in Ha as [->|Ha]; eauto.
Qed.

Lemma set_next_ne m a v b : b <> a -> set_next m a v b = m b.
Proof. intros H. unfold set_next. by apply fn_lookup_insert_ne. Qed.

Lemma set_prev_ne m a v b : b <> a -> set_prev m a v b = m b.
Proof. intros H. unfold set_prev. by apply fn_lookup_insert_ne. Qed.

Lemma set_next_eq m a v : set_next m a v a = FreeBlock v (prev (m a)).
Proof. unfold set_next. apply fn_lookup_insert. Qed.

Lemma set_prev_eq m a v : set_prev m a v a = FreeBlock (next (m a)) v.
Proof. unfold set_prev. apply fn_lookup_insert. Qed.

(** A list segment: the nodes [l] from [h], the last one's [next] being [x]. *)
Fixpoint seg (m : Z -> free_block) (p h : Z) (l : list Z) (x : Z) : Prop :=
  match l with
  | [] => h = x
  | a :: l' => h = a /\ a <> 0 /\ prev (m a) = p /\ seg m a (next (m a)) l' x
  end.

Lemma dll_app m p h l1 l2 :
  dll m p h (l1 ++ l2) <-> exists x, seg m p h l1 x /\ dll m (default p (last l1)) x l2.
Proof.
  revert p h. induction l1 as [|a l1 IH]; intros p h; simpl.
  - naive_solver.
  - rewrite IH, last_cons. replace (default p (Some (default a (last l1)))) with (default a (last l1)) by done.
    split.
    + intros (-> & Ha & Hp & x & Hs & Hd). exists x. destruct (last l1); auto.
    + intros (x & (-> & Ha & Hp & Hs) & Hd). split_and!; [done..|]. exists x. destruct (last l1); auto.
Qed.

Lemma seg_frame m m' p h l x :
  seg m p h l x -> (forall a, a ∈ l -> m' a = m a) -> seg m' p h l x.
Proof.
  revert p h. induction l as [|a l IH]; simpl; [done|].
  intros p h (-> & Ha & Hp & Hl) Hm.
  rewrite (Hm a) by apply elem_of_cons, or_introl, eq_refl.
  split_and!; [done..|]. apply IH; [done|]. intros b Hb. apply Hm, elem_of_cons. auto.
Qed.

(** Redirecting the last node of a segment. *)
Lemma seg_set_next m p h l b x y :
  seg m p h (l ++ [b]) x -> b ∉ l -> seg (set_next m b y) p h (l ++ [b]) y.
Proof.
  revert p h. induction l as [|a l IH]; simpl; intros p h.
  - intros (-> & Hb & Hp & Hx) _. by rewrite set_next_eq.
  - intros (-> & Ha & Hp & Hl) [Hab Hbl]%not_elem_of_cons.
    rewrite set_next_ne by congruence. split_and!; auto.
Qed.

(** Changing the [prev] word of the head only changes the predecessor. *)
Lemma dll_set_prev m p p' h l :
  dll m p h l -> NoDup l -> h <> 0 -> dll (set_prev m h p') p' h l.
Proof.
  destruct l as [|a l]; simpl; [done|]. intros (-> & Ha & Hp & Hl) [Hal Hnd]%NoDup_cons _.
  rewrite set_prev_eq. split_and!; [done..|]. eapply dll_frame; [done|].
  intros b Hb. apply set_prev_ne. congruence.
Qed.

(** *** The three operations on the list of their order *)

Lemma dll_null m p l : dll m p 0 l -> l = [].
Proof. destruct l; simpl; [done|]. intros (<- & ? & _). done. Qed.

Lemma dll_head_in m p h l : dll m p h l -> h <> 0 -> h ∈ l.
Proof. destruct l; simpl; [done|]. intros [-> _] _. apply elem_of_cons. auto. Qed.

Lemma add_dll a o s l :
  dll (mem s) 0 (heads s !!! o) l -> NoDup l -> a ∉ l -> a <> 0 ->
  dll (mem (free_list_add a o s)) 0 a (a :: l) /\
  (forall b, b ∉ a :: l -> mem (free_list_add a o s) b = mem s b).
Proof.
  unfold free_list_add. set (h := heads s !!! o). intros Hl Hnd Hal Ha. cbn [mem].
  set (m1 := set_next (set_prev (mem s) a 0) a h).
  assert (Hm1 : forall b, b <> a -> m1 b = mem s b).
  { intros b Hb. unfold m1. by rewrite set_next_ne, set_prev_ne. }
  assert (Hd1 : dll m1 0 h l).
  { eapply dll_frame; [done|]. intros b Hb. apply Hm1. congruence. }
  assert (Hm1a : m1 a = FreeBlock h 0) by (unfold m1; by rewrite set_next_eq, set_prev_eq).
  destruct (Z.eqb_spec h 0) as [Hh|Hh].
  - split; [|intros b [Hb _]%not_elem_of_cons; auto].
    simpl. rewrite Hm1a. simpl. split_and!; [done..|].
    rewrite Hh in *. by rewrite (dll_null _ _ _ Hd1).
  - pose proof (dll_head_in _ _ _ _ Hl Hh) as Hin.
    split.
    + simpl. rewrite set_prev_ne, Hm1a by congruence. simpl.
      split_and!; [done..|]. by eapply dll_set_prev.
    + intros b [Hb Hbl]%not_elem_of_cons. rewrite set_prev_ne by congruence. auto.
Qed.

(** Giving the head of a list a new predecessor. *)
Definition relink (m : Z -> free_block) (p h : Z) : Z -> free_block :=
  if h =? 0 then m else set_prev m h p.

Lemma relink_ne m p h b : b <> h -> relink m p h b = m b.
Proof. intros Hb. unfold relink. destruct (h =? 0); [done|]. by apply set_prev_ne. Qed.

Lemma dll_relink m p p' h l : dll m p h l -> NoDup l -> dll (relink m p' h) p' h l.
Proof.
  intros Hd Hnd. unfold relink. destruct (Z.eqb_spec h 0) as [Hh|Hh]; [|by eapply dll_set_prev].
  rewrite Hh in *. by rewrite (dll_null _ _ _ Hd).
Qed.

Lemma seg_nonzero m p h l x a : seg m p h l x -> a ∈ l -> a <> 0.
Proof.
  revert p h. induction l as [|b l IH]; simpl; intros p h Hl Ha; [by apply not_elem_of_nil in Ha|].
  destruct Hl as (-> & Hb & _ & Hl). apply elem_of_cons in Ha as [->|Ha]; eauto.
Qed.

Lemma remove_dll a o s l1 l2 :
  dll (mem s) 0 (heads s !!! o) (l1 ++ a :: l2) -> NoDup (l1 ++ a :: l2) ->
  dll (mem (free_list_remove a o s)) 0
    (if prev (mem s a) =? 0 then next (mem s a) else heads s !!! o) (l1 ++ l2) /\
  (forall b, b ∉ l1 ++ a :: l2 -> mem (free_list_remove a o s) b = mem s b) /\
  (prev (mem s a) = 0 -> l1 = []).
Proof.
  intros Hd Hnd. apply dll_app in Hd as (x & Hseg & -> & Ha & Hprev & Hd).
  apply NoDup_app in Hnd as (Hnd1 & Hdisj & [Hal2 Hnd2]%NoDup_cons).
  unfold free_list_remove; cbn [mem]. set (m := mem s) in *. set (n := next (m a)) in *.
  assert (Hnl2 : n <> 0 -> n ∈ l2) by (intros; by eapply dll_head_in).
  destruct l1 as [|b l1 _] using rev_ind; simpl in Hprev.
  - rewrite Hprev. cbn [Z.eqb]. fold n. rewrite Hprev. split; [|split; [|done]].
    + simpl. by eapply dll_relink.
    + intros b [Hb Hbl2]%not_elem_of_cons. fold (relink m 0 n). unfold relink.
      destruct (Z.eqb_spec n 0); [done|]. apply set_prev_ne. intros ->; auto.
  - rewrite last_snoc in Hprev. simpl in Hprev. rewrite Hprev.
    assert (Hb0 : b <> 0) by (eapply seg_nonzero; [done|]; rewrite elem_of_app, list_elem_of_singleton; auto).
    rewrite (proj2 (Z.eqb_neq b 0)) by done.
    apply NoDup_app in Hnd1 as (Hnd1 & Hb1 & _).
    assert (Hbl1 : b ∉ l1) by (intros Hb; apply (Hb1 b Hb), list_elem_of_singleton; done).
    assert (Hbin : b ∈ l1 ++ [b]) by (rewrite elem_of_app, list_elem_of_singleton; auto).
    assert (Hba : a <> b) by (intros ->; apply (Hdisj b Hbin), elem_of_cons; auto).
    assert (Hbl2 : b ∉ l2) by (intros Hb; apply (Hdisj b Hbin), elem_of_cons; auto).
    fold n. rewrite set_next_ne by done. fold n. rewrite Hprev.
    fold (relink (set_next m b n) b n).
    assert (Hfr : forall c, c ∉ l2 -> relink (set_next m b n) b n c = set_next m b n c).
    { intros c Hc. unfold relink. destruct (Z.eqb_spec n 0); [done|]. apply set_prev_ne. intros ->; auto. }
    split; [|split].
    + apply dll_app. exists n. rewrite last_snoc. simpl. split.
      * eapply seg_frame; [eapply seg_set_next; done|].
        intros c Hc. apply Hfr. intros Hc2. apply (Hdisj c Hc), elem_of_cons; auto.
      * eapply dll_relink; [|done]. eapply dll_frame; [done|].
        intros c Hc. apply set_next_ne. congruence.
    + intros c Hc. rewrite elem_of_app, elem_of_cons in Hc. rewrite Hfr by auto.
      apply set_next_ne. intros ->. auto.
    + congruence.
Qed.

(** *** Refinement: the operations on all lists *)

Lemma repr_order s L o : repr s L -> (o <= MAX_ORDER)%nat -> exists l, L !! o = Some l.
Proof.
  intros Hr Ho. apply lookup_lt_is_Some_2. rewrite (repr_lists _ _ Hr). lia.
Qed.

Lemma repr_count s L o l : repr s L -> L !! o = Some l -> Z.of_nat (length l) < 2 ^ 64.
Proof.
  intros Hr Ho. pose proof (repr_nodup _ _ Hr) as Hnd.
  rewrite (concat_lookup_perm _ _ _ Ho) in Hnd. apply NoDup_app in Hnd as (Hnd & _ & _).
  assert (Z.of_nat (length l) <= Z.max 0 (2 ^ 64 - 1)); [|lia].
  apply NoDup_range_length; [done|]. intros a Ha.
  assert (0 < a < 2 ^ 64); [|lia].
  apply (repr_addr _ _ Hr), elem_of_concat_lookup. eauto.
Qed.

(** An operation that only touches the list of order [o], giving [l']. *)
Lemma repr_update s L o l l' h c m :
  repr s L -> L !! o = Some l ->
  l' ⊆ l \/ (exists a, 0 < a < 2 ^ 64 /\ l' = a :: l /\ a ∉ concat L) -> NoDup l' ->
  dll m 0 h l' -> c = Z.of_nat (length l') ->
  (forall b, b ∈ concat (delete o L) -> m b = mem s b) ->
  repr (FreeLists (<[o := h]> (heads s)) (<[o := c]> (counts s)) m) (<[o := l']> L).
Proof.
  intros Hr Ho Hl' Hnd' Hd Hc Hm.
  pose proof (lookup_lt_Some _ _ _ Ho) as Hlt. rewrite (repr_lists _ _ Hr) in Hlt.
  pose proof (concat_lookup_perm _ _ _ Ho) as Hperm.
  pose proof (repr_nodup _ _ Hr) as Hnd. pose proof Hnd as Hnd0.
  rewrite Hperm in Hnd. apply NoDup_app in Hnd as (Hndl & Hdisj & Hndr).
  assert (Hin : forall b, b ∈ l' -> 0 < b < 2 ^ 64 /\ b ∉ concat (delete o L)).
  { intros b Hb. destruct Hl' as [Hsub|(a & Ha & -> & HaL)].
    - split; [|by apply Hdisj, Hsub]. apply (repr_addr _ _ Hr). rewrite Hperm, elem_of_app. auto.
    - apply elem_of_cons in Hb as [->|Hb].
      + split; [done|]. intros Hin. apply HaL. rewrite Hperm, elem_of_app. auto.
      + split; [|by apply Hdisj]. apply (repr_addr _ _ Hr). rewrite Hperm, elem_of_app. auto. }
  constructor; simpl.
  - rewrite length_insert. apply Hr.
  - rewrite length_insert. apply Hr.
  - rewrite length_insert. apply Hr.
  - rewrite (concat_insert_perm _ _ _ _ Ho). apply NoDup_app.
    split_and!; [done| |done]. intros b Hb. by apply Hin.
  - intros b. rewrite (concat_insert_perm _ _ _ _ Ho), elem_of_app. intros [Hb|Hb]; [by apply Hin|].
    apply (repr_addr _ _ Hr). rewrite Hperm, elem_of_app. auto.
  - intros o' l1 Ho'. destruct (decide (o = o')) as [<-|Hne].
    + rewrite list_lookup_insert_eq in Ho' by (rewrite (repr_lists _ _ Hr); lia).
      injection Ho' as <-.
      rewrite !list_lookup_total_insert_eq by (rewrite ?(repr_heads _ _ Hr), ?(repr_counts _ _ Hr); lia).
      auto.
    + rewrite list_lookup_insert_ne in Ho' by done.
      rewrite !list_lookup_total_insert_ne by done.
      destruct (repr_dll _ _ Hr _ _ Ho') as [Hd1 Hc1]. split; [|done].
      eapply dll_frame; [done|]. intros b Hb. apply Hm.
      by eapply elem_of_concat_delete.
Qed.

Lemma repr_rest s L o l b :
  repr s L -> L !! o = Some l -> b ∈ concat (delete o L) -> b ∉ l.
Proof.
  intros Hr Ho Hb Hbl. pose proof (repr_nodup _ _ Hr) as Hnd.
  rewrite (concat_lookup_perm _ _ _ Ho) in Hnd. apply NoDup_app in Hnd as (_ & Hdisj & _).
  by apply (Hdisj b).
Qed.

Lemma repr_nodup_order s L o l : repr s L -> L !! o = Some l -> NoDup l.
Proof.
  intros Hr Ho. pose proof (repr_nodup _ _ Hr) as Hnd.
  rewrite (concat_lookup_perm _ _ _ Ho) in Hnd. by apply NoDup_app in Hnd as (? & _ & _).
Qed.

(** [free_list_add] puts the block in front of the list of its order. *)
Lemma free_list_add_repr s L a o l :
  repr s L -> L !! o = Some l -> a ∉ concat L -> 0 < a < 2 ^ 64 ->
  repr (free_list_add a o s) (<[o := a :: l]> L).
Proof.
  intros Hr Ho HaL Ha. destruct (repr_dll _ _ Hr _ _ Ho) as [Hd Hc].
  pose proof (repr_nodup_order _ _ _ _ Hr Ho) as Hnd.
  assert (Hal : a ∉ l).
  { intros Hal. apply HaL, elem_of_concat_lookup. eauto. }
  destruct (add_dll a o s l Hd Hnd Hal ltac:(lia)) as [Hd' Hm'].
  assert (Hnd' : NoDup (a :: l)) by by apply NoDup_cons.
  assert (Hlen : Z.of_nat (length (a :: l)) <= Z.max 0 (2 ^ 64 - 1)).
  { apply NoDup_range_length; [done|]. intros b Hb.
    assert (0 < b < 2 ^ 64); [|lia]. apply elem_of_cons in Hb as [->|Hb]; [done|].
    apply (repr_addr _ _ Hr), elem_of_concat_lookup. eauto. }
  unfold free_list_add in *. cbn [mem] in *.
  eapply repr_update; [done|done|right; exists a; auto|done|done| |].
  - rewrite Hc, u64_small; simpl in *; unfold is_u64; lia.
  - intros b Hb. apply Hm'. rewrite elem_of_cons. intros [->|Hbl].
    + apply HaL. rewrite (concat_lookup_perm _ _ _ Ho), elem_of_app. auto.
    + by eapply repr_rest.
Qed.

(** [free_list_remove] takes the block out of the list of its order, wherever it is. *)
Lemma free_list_remove_repr s L a o l1 l2 :
  repr s L -> L !! o = Some (l1 ++ a :: l2) ->
  repr (free_list_remove a o s) (<[o := l1 ++ l2]> L).
Proof.
  intros Hr Ho. destruct (repr_dll _ _ Hr _ _ Ho) as [Hd Hc].
  pose proof (repr_nodup_order _ _ _ _ Hr Ho) as Hnd.
  destruct (remove_dll a o s l1 l2 Hd Hnd) as (Hd' & Hm' & _).
  pose proof (repr_count _ _ _ _ Hr Ho) as Hlen.
  assert (Hhead : heads (free_list_remove a o s) =
    <[o := if prev (mem s a) =? 0 then next (mem s a) else heads s !!! o]> (heads s)).
  { unfold free_list_remove. simpl. destruct (prev (mem s a) =? 0); [done|].
    symmetry. apply list_insert_id, list_lookup_lookup_total_lt.
    rewrite (repr_heads _ _ Hr), <- (repr_lists _ _ Hr). by eapply lookup_lt_Some. }
  destruct (free_list_remove a o s) as [hs cs m] eqn:E. cbn [heads mem] in *. subst hs.
  assert (cs = <[o := (counts s !!! o) -64 1]> (counts s)) as ->.
  { unfold free_list_remove in E. congruence. }
  rewrite length_app in Hc, Hlen. simpl in Hc, Hlen.
  eapply repr_update; [done|done| | |done| |].
  - left. intros b. rewrite !elem_of_app, elem_of_cons. tauto.
  - apply NoDup_app in Hnd as (? & ? & [? ?]%NoDup_cons). apply NoDup_app.
    split_and!; [done| |done]. intros b Hb. specialize (H0 b Hb). rewrite elem_of_cons in H0. tauto.
  - rewrite Hc, length_app, u64_small; unfold is_u64; lia.
  - intros b Hb. apply Hm'. by eapply repr_rest.
Qed.

(** [free_list_pop] takes the first block, or fails on an empty list. *)
Lemma free_list_pop_repr s L o l :
  repr s L -> L !! o = Some l ->
  match l with
  | [] => free_list_pop o s = (PMM_ALLOC_FAIL, s)
  | a :: l' => exists s', free_list_pop o s = (a, s') /\ repr s' (<[o := l']> L)
  end.
Proof.
  intros Hr Ho. destruct (repr_dll _ _ Hr _ _ Ho) as [Hd Hc]. unfold free_list_pop.
  pose proof (repr_count _ _ _ _ Hr Ho) as Hlen.
  destruct l as [|a l]; [simpl in Hd; by rewrite Hd|].
  destruct Hd as (-> & Ha & Hp & Hd). rewrite (proj2 (Z.eqb_neq a 0)) by done.
  pose proof (repr_nodup_order _ _ _ _ Hr Ho) as [Hal Hnd]%NoDup_cons.
  eexists. split; [done|]. fold (relink (mem s) 0 (next (mem s a))).
  assert (Hfr : forall b, b ∉ a :: l ->
    set_prev (set_next (relink (mem s) 0 (next (mem s a))) a 0) a 0 b = mem s b).
  { intros b [Hba Hbl]%not_elem_of_cons. rewrite set_prev_ne, set_next_ne by done.
    unfold relink. destruct (Z.eqb_spec (next (mem s a)) 0) as [|Hn]; [done|].
    apply set_prev_ne. intros ->. apply Hbl. by eapply dll_head_in. }
  eapply repr_update; [done|done| |done| | |].
  - left. intros b. rewrite elem_of_cons. auto.
  - eapply dll_frame; [eapply dll_relink; done|]. intros b Hb.
    by rewrite set_prev_ne, set_next_ne by congruence.
  - rewrite Hc. simpl in *. rewrite u64_small; unfold is_u64; lia.
  - intros b Hb. apply Hfr. by eapply repr_rest.
Qed.

Definition empty_lists : freelists :=
  FreeLists (replicate (S MAX_ORDER) 0) (replicate (S MAX_ORDER) 0) (fun _ => FreeBlock 0 0).

Lemma repr_empty m : repr (FreeLists (replicate (S MAX_ORDER) 0) (replicate (S MAX_ORDER) 0) m)
  (replicate (S MAX_ORDER) []).
Proof.
  constructor; try done.
  - constructor.
  - intros a Ha. change (a ∈ []) in Ha. by apply not_elem_of_nil in Ha.
  - intros o l Hlo. apply lookup_replicate in Hlo as [-> Hlt]. cbn [mem heads counts].
    by rewrite lookup_total_replicate_2.
Qed.

(** C33. The intrusive lists refine one sequence of addresses per order: adding puts a
    block in front, removing takes it out from any position, popping returns the
    first block or the failure sentinel on an empty list; links, heads and counters
    stay consistent throughout. *)
Theorem free_lists_refine (s : freelists) (L : list (list Z)) (o : nat) (l : list Z) :
  repr s L -> L !! o = Some l ->
  (forall a, a ∉ concat L -> 0 < a < 2 ^ 64 -> repr (free_list_add a o s) (<[o := a :: l]> L)) /\
  (forall l1 a l2, l = l1 ++ a :: l2 -> repr (free_list_remove a o s) (<[o := l1 ++ l2]> L)) /\
  match l with
  | [] => free_list_pop o s = (PMM_ALLOC_FAIL, s)
  | a :: l' => exists s', free_list_pop o s = (a, s') /\ repr s' (<[o := l']> L)
  end.
Proof.
  intros Hr Hl. split_and!.
  - intros a Ha Hb. by apply free_list_add_repr.
  - intros l1 a l2 ->. by apply free_list_remove_repr.
  - by apply free_list_pop_repr.
Qed.

(** Witness of C33: a block of order 3 added to empty lists. *)
Lemma free_lists_refine_witness :
  repr (free_list_add 0x40008000 3 empty_lists) (<[3%nat := [0x40008000]]> (replicate (S MAX_ORDER) [])).
Proof.
  apply (free_lists_refine empty_lists (replicate (S MAX_ORDER) []) 3 []).
  - apply repr_empty.
  - reflexivity.
  - intros Ha. change (0x40008000 ∈ []) in Ha. apply not_elem_of_nil in Ha. destruct Ha.
  - lia.
Defined.

End FreeList.
