(* ===== verification/Buddy.v ===== *)
(** The buddy allocator of kernel/mm/pmm.c: block geometry, page states, splitting,
    coalescing, the public allocation and release calls, and initialisation.

    Every operation works on the record [pmm] of the file's static data and
    returns [None] where the C code would run into a failed [ASSERT] or an
    access outside [block_state], so a result of the form [Some _] is also a
    memory-safety statement. *)

From S2P Require Import Prelude Carve FreeList.

Open Scope Z_scope.
Open Scope slm_scope.

Module Buddy.
Import FreeList.

Definition PAGE_SIZE : Z := 4096.
Definition PAGE_SHIFT : Z := 12.

(** Page states. *)
Definition BLOCK_FREE : Z := 0.
Definition BLOCK_ALLOCATED : Z := 1.

(** [buddy_state] with [block_state], whose length is [MAX_BLOCKS]. *)
Record pmm := Pmm {
  lists : freelists;
  heap_start : Z;
  heap_end : Z;
  total_pages : Z;
  free_pages : Z;
  reserved_pages : Z;
  alloc_count : Z;
  free_count : Z;
  split_count : Z;
  merge_count : Z;
  initialized : bool;
  block_state : list Z
}.

Definition with_lists (l : freelists) (s : pmm) : pmm :=
  Pmm l (heap_start s) (heap_end s) (total_pages s) (free_pages s) (reserved_pages s)
    (alloc_count s) (free_count s) (split_count s) (merge_count s) (initialized s) (block_state s).
Definition with_block_state (b : list Z) (s : pmm) : pmm :=
  Pmm (lists s) (heap_start s) (heap_end s) (total_pages s) (free_pages s) (reserved_pages s)
    (alloc_count s) (free_count s) (split_count s) (merge_count s) (initialized s) b.
Definition with_free_pages (n : Z) (s : pmm) : pmm :=
  Pmm (lists s) (heap_start s) (heap_end s) (total_pages s) n (reserved_pages s)
    (alloc_count s) (free_count s) (split_count s) (merge_count s) (initialized s) (block_state s).
Definition bump_alloc (s : pmm) : pmm :=
  Pmm (lists s) (heap_start s) (heap_end s) (total_pages s) (free_pages s) (reserved_pages s)
    (alloc_count s +64 1) (free_count s) (split_count s) (merge_count s) (initialized s) (block_state s).
Definition bump_free (s : pmm) : pmm :=
  Pmm (lists s) (heap_start s) (heap_end s) (total_pages s) (free_pages s) (reserved_pages s)
    (alloc_count s) (free_count s +64 1) (split_count s) (merge_count s) (initialized s) (block_state s).
Definition bump_split (s : pmm) : pmm :=
  Pmm (lists s) (heap_start s) (heap_end s) (total_pages s) (free_pages s) (reserved_pages s)
    (alloc_count s) (free_count s) (split_count s +64 1) (merge_count s) (initialized s) (block_state s).
Definition bump_merge (s : pmm) : pmm :=
  Pmm (lists s) (heap_start s) (heap_end s) (total_pages s) (free_pages s) (reserved_pages s)
    (alloc_count s) (free_count s) (split_count s) (merge_count s +64 1) (initialized s) (block_state s).
Definition set_initialized (s : pmm) : pmm :=
  Pmm (lists s) (heap_start s) (heap_end s) (total_pages s) (free_pages s) (reserved_pages s)
    (alloc_count s) (free_count s) (split_count s) (merge_count s) true (block_state s).

(** ** Helper functions *)

(** The [while (val < n)] loop of [log2_ceil]; [None] is running out of fuel. *)
Fixpoint log2_ceil_loop (fuel : nat) (n val : Z) (order : nat) : option nat :=
  match fuel with
  | O => None
  | S fuel =>
      if val <? n then log2_ceil_loop fuel n (u64 (Z.shiftl val 1)) (S order)
      else Some order
  end.

Definition log2_ceil (fuel : nat) (n : Z) : option nat :=
  if n <=? 1 then Some O else log2_ceil_loop fuel n 1 O.

(** Enough iterations for every [n] on which the loop stops (see [log2_ceil_spec]). *)
Definition LOG2_FUEL : nat := 65.

Definition order_to_pages (order : nat) : Z := u64 (Z.shiftl 1 (Z.of_nat order)).
Definition order_to_size (order : nat) : Z := u64 (order_to_pages order * PAGE_SIZE).

(** [addr_to_block_index], with its [ASSERT(idx < MAX_BLOCKS)]. *)
Definition addr_to_block_index (addr : Z) (s : pmm) : option Z :=
  let idx := Z.shiftr (addr -64 heap_start s) PAGE_SHIFT in
  if idx <? Z.of_nat (length (block_state s)) then Some idx else None.

Definition get_buddy_addr (addr : Z) (order : nat) : Z := Z.lxor addr (order_to_size order).

Definition is_aligned_to_order (addr : Z) (order : nat) : bool :=
  Z.land addr (order_to_size order - 1) =? 0.

(** ** Block state tracking *)

(** [for (i = 0; i < count; i++) block_state[base + i] = state]. *)
Fixpoint set_range (n i : nat) (v : Z) (l : list Z) : option (list Z) :=
  match n with
  | O => Some l
  | S n => if (i <? length l)%nat then set_range n (S i) v (<[i := v]> l) else None
  end.

Definition set_block_state (addr : Z) (order : nat) (state : Z) (s : pmm) : option pmm :=
  base ← addr_to_block_index addr s;
  bs ← set_range (Z.to_nat (order_to_pages order)) (Z.to_nat base) state (block_state s);
  Some (with_block_state bs s).

Definition get_block_state (addr : Z) (s : pmm) : option Z :=
  idx ← addr_to_block_index addr s;
  block_state s !! Z.to_nat idx.

(** The loop of [is_buddy_free] over the pages from index [i]. *)
Fixpoint all_free (n i : nat) (l : list Z) : option bool :=
  match n with
  | O => Some true
  | S n =>
      st ← l !! i;
      if st =? BLOCK_FREE then all_free n (S i) l else Some false
  end.

Definition is_buddy_free (buddy_addr : Z) (order : nat) (s : pmm) : option bool :=
  if (buddy_addr <? heap_start s) || (heap_end s <=? buddy_addr) then Some false
  else
    base ← addr_to_block_index buddy_addr s;
    all_free (Z.to_nat (order_to_pages order)) (Z.to_nat base) (block_state s).

(** ** Core buddy functions *)

(** The splitting loop, [while (o > order)]: shared by [buddy_alloc] and
    [pmm_alloc_pages_low]. *)
Fixpoint split_down (order o : nat) (block : Z) (s : pmm) : option pmm :=
  match o with
  | O => Some s
  | S o' =>
      if (order <? o)%nat then
        let s := bump_split s in
        let buddy := block +64 order_to_size o' in
        s ← set_block_state buddy o' BLOCK_FREE s;
        split_down order o' block (with_lists (free_list_add buddy o' (lists s)) s)
      else Some s
  end.

(** Marking and counting the allocated block, common to both allocators. *)
Definition take_block (order : nat) (block : Z) (s : pmm) : option (Z * pmm) :=
  s ← set_block_state block order BLOCK_ALLOCATED s;
  Some (block, bump_alloc (with_free_pages (free_pages s -64 order_to_pages order) s)).

(** The [for (o = order; o <= MAX_ORDER; o++)] loop of [buddy_alloc]; [n] counts
    the orders left, [S MAX_ORDER - o]. *)
Fixpoint alloc_scan (n o order : nat) (s : pmm) : option (Z * pmm) :=
  match n with
  | O => Some (PMM_ALLOC_FAIL, s)
  | S n =>
      if 0 <? counts (lists s) !!! o then
        let '(block, l) := free_list_pop o (lists s) in
        s ← split_down order o block (with_lists l s);
        take_block order block s
      else alloc_scan n (S o) order s
  end.

Definition buddy_alloc (order : nat) (s : pmm) : option (Z * pmm) :=
  alloc_scan (S MAX_ORDER - order) order order s.

(** The coalescing loop of [buddy_free]; [n] is [MAX_ORDER - order]. *)
Fixpoint coalesce (n : nat) (addr : Z) (order : nat) (s : pmm) : option (Z * nat * pmm) :=
  match n with
  | O => Some (addr, order, s)
  | S n =>
      let buddy_addr := get_buddy_addr addr order in
      free ← is_buddy_free buddy_addr order s;
      if negb free then Some (addr, order, s)
      else
        let merged_addr := if addr <? buddy_addr then addr else buddy_addr in
        if negb (is_aligned_to_order merged_addr (S order)) then Some (addr, order, s)
        else
          let s := with_lists (free_list_remove buddy_addr order (lists s)) s in
          coalesce n merged_addr (S order) (bump_merge s)
  end.

Definition buddy_free (addr : Z) (order original_order : nat) (s : pmm) : option pmm :=
  '(addr, order, s) ← coalesce (MAX_ORDER - order) addr order s;
  s ← set_block_state addr order BLOCK_FREE s;
  let s := with_lists (free_list_add addr order (lists s)) s in
  Some (bump_free (with_free_pages (free_pages s +64 order_to_pages original_order) s)).

(** ** Public API *)

(** [pmm_alloc_pages]: 0 is NULL. *)
Definition pmm_alloc_pages (count : Z) (s : pmm) : option (Z * pmm) :=
  if negb (initialized s) then Some (0, s)
  else if count =? 0 then Some (0, s)
  else
    order ← log2_ceil LOG2_FUEL count;
    if (MAX_ORDER <? order)%nat then Some (0, s)
    else
      '(addr, s) ← buddy_alloc order s;
      if addr =? PMM_ALLOC_FAIL then Some (0, s) else Some (addr, s).

Definition pmm_alloc_page (s : pmm) : option (Z * pmm) := pmm_alloc_pages 1 s.

(** The walk of one free list by [pmm_alloc_pages_low], on
    [(best_addr, best_order, found)]. *)
Fixpoint low_walk (fuel : nat) (m : Z -> free_block) (blk : Z) (o : nat)
    (best : Z * nat * bool) : option (Z * nat * bool) :=
  match fuel with
  | O => None
  | S fuel =>
      if blk =? 0 then Some best
      else
        let '(best_addr, best_order, found) := best in
        let best := if negb found || (blk <? best_addr) then (blk, o, true) else best in
        low_walk fuel m (next (m blk)) o best
  end.

(** The loop over the orders from [o]; each list is walked with the fuel its
    counter gives. *)
Fixpoint low_scan (n o : nat) (l : freelists) (best : Z * nat * bool)
  : option (Z * nat * bool) :=
  match n with
  | O => Some best
  | S n =>
      best ← low_walk (S (Z.to_nat (counts l !!! o))) (mem l) (heads l !!! o) o best;
      low_scan n (S o) l best
  end.

Definition pmm_alloc_pages_low (count : Z) (s : pmm) : option (Z * pmm) :=
  if negb (initialized s) then Some (0, s)
  else if count =? 0 then Some (0, s)
  else
    order ← log2_ceil LOG2_FUEL count;
    if (MAX_ORDER <? order)%nat then Some (0, s)
    else
      '(best_addr, best_order, found) ←
        low_scan (S MAX_ORDER - order) order (lists s) (2 ^ 64 - 1, O, false);
      if negb found then Some (0, s)
      else
        let s := with_lists (free_list_remove best_addr best_order (lists s)) s in
        s ← split_down order best_order best_addr s;
        take_block order best_addr s.

(** [pmm_free_pages]: every rejected call leaves the state as it was. *)
Definition pmm_free_pages (page count : Z) (s : pmm) : option pmm :=
  if negb (initialized s) then Some s
  else if (count =? 0) || (page =? 0) then Some s
  else if (page <? heap_start s) || (heap_end s <=? page) then Some s
  else if negb (Z.land page (PAGE_SIZE - 1) =? 0) then Some s
  else
    order ← log2_ceil LOG2_FUEL count;
    if (MAX_ORDER <? order)%nat then Some s
    else if negb (is_aligned_to_order page order) then Some s
    else
      st ← get_block_state page s;
      if st =? BLOCK_FREE then Some s else buddy_free page order order s.

Definition pmm_free_page (page : Z) (s : pmm) : option pmm := pmm_free_pages page 1 s.

(** ** Initialisation *)

(** The inner loop of [pmm_add_region]: the largest order that fits at [current]. *)
Fixpoint fit_order (order : nat) (current end_ : Z) : nat :=
  match order with
  | O => O
  | S order' =>
      if ((current +64 order_to_size order) <=? end_) && is_aligned_to_order current order
      then order else fit_order order' current end_
  end.

Fixpoint add_region_loop (fuel : nat) (current end_ : Z) (s : pmm) : option pmm :=
  match fuel with
  | O => None
  | S fuel =>
      if current <? end_ then
        let order := fit_order MAX_ORDER current end_ in
        s ← set_block_state current order BLOCK_FREE s;
        let s := with_lists (free_list_add current order (lists s)) s in
        let s := with_free_pages (free_pages s +64 order_to_pages order) s in
        add_region_loop fuel (current +64 order_to_size order) end_ s
      else Some s
  end.

Definition PAGE_ALIGN_UP (addr : Z) : Z := Z.ldiff (addr +64 (PAGE_SIZE - 1)) (PAGE_SIZE - 1).

(** Each iteration advances by a page at least. *)
Definition pmm_add_region (start end_ : Z) (s : pmm) : option pmm :=
  add_region_loop (Z.to_nat ((end_ - start) / PAGE_SIZE + 2)) (PAGE_ALIGN_UP start) end_ s.

End Buddy.
