(* ===== verification/BuddyInv.v ===== *)
(** Block geometry and the invariant of the buddy allocator.

    A block of order [o] is the half-open byte range of [bsize o] bytes from an
    address aligned to [bsize o].  [binv s L H] says the state [s] keeps the
    family of lists [L] of disjoint free blocks, that outside the range [H]
    taken off the lists by the running operation they cover exactly the pages
    marked free, and that no block is listed together with its buddy. *)

From S2P Require Import Prelude FreeList Buddy.

Open Scope Z_scope.
Open Scope slm_scope.

Module BuddyInv.
Import FreeList Buddy.

Definition bsize (o : nat) : Z := 2 ^ (12 + Z.of_nat o).

Definition in_block (a : Z) (o : nat) (x : Z) : Prop := a <= x < a + bsize o.

(** [a] is aligned for order [o]. *)
Definition aligned (o : nat) (a : Z) : Prop := (bsize o | a).

(** The byte at [x] lies in a page marked FREE. *)
Definition is_free (s : pmm) (x : Z) : Prop :=
  heap_start s <= x /\
  block_state s !! Z.to_nat ((x - heap_start s) / PAGE_SIZE) = Some BLOCK_FREE.

Definition listed (L : list (list Z)) (o : nat) (a : Z) : Prop :=
  exists l, L !! o = Some l /\ a ∈ l.

Definition covered (L : list (list Z)) (x : Z) : Prop :=
  exists o a, listed L o a /\ in_block a o x.

Definition count_free (l : list Z) : Z := Z.of_nat (length (filter (fun v => v = BLOCK_FREE) l)).

(** The heap lies in the address space and [block_state] has an entry for each
    of its pages and at least one more; pages beyond the heap are never free. *)
Record geom (s : pmm) : Prop := {
  g_pos : 0 < heap_start s;
  g_start : (PAGE_SIZE | heap_start s);
  g_end : (PAGE_SIZE | heap_end s);
  g_le : heap_start s <= heap_end s;
  g_top : heap_end s <= 2 ^ 63;
  g_blocks : (heap_end s - heap_start s) / PAGE_SIZE < Z.of_nat (length (block_state s));
  g_small : Z.of_nat (length (block_state s)) <= 2 ^ 52;
  g_beyond : forall x, heap_end s <= x -> ~ is_free s x
}.

Record binv (s : pmm) (L : list (list Z)) (H : Z -> Prop) : Prop := {
  b_geom : geom s;
  b_repr : repr (lists s) L;
  b_block : forall o a, listed L o a ->
    aligned o a /\ heap_start s <= a /\ a + bsize o <= heap_end s;
  b_disj : forall o a o' a' x, listed L o a -> listed L o' a' ->
    in_block a o x -> in_block a' o' x -> o = o' /\ a = a';
  b_hole : forall o a x, listed L o a -> in_block a o x -> ~ H x;
  b_cover : forall x, ~ H x -> is_free s x <-> covered L x;
  b_pair : forall o a, (o < MAX_ORDER)%nat -> listed L o a ->
    ~ listed L o (Z.lxor a (bsize o))
}.

Definition no_hole : Z -> Prop := fun _ => False.

(** The allocator invariant between operations. *)
Definition inv (s : pmm) : Prop :=
  initialized s = true /\ (exists L, binv s L no_hole) /\
  free_pages s = count_free (block_state s).

(** ** Geometry *)

Lemma bsize_pos o : 0 < bsize o.
Proof. apply Z.pow_pos_nonneg; lia. Qed.

Lemma bsize_S o : bsize (S o) = 2 * bsize o.
Proof. unfold bsize. rewrite <- Z.pow_succ_r by lia. f_equal. lia. Qed.

Lemma bsize_0 : bsize 0 = PAGE_SIZE.
Proof. reflexivity. Qed.

Lemma bsize_add o k : bsize (o + k) = bsize o * 2 ^ Z.of_nat k.
Proof. unfold bsize. rewrite <- Z.pow_add_r by lia. f_equal. lia. Qed.

Lemma bsize_pages o : bsize o = 2 ^ Z.of_nat o * PAGE_SIZE.
Proof. rewrite <- bsize_0. replace o with (0 + o)%nat at 1 by lia. rewrite bsize_add. lia. Qed.

Lemma bsize_le o o' : (o <= o')%nat -> bsize o <= bsize o'.
Proof. intros. apply Z.pow_le_mono_r; lia. Qed.

Lemma bsize_max o : (o <= S MAX_ORDER)%nat -> bsize o <= 2 ^ 32.
Proof. intros. apply Z.pow_le_mono_r; unfold MAX_ORDER in *; lia. Qed.

Lemma order_to_pages_eq o : (o <= S MAX_ORDER)%nat -> order_to_pages o = 2 ^ Z.of_nat o.
Proof.
  intros Ho. unfold order_to_pages. rewrite Z.shiftl_1_l. apply u64_small. split; [lia|].
  apply Z.pow_lt_mono_r; unfold MAX_ORDER in *; lia.
Qed.

Lemma order_to_size_eq o : (o <= S MAX_ORDER)%nat -> order_to_size o = bsize o.
Proof.
  intros Ho. unfold order_to_size. rewrite order_to_pages_eq, <- bsize_pages by done.
  apply u64_small. pose proof (bsize_pos o). pose proof (bsize_max o Ho). unfold is_u64. lia.
Qed.

Lemma is_aligned_to_order_spec a o :
  (o <= S MAX_ORDER)%nat -> is_aligned_to_order a o = true <-> aligned o a.
Proof.
  intros Ho. unfold is_aligned_to_order, aligned. rewrite order_to_size_eq by done.
  replace (bsize o - 1) with (Z.ones (12 + Z.of_nat o)) by (rewrite Z.ones_equiv; unfold bsize; lia).
  rewrite Z.land_ones, Z.eqb_eq by lia. fold (bsize o). pose proof (bsize_pos o).
  apply Z.mod_divide. lia.
Qed.

Lemma aligned_le o o' a : (o <= o')%nat -> aligned o' a -> aligned o a.
Proof.
  intros Ho Ha. eapply Z.divide_trans; [|exact Ha]. replace o' with (o + (o' - o))%nat by lia.
  rewrite bsize_add. apply Z.divide_factor_l.
Qed.

(** Blocks are nested or disjoint. *)
Lemma dyadic a o a' o' x :
  (o <= o')%nat -> aligned o a -> aligned o' a' -> in_block a o x -> in_block a' o' x ->
  a' <= a /\ a + bsize o <= a' + bsize o'.
Proof.
  intros Ho [q ->] Ha' Hx Hx'. pose proof (aligned_le _ _ _ Ho Ha') as [q' ->].
  unfold in_block in *. pose proof (bsize_pos o) as Hp.
  replace o' with (o + (o' - o))%nat in * by lia. rewrite bsize_add in *.
  set (m := 2 ^ Z.of_nat (o' - o)) in *. split.
  - assert (q' < q + 1) by nia. nia.
  - assert (q < q' + m) by nia. nia.
Qed.

Lemma dyadic_eq a a' o x :
  aligned o a -> aligned o a' -> in_block a o x -> in_block a' o x -> a = a'.
Proof. intros Ha Ha' Hx Hx'. pose proof (dyadic a o a' o x ltac:(lia) Ha Ha' Hx Hx'). lia. Qed.

(** The buddy is the other half of the block of the next order. *)
Lemma buddy_spec o a :
  aligned o a ->
  aligned (S o) a /\ Z.lxor a (bsize o) = a + bsize o \/
  aligned (S o) (a - bsize o) /\ Z.lxor a (bsize o) = a - bsize o.
Proof.
  intros [q ->]. pose proof (bsize_pos o) as Hp.
  assert (Hx : Z.lxor (q * bsize o) (bsize o) = Z.lxor q 1 * bsize o).
  { unfold bsize. rewrite <- !Z.shiftl_mul_pow2 by lia.
    rewrite Z.shiftl_lxor, Z.shiftl_1_l. done. }
  rewrite Hx. destruct (Z.Even_or_Odd q) as [[m ->]|[m ->]].
  - left. split; [exists m; rewrite bsize_S; lia|].
    replace (Z.lxor (2 * m) 1) with (2 * m + 1); [lia|].
    destruct m as [|[]|[]]; reflexivity.
  - right. split; [exists m; rewrite bsize_S; lia|].
    replace (Z.lxor (2 * m + 1) 1) with (2 * m); [lia|].
    replace (2 * m + 1) with (Z.lxor (2 * m) 1) by (destruct m as [|[]|[]]; reflexivity).
    by rewrite Z.lxor_assoc, Z.lxor_nilpotent, Z.lxor_0_r.
Qed.

Lemma buddy_aligned o a : aligned o a -> aligned o (Z.lxor a (bsize o)).
Proof.
  intros Ha. destruct (buddy_spec o a Ha) as [[_ ->]|[_ ->]].
  - apply Z.divide_add_r; [done|apply Z.divide_refl].
  - apply Z.divide_sub_r; [done|apply Z.divide_refl].
Qed.

Lemma buddy_lower o a : aligned (S o) a -> Z.lxor a (bsize o) = a + bsize o.
Proof.
  intros Ha. pose proof (bsize_pos o).
  destruct (buddy_spec o a) as [[_ ->]|[Hm _]]; [eapply aligned_le; [|done]; lia|done|].
  assert (Hd : (bsize (S o) | bsize o)).
  { replace (bsize o) with (a - (a - bsize o)) by lia. by apply Z.divide_sub_r. }
  apply Z.divide_pos_le in Hd; rewrite ?bsize_S in *; lia.
Qed.

Lemma buddy_involutive o a : Z.lxor (Z.lxor a (bsize o)) (bsize o) = a.
Proof. by rewrite Z.lxor_assoc, Z.lxor_nilpotent, Z.lxor_0_r. Qed.

(** ** Page states *)

Lemma page_index s x :
  heap_start s <= x -> Z.of_nat (Z.to_nat ((x - heap_start s) / PAGE_SIZE)) = (x - heap_start s) / PAGE_SIZE.
Proof. intros. rewrite Z2Nat.id; [done|]. apply Z.div_pos; unfold PAGE_SIZE; lia. Qed.

Lemma set_range_eq n i v l :
  (i + n <= length l)%nat -> set_range n i v l = Some (take i l ++ replicate n v ++ drop (i + n) l).
Proof.
  revert i l. induction n as [|n IH]; intros i l Hl; simpl.
  - by rewrite Nat.add_0_r, take_drop.
  - rewrite (proj2 (Nat.ltb_lt _ _)) by lia. rewrite IH by (rewrite length_insert; lia).
    f_equal. rewrite (take_S_r _ _ v) by (apply list_lookup_insert_eq; lia).
    rewrite take_insert_ge, drop_insert_lt by lia. rewrite <- (assoc (++)). simpl.
    do 4 f_equal. lia.
Qed.

Lemma range_lookup n i j (v : Z) l :
  (i + n <= length l)%nat ->
  (take i l ++ replicate n v ++ drop (i + n) l) !! j =
  if decide (i <= j < i + n)%nat then Some v else l !! j.
Proof.
  intros Hl. assert (Ht : length (take i l) = i) by (rewrite length_take; lia).
  destruct (decide (j < i)%nat) as [Hj|Hj].
  - rewrite lookup_app_l by lia. rewrite decide_False by lia. by rewrite lookup_take_lt.
  - rewrite lookup_app_r, Ht by lia. destruct (decide (j < i + n)%nat) as [Hj'|Hj'].
    + rewrite decide_True by lia. rewrite lookup_app_l by (rewrite length_replicate; lia).
      apply lookup_replicate. split; [done|lia].
    + rewrite decide_False by lia. rewrite lookup_app_r by (rewrite length_replicate; lia).
      rewrite length_replicate, lookup_drop. f_equal. lia.
Qed.

Lemma count_free_app l1 l2 : count_free (l1 ++ l2) = count_free l1 + count_free l2.
Proof. unfold count_free. rewrite filter_app, length_app. lia. Qed.

Lemma count_free_nonneg l : 0 <= count_free l <= Z.of_nat (length l).
Proof. unfold count_free. pose proof (length_filter (fun v => v = BLOCK_FREE) l). lia. Qed.

Lemma count_free_replicate n v :
  count_free (replicate n v) = if decide (v = BLOCK_FREE) then Z.of_nat n else 0.
Proof.
  unfold count_free. induction n as [|n IH]; simpl; [by destruct (decide _)|].
  rewrite filter_cons. destruct (decide _); simpl; lia.
Qed.

(** Free pages among the [n] pages from index [i]. *)
Definition count_range (i n : nat) (l : list Z) : Z := count_free (take n (drop i l)).

Lemma count_range_split i n l :
  count_free l = count_free (take i l) + count_range i n l + count_free (drop (i + n) l).
Proof.
  unfold count_range. rewrite <- (take_drop i l) at 1. rewrite count_free_app.
  rewrite <- (take_drop n (drop i l)) at 1. rewrite count_free_app, drop_drop. lia.
Qed.

Lemma count_range_add i n m l :
  count_range i (n + m) l = count_range i n l + count_range (i + n) m l.
Proof.
  unfold count_range. rewrite <- count_free_app. f_equal.
  rewrite <- drop_drop. rewrite <- (take_drop n (take (n + m) (drop i l))).
  rewrite take_take, Nat.min_l by lia. f_equal. rewrite skipn_firstn_comm. f_equal. lia.
Qed.

Lemma count_range_all i n v l :
  (forall j, (i <= j < i + n)%nat -> exists w, l !! j = Some w /\ (w = BLOCK_FREE <-> v = BLOCK_FREE)) ->
  count_range i n l = if decide (v = BLOCK_FREE) then Z.of_nat n else 0.
Proof.
  unfold count_range. revert i. induction n as [|n IH]; intros i Hl; [by destruct (decide _)|].
  destruct (Hl i ltac:(lia)) as (w & Hw & Hwv). rewrite (drop_S _ _ _ Hw).
  simpl. unfold count_free in *. rewrite filter_cons. simpl.
  assert (IH' := IH (S i) ltac:(intros j Hj; apply Hl; lia)).
  destruct (decide (w = BLOCK_FREE)), (decide (v = BLOCK_FREE)); simpl; try lia; tauto.
Qed.

(** The effect of marking a range on the number of free pages. *)
Lemma count_free_range i n v l :
  (i + n <= length l)%nat ->
  count_free (take i l ++ replicate n v ++ drop (i + n) l) =
  count_free l - count_range i n l + (if decide (v = BLOCK_FREE) then Z.of_nat n else 0).
Proof.
  intros Hl. rewrite !count_free_app, count_free_replicate.
  pose proof (count_range_split i n l). lia.
Qed.

(** *** Blocks as ranges of page indices *)

Definition page_of (s : pmm) (x : Z) : nat := Z.to_nat ((x - heap_start s) / PAGE_SIZE).
Definition npages (o : nat) : nat := Z.to_nat (2 ^ Z.of_nat o).

Lemma npages_Z o : Z.of_nat (npages o) = 2 ^ Z.of_nat o.
Proof. unfold npages. rewrite Z2Nat.id; [done|]. apply Z.pow_nonneg. lia. Qed.

Lemma npages_S o : npages (S o) = (npages o + npages o)%nat.
Proof.
  apply Nat2Z.inj. rewrite Nat2Z.inj_add, !npages_Z.
  rewrite Nat2Z.inj_succ, Z.pow_succ_r by lia. lia.
Qed.

Lemma page_of_addr s j : page_of s (heap_start s + PAGE_SIZE * Z.of_nat j) = j.
Proof.
  unfold page_of. replace (heap_start s + PAGE_SIZE * Z.of_nat j - heap_start s)
    with (Z.of_nat j * PAGE_SIZE) by lia.
  rewrite Z.div_mul by (unfold PAGE_SIZE; lia). lia.
Qed.

Section pages.
Context (s : pmm) (Hg : geom s).

Lemma page_of_Z x : heap_start s <= x -> Z.of_nat (page_of s x) = (x - heap_start s) / PAGE_SIZE.
Proof. apply page_index. Qed.

Lemma page_of_aligned o a :
  aligned o a -> heap_start s <= a -> a = heap_start s + PAGE_SIZE * Z.of_nat (page_of s a).
Proof.
  intros Ha%(aligned_le 0 o); [|lia]. intros Hle. rewrite page_of_Z by done.
  assert (Hd : (PAGE_SIZE | a - heap_start s)).
  { apply Z.divide_sub_r; [done|]. apply (g_start _ Hg). }
  destruct Hd as [q Hq]. rewrite Hq, Z.div_mul by (unfold PAGE_SIZE; lia). lia.
Qed.

Lemma in_block_page o a x :
  aligned o a -> heap_start s <= a -> heap_start s <= x ->
  in_block a o x <-> (page_of s a <= page_of s x < page_of s a + npages o)%nat.
Proof.
  intros Ha Hle Hx. pose proof (page_of_aligned o a Ha Hle) as Ea.
  pose proof (page_of_Z x Hx) as Ex. pose proof (npages_Z o) as En.
  unfold in_block. rewrite bsize_pages, <- En. unfold PAGE_SIZE in *.
  pose proof (Z.div_mod (x - heap_start s) 4096 ltac:(lia)).
  pose proof (Z.mod_pos_bound (x - heap_start s) 4096 ltac:(lia)). lia.
Qed.

Lemma page_bound o a :
  aligned o a -> heap_start s <= a -> a + bsize o <= heap_end s ->
  (page_of s a + npages o < length (block_state s))%nat.
Proof.
  intros Ha Hle He. pose proof (page_of_aligned o a Ha Hle) as Ea.
  pose proof (g_blocks _ Hg) as Hb. rewrite bsize_pages, <- npages_Z in He.
  assert (Z.of_nat (page_of s a + npages o) <= (heap_end s - heap_start s) / PAGE_SIZE); [|lia].
  unfold PAGE_SIZE in *. apply Z.div_le_lower_bound; lia.
Qed.

Lemma addr_to_block_index_eq x :
  heap_start s <= x < heap_end s -> addr_to_block_index x s = Some (Z.of_nat (page_of s x)).
Proof.
  intros Hx. pose proof (g_top _ Hg). pose proof (g_pos _ Hg). pose proof (g_blocks _ Hg).
  unfold addr_to_block_index. rewrite u64_small by (unfold is_u64; lia).
  rewrite Z.shiftr_div_pow2 by (unfold PAGE_SHIFT; lia).
  change (2 ^ PAGE_SHIFT) with PAGE_SIZE. rewrite page_of_Z by lia.
  rewrite (proj2 (Z.ltb_lt _ _)); [done|].
  eapply Z.le_lt_trans; [|done]. apply Z.div_le_mono; unfold PAGE_SIZE; lia.
Qed.

Lemma is_free_page x : heap_start s <= x -> is_free s x <-> block_state s !! page_of s x = Some BLOCK_FREE.
Proof. intros Hx. unfold is_free, page_of. tauto. Qed.

Lemma is_free_bound x : is_free s x -> heap_start s <= x < heap_end s.
Proof.
  intros Hf. split; [apply Hf|]. destruct (decide (x < heap_end s)) as [|Hx]; [done|].
  destruct (g_beyond _ Hg x ltac:(lia) Hf).
Qed.

(** Marking the pages of a block. *)
Lemma set_block_state_spec a o v :
  (o <= MAX_ORDER)%nat -> aligned o a -> heap_start s <= a -> a + bsize o <= heap_end s ->
  exists bs, set_block_state a o v s = Some (with_block_state bs s) /\
    length bs = length (block_state s) /\
    (forall x, is_free (with_block_state bs s) x <->
       in_block a o x /\ v = BLOCK_FREE \/ ~ in_block a o x /\ is_free s x) /\
    count_free bs = count_free (block_state s) - count_range (page_of s a) (npages o) (block_state s)
      + (if decide (v = BLOCK_FREE) then 2 ^ Z.of_nat o else 0).
Proof.
  intros Ho Ha Hle He. pose proof (bsize_pos o) as Hp.
  pose proof (page_bound o a Ha Hle He) as Hb.
  unfold set_block_state. rewrite addr_to_block_index_eq by lia. simpl.
  rewrite order_to_pages_eq by lia. fold (npages o). rewrite Nat2Z.id, set_range_eq by lia. simpl.
  eexists. split; [done|]. split_and!.
  - rewrite !length_app, length_take, length_replicate, length_drop. lia.
  - intros x. unfold is_free at 1. simpl. fold (page_of s x).
    destruct (decide (heap_start s <= x)) as [Hx|Hx].
    2:{ split; [tauto|]. intros [[Hi _]|[_ Hf]]; [unfold in_block in Hi; lia|destruct Hf; lia]. }
    rewrite range_lookup by lia. pose proof (in_block_page o a x Ha Hle Hx) as Hi.
    rewrite is_free_page by done. destruct (decide _) as [Hd|Hd].
    + rewrite (inj_iff Some). tauto.
    + tauto.
  - rewrite count_free_range by lia. rewrite <- npages_Z. done.
Qed.

End pages.

(** The scan stops before it runs past the array when a page that is not free,
    here number [K], comes first. *)
Lemma all_free_spec n i K l :
  (i <= K < length l)%nat -> l !! K <> Some BLOCK_FREE ->
  exists r, all_free n i l = Some r /\
    (r = true <-> forall j, (i <= j < i + n)%nat -> l !! j = Some BLOCK_FREE).
Proof.
  intros HK Hf. revert i HK. induction n as [|n IH]; intros i HK; simpl.
  - exists true. split; [done|]. split; [|done]. lia.
  - destruct (lookup_lt_is_Some_2 l i ltac:(lia)) as [w Hw]. rewrite Hw. simpl.
    destruct (Z.eqb_spec w BLOCK_FREE) as [->|Hne].
    + assert (i <> K) by congruence. destruct (IH (S i) ltac:(lia)) as (r & -> & Hr).
      exists r. split; [done|]. rewrite Hr. split; intros Hall j Hj; [|apply Hall; lia].
      destruct (decide (j = i)) as [->|]; [done|]. apply Hall. lia.
    + exists false. split; [done|]. split; [done|]. intros Hall.
      specialize (Hall i ltac:(lia)). congruence.
Qed.

Lemma block_free_pages s a o :
  geom s -> aligned o a -> heap_start s <= a ->
  (forall x, in_block a o x -> is_free s x) <->
  (forall j, (page_of s a <= j < page_of s a + npages o)%nat -> block_state s !! j = Some BLOCK_FREE).
Proof.
  intros Hg Ha Hle. split; intros Hall.
  - intros j Hj. set (x := heap_start s + PAGE_SIZE * Z.of_nat j).
    assert (Hx : heap_start s <= x) by (unfold x, PAGE_SIZE; lia).
    pose proof (page_of_addr s j) as Hpx. fold x in Hpx.
    rewrite <- Hpx. apply is_free_page; [done|]. apply Hall.
    apply (in_block_page s Hg o a x Ha Hle Hx). rewrite Hpx. done.
  - intros x Hx. assert (Hle' : heap_start s <= x) by (unfold in_block in Hx; lia).
    apply is_free_page; [done|]. apply Hall.
    by apply (in_block_page s Hg o a x Ha Hle Hle').
Qed.

Lemma is_buddy_free_spec s b o :
  geom s -> (o <= MAX_ORDER)%nat -> aligned o b ->
  exists r, is_buddy_free b o s = Some r /\
    (r = true <-> forall x, in_block b o x -> is_free s x).
Proof.
  intros Hg Ho Hb. unfold is_buddy_free. pose proof (bsize_pos o) as Hp.
  assert (Hbb : in_block b o b) by (unfold in_block; lia).
  destruct (Z.ltb_spec b (heap_start s)) as [Hlt|Hge]; simpl.
  { exists false. split; [done|]. split; [done|]. intros Hall.
    destruct (Hall b Hbb). lia. }
  destruct (Z.leb_spec (heap_end s) b) as [Hle|Hlt].
  { exists false. split; [done|]. split; [done|]. intros Hall.
    destruct (g_beyond _ Hg b Hle). auto. }
  rewrite addr_to_block_index_eq by (done || lia). simpl.
  rewrite order_to_pages_eq by lia. fold (npages o). rewrite Nat2Z.id.
  pose proof (g_le _ Hg) as Hhe. pose proof (g_blocks _ Hg) as Hbl.
  rewrite <- page_of_Z in Hbl by done.
  destruct (all_free_spec (npages o) (page_of s b) (page_of s (heap_end s)) (block_state s))
    as (r & -> & Hr).
  - split; [|lia]. apply Z2Nat.inj_le; unfold PAGE_SIZE.
    + apply Z.div_pos; lia.
    + apply Z.div_pos; lia.
    + apply Z.div_le_mono; lia.
  - rewrite <- is_free_page by done. apply (g_beyond _ Hg). lia.
  - exists r. split; [done|]. rewrite Hr. symmetry. by apply block_free_pages.
Qed.

End BuddyInv.
