(* ===== verification/BuddyStep.v ===== *)
(** How the steps of the buddy allocator act on its invariant: taking a block off
    its list enlarges the hole [H] of [binv], putting one back shrinks it, and
    splitting and coalescing are sequences of such steps. *)

From S2P Require Import Prelude FreeList Buddy BuddyInv.

Open Scope Z_scope.
Open Scope slm_scope.

Module BuddyStep.
Import FreeList Buddy BuddyInv.

(** [binv] reads the lists, the page states and the heap bounds only. *)
Lemma binv_proj s s' L (H H' : Z -> Prop) :
  binv s L H -> (forall x, H x <-> H' x) -> lists s' = lists s -> block_state s' = block_state s ->
  heap_start s' = heap_start s -> heap_end s' = heap_end s -> binv s' L H'.
Proof.
  intros [Hg Hr Hb Hd Hh Hc Hp] HH E1 E2 E3 E4.
  assert (Hf : forall x, is_free s' x <-> is_free s x) by (intros x; unfold is_free; by rewrite E2, E3).
  constructor; rewrite ?E1, ?E3, ?E4; auto.
  - destruct Hg. constructor; rewrite ?E2, ?E3, ?E4; auto. intros x Hx. rewrite Hf. auto.
  - intros o a x Hl Hx. rewrite <- HH. eauto.
  - intros x Hx. rewrite Hf. apply Hc. by rewrite HH.
Qed.

Lemma binv_ext s L (H H' : Z -> Prop) :
  binv s L H -> (forall x, H x <-> H' x) -> binv s L H'.
Proof. intros Hb HH. by eapply binv_proj. Qed.

Lemma geom_free s bs :
  geom s -> length bs = length (block_state s) ->
  (forall x, heap_end s <= x -> ~ is_free (with_block_state bs s) x) ->
  geom (with_block_state bs s).
Proof. intros [] E Hf. constructor; simpl; rewrite ?E; done. Qed.

Lemma listed_remove L o l1 l2 a o' b :
  NoDup (concat L) -> L !! o = Some (l1 ++ a :: l2) ->
  listed (<[o := l1 ++ l2]> L) o' b <-> listed L o' b /\ (o', b) <> (o, a).
Proof.
  intros Hnd Ho. pose proof (lookup_lt_Some _ _ _ Ho) as Hlt.
  rewrite (concat_lookup_perm _ _ _ Ho) in Hnd. apply NoDup_app in Hnd as (Hnd & _ & _).
  apply NoDup_app in Hnd as (_ & Hdis & [Ha2 _]%NoDup_cons).
  assert (Ha1 : a ∉ l1) by (intros Ha; apply (Hdis a Ha), elem_of_cons; auto).
  unfold listed. destruct (decide (o' = o)) as [->|Hne].
  - rewrite list_lookup_insert_eq by done. rewrite Ho. split.
    + intros (l & [= <-] & Hb). split.
      * exists (l1 ++ a :: l2). split; [done|]. rewrite elem_of_app, elem_of_cons in *. tauto.
      * intros [= ->]. rewrite elem_of_app in Hb. tauto.
    + intros ((l & [= <-] & Hb) & Hba). exists (l1 ++ l2). split; [done|].
      rewrite elem_of_app, elem_of_cons in *. destruct Hb as [|[->|]]; tauto.
  - rewrite list_lookup_insert_ne by congruence. split; [|tauto]. intros Hl. split; [done|]. congruence.
Qed.

Lemma listed_add L o l a o' b :
  L !! o = Some l ->
  listed (<[o := a :: l]> L) o' b <-> listed L o' b \/ (o', b) = (o, a).
Proof.
  intros Ho. pose proof (lookup_lt_Some _ _ _ Ho) as Hlt. unfold listed.
  destruct (decide (o' = o)) as [->|Hne].
  - rewrite list_lookup_insert_eq by done. rewrite Ho. split.
    + intros (l0 & [= <-] & [->|Hb]%elem_of_cons); [by right|]. left. eauto.
    + intros [(l0 & [= <-] & Hb)|[= ->]]; eexists; (split; [done|]); apply elem_of_cons; auto.
  - rewrite list_lookup_insert_ne by congruence. split; [by left|]. intros [?|?]; [done|congruence].
Qed.

Lemma listed_order s L o a : repr s L -> listed L o a -> (o <= MAX_ORDER)%nat.
Proof.
  intros Hr (l & Ho & _). apply lookup_lt_Some in Ho. rewrite (repr_lists _ _ Hr) in Ho. lia.
Qed.

Lemma listed_concat L o a : listed L o a -> a ∈ concat L.
Proof. intros (l & Ho & Ha). apply elem_of_concat_lookup. eauto. Qed.

Lemma concat_listed L a : a ∈ concat L -> exists o, listed L o a.
Proof. intros (o & l & Ho & Ha)%elem_of_concat_lookup. exists o, l. done. Qed.

(** A block without free pages can be taken as the hole. *)
Lemma binv_open s L a o :
  binv s L no_hole -> (forall x, in_block a o x -> ~ is_free s x) -> binv s L (in_block a o).
Proof.
  intros [? ? ? ? ? Hc ?] Hnf. constructor; auto.
  intros o' b x Hl Hx Hin. apply (Hnf x Hin). apply Hc; [by intros []|]. by exists o', b.
Qed.

(** Taking a block off its list. *)
Lemma binv_remove s L H fl o l1 l2 a :
  binv s L H -> L !! o = Some (l1 ++ a :: l2) -> repr fl (<[o := l1 ++ l2]> L) ->
  binv (with_lists fl s) (<[o := l1 ++ l2]> L) (fun x => H x \/ in_block a o x).
Proof.
  intros [Hg Hr Hb Hd Hh Hc Hp] Ho Hr'.
  pose proof (listed_remove L o l1 l2 a) as Hl.
  specialize (fun o' b => Hl o' b (repr_nodup _ _ Hr) Ho).
  assert (Ha : listed L o a).
  { exists (l1 ++ a :: l2). split; [done|]. rewrite elem_of_app, elem_of_cons. auto. }
  constructor; simpl; auto.
  - destruct Hg. by constructor.
  - intros o' b [Hb' _]%Hl. auto.
  - intros o1 b1 o2 b2 x [H1 _]%Hl [H2 _]%Hl. eauto.
  - intros o' b x [Hb' Hne]%Hl Hx [HH|Hx']; [eapply Hh; eauto|].
    apply Hne. destruct (Hd o' b o a x Hb' Ha Hx Hx') as [-> ->]. done.
  - intros x HH. change (is_free s x <-> covered (<[o := l1 ++ l2]> L) x). rewrite Hc by tauto.
    split; intros (o' & b & Hb' & Hx); exists o', b; split; auto.
    + apply Hl. split; [done|]. intros [= -> ->]. tauto.
    + apply Hl in Hb' as [Hb' _]. done.
  - intros o' b Ho' [Hb' _]%Hl [Hb'' _]%Hl. by apply (Hp o' b).
Qed.

(** Marking a block of the hole free and putting it on the list of its order. *)
Lemma binv_add s L H o a :
  binv s L H -> (o <= MAX_ORDER)%nat -> aligned o a ->
  heap_start s <= a -> a + bsize o <= heap_end s ->
  (forall x, in_block a o x -> H x) ->
  ((o < MAX_ORDER)%nat -> ~ listed L o (Z.lxor a (bsize o))) ->
  exists bs l, L !! o = Some l /\
    set_block_state a o BLOCK_FREE s = Some (with_block_state bs s) /\
    binv (with_lists (free_list_add a o (lists s)) (with_block_state bs s))
      (<[o := a :: l]> L) (fun x => H x /\ ~ in_block a o x) /\
    (forall x, is_free (with_block_state bs s) x <-> in_block a o x \/ is_free s x) /\
    count_free bs = count_free (block_state s)
      - count_range (page_of s a) (npages o) (block_state s) + 2 ^ Z.of_nat o.
Proof.
  intros [Hg Hr Hb Hd Hh Hc Hp] Ho Ha Hle He HH Hbud.
  destruct (set_block_state_spec s Hg a o BLOCK_FREE Ho Ha Hle He) as (bs & E & Hlen & Hf & Hcnt).
  rewrite decide_True in Hcnt by done.
  assert (Hdec : forall x, in_block a o x \/ ~ in_block a o x) by (intros x; unfold in_block; lia).
  assert (Hf' : forall x, is_free (with_block_state bs s) x <-> in_block a o x \/ is_free s x).
  { intros x. rewrite Hf. destruct (Hdec x); tauto. }
  destruct (repr_order _ _ o Hr Ho) as [l Hl]. exists bs, l. split_and!; auto.
  assert (Haa : in_block a o a) by (unfold in_block; pose proof (bsize_pos o); lia).
  pose proof (g_pos _ Hg). pose proof (g_top _ Hg). pose proof (bsize_pos o).
  assert (HaL : forall o' b, listed L o' b -> forall x, in_block b o' x -> in_block a o x -> False).
  { intros o' b Hb' x Hx Hx'. eapply Hh; eauto. }
  assert (Hr' : repr (free_list_add a o (lists s)) (<[o := a :: l]> L)).
  { apply free_list_add_repr; auto; [|lia]. intros [o' Ha']%concat_listed.
    apply (HaL o' a Ha' a); [|done]. unfold in_block. pose proof (bsize_pos o'). lia. }
  pose proof (fun o' b => listed_add L o l a o' b Hl) as Hadd.
  constructor; simpl; auto.
  - assert (Hg' : geom (with_block_state bs s)).
    { apply geom_free; [done..|]. intros x Hx. rewrite Hf'. intros [Hi|Hfr].
      - unfold in_block in Hi. lia.
      - by eapply (g_beyond _ Hg). }
    destruct Hg'. by constructor.
  - intros o' b [Hb'|[= -> ->]]%Hadd; auto.
  - intros o1 b1 o2 b2 x [Hl1|[= -> ->]]%Hadd [Hl2|[= -> ->]]%Hadd Hx1 Hx2; eauto.
    + destruct (HaL o1 b1 Hl1 x Hx1 Hx2).
    + destruct (HaL o2 b2 Hl2 x Hx2 Hx1).
  - intros o' b x [Hb'|[= -> ->]]%Hadd Hx; [|tauto]. intros [HHx _]. by eapply Hh.
  - intros x Hx. change (is_free (with_block_state bs s) x <-> covered (<[o := a :: l]> L) x).
    rewrite Hf'. unfold covered. setoid_rewrite Hadd. destruct (Hdec x) as [Hi|Hi].
    + split; [|tauto]. intros _. exists o, a. auto.
    + rewrite Hc by tauto. split.
      * intros [?|(o' & b & ? & ?)]; [tauto|]. exists o', b. auto.
      * intros (o' & b & [?|[= -> ->]] & ?); [|tauto]. right. exists o', b. auto.
  - intros o' b Ho' [Hb'|[= -> ->]]%Hadd [Hb''|Hb'']%Hadd; [by apply (Hp o' b)|..].
    + injection Hb'' as -> <-. apply Hbud; [done|]. by rewrite buddy_involutive.
    + by apply Hbud.
    + injection Hb'' as Hb''. pose proof (bsize_pos o).
      destruct (buddy_spec o a Ha) as [[_ Hx]|[_ Hx]]; lia.
Qed.

(** ** Coalescing is complete *)

(** A free aligned block outside the hole lies within one listed block. *)
Lemma free_block_listed s L H k b :
  binv s L H -> (k <= MAX_ORDER)%nat -> aligned k b ->
  (forall x, in_block b k x -> is_free s x /\ ~ H x) ->
  exists j c, (k <= j)%nat /\ listed L j c /\ c <= b /\ b + bsize k <= c + bsize j.
Proof.
  intros Hi. pose proof Hi as [Hg Hr Hb Hd Hh Hc Hp].
  revert b. induction k as [|k IH]; intros b Hk Ha Hall.
  - destruct (Hall b) as [Hf HH]; [unfold in_block; pose proof (bsize_pos 0); lia|].
    apply Hc in Hf as (j & c & Hl & Hx); [|done]. exists j, c.
    destruct (Hb _ _ Hl) as [Hca _]. split_and!; [lia|done|..].
    all: eapply (dyadic b 0 c j b); try done; try lia.
    all: unfold in_block; pose proof (bsize_pos 0); lia.
  - pose proof (bsize_pos k). pose proof (bsize_S k) as HS.
    assert (Ha0 : aligned k b) by (eapply aligned_le; [|done]; lia).
    assert (Ha1 : aligned k (b + bsize k)) by (apply Z.divide_add_r; [done|apply Z.divide_refl]).
    destruct (IH b ltac:(lia) Ha0) as (j1 & c1 & Hj1 & Hl1 & Hc1 & He1).
    { intros x Hx. apply Hall. unfold in_block in *. lia. }
    destruct (IH (b + bsize k) ltac:(lia) Ha1) as (j2 & c2 & Hj2 & Hl2 & Hc2 & He2).
    { intros x Hx. apply Hall. unfold in_block in *. lia. }
    destruct (Hb _ _ Hl1) as [Hca1 _], (Hb _ _ Hl2) as [Hca2 _].
    destruct (decide (S k <= j1)%nat) as [Hlt|Hge].
    { exists j1, c1. split; [done|]. split; [done|].
      eapply (dyadic b (S k) c1 j1 b); try done; unfold in_block; lia. }
    destruct (decide (S k <= j2)%nat) as [Hlt|Hge'].
    { exists j2, c2. split; [done|]. split; [done|].
      eapply (dyadic b (S k) c2 j2 (b + bsize k)); try done; unfold in_block; lia. }
    assert (j1 = k) as -> by lia. assert (j2 = k) as -> by lia. exfalso.
    assert (c1 = b) as -> by lia. assert (c2 = b + bsize k) as -> by lia.
    apply (Hp k b); [lia|done|]. by rewrite buddy_lower.
Qed.

(** When the block holds the hole's buddy, it is listed with its own order. *)
Lemma buddy_listed s L k a :
  binv s L (in_block a k) -> (k < MAX_ORDER)%nat -> aligned k a ->
  (forall x, in_block (Z.lxor a (bsize k)) k x -> is_free s x) ->
  listed L k (Z.lxor a (bsize k)).
Proof.
  intros Hi Hk Ha Hall. set (b := Z.lxor a (bsize k)) in *. pose proof (bsize_pos k).
  pose proof (buddy_aligned k a Ha) as Hb. fold b in Hb.
  assert (Hab : a + bsize k <= b \/ b + bsize k <= a).
  { unfold b. destruct (buddy_spec k a Ha) as [[_ ->]|[_ ->]]; lia. }
  destruct (free_block_listed s L (in_block a k) k b Hi ltac:(lia) Hb) as (j & c & Hj & Hl & Hc & He).
  { intros x Hx. split; [auto|]. unfold in_block in *. lia. }
  destruct (b_block _ _ _ Hi _ _ Hl) as [Hca _].
  destruct (decide (j = k)) as [->|Hne]; [replace b with c by lia; done|]. exfalso.
  assert (Hin : in_block c j a).
  { unfold in_block. unfold b in *.
    destruct (buddy_spec k a Ha) as [[Ha' Hx]|[Ha' Hx]]; rewrite Hx in *.
    - pose proof (dyadic a (S k) c j (a + bsize k) ltac:(lia) Ha' Hca) as Hdy.
      rewrite bsize_S in Hdy. unfold in_block in Hdy. rewrite bsize_S in Hdy. lia.
    - pose proof (dyadic (a - bsize k) (S k) c j (a - bsize k) ltac:(lia) Ha' Hca) as Hdy.
      unfold in_block in Hdy. rewrite bsize_S in Hdy. lia. }
  apply (b_hole _ _ _ Hi _ _ _ Hl Hin). unfold in_block. lia.
Qed.

(** ** Splitting *)

(** What an operation leaves alone besides the lists. *)
Definition frame (s s' : pmm) : Prop :=
  heap_start s' = heap_start s /\ heap_end s' = heap_end s /\
  initialized s' = initialized s /\ free_pages s' = free_pages s.

Definition same_states (s s' : pmm) : Prop :=
  (forall x, is_free s' x <-> is_free s x) /\
  count_free (block_state s') = count_free (block_state s).

Lemma count_range_free s a o :
  geom s -> aligned o a -> heap_start s <= a -> (forall x, in_block a o x -> is_free s x) ->
  count_range (page_of s a) (npages o) (block_state s) = 2 ^ Z.of_nat o.
Proof.
  intros Hg Ha Hle Hall. rewrite (count_range_all _ _ BLOCK_FREE).
  - rewrite decide_True by done. apply npages_Z.
  - intros j Hj. exists BLOCK_FREE. split; [|done].
    by apply (proj1 (block_free_pages s a o Hg Ha Hle)).
Qed.

Lemma split_down_spec order o a s L :
  binv s L (in_block a o) -> (order <= o <= MAX_ORDER)%nat -> aligned o a ->
  heap_start s <= a -> a + bsize o <= heap_end s -> (forall x, in_block a o x -> is_free s x) ->
  exists s' L', split_down order o a s = Some s' /\ binv s' L' (in_block a order) /\
    frame s s' /\ same_states s s'.
Proof.
  revert s L. induction o as [|o IH]; intros s L Hi Ho Ha Hle He Hall.
  { exists s, L. assert (order = 0%nat) as -> by lia. done. }
  cbn [split_down]. destruct (Nat.ltb_spec order (S o)) as [Hlt|Hge].
  2:{ exists s, L. assert (order = S o) as -> by lia. done. }
  pose proof (b_geom _ _ _ Hi) as Hg. pose proof (g_pos _ Hg). pose proof (g_top _ Hg).
  pose proof (bsize_pos o). rewrite bsize_S in He.
  rewrite order_to_size_eq, u64_small by (unfold is_u64; lia).
  assert (Ha0 : aligned o a) by (eapply aligned_le; [|done]; lia).
  assert (Ha1 : aligned o (a + bsize o)) by (apply Z.divide_add_r; [done|apply Z.divide_refl]).
  assert (Hi1 : binv (bump_split s) L (in_block a (S o))) by by eapply binv_proj.
  destruct (binv_add (bump_split s) L (in_block a (S o)) o (a + bsize o) Hi1)
    as (bs & l & Hl & E & Hi' & Hf & Hcnt); simpl; try done; try lia.
  { intros x. unfold in_block. rewrite bsize_S. lia. }
  { intros _. replace (Z.lxor (a + bsize o) (bsize o)) with a.
    - intros Hla. apply (b_hole _ _ _ Hi _ _ a Hla); unfold in_block; rewrite ?bsize_S; lia.
    - by rewrite <- (buddy_lower o a), buddy_involutive. }
  rewrite E. simpl. clear E.
  assert (Hfree : forall x, in_block (a + bsize o) o x -> is_free s x).
  { intros x Hx. apply Hall. unfold in_block in *. rewrite bsize_S. lia. }
  edestruct (IH _ _ (binv_ext _ _ _ (in_block a o) Hi' ltac:(
     intros x; unfold in_block; rewrite bsize_S; lia))) as (s' & L' & E & Hi2 & Hfr & Hsame);
    simpl; try done; try lia.
  { intros x Hx. change (is_free (with_block_state bs (bump_split s)) x). apply Hf. right.
    apply Hall. unfold in_block in *. rewrite bsize_S. lia. }
  exists s', L'. split_and!; [done|done|done|].
  destruct Hsame as [Hs1 Hs2]. split.
  - intros x. rewrite Hs1. change (is_free (with_block_state bs (bump_split s)) x <-> is_free s x).
    rewrite Hf. change (is_free (bump_split s) x) with (is_free s x).
    split; [|tauto]. intros [?|?]; auto.
  - rewrite Hs2. simpl. rewrite Hcnt.
    change (page_of (bump_split s)) with (page_of s). cbn [bump_split block_state].
    rewrite count_range_free by (done || lia). lia.
Qed.

(** Marking the hole allocated closes it. *)
Lemma take_block_spec order a s L :
  binv s L (in_block a order) -> (order <= MAX_ORDER)%nat -> aligned order a ->
  heap_start s <= a -> a + bsize order <= heap_end s ->
  (forall x, in_block a order x -> is_free s x) ->
  free_pages s = count_free (block_state s) ->
  exists s', take_block order a s = Some (a, s') /\ binv s' L no_hole /\
    initialized s' = initialized s /\ heap_start s' = heap_start s /\ heap_end s' = heap_end s /\
    free_pages s' = free_pages s - 2 ^ Z.of_nat order /\
    free_pages s' = count_free (block_state s') /\
    (forall x, is_free s' x <-> is_free s x /\ ~ in_block a order x).
Proof.
  intros Hi Ho Ha Hle He Hall Hfp. pose proof Hi as [Hg Hr Hb Hd Hh Hc Hp].
  destruct (set_block_state_spec s Hg a order BLOCK_ALLOCATED Ho Ha Hle He) as (bs & E & Hlen & Hf & Hcnt).
  rewrite decide_False in Hcnt by done. rewrite count_range_free in Hcnt by done.
  unfold take_block. rewrite E. simpl. eexists. split; [done|].
  assert (Hf' : forall x, is_free (with_block_state bs s) x <-> is_free s x /\ ~ in_block a order x).
  { intros x. rewrite Hf. unfold BLOCK_ALLOCATED, BLOCK_FREE.
    assert (in_block a order x \/ ~ in_block a order x) by (unfold in_block; lia). intuition lia. }
  assert (Hu : free_pages s -64 order_to_pages order = free_pages s - 2 ^ Z.of_nat order).
  { rewrite order_to_pages_eq by lia. apply u64_small.
    pose proof (count_free_nonneg bs). pose proof (count_free_nonneg (block_state s)).
    pose proof (g_small _ Hg). pose proof (Z.pow_pos_nonneg 2 (Z.of_nat order) ltac:(lia) ltac:(lia)).
    unfold is_u64. lia. }
  split_and!; simpl; try done; try lia.
  constructor; simpl; auto.
  - assert (Hg' : geom (with_block_state bs s)); [|by destruct Hg'].
    apply geom_free; [done..|]. intros x Hx [Hfr _]%Hf'. by eapply (g_beyond _ Hg).
  - intros x _. change (is_free (with_block_state bs s) x <-> covered L x). rewrite Hf'.
    assert (in_block a order x \/ ~ in_block a order x) as [Hx|Hx] by (unfold in_block; lia).
    + split; [tauto|]. intros (o & b & Hl & Hbx). destruct (Hh o b x Hl Hbx Hx).
    + rewrite Hc by done. tauto.
Qed.

(** ** Coalescing *)

(** One merge: the buddy leaves its list and the hole doubles. *)
Lemma merge_step a o s L :
  binv s L (in_block a o) -> (o < MAX_ORDER)%nat -> aligned o a -> heap_start s <= a ->
  a + bsize o <= heap_end s ->
  (forall x, in_block (Z.lxor a (bsize o)) o x -> is_free s x) ->
  let b := Z.lxor a (bsize o) in
  let m := if a <? b then a else b in
  exists L', binv (bump_merge (with_lists (free_list_remove b o (lists s)) s)) L' (in_block m (S o)) /\
    aligned (S o) m /\ heap_start s <= m /\ m + bsize (S o) <= heap_end s /\
    (forall x, in_block m (S o) x <-> in_block a o x \/ in_block b o x).
Proof.
  intros Hi Ho Ha Hle He Hall b m. pose proof (b_geom _ _ _ Hi) as Hg. pose proof (bsize_pos o).
  destruct (buddy_listed s L o a Hi Ho Ha Hall) as (l & Hl & (l1 & l2 & ->)%list_elem_of_split).
  fold b in Hl, Hall.
  assert (Hb1 : heap_start s <= b < heap_end s).
  { apply is_free_bound; [done|]. apply Hall. unfold in_block. lia. }
  assert (Hb2 : b + bsize o - 1 < heap_end s).
  { apply (is_free_bound s Hg). apply Hall. unfold in_block. lia. }
  assert (Hm : aligned (S o) m /\ (m = a /\ b = a + bsize o \/ m = b /\ a = b + bsize o)).
  { unfold m, b. destruct (buddy_spec o a Ha) as [[Ha' Hx]|[Ha' Hx]]; rewrite Hx.
    - rewrite (proj2 (Z.ltb_lt _ _)) by lia. auto.
    - rewrite (proj2 (Z.ltb_ge _ _)) by lia. split; [done|]. right. lia. }
  destruct Hm as [Hma Hm].
  assert (Hiff : forall x, in_block m (S o) x <-> in_block a o x \/ in_block b o x).
  { intros x. unfold in_block. rewrite bsize_S. lia. }
  exists (<[o := l1 ++ l2]> L). split_and!; [|done|lia|rewrite bsize_S; lia|done].
  eapply binv_proj; [eapply (binv_remove s L (in_block a o) _ o l1 l2 b Hi Hl)|..]; try done.
  - apply free_list_remove_repr; [apply Hi|done].
Qed.

Lemma coalesce_spec n a o s L :
  (n = MAX_ORDER - o)%nat -> (o <= MAX_ORDER)%nat ->
  binv s L (in_block a o) -> aligned o a -> heap_start s <= a -> a + bsize o <= heap_end s ->
  exists a' o' s' L', coalesce n a o s = Some (a', o', s') /\ binv s' L' (in_block a' o') /\
    frame s s' /\ block_state s' = block_state s /\ (o <= o' <= MAX_ORDER)%nat /\ aligned o' a' /\
    heap_start s <= a' /\ a' + bsize o' <= heap_end s /\
    (forall x, in_block a o x -> in_block a' o' x) /\
    (forall x, in_block a' o' x -> in_block a o x \/ is_free s x) /\
    ((o' < MAX_ORDER)%nat -> ~ listed L' o' (Z.lxor a' (bsize o'))).
Proof.
  revert a o s L. induction n as [|n IH]; intros a o s L Hn Ho Hi Ha Hle He.
  { exists a, o, s, L. split_and!; auto; try done; try lia. }
  pose proof (b_geom _ _ _ Hi) as Hg. cbn [coalesce]. cbv zeta.
  unfold get_buddy_addr. rewrite order_to_size_eq by lia.
  destruct (is_buddy_free_spec s (Z.lxor a (bsize o)) o Hg Ho (buddy_aligned o a Ha)) as (r & -> & Hr).
  simpl. destruct r; simpl.
  - specialize (proj1 Hr eq_refl) as Hall. clear Hr.
    destruct (merge_step a o s L Hi ltac:(lia) Ha Hle He Hall) as (L1 & Hi1 & Ha1 & Hle1 & He1 & Hiff).
    rewrite (proj2 (is_aligned_to_order_spec _ (S o) ltac:(lia))) by done. simpl.
    destruct (IH _ (S o) _ L1 ltac:(lia) ltac:(lia) Hi1 Ha1 Hle1 He1)
      as (a' & o' & s' & L' & -> & Hi' & Hfr & Hbs & Ho' & Ha' & Hle' & He' & Hsub & Hfree & Hnb).
    exists a', o', s', L'. split_and!; auto; try lia.
    + intros x Hx. apply Hsub, Hiff. auto.
    + intros x [Hx|Hx]%Hfree; [|by right]. apply Hiff in Hx as [?|?]; auto.
  - exists a, o, s, L. split_and!; auto; try done; try lia. intros _ (l & Hl & Hbl).
    assert (true <> false) as Habs by done. apply Habs. symmetry. apply Hr. intros x Hx.
    apply (b_cover _ _ _ Hi).
    + intros Hx'. pose proof (bsize_pos o). unfold in_block in *.
      destruct (buddy_spec o a Ha) as [[_ E]|[_ E]]; rewrite E in Hx; lia.
    + exists o, (Z.lxor a (bsize o)). split; [|done]. by exists l.
Qed.

End BuddyStep.
