(* ===== verification/BuddySpec.v ===== *)
(** The public operations of the buddy allocator: [pmm_alloc_pages],
    [pmm_alloc_pages_low] and [pmm_free_pages] keep the invariant, never fail,
    and change the set of free pages exactly as a client expects. *)

From S2P Require Import Prelude FreeList Buddy BuddyInv BuddyStep.

Open Scope Z_scope.
Open Scope slm_scope.

Module BuddySpec.
Import FreeList Buddy BuddyInv BuddyStep.

(** The order of a request. *)
Definition order_for (count : Z) : nat := Z.to_nat (Z.log2_up count).

(** ** [log2_ceil] *)

Lemma log2_ceil_loop_spec fuel n k :
  2 <= n <= 2 ^ 63 -> 0 <= k <= Z.log2_up n -> (Z.to_nat (Z.log2_up n - k) < fuel)%nat ->
  log2_ceil_loop fuel n (2 ^ k) (Z.to_nat k) = Some (order_for n).
Proof.
  intros Hn. pose proof (Z.log2_up_spec n ltac:(lia)) as Hl.
  assert (Hl63 : Z.log2_up n <= 63) by (apply Z.log2_up_le_pow2; lia).
  revert k. induction fuel as [|fuel IH]; intros k Hk Hf; [lia|]. cbn [log2_ceil_loop].
  destruct (Z.ltb_spec (2 ^ k) n) as [Hlt|Hge].
  - assert (Hk' : k < Z.log2_up n) by (apply Z.log2_up_lt_pow2; lia).
    assert (2 ^ (k + 1) <= 2 ^ 63) by (apply Z.pow_le_mono_r; lia).
    rewrite Z.shiftl_mul_pow2 by lia. rewrite <- Z.pow_add_r by lia.
    rewrite u64_small by (split; lia). rewrite <- Z2Nat.inj_succ by lia.
    apply IH; lia.
  - apply Z.log2_up_le_pow2 in Hge; [|lia]. unfold order_for. do 2 f_equal. lia.
Qed.

Lemma log2_ceil_order n : 0 < n <= 2 ^ 63 -> log2_ceil LOG2_FUEL n = Some (order_for n).
Proof.
  intros Hn. unfold log2_ceil. destruct (Z.leb_spec n 1) as [Hle|Hgt].
  - replace n with 1 by lia. done.
  - assert (Z.log2_up n <= 63) by (apply Z.log2_up_le_pow2; lia).
    pose proof (Z.log2_up_nonneg n).
    apply (log2_ceil_loop_spec LOG2_FUEL n 0); unfold LOG2_FUEL; lia.
Qed.

Lemma log2_ceil_stuck fuel n val o :
  2 ^ 63 < n -> val = 0 \/ (exists k, 0 <= k <= 63 /\ val = 2 ^ k) ->
  log2_ceil_loop fuel n val o = None.
Proof.
  intros Hn. revert val o. induction fuel as [|fuel IH]; intros val o Hv; [done|]. cbn [log2_ceil_loop].
  assert (val < n).
  { destruct Hv as [->|(k & Hk & ->)]; [lia|]. assert (2 ^ k <= 2 ^ 63) by (apply Z.pow_le_mono_r; lia). lia. }
  rewrite (proj2 (Z.ltb_lt _ _)) by done. apply IH.
  destruct Hv as [->|(k & Hk & ->)]; [by left|].
  rewrite Z.shiftl_mul_pow2, <- Z.pow_add_r by lia.
  destruct (decide (k = 63)) as [->|Hne]; [by left|]. right. exists (k + 1). split; [lia|].
  apply u64_small. split; [lia|]. apply Z.pow_lt_mono_r; lia.
Qed.

Lemma order_for_pow2 n : 0 < n -> n <= 2 ^ Z.of_nat (order_for n).
Proof.
  intros Hn. unfold order_for. rewrite Z2Nat.id by apply Z.log2_up_nonneg.
  destruct (decide (n = 1)) as [->|]; [done|]. by apply Z.log2_up_spec; lia.
Qed.

(** ** Allocation *)

(** The invariant at the public entry points. *)
Lemma inv_binv s : inv s -> exists L, binv s L no_hole.
Proof. intros (_ & HL & _). done. Qed.

Lemma listed_free s L o a x : binv s L no_hole -> listed L o a -> in_block a o x -> is_free s x.
Proof. intros Hi Hl Hx. apply (b_cover _ _ _ Hi); [by intros []|]. by exists o, a. Qed.

(** What a successful allocation of [2 ^ order] pages at [a] does. *)
Definition allocated (s s' : pmm) (order : nat) (a : Z) : Prop :=
  aligned order a /\ heap_start s <= a /\ a + bsize order <= heap_end s /\
  (forall x, in_block a order x -> is_free s x) /\
  (forall x, is_free s' x <-> is_free s x /\ ~ in_block a order x) /\
  heap_start s' = heap_start s /\ heap_end s' = heap_end s /\
  free_pages s' = free_pages s - 2 ^ Z.of_nat order.

(** No block of [order] could be handed out. *)
Definition exhausted (s : pmm) (order : nat) : Prop :=
  forall b, aligned order b -> ~ (forall x, in_block b order x -> is_free s x).

(** Splitting and taking a block that has been removed from its list. *)
Lemma split_take_spec s fl L o l1 l2 a order :
  inv s -> binv s L no_hole -> L !! o = Some (l1 ++ a :: l2) -> repr fl (<[o := l1 ++ l2]> L) ->
  (order <= o)%nat ->
  exists s', (s1 ← split_down order o a (with_lists fl s); take_block order a s1) = Some (a, s') /\
    inv s' /\ allocated s s' order a.
Proof.
  intros (Hini & _ & Hfp) Hi Ho Hr Hord.
  assert (Hl : listed L o a).
  { exists (l1 ++ a :: l2). split; [done|]. rewrite elem_of_app, elem_of_cons. auto. }
  destruct (b_block _ _ _ Hi _ _ Hl) as (Ha & Hle & He).
  pose proof (listed_order _ _ _ _ (b_repr _ _ _ Hi) Hl) as Hmax.
  assert (Hall : forall x, in_block a o x -> is_free s x) by (intros; by eapply listed_free).
  assert (Hi1 : binv (with_lists fl s) (<[o := l1 ++ l2]> L) (in_block a o)).
  { eapply binv_ext; [by apply (binv_remove s L no_hole)|]. intros x. unfold no_hole. tauto. }
  destruct (split_down_spec order o a _ _ Hi1) as (s1 & L1 & -> & Hi2 & Hfr & Hsame); try done.
  destruct Hfr as (E1 & E2 & E3 & E4), Hsame as [Hs1 Hs2]. simpl in *.
  change (forall x, is_free s1 x <-> is_free s x) in Hs1.
  pose proof (bsize_le order o Hord). pose proof (bsize_pos order).
  destruct (take_block_spec order a s1 L1 Hi2) as (s' & -> & Hi' & F1 & F2 & F3 & F4 & F5 & F6);
    try done; try lia.
  { by eapply aligned_le. }
  { intros x Hx. apply Hs1, Hall. unfold in_block in *. lia. }
  exists s'. split; [done|]. split.
  - split; [congruence|]. split; [by eexists|done].
  - split_and!; try done; try lia; try congruence.
    + by eapply aligned_le.
    + intros x Hx. apply Hall. unfold in_block in *. lia.
    + intros x. rewrite F6, Hs1. done.
Qed.

Lemma no_listed_exhausted s L order :
  binv s L no_hole -> (order <= MAX_ORDER)%nat ->
  (forall o a, (order <= o)%nat -> ~ listed L o a) -> exhausted s order.
Proof.
  intros Hi Ho Hn b Hb Hall.
  destruct (free_block_listed s L no_hole order b Hi Ho Hb) as (j & c & Hj & Hl & _).
  - intros x Hx. split; [auto|]. by intros [].
  - by eapply Hn.
Qed.

Lemma alloc_scan_spec n o order s L :
  inv s -> binv s L no_hole -> (n + o = S MAX_ORDER)%nat -> (order <= o)%nat ->
  (forall o' a, (order <= o' < o)%nat -> ~ listed L o' a) ->
  (exists a s', alloc_scan n o order s = Some (a, s') /\ inv s' /\ allocated s s' order a) \/
  (alloc_scan n o order s = Some (PMM_ALLOC_FAIL, s) /\ forall o' a, (order <= o')%nat -> ~ listed L o' a).
Proof.
  intros Hinv Hi. pose proof (b_repr _ _ _ Hi) as Hr.
  revert o. induction n as [|n IH]; intros o Hn Ho Hemp.
  { right. split; [done|]. intros o' a Ho' Hl. pose proof (listed_order _ _ _ _ Hr Hl).
    apply (Hemp o' a); [lia|done]. }
  cbn [alloc_scan]. destruct (repr_order _ _ o Hr ltac:(lia)) as [l Hl].
  destruct (repr_dll _ _ Hr _ _ Hl) as [_ ->].
  pose proof (free_list_pop_repr _ _ _ _ Hr Hl) as Hpop. destruct l as [|a l]; simpl.
  - apply IH; [lia|lia|]. intros o' b Ho' Hb. destruct (decide (o' = o)) as [->|].
    + destruct Hb as (l & Hl' & Hb). rewrite Hl in Hl'. injection Hl' as <-.
      by apply not_elem_of_nil in Hb.
    + apply (Hemp o' b); [lia|done].
  - destruct Hpop as (fl & -> & Hr'). left.
    destruct (split_take_spec s fl L o [] l a order Hinv Hi Hl Hr' Ho) as (s' & E & ? & ?).
    exists a, s'. done.
Qed.

Lemma buddy_alloc_spec order s :
  inv s -> (order <= MAX_ORDER)%nat ->
  (exists a s', buddy_alloc order s = Some (a, s') /\ inv s' /\ allocated s s' order a) \/
  (buddy_alloc order s = Some (PMM_ALLOC_FAIL, s) /\ exhausted s order).
Proof.
  intros Hinv Ho. destruct (inv_binv s Hinv) as [L Hi]. unfold buddy_alloc.
  destruct (alloc_scan_spec (S MAX_ORDER - order) order order s L Hinv Hi) as [?|[-> Hn]]; try lia; auto.
  right. split; [done|]. by eapply no_listed_exhausted.
Qed.

(** ** The lowest block *)

(** [best] is the lowest of the blocks [V] seen so far. *)
Definition best_ok (V : nat -> Z -> Prop) (best : Z * nat * bool) : Prop :=
  let '(a, o, found) := best in
  if (found : bool) then V o a /\ forall o' b, V o' b -> a <= b else forall o' b, ~ V o' b.

Lemma best_ok_ext (V V' : nat -> Z -> Prop) best :
  best_ok V best -> (forall o a, V o a <-> V' o a) -> best_ok V' best.
Proof.
  destruct best as [[a o] []]; simpl; intros Hb HV.
  - split; [by apply HV, Hb|]. intros o' b Hv%HV. by eapply Hb.
  - intros o' b Hv%HV. by eapply Hb.
Qed.

Lemma low_walk_spec fuel m p blk o l V best :
  dll m p blk l -> (length l < fuel)%nat -> best_ok V best ->
  exists best', low_walk fuel m blk o best = Some best' /\
    best_ok (fun o' b => V o' b \/ o' = o /\ b ∈ l) best'.
Proof.
  revert p blk l V best. induction fuel as [|fuel IH]; intros p blk l V best Hd Hf Hb; [lia|].
  cbn [low_walk]. destruct l as [|a l]; simpl in Hd.
  { rewrite Hd. exists best. split; [done|]. eapply best_ok_ext; [done|]. intros o' b.
    rewrite elem_of_nil. tauto. }
  destruct Hd as (-> & Ha & _ & Hd). rewrite (proj2 (Z.eqb_neq a 0)) by done. destruct best as [[a0 o0] f0].
  set (best1 := if negb f0 || (a <? a0) then (a, o, true) else (a0, o0, f0)).
  assert (Hb1 : best_ok (fun o' b => V o' b \/ o' = o /\ b = a) best1).
  { unfold best1. simpl in Hb. destruct f0; simpl.
    - destruct Hb as [HV Hmin]. destruct (Z.ltb_spec a a0); simpl; (split; [by auto|]);
        intros o' b [Hv|[-> ->]]; try specialize (Hmin _ _ Hv); lia.
    - split; [by auto|]. intros o' b [Hv|[-> ->]]; [|lia]. destruct (Hb _ _ Hv). }
  destruct (IH a _ l _ best1 Hd ltac:(simpl in Hf; lia) Hb1) as (best' & E & Hb').
  exists best'. split; [exact E|]. eapply best_ok_ext; [done|]. intros o' b.
  rewrite elem_of_cons. tauto.
Qed.

Lemma low_scan_spec n o order fl L best :
  repr fl L -> (n + o = S MAX_ORDER)%nat ->
  best_ok (fun o' b => (order <= o' < o)%nat /\ listed L o' b) best -> (order <= o)%nat ->
  exists best', low_scan n o fl best = Some best' /\
    best_ok (fun o' b => (order <= o')%nat /\ listed L o' b) best'.
Proof.
  intros Hr. revert o best. induction n as [|n IH]; intros o best Hn Hb Ho; cbn [low_scan].
  { exists best. split; [done|]. eapply best_ok_ext; [done|]. intros o' b. simpl.
    split; [intros [? ?]; split; [lia|done]|]. intros [? Hl].
    pose proof (listed_order _ _ _ _ Hr Hl). split; [lia|done]. }
  destruct (repr_order _ _ o Hr ltac:(lia)) as [l Hl].
  destruct (repr_dll _ _ Hr _ _ Hl) as [Hd ->]. rewrite Nat2Z.id.
  destruct (low_walk_spec (S (length l)) (mem fl) 0 _ o l _ best Hd ltac:(lia) Hb) as (best1 & -> & Hb1).
  apply IH; [lia| |lia]. eapply best_ok_ext; [done|]. intros o' b. simpl. split.
  - intros [[? ?]|[-> Hbl]]; (split; [lia|]); [done|]. by exists l.
  - intros [? (l' & Hl' & Hb')]. destruct (decide (o' = o)) as [->|].
    + right. split; [done|]. congruence.
    + left. split; [lia|]. by exists l'.
Qed.

(** [pmm_alloc_pages_low] finds the lowest block any block of the requested
    order could be carved from. *)
Lemma low_alloc_spec order s :
  inv s -> (order <= MAX_ORDER)%nat ->
  exists best, low_scan (S MAX_ORDER - order) order (lists s) (2 ^ 64 - 1, O, false) = Some best /\
    let '(a, o, found) := best in
    if (found : bool) then
      (exists s', (s1 ← split_down order o a (with_lists (free_list_remove a o (lists s)) s);
                   take_block order a s1) = Some (a, s') /\ inv s' /\ allocated s s' order a) /\
      (forall b, aligned order b -> (forall x, in_block b order x -> is_free s x) -> a <= b)
    else exhausted s order.
Proof.
  intros Hinv Ho. destruct (inv_binv s Hinv) as [L Hi]. pose proof (b_repr _ _ _ Hi) as Hr.
  destruct (low_scan_spec (S MAX_ORDER - order) order order (lists s) L (2 ^ 64 - 1, O, false))
    as (best & -> & Hb); [done|lia|simpl; lia|lia|].
  exists best. split; [done|]. destruct best as [[a o] found]. destruct found; simpl in Hb.
  - destruct Hb as [[Hoo (l & Hl & (l1 & l2 & ->)%list_elem_of_split)] Hmin]. split.
    + apply (split_take_spec s _ L o l1 l2 a order Hinv Hi Hl); [|done].
      by apply free_list_remove_repr.
    + intros b Hb Hall. destruct (free_block_listed s L no_hole order b Hi Ho Hb) as (j & c & Hj & Hlc & Hc & _).
      * intros x Hx. split; [auto|]. by intros [].
      * specialize (Hmin j c (conj Hj Hlc)). lia.
  - apply (no_listed_exhausted s L); [done|done|]. intros o' b Hob Hlb. by apply (Hb o' b).
Qed.

(** ** Release *)

Lemma count_range_none s a o :
  geom s -> aligned o a -> heap_start s <= a -> a + bsize o <= heap_end s ->
  (forall x, in_block a o x -> ~ is_free s x) ->
  count_range (page_of s a) (npages o) (block_state s) = 0.
Proof.
  intros Hg Ha Hle He Hall. rewrite (count_range_all _ _ BLOCK_ALLOCATED); [done|].
  intros j Hj. pose proof (page_bound s Hg o a Ha Hle He).
  destruct (lookup_lt_is_Some_2 (block_state s) j ltac:(lia)) as [w Hw].
  exists w. split; [done|]. split; [|done]. intros ->. exfalso.
  set (x := heap_start s + PAGE_SIZE * Z.of_nat j).
  assert (Hx : heap_start s <= x) by (unfold x, PAGE_SIZE; lia).
  pose proof (page_of_addr s j) as Hpx. fold x in Hpx.
  apply (Hall x).
  - apply (in_block_page s Hg o a x Ha Hle Hx). by rewrite Hpx.
  - apply is_free_page; [done|]. by rewrite Hpx.
Qed.

(** The free pages of a block that is free but for a sub-block. *)
Lemma count_range_merged s a o a' o' :
  geom s -> aligned o a -> aligned o' a' -> heap_start s <= a' -> a' + bsize o' <= heap_end s ->
  (forall x, in_block a o x -> ~ is_free s x) ->
  (forall x, in_block a o x -> in_block a' o' x) ->
  (forall x, in_block a' o' x -> in_block a o x \/ is_free s x) ->
  count_range (page_of s a') (npages o') (block_state s) = 2 ^ Z.of_nat o' - 2 ^ Z.of_nat o.
Proof.
  intros Hg Ha Ha' Hle' He' Hnf Hsub Hfree. pose proof (bsize_pos o).
  unfold in_block in Hsub.
  pose proof (Hsub a ltac:(lia)) as Hs1. pose proof (Hsub (a + bsize o - 1) ltac:(lia)) as Hs2.
  assert (Hle : heap_start s <= a) by lia. assert (He : a + bsize o <= heap_end s) by lia.
  pose proof (page_of_aligned s Hg o a Ha Hle) as Ea.
  pose proof (page_of_aligned s Hg o' a' Ha' Hle') as Ea'.
  rewrite !bsize_pages, <- !npages_Z in *.
  set (i := page_of s a) in *. set (i' := page_of s a') in *. unfold PAGE_SIZE in Ea, Ea', Hs1, Hs2.
  assert (Hi1 : (i' <= i)%nat) by lia. assert (Hi2 : (i + npages o <= i' + npages o')%nat) by lia.
  assert (Hpart : forall j, (i' <= j < i' + npages o')%nat -> ~ (i <= j < i + npages o)%nat ->
    exists w, block_state s !! j = Some w /\ (w = BLOCK_FREE <-> BLOCK_FREE = BLOCK_FREE)).
  { intros j Hj Hnj. exists BLOCK_FREE. split; [|done].
    set (x := heap_start s + PAGE_SIZE * Z.of_nat j).
    assert (Hx : heap_start s <= x) by (unfold x, PAGE_SIZE; lia).
    pose proof (page_of_addr s j) as Hpx. fold x in Hpx. rewrite <- Hpx.
    apply (proj1 (is_free_page s x Hx)).
    destruct (Hfree x) as [Hin|]; [| |done].
    - apply (in_block_page s Hg o' a' x Ha' Hle' Hx). by rewrite Hpx.
    - apply (in_block_page s Hg o a x Ha Hle Hx) in Hin. rewrite Hpx in Hin. tauto. }
  replace (npages o') with ((i - i') + (npages o + (i' + npages o' - (i + npages o))))%nat at 1 by lia.
  rewrite !count_range_add. replace (i' + (i - i'))%nat with i by lia.
  assert (Hnone : count_range i (npages o) (block_state s) = 0).
  { apply count_range_none; try done. by rewrite bsize_pages, <- npages_Z. }
  rewrite Hnone.
  rewrite !(count_range_all _ _ BLOCK_FREE); [|intros j Hj; apply Hpart; lia..].
  rewrite !decide_True by done. lia.
Qed.

(** What a release of [2 ^ order] pages at [a] does. *)
Definition released (s s' : pmm) (order : nat) (a : Z) : Prop :=
  (forall x, is_free s' x <-> is_free s x \/ in_block a order x) /\
  heap_start s' = heap_start s /\ heap_end s' = heap_end s /\
  free_pages s' = free_pages s + 2 ^ Z.of_nat order.

(** [a] is the first page of an allocated block of [order]. *)
Definition is_allocated (s : pmm) (order : nat) (a : Z) : Prop :=
  aligned order a /\ heap_start s <= a /\ a + bsize order <= heap_end s /\
  (forall x, in_block a order x -> ~ is_free s x).

Lemma buddy_free_spec order a s :
  inv s -> (order <= MAX_ORDER)%nat -> is_allocated s order a ->
  exists s', buddy_free a order order s = Some s' /\ inv s' /\ released s s' order a.
Proof.
  intros Hinv Ho (Ha & Hle & He & Hnf). destruct (inv_binv s Hinv) as [L Hi].
  destruct Hinv as (Hini & _ & Hfp). pose proof (b_geom _ _ _ Hi) as Hg.
  pose proof (binv_open s L a order Hi Hnf) as Hi0.
  unfold buddy_free.
  destruct (coalesce_spec (MAX_ORDER - order) a order s L eq_refl Ho Hi0 Ha Hle He)
    as (a' & o' & s1 & L1 & -> & Hi1 & Hfr & Hbs & Ho' & Ha' & Hle' & He' & Hsub & Hfree & Hnb).
  simpl. destruct Hfr as (E1 & E2 & E3 & E4).
  assert (Hf1 : forall x, is_free s1 x <-> is_free s x) by (intros x; unfold is_free; by rewrite Hbs, E1).
  destruct (binv_add s1 L1 (in_block a' o') o' a' Hi1)
    as (bs & l & Hl & -> & Hi2 & Hf2 & Hcnt); try done; try lia.
  simpl. replace (page_of s1 a') with (page_of s a') in Hcnt by (unfold page_of; by rewrite E1).
  rewrite Hbs, (count_range_merged s a order a' o') in Hcnt by done.
  assert (Hg2 := b_geom _ _ _ Hi2).
  assert (Hu : free_pages s1 +64 order_to_pages order = free_pages s + 2 ^ Z.of_nat order).
  { rewrite E4, order_to_pages_eq by lia. apply u64_small.
    pose proof (count_free_nonneg bs). pose proof (count_free_nonneg (block_state s)).
    pose proof (g_small _ Hg2). simpl in *. unfold is_u64.
    pose proof (Z.pow_nonneg 2 (Z.of_nat order) ltac:(lia)). lia. }
  eexists. split; [done|]. split.
  - split; [simpl; congruence|]. split.
    + eexists. eapply binv_proj; [exact Hi2|..]; try done. intros x. unfold no_hole. tauto.
    + simpl. rewrite Hu, Hcnt. lia.
  - split_and!; simpl; try congruence.
    intros x. change (is_free (with_block_state bs s1) x <-> is_free s x \/ in_block a order x).
    rewrite Hf2, Hf1. split; [|intros [?|?]; auto]. intros [Hx|?]; [|by left].
    apply Hfree in Hx as [?|?]; auto.
Qed.

End BuddySpec.
