(* ===== verification/PmmInit.v ===== *)
(** Initialisation of the physical memory manager (kernel/mm/pmm.c): the table of
    user reservations, [pmm_add_region_split] and [pmm_init], and the statistics
    calls.

    A platform is the set of values [pmm_init] takes from platform.h and its
    [#if] branches.  The result: on every shipped platform the allocator starts
    in its invariant, with exactly the unreserved pages of the regions free. *)

From S2P Require Import Prelude Carve FreeList Buddy BuddyInv BuddyStep BuddySpec.

Open Scope Z_scope.
Open Scope slm_scope.

Module PmmInit.
Import FreeList Buddy BuddyInv BuddyStep BuddySpec.

Notation memreserve := Carve.memreserve.

(** ** User reservations *)

Definition PMM_MAX_USER_RESERVES : Z := 2048.
Definition DTB_MAX_MEMRESERVES : Z := 8.
Definition PMM_SPLIT_RSV_MAX : Z := DTB_MAX_MEMRESERVES + PMM_MAX_USER_RESERVES.

(** [pmm_user_reserves] up to [pmm_n_user_reserves]; the result is C's return value. *)
Definition pmm_user_reserve_add (phys size : Z) (rs : list memreserve) : Z * list memreserve :=
  if size =? 0 then (-1, rs)
  else if PMM_MAX_USER_RESERVES <=? Z.of_nat (length rs) then (-1, rs)
  else (0, rs ++ [Carve.MemReserve phys size]).

(** The loop of [pmm_user_reserve_add_array], which stops at the first refusal. *)
Fixpoint add_array_loop (extents : list memreserve) (added : Z) (rs : list memreserve)
  : Z * list memreserve :=
  match extents with
  | [] => (added, rs)
  | e :: extents =>
      let '(rc, rs) := pmm_user_reserve_add (Carve.addr e) (Carve.size e) rs in
      if negb (rc =? 0) then (added, rs) else add_array_loop extents (added + 1) rs
  end.

(** [None] is a NULL array. *)
Definition pmm_user_reserve_add_array (extents : option (list memreserve)) (rs : list memreserve)
  : Z * list memreserve :=
  match extents with None => (0, rs) | Some l => add_array_loop l 0 rs end.

Definition pmm_user_reserve_count (rs : list memreserve) : Z := Z.of_nat (length rs).
Definition pmm_user_reserve_reset (_ : list memreserve) : list memreserve := [].

(** ** Regions *)

(** [dtb_get_memreserves] on the table [g_memreserves] of the parsed device tree. *)
Definition dtb_get_memreserves (g_memreserves : list memreserve) (max : Z) : list memreserve :=
  if max <=? 0 then [] else take (Z.to_nat (Z.min (Z.of_nat (length g_memreserves)) max)) g_memreserves.

(** [pmm_split_rsv] as [pmm_add_region_split] fills it. *)
Definition split_rsv (fw user : list memreserve) : list memreserve :=
  let rsv := dtb_get_memreserves fw DTB_MAX_MEMRESERVES in
  rsv ++ take (Z.to_nat (PMM_SPLIT_RSV_MAX - Z.of_nat (length rsv))) user.

Fixpoint add_regions (ranges : list (Z * Z)) (s : pmm) : option pmm :=
  match ranges with
  | [] => Some s
  | (start, end_) :: ranges => s ← pmm_add_region start end_ s; add_regions ranges s
  end.

Definition pmm_add_region_split (fw user : list memreserve) (start end_ : Z) (s : pmm) : option pmm :=
  let rsv := split_rsv fw user in
  out ← Carve.pmm_carve_reserves start end_ (Some rsv) (Z.of_nat (length rsv)) true
          (PMM_SPLIT_RSV_MAX + 1);
  add_regions out s.

(** ** [pmm_init] *)

(** What the build and the boot code fix for a platform. *)
Record platform := Platform {
  RAM_BASE : Z;
  RAM_SIZE : Z;
  heap_top : Z;                          (* the final [buddy_state.heap_end] *)
  regions : Z -> Z -> list (Z * Z)       (* from [heap_start] and [heap_end] *)
}.

Definition MAX_BLOCKS (p : platform) : Z := RAM_SIZE p / PAGE_SIZE.

Definition one_region (hs he : Z) : list (Z * Z) := [(hs, he)].

Definition qemu_virt : platform :=
  Platform 0x40000000 0x40000000 (0x40000000 + 0x40000000) one_region.

Definition raspi5 : platform :=
  Platform 0 0x100000000 (0 + 0x100000000 - 0x200000) one_region.

Definition x86_64 (x86_detected_ram_end : Z) : platform :=
  Platform 0x200000 0x500000000
    (if 0 <? x86_detected_ram_end then x86_detected_ram_end else 0x200000 + 0x500000000) one_region.

Definition CAMRTC_FRAME_BUFFER_PHYS : Z := 0xA1000000.
Definition CAMRTC_FRAME_BUFFER_END : Z := CAMRTC_FRAME_BUFFER_PHYS + 0x00400000.

Definition jetson_orin_nano : platform :=
  Platform 0x80000000 0x200000000 (0x80000000 + 0x200000000) (fun hs _ =>
    [(hs, CAMRTC_FRAME_BUFFER_PHYS); (CAMRTC_FRAME_BUFFER_END, 0xBDE00000);
     (0xC2000000, 0xFFFE0000); (0x100000000, 0x240000000)]).

Fixpoint add_splits (fw user : list memreserve) (rs : list (Z * Z)) (s : pmm) : option pmm :=
  match rs with
  | [] => Some s
  | (start, end_) :: rs => s ← pmm_add_region_split fw user start end_ s; add_splits fw user rs s
  end.

(** The checks on the head of one free list after initialisation. *)
Definition head_ok (s : pmm) (o : nat) : bool :=
  let head := heads (lists s) !!! o in
  let inside a := (heap_start s <=? a) && (a <? heap_end s) in
  if head =? 0 then true
  else inside head &&
    (let n := next (mem (lists s) head) in
     let p := prev (mem (lists s) head) in
     if (n =? 0) && (p =? 0) then true else (p =? 0) && ((n =? 0) || inside n)).

(** [pmm_init]; [None] is a panic or a failed assertion. *)
Definition pmm_init (p : platform) (kernel_end : Z) (fw user : list memreserve) (s : pmm)
  : option pmm :=
  let hs := PAGE_ALIGN_UP kernel_end in
  let he := heap_top p in
  let s := Pmm (FreeLists (replicate (S MAX_ORDER) 0) (replicate (S MAX_ORDER) 0) (mem (lists s)))
    hs he ((he -64 hs) / PAGE_SIZE) 0 ((hs -64 RAM_BASE p) / PAGE_SIZE) 0 0 0 0 (initialized s)
    (replicate (Z.to_nat (MAX_BLOCKS p)) BLOCK_ALLOCATED) in
  s ← add_splits fw user (regions p hs he) s;
  if forallb (head_ok s) (seq 0 (S MAX_ORDER)) then Some (set_initialized s) else None.

(** ** Statistics *)

(** [struct pmm_stats]. *)
Record pmm_stats := PmmStats {
  st_total_pages : Z; st_free_pages : Z; st_used_pages : Z;
  st_reserved_pages : Z; st_heap_start : Z; st_heap_end : Z
}.

Definition pmm_get_stats (s : pmm) : pmm_stats :=
  PmmStats (total_pages s) (free_pages s) (total_pages s -64 free_pages s)
    (reserved_pages s) (heap_start s) (heap_end s).

Definition pmm_get_free_pages (s : pmm) : Z := free_pages s.
Definition pmm_get_total_pages (s : pmm) : Z := total_pages s.

(** [struct pmm_buddy_stats]. *)
Record pmm_buddy_stats := PmmBuddyStats {
  bs_free_counts : list Z; bs_alloc_count : Z; bs_free_count : Z;
  bs_split_count : Z; bs_merge_count : Z
}.

Definition pmm_get_buddy_stats (s : pmm) : pmm_buddy_stats :=
  PmmBuddyStats (counts (lists s)) (alloc_count s) (free_count s) (split_count s) (merge_count s).

(** ** Adding a region *)

Lemma aligned_page_le a b : aligned 0 a -> aligned 0 b -> a < b -> a + bsize 0 <= b.
Proof. unfold aligned. rewrite bsize_0. unfold PAGE_SIZE. intros [p ->] [q ->]. lia. Qed.

Lemma aligned_add o a : aligned 0 a -> aligned 0 (a + bsize o).
Proof.
  intros Ha. apply Z.divide_add_r; [done|]. apply (aligned_le 0 o); [lia|]. apply Z.divide_refl.
Qed.

(** The chosen order fits, and no larger one does. *)
Lemma fit_order_spec n cur end_ :
  (n <= MAX_ORDER)%nat -> aligned 0 cur -> aligned 0 end_ -> 0 < cur < end_ -> end_ <= 2 ^ 63 ->
  let o := fit_order n cur end_ in
  (o <= n)%nat /\ aligned o cur /\ cur + bsize o <= end_ /\
  (forall o', (o < o' <= n)%nat -> ~ (aligned o' cur /\ cur + bsize o' <= end_)).
Proof.
  intros Hn Ha He Hlt Htop. induction n as [|n IH]; cbn [fit_order]; cbv zeta.
  { pose proof (aligned_page_le cur end_ Ha He ltac:(lia)). split_and!; [lia|done|done|lia]. }
  pose proof (bsize_pos (S n)). pose proof (bsize_max (S n) ltac:(lia)).
  rewrite order_to_size_eq, u64_small by (unfold is_u64; lia).
  destruct (Z.leb_spec (cur + bsize (S n)) end_) as [Hfit|Hfit]; cbn [andb].
  - destruct (is_aligned_to_order cur (S n)) eqn:E.
    + apply is_aligned_to_order_spec in E; [|lia]. split_and!; [lia|done|done|lia].
    + destruct IH as (H1 & H2 & H3 & H4); [lia|]. split_and!; [lia|done|done|].
      intros o' Ho' [Hao Hfo]. destruct (decide (o' = S n)) as [->|]; [|by apply (H4 o'); [lia|]].
      apply is_aligned_to_order_spec in Hao; [congruence|lia].
  - destruct IH as (H1 & H2 & H3 & H4); [lia|]. split_and!; [lia|done|done|].
    intros o' Ho' [Hao Hfo]. destruct (decide (o' = S n)) as [->|]; [lia|]. by apply (H4 o'); [lia|].
Qed.

(** [s'] is [s] with the addresses of [P] added to its free memory. *)
Definition added (s s' : pmm) (P : Z -> Prop) : Prop :=
  (exists L, binv s' L no_hole) /\
  (forall x, is_free s' x <-> is_free s x \/ P x) /\
  heap_start s' = heap_start s /\ heap_end s' = heap_end s /\
  (free_pages s = count_free (block_state s) -> free_pages s' = count_free (block_state s')).

(** A block of the range, put on its list. *)
Lemma add_block_spec cur end_ s L o :
  binv s L no_hole -> heap_start s <= cur -> end_ <= heap_end s -> (o <= MAX_ORDER)%nat ->
  aligned o cur -> cur + bsize o <= end_ ->
  (forall x, cur <= x <= end_ -> ~ is_free s x) ->
  (forall o' c, (o' < MAX_ORDER)%nat -> listed L o' c -> c + bsize o' = cur ->
     ~ (aligned (S o') c /\ c + bsize (S o') <= end_)) ->
  exists bs l, set_block_state cur o BLOCK_FREE s = Some (with_block_state bs s) /\
    L !! o = Some l /\
    binv (with_lists (free_list_add cur o (lists s)) (with_block_state bs s))
      (<[o := cur :: l]> L) no_hole /\
    (forall x, is_free (with_block_state bs s) x <-> in_block cur o x \/ is_free s x) /\
    count_free bs = count_free (block_state s) + 2 ^ Z.of_nat o.
Proof.
  intros Hi Hle He Ho Ha Hfit Hnf Hpre. pose proof (b_geom _ _ _ Hi) as Hg. pose proof (bsize_pos o).
  assert (Hnb : forall x, in_block cur o x -> ~ is_free s x) by (intros x Hx; apply Hnf; unfold in_block in Hx; lia).
  destruct (binv_add s L (in_block cur o) o cur (binv_open _ _ _ _ Hi Hnb))
    as (bs & l & Hl & E & Hi' & Hf & Hcnt); try done; try lia.
  - intros HoM Hlb. destruct (buddy_spec o cur Ha) as [[_ Hx]|[Ham Hx]]; rewrite Hx in Hlb.
    + apply (Hnf (cur + bsize o)); [lia|]. eapply listed_free; [done..|]. unfold in_block. lia.
    + apply (Hpre o (cur - bsize o)); [done|done|lia|]. split; [done|]. rewrite bsize_S. lia.
  - exists bs, l. split_and!; try done.
    + eapply binv_ext; [exact Hi'|]. intros x. unfold no_hole. tauto.
    + rewrite Hcnt, count_range_none by (done || lia). lia.
Qed.

Lemma add_region_loop_spec fuel cur end_ s L :
  binv s L no_hole -> heap_start s <= cur -> aligned 0 cur -> aligned 0 end_ -> end_ <= heap_end s ->
  (forall x, cur <= x <= end_ -> ~ is_free s x) ->
  (forall o c, (o < MAX_ORDER)%nat -> listed L o c -> c + bsize o = cur ->
     ~ (aligned (S o) c /\ c + bsize (S o) <= end_)) ->
  (Z.to_nat ((end_ - cur) / PAGE_SIZE) < fuel)%nat ->
  exists s', add_region_loop fuel cur end_ s = Some s' /\ added s s' (fun x => cur <= x < end_).
Proof.
  revert cur s L. induction fuel as [|fuel IH]; intros cur s L Hi Hle Ha He Hend Hnf Hpre Hf; [lia|].
  cbn [add_region_loop]. pose proof (b_geom _ _ _ Hi) as Hg.
  destruct (Z.ltb_spec cur end_) as [Hlt|Hge].
  2:{ exists s. split; [done|]. split; [by exists L|]. split_and!; try done.
      intros x. assert (~ cur <= x < end_) by lia. tauto. }
  pose proof (g_pos _ Hg). pose proof (g_top _ Hg).
  destruct (fit_order_spec MAX_ORDER cur end_ ltac:(lia) Ha He) as (Ho & Hao & Hfit & Hmax); [lia|lia|].
  cbv zeta. set (o := fit_order MAX_ORDER cur end_) in *. pose proof (bsize_pos o).
  destruct (add_block_spec cur end_ s L o Hi Hle Hend Ho Hao Hfit Hnf Hpre)
    as (bs & l & -> & Hl & Hi1 & Hf1 & Hcnt). simpl.
  rewrite order_to_size_eq, u64_small by (unfold is_u64; lia).
  set (s1 := with_free_pages _ _).
  assert (Hi2 : binv s1 (<[o := cur :: l]> L) no_hole) by by eapply binv_proj.
  assert (Hf2 : forall x, is_free s1 x <-> in_block cur o x \/ is_free s x) by exact Hf1.
  destruct (IH (cur + bsize o) s1 _ Hi2) as (s' & E & HL' & Hs1 & Hs2 & Hs3 & Hs4); simpl; try done; try lia.
  - by apply aligned_add.
  - intros x Hx. rewrite Hf2. intros [Hin|Hfr]; [unfold in_block in Hin; lia|].
    apply (Hnf x); [lia|done].
  - intros o' c Ho' Hlc Hec. pose proof (bsize_pos o').
    assert (Hx : o' = o /\ c = cur).
    { eapply (b_disj _ _ _ Hi2 o' c o cur (cur + bsize o - 1)); [done| | |]; unfold in_block; try lia.
      apply listed_add; auto. }
    destruct Hx as [-> ->]. apply Hmax. lia.
  - pose proof (bsize_le 0 o ltac:(lia)) as Hb0. rewrite bsize_0 in Hb0.
    assert ((end_ - (cur + bsize o)) / PAGE_SIZE <= (end_ - cur) / PAGE_SIZE - 1).
    { replace ((end_ - cur) / PAGE_SIZE - 1) with ((end_ - cur + (-1) * PAGE_SIZE) / PAGE_SIZE)
        by (rewrite Z.div_add by (unfold PAGE_SIZE; lia); lia).
      apply Z.div_le_mono; unfold PAGE_SIZE in *; lia. }
    assert (0 <= (end_ - (cur + bsize o)) / PAGE_SIZE) by (apply Z.div_pos; unfold PAGE_SIZE; lia). lia.
  - exists s'. split; [done|]. split_and!; try done.
    + intros x. rewrite Hs1, Hf2. unfold in_block.
      assert (cur <= x < end_ <-> cur <= x < cur + bsize o \/ cur + bsize o <= x < end_) by lia. tauto.
    + intros Hfp. apply Hs4. simpl. rewrite Hcnt, order_to_pages_eq, Hfp by lia.
      pose proof (count_free_nonneg bs). pose proof (count_free_nonneg (block_state s)).
      pose proof (g_small _ (b_geom _ _ _ Hi1)). simpl in *.
      apply u64_small. unfold is_u64. pose proof (Z.pow_nonneg 2 (Z.of_nat o) ltac:(lia)). lia.
Qed.

Lemma added_trans s1 s2 s3 (P Q R : Z -> Prop) :
  added s1 s2 P -> added s2 s3 Q -> (forall x, R x <-> P x \/ Q x) -> added s1 s3 R.
Proof.
  intros (_ & H1 & H2 & H3 & H4) (HL & H5 & H6 & H7 & H8) HR. split_and!; auto; try congruence.
  intros x. rewrite H5, H1, HR. tauto.
Qed.

Lemma PAGE_ALIGN_UP_spec a :
  0 <= a <= 2 ^ 63 -> aligned 0 (PAGE_ALIGN_UP a) /\ a <= PAGE_ALIGN_UP a < a + PAGE_SIZE.
Proof.
  intros Ha. unfold PAGE_ALIGN_UP, aligned. rewrite bsize_0.
  rewrite u64_small by (unfold is_u64, PAGE_SIZE; lia).
  change (PAGE_SIZE - 1) with (Z.ones 12).
  rewrite Z.ldiff_ones_r by lia. rewrite Z.shiftl_mul_pow2, Z.shiftr_div_pow2 by lia.
  change (2 ^ 12) with PAGE_SIZE. split; [apply Z.divide_factor_r|].
  pose proof (Z.div_mod (a + Z.ones 12) PAGE_SIZE ltac:(done)).
  pose proof (Z.mod_pos_bound (a + Z.ones 12) PAGE_SIZE ltac:(done)).
  change (Z.ones 12) with 4095 in *. unfold PAGE_SIZE in *. lia.
Qed.

Lemma PAGE_ALIGN_UP_aligned a : 0 <= a <= 2 ^ 63 -> aligned 0 a -> PAGE_ALIGN_UP a = a.
Proof.
  intros Ha Hal. destruct (PAGE_ALIGN_UP_spec a Ha) as [Hal' Hb].
  destruct (decide (a < PAGE_ALIGN_UP a)) as [Hlt|]; [|lia].
  pose proof (aligned_page_le _ _ Hal Hal' Hlt) as Hle. rewrite bsize_0 in Hle. lia.
Qed.

Lemma pmm_add_region_spec start end_ s L :
  binv s L no_hole -> heap_start s <= start < end_ -> end_ <= heap_end s ->
  aligned 0 start -> aligned 0 end_ -> (forall x, start - 1 <= x <= end_ -> ~ is_free s x) ->
  exists s', pmm_add_region start end_ s = Some s' /\ added s s' (fun x => start <= x < end_).
Proof.
  intros Hi Hle He Has Hae Hnf. unfold pmm_add_region.
  pose proof (g_top _ (b_geom _ _ _ Hi)). pose proof (g_pos _ (b_geom _ _ _ Hi)).
  rewrite PAGE_ALIGN_UP_aligned by (done || lia).
  eapply add_region_loop_spec; try done; try lia.
  - intros x Hx. apply Hnf. lia.
  - intros o c Ho Hl Hc. exfalso. apply (Hnf (start - 1)); [lia|].
    eapply listed_free; [done..|]. unfold in_block. pose proof (bsize_pos o). lia.
  - assert (0 <= (end_ - start) / PAGE_SIZE) by (apply Z.div_pos; unfold PAGE_SIZE; lia). lia.
Qed.

(** *** Sequences of separated ranges *)

Definition all_aligned (l : list (Z * Z)) : Prop :=
  forall a b, (a, b) ∈ l -> aligned 0 a /\ aligned 0 b.

Lemma all_aligned_cons a b l :
  all_aligned ((a, b) :: l) -> aligned 0 a /\ aligned 0 b /\ all_aligned l.
Proof.
  intros Hal. destruct (Hal a b) as [? ?]; [apply elem_of_cons; auto|].
  split_and!; try done. intros a' b' Hin. apply Hal, elem_of_cons. auto.
Qed.

Lemma add_regions_spec l s lo hi :
  (exists L, binv s L no_hole) -> Carve.separated lo hi l -> all_aligned l ->
  heap_start s <= lo -> hi <= heap_end s -> (forall x, lo - 1 <= x -> ~ is_free s x) ->
  exists s', add_regions l s = Some s' /\ added s s' (Carve.covered l).
Proof.
  revert s lo. induction l as [|[a b] l IH]; intros s lo [L Hi] Hsep Hal Hlo Hhi Hnf; cbn [add_regions].
  - exists s. split; [done|]. split_and!; eauto. intros x. rewrite Carve.covered_nil. tauto.
  - apply all_aligned_cons in Hal as (Ha & Hb & Hal). destruct Hsep as (Hab & Hbhi & Hsep).
    destruct (pmm_add_region_spec a b s L Hi) as (s1 & -> & Hadd); try done; try lia.
    { intros x Hx. apply Hnf. lia. }
    simpl. pose proof Hadd as (HL1 & Hf1 & E1 & E2 & _).
    destruct (IH s1 (b + 1) HL1 Hsep Hal) as (s' & -> & Hadd'); try lia.
    { intros x Hx. rewrite Hf1. intros [Hfr|Hin]; [|lia]. apply (Hnf x); [lia|done]. }
    exists s'. split; [done|]. eapply added_trans; [done..|].
    intros x. by rewrite Carve.covered_cons.
Qed.

(** [x] lies in a region and in no reservation. *)
Definition usable (rs : list (Z * Z)) (rsv : list memreserve) (x : Z) : Prop :=
  Carve.covered rs x /\ forall r, r ∈ rsv -> ~ Carve.reserved r x.

Definition page_reserves (rsv : list memreserve) : Prop :=
  forall r, r ∈ rsv -> aligned 0 (Carve.addr r) /\ aligned 0 (Carve.rsv_end r).

Lemma split_rsv_length fw user : Z.of_nat (length (split_rsv fw user)) < PMM_SPLIT_RSV_MAX + 1.
Proof.
  unfold split_rsv. rewrite length_app, length_take.
  set (rsv := dtb_get_memreserves fw DTB_MAX_MEMRESERVES).
  assert (Z.of_nat (length rsv) <= DTB_MAX_MEMRESERVES).
  { unfold rsv, dtb_get_memreserves, DTB_MAX_MEMRESERVES. simpl. rewrite length_take. lia. }
  unfold PMM_SPLIT_RSV_MAX, DTB_MAX_MEMRESERVES, PMM_MAX_USER_RESERVES in *. lia.
Qed.

Lemma pmm_add_region_split_spec fw user a b s :
  (exists L, binv s L no_hole) -> heap_start s <= a < b -> b <= heap_end s ->
  aligned 0 a -> aligned 0 b -> page_reserves (split_rsv fw user) ->
  (forall x, a - 1 <= x -> ~ is_free s x) ->
  exists s', pmm_add_region_split fw user a b s = Some s' /\
    added s s' (usable [(a, b)] (split_rsv fw user)).
Proof.
  intros HL Hab Hb Ha Hb' Hrsv Hnf. unfold pmm_add_region_split.
  destruct (Carve.carve_reserves_spec a b (PMM_SPLIT_RSV_MAX + 1) (split_rsv fw user))
    as (out & E & Hsep & _ & Hcov); [lia|apply split_rsv_length|].
  pose proof (Carve.carve_reserves_bounds (aligned 0) a b _ _ _ out Ha Hb' Hrsv E) as Hal.
  rewrite E. simpl. destruct (add_regions_spec out s a b HL Hsep Hal) as (s' & -> & Hadd); try done; try lia.
  exists s'. split; [done|]. destruct Hadd as (? & Hf & ? & ? & ?). split_and!; try done.
  intros x. rewrite Hf, Hcov. unfold usable. rewrite Carve.covered_cons, Carve.covered_nil. tauto.
Qed.

Lemma add_splits_spec fw user rs s lo hi :
  (exists L, binv s L no_hole) -> Carve.separated lo hi rs -> all_aligned rs ->
  page_reserves (split_rsv fw user) ->
  heap_start s <= lo -> hi <= heap_end s -> (forall x, lo - 1 <= x -> ~ is_free s x) ->
  exists s', add_splits fw user rs s = Some s' /\ added s s' (usable rs (split_rsv fw user)).
Proof.
  intros HL Hsep Hal Hrsv. revert s lo HL Hsep Hal.
  induction rs as [|[a b] rs IH]; intros s lo HL Hsep Hal Hlo Hhi Hnf; cbn [add_splits].
  - exists s. split; [done|]. split_and!; auto. intros x. unfold usable. rewrite Carve.covered_nil. tauto.
  - apply all_aligned_cons in Hal as (Ha & Hb & Hal). destruct Hsep as (Hab & Hbhi & Hsep).
    destruct (pmm_add_region_split_spec fw user a b s HL) as (s1 & -> & Hadd); try done; try lia.
    { intros x Hx. apply Hnf. lia. }
    simpl. pose proof Hadd as (HL1 & Hf1 & E1 & E2 & _).
    destruct (IH s1 (b + 1) HL1 Hsep Hal) as (s' & -> & Hadd'); try lia.
    { intros x Hx. rewrite Hf1. unfold usable. rewrite Carve.covered_cons, Carve.covered_nil.
      intros [Hfr|[[Hin|[]] _]]; [|lia]. apply (Hnf x); [lia|done]. }
    exists s'. split; [done|]. eapply added_trans; [done..|].
    intros x. unfold usable. rewrite !Carve.covered_cons, Carve.covered_nil. tauto.
Qed.

(** ** Initialisation establishes the invariant *)

(** What [pmm_init] needs of a platform and of the end of the kernel image. *)
Record platform_ok (p : platform) (kernel_end : Z) : Prop := {
  p_kernel : 0 < kernel_end <= 2 ^ 62;
  p_le : PAGE_ALIGN_UP kernel_end <= heap_top p;
  p_top : heap_top p <= 2 ^ 63;
  p_page : aligned 0 (heap_top p);
  p_blocks : (heap_top p - PAGE_ALIGN_UP kernel_end) / PAGE_SIZE < MAX_BLOCKS p <= 2 ^ 52;
  p_regions : Carve.separated (PAGE_ALIGN_UP kernel_end) (heap_top p)
    (regions p (PAGE_ALIGN_UP kernel_end) (heap_top p));
  p_aligned : all_aligned (regions p (PAGE_ALIGN_UP kernel_end) (heap_top p))
}.

Lemma one_region_ok p kernel_end :
  regions p = one_region -> 0 < kernel_end <= 2 ^ 62 -> PAGE_ALIGN_UP kernel_end < heap_top p ->
  heap_top p <= 2 ^ 63 -> aligned 0 (heap_top p) ->
  (heap_top p - PAGE_ALIGN_UP kernel_end) / PAGE_SIZE < MAX_BLOCKS p <= 2 ^ 52 ->
  platform_ok p kernel_end.
Proof.
  intros Hr Hk Hlt Htop Ha Hb. destruct (PAGE_ALIGN_UP_spec kernel_end ltac:(lia)) as [Hal _].
  constructor; try done; try lia; rewrite Hr; unfold one_region.
  - simpl. lia.
  - intros a b [= -> ->]%list_elem_of_singleton. done.
Qed.

(** The heap starts above the first page of RAM, so it has fewer pages than
    [block_state] entries. *)
Lemma heap_blocks p kernel_end :
  0 < kernel_end <= 2 ^ 62 -> RAM_BASE p + PAGE_SIZE <= kernel_end ->
  heap_top p <= RAM_BASE p + RAM_SIZE p -> (heap_top p - PAGE_ALIGN_UP kernel_end) / PAGE_SIZE < MAX_BLOCKS p.
Proof.
  intros Hk Hlo Hhi. destruct (PAGE_ALIGN_UP_spec kernel_end ltac:(lia)) as [_ Hb].
  unfold MAX_BLOCKS. apply Z.lt_le_trans with ((RAM_SIZE p + (-1) * PAGE_SIZE) / PAGE_SIZE + 1).
  - apply Z.lt_succ_r, Z.div_le_mono; unfold PAGE_SIZE in *; lia.
  - rewrite Z.div_add by done. lia.
Qed.

(** The platforms the kernel is built for, with the kernel image where the
    linker scripts put it: above the first page of RAM and below the heap's end. *)
Inductive shipped : platform -> Z -> Prop :=
  | ship_qemu k : 0x40001000 <= k <= 0x7FFFE000 -> shipped qemu_virt k
  | ship_raspi5 k : 0x80000 <= k <= 0xFFDFE000 -> shipped raspi5 k
  | ship_jetson k : 0x80001000 <= k <= 0xA0FFE000 -> shipped jetson_orin_nano k
  | ship_x86 k ram_end :
      0x201000 <= k -> k + 0x2000 <= ram_end <= 0x500000000 -> aligned 0 ram_end ->
      shipped (x86_64 ram_end) k.

Lemma shipped_ok p kernel_end : shipped p kernel_end -> platform_ok p kernel_end.
Proof.
  intros Hs. assert (Hk : 0 < kernel_end <= 2 ^ 62) by (destruct Hs; lia).
  destruct (PAGE_ALIGN_UP_spec kernel_end ltac:(lia)) as [Hal Hb]. unfold PAGE_SIZE in Hb.
  assert (Hblk : forall q : platform, RAM_BASE q + PAGE_SIZE <= kernel_end ->
    heap_top q <= RAM_BASE q + RAM_SIZE q -> MAX_BLOCKS q <= 2 ^ 52 ->
    (heap_top q - PAGE_ALIGN_UP kernel_end) / PAGE_SIZE < MAX_BLOCKS q <= 2 ^ 52).
  { intros q H1 H2 H3. split; [|done]. by apply heap_blocks. }
  destruct Hs as [k Hr|k Hr|k Hr|k re Hk1 Hk2 Hre].
  - apply one_region_ok; try done; try (simpl; lia); [by exists 0x80000|].
    apply Hblk; unfold PAGE_SIZE; simpl; try lia. by vm_compute.
  - apply one_region_ok; try done; try (simpl; lia); [by exists 0xFFE00|].
    apply Hblk; unfold PAGE_SIZE; simpl; try lia. by vm_compute.
  - constructor; try done; try (simpl; lia); [by exists 0x280000|..].
    + apply Hblk; unfold PAGE_SIZE; simpl; try lia. by vm_compute.
    + unfold jetson_orin_nano, CAMRTC_FRAME_BUFFER_END, CAMRTC_FRAME_BUFFER_PHYS. simpl. lia.
    + intros a b. simpl. rewrite !elem_of_cons, elem_of_nil.
      intros [[= -> ->]|[[= -> ->]|[[= -> ->]|[[= -> ->]|[]]]]]; (split; [|]); try done;
        apply Z.mod_divide; done.
  - assert (E : heap_top (x86_64 re) = re) by (simpl; by rewrite (proj2 (Z.ltb_lt 0 re)) by lia).
    apply one_region_ok; rewrite ?E; try done; try lia. rewrite <- E at 1. apply Hblk; rewrite ?E;
      unfold PAGE_SIZE; simpl; try lia. by vm_compute.
Qed.

Lemma init_geom m hs he n tp rp ini :
  0 < hs -> aligned 0 hs -> aligned 0 he -> hs <= he <= 2 ^ 63 ->
  (he - hs) / PAGE_SIZE < n <= 2 ^ 52 ->
  let s := Pmm (FreeLists (replicate (S MAX_ORDER) 0) (replicate (S MAX_ORDER) 0) m)
    hs he tp 0 rp 0 0 0 0 ini (replicate (Z.to_nat n) BLOCK_ALLOCATED) in
  binv s (replicate (S MAX_ORDER) []) no_hole /\ (forall x, ~ is_free s x) /\
  free_pages s = count_free (block_state s).
Proof.
  intros Hpos Ha He Hle Hn s.
  assert (Hnf : forall x, ~ is_free s x).
  { intros x [_ Hx]. unfold s in Hx. simpl in Hx. apply lookup_replicate in Hx as [Hx _]. done. }
  assert (Hl : forall o a, ~ listed (replicate (S MAX_ORDER) []) o a).
  { intros o a (l & Hl & Hin). apply lookup_replicate in Hl as [-> _]. by apply not_elem_of_nil in Hin. }
  split; [|split; [done|]].
  2:{ simpl. rewrite count_free_replicate. by rewrite decide_False. }
  assert (0 <= (he - hs) / PAGE_SIZE) by (apply Z.div_pos; unfold PAGE_SIZE; lia).
  constructor.
  - constructor; cbn [s heap_start heap_end block_state]; rewrite ?length_replicate; try done; try lia.
  - apply repr_empty.
  - intros o a Hla. destruct (Hl o a Hla).
  - intros o a o' a' x Hla. destruct (Hl o a Hla).
  - intros o a x Hla. destruct (Hl o a Hla).
  - intros x _. split; [intros Hx; destruct (Hnf x Hx)|]. intros (o & a & Hla & _). destruct (Hl o a Hla).
  - intros o a _ Hla. destruct (Hl o a Hla).
Qed.

(** The corruption checks pass. *)
Lemma head_ok_spec s L o : binv s L no_hole -> (o <= MAX_ORDER)%nat -> head_ok s o = true.
Proof.
  intros Hi Ho. destruct (repr_order _ _ o (b_repr _ _ _ Hi) Ho) as [l Hl].
  destruct (repr_dll _ _ (b_repr _ _ _ Hi) _ _ Hl) as [Hd _]. unfold head_ok.
  assert (Hin : forall a, a ∈ l -> (heap_start s <=? a) && (a <? heap_end s) = true).
  { intros a Ha. destruct (b_block _ _ _ Hi o a) as (_ & ? & ?); [by exists l|].
    pose proof (bsize_pos o). apply andb_true_iff. rewrite Z.leb_le, Z.ltb_lt. lia. }
  destruct l as [|a l]; simpl in Hd; [by rewrite Hd|]. destruct Hd as (-> & Ha & Hp & Hd).
  rewrite (proj2 (Z.eqb_neq a 0)), Hin by (done || apply elem_of_cons; auto). rewrite Hp. simpl.
  destruct l as [|b l]; simpl in Hd; [by rewrite Hd|]. destruct Hd as (-> & Hb & _).
  rewrite (proj2 (Z.eqb_neq b 0)) by done. simpl. apply Hin. rewrite !elem_of_cons. auto.
Qed.

Lemma init_spec p kernel_end fw user s :
  platform_ok p kernel_end -> page_reserves (split_rsv fw user) ->
  exists s', pmm_init p kernel_end fw user s = Some s' /\ inv s' /\
    heap_start s' = PAGE_ALIGN_UP kernel_end /\ heap_end s' = heap_top p /\
    (forall x, is_free s' x <->
       usable (regions p (PAGE_ALIGN_UP kernel_end) (heap_top p)) (split_rsv fw user) x).
Proof.
  intros [] Hrsv. unfold pmm_init. destruct (PAGE_ALIGN_UP_spec kernel_end ltac:(lia)) as [Hal Hb].
  set (hs := PAGE_ALIGN_UP kernel_end) in *. cbv zeta. set (s0 := Pmm _ _ _ _ _ _ _ _ _ _ _ _).
  destruct (init_geom (mem (lists s)) hs (heap_top p) (MAX_BLOCKS p) ((heap_top p -64 hs) / PAGE_SIZE)
    ((hs -64 RAM_BASE p) / PAGE_SIZE) (initialized s)) as (Hi & Hnf & Hfp); try done; try lia.
  destruct (add_splits_spec fw user (regions p hs (heap_top p)) s0 hs (heap_top p))
    as (s1 & -> & [L HL] & Hf & E1 & E2 & E3); try done; try (simpl; lia).
  { eexists. exact Hi. }
  unfold mbind, option_bind. rewrite (proj2 (forallb_forall _ _)).
  2:{ intros o Ho. apply in_seq in Ho. eapply head_ok_spec; [done|lia]. }
  eexists. split; [done|]. split; [|split; [done|split; [done|]]].
  - split; [done|]. split; [|simpl; auto]. exists L. by eapply binv_proj.
  - intros x. change (is_free (set_initialized s1) x) with (is_free s1 x). rewrite Hf.
    specialize (Hnf x). tauto.
Qed.

End PmmInit.
