(* ===== verification/PmmSpec.v ===== *)
(** Correctness of the physical memory manager's public interface, from
    initialisation to arbitrary sequences of client calls. *)

From S2P Require Import Prelude Carve FreeList Buddy BuddyInv BuddyStep BuddySpec PmmInit.

Open Scope Z_scope.
Open Scope slm_scope.

Module PmmSpec.
Import FreeList Buddy BuddyInv BuddyStep BuddySpec PmmInit.

(** ** Helper lemmas *)

Lemma alloc_pages_spec count s :
  inv s -> 0 < count <= 2 ^ 63 ->
  exists p s', pmm_alloc_pages count s = Some (p, s') /\ inv s' /\
    ((p <> 0 /\ (order_for count <= MAX_ORDER)%nat /\ allocated s s' (order_for count) p) \/
     (p = 0 /\ s' = s /\ ((MAX_ORDER < order_for count)%nat \/ exhausted s (order_for count)))).
Proof.
  intros Hinv Hc. pose proof Hinv as (Hini & [L Hi] & _). unfold pmm_alloc_pages.
  rewrite Hini, (proj2 (Z.eqb_neq count 0)), log2_ceil_order by lia. simpl.
  destruct (Nat.ltb_spec MAX_ORDER (order_for count)) as [Hlt|Hge].
  { exists 0, s. split_and!; auto. }
  destruct (buddy_alloc_spec (order_for count) s Hinv Hge) as [(a & s' & -> & Hinv' & Hal)|[-> Hex]]; simpl.
  - pose proof Hal as (_ & Ha1 & Ha2 & _). pose proof (b_geom _ _ _ Hi) as Hg.
    pose proof (g_pos _ Hg). pose proof (g_top _ Hg). pose proof (bsize_pos (order_for count)).
    rewrite (proj2 (Z.eqb_neq _ _)) by (unfold PMM_ALLOC_FAIL; lia).
    exists a, s'. split_and!; auto. left. split_and!; auto. lia.
  - exists 0, s. split_and!; auto.
Qed.

Lemma alloc_pages_low_spec count s :
  inv s -> 0 < count <= 2 ^ 63 ->
  exists p s', pmm_alloc_pages_low count s = Some (p, s') /\ inv s' /\
    ((p <> 0 /\ (order_for count <= MAX_ORDER)%nat /\ allocated s s' (order_for count) p /\
      forall b, aligned (order_for count) b ->
        (forall x, in_block b (order_for count) x -> is_free s x) -> p <= b) \/
     (p = 0 /\ s' = s /\ ((MAX_ORDER < order_for count)%nat \/ exhausted s (order_for count)))).
Proof.
  intros Hinv Hc. pose proof Hinv as (Hini & [L Hi] & _). unfold pmm_alloc_pages_low.
  rewrite Hini, (proj2 (Z.eqb_neq count 0)), log2_ceil_order by lia. cbn [negb]. unfold mbind at 1, option_bind at 1.
  destruct (Nat.ltb_spec MAX_ORDER (order_for count)) as [Hlt|Hge].
  { exists 0, s. split_and!; auto. }
  destruct (low_alloc_spec (order_for count) s Hinv Hge) as ([[a o] found] & -> & Hbest).
  unfold mbind at 1, option_bind at 1. destruct found; cbn [negb].
  - destruct Hbest as [(s' & E & Hinv' & Hal) Hmin]. pose proof Hal as (_ & Ha1 & _).
    pose proof (g_pos _ (b_geom _ _ _ Hi)). exists a, s'. split_and!; auto. left. split_and!; auto. lia.
  - exists 0, s. split_and!; auto.
Qed.

Lemma page_aligned_land p : negb (Z.land p (PAGE_SIZE - 1) =? 0) = false <-> aligned 0 p.
Proof.
  rewrite <- (is_aligned_to_order_spec p 0) by lia. unfold is_aligned_to_order.
  change (order_to_size 0) with PAGE_SIZE. by rewrite negb_false_iff.
Qed.

Lemma free_pages_spec p count s :
  inv s -> 0 < count <= 2 ^ 63 -> (order_for count <= MAX_ORDER)%nat ->
  is_allocated s (order_for count) p ->
  exists s', pmm_free_pages p count s = Some s' /\ inv s' /\ released s s' (order_for count) p.
Proof.
  intros Hinv Hc Ho Hal. pose proof Hinv as (Hini & [L Hi] & _). pose proof Hal as (Ha & Hle & He & Hnf).
  pose proof (b_geom _ _ _ Hi) as Hg. pose proof (g_pos _ Hg). pose proof (bsize_pos (order_for count)).
  unfold pmm_free_pages. rewrite Hini, (proj2 (Z.eqb_neq count 0)), (proj2 (Z.eqb_neq p 0)) by lia.
  rewrite (proj2 (Z.ltb_ge p _)), (proj2 (Z.leb_gt _ p)) by lia. cbn [negb orb].
  rewrite (proj2 (page_aligned_land p)) by (eapply aligned_le; [|done]; lia).
  rewrite log2_ceil_order by lia. unfold mbind at 1, option_bind at 1.
  rewrite (proj2 (Nat.ltb_ge _ _)) by done.
  rewrite (proj2 (is_aligned_to_order_spec p (order_for count) ltac:(lia))) by done. cbn [negb].
  unfold get_block_state. rewrite addr_to_block_index_eq by (done || lia). simpl. rewrite Nat2Z.id.
  pose proof (page_bound s Hg _ _ Ha Hle He) as Hpb.
  destruct (lookup_lt_is_Some_2 (block_state s) (page_of s p) ltac:(lia)) as [w Hw]. rewrite Hw. simpl.
  destruct (Z.eqb_spec w BLOCK_FREE) as [->|Hne].
  - exfalso. apply (Hnf p); [unfold in_block; lia|]. by apply is_free_page.
  - by apply buddy_free_spec.
Qed.

(** The blocks on the lists are determined by the set of free pages. *)
Lemma lists_canonical s L s' L' :
  binv s L no_hole -> binv s' L' no_hole -> (forall x, is_free s x <-> is_free s' x) ->
  forall o a, listed L o a -> listed L' o a.
Proof.
  intros Hi Hi' Hf o a Hl.
  assert (Hmax : (o <= MAX_ORDER)%nat) by (eapply listed_order; [apply Hi|done]).
  destruct (b_block _ _ _ Hi o a Hl) as (Ha & _).
  destruct (free_block_listed s' L' no_hole o a Hi' Hmax Ha) as (j & c & Hj & Hlc & Hc & He).
  { intros x Hx. split; [|by intros []]. apply Hf. by eapply listed_free. }
  assert (Hmaxj : (j <= MAX_ORDER)%nat) by (eapply listed_order; [apply Hi'|done]).
  destruct (b_block _ _ _ Hi' j c Hlc) as (Hca & _).
  destruct (free_block_listed s L no_hole j c Hi Hmaxj Hca) as (k & d & Hk & Hld & Hd & He').
  { intros x Hx. split; [|by intros []]. apply Hf. by eapply listed_free. }
  pose proof (bsize_pos o). pose proof (bsize_pos j).
  destruct (b_disj _ _ _ Hi o a k d a Hl Hld) as [-> ->]; [unfold in_block; lia..|].
  assert (j = k) as -> by lia. assert (c = d) as -> by lia. done.
Qed.

(** ** A small machine for the witnesses *)

Definition demo_platform : platform := Platform 0x40000000 0x40000 0x40040000 one_region.

Lemma demo_platform_ok : platform_ok demo_platform 0x40001234.
Proof.
  apply one_region_ok; try done; try (vm_compute; done).
  - exists 0x40040. done.
Qed.

Definition pmm_zero : pmm :=
  Pmm (FreeLists [] [] (fun _ => FreeBlock 0 0)) 0 0 0 0 0 0 0 0 0 false [].

(** 64 pages of RAM, two of them below the heap and one reserved. *)
Definition demo : pmm :=
  default pmm_zero (pmm_init demo_platform 0x40001234 [Carve.MemReserve 0x40010000 0x1000] [] pmm_zero).

Lemma demo_inv : inv demo.
Proof.
  destruct (init_spec demo_platform 0x40001234 [Carve.MemReserve 0x40010000 0x1000] [] pmm_zero)
    as (s' & E & Hinv & _).
  - apply demo_platform_ok.
  - intros r. replace (split_rsv _ _) with [Carve.MemReserve 0x40010000 0x1000] by (vm_compute; reflexivity).
    rewrite list_elem_of_singleton. intros ->. split; apply Z.mod_divide; done.
  - unfold demo. by rewrite E.
Qed.

(** ** The interface *)



(** C21. [pmm_alloc_pages] never fails internally and keeps the invariant.  It either
    returns an aligned block of [2 ^ ceil(log2 count)] pages that was wholly free,
    taking exactly those pages out of the free memory, or returns NULL, leaves the
    state alone, and then no such block existed (or the order exceeds MAX_ORDER). *)
Theorem pmm_alloc_pages_correct (count : Z) (s : pmm) :
  inv s -> 0 < count <= 2 ^ 63 ->
  exists p s', pmm_alloc_pages count s = Some (p, s') /\ inv s' /\
    count <= 2 ^ Z.of_nat (order_for count) /\
    ((p <> 0 /\ (order_for count <= MAX_ORDER)%nat /\ allocated s s' (order_for count) p) \/
     (p = 0 /\ s' = s /\ ((MAX_ORDER < order_for count)%nat \/ exhausted s (order_for count)))).
Proof.
  intros Hinv Hc. destruct (alloc_pages_spec count s Hinv Hc) as (p & s' & E & Hinv' & H).
  exists p, s'. split_and!; try done. apply order_for_pow2. lia.
Qed.

(** Witness of C21: five pages of the small machine. *)
Lemma pmm_alloc_pages_correct_witness :
  exists p s', pmm_alloc_pages 5 demo = Some (p, s') /\ inv s'.
Proof.
  destruct (pmm_alloc_pages_correct 5 demo demo_inv) as (p & s' & E & Hinv & _); [lia|].
  exists p, s'. split; assumption.
Defined.

(** C32. [pmm_alloc_pages_low] behaves as [pmm_alloc_pages] and moreover returns the
    lowest address at which any aligned free block of the requested order exists. *)
Theorem pmm_alloc_pages_low_lowest (count : Z) (s : pmm) :
  inv s -> 0 < count <= 2 ^ 63 ->
  exists p s', pmm_alloc_pages_low count s = Some (p, s') /\ inv s' /\
    ((p <> 0 /\ (order_for count <= MAX_ORDER)%nat /\ allocated s s' (order_for count) p /\
      forall b, aligned (order_for count) b ->
        (forall x, in_block b (order_for count) x -> is_free s x) -> p <= b) \/
     (p = 0 /\ s' = s /\ ((MAX_ORDER < order_for count)%nat \/ exhausted s (order_for count)))).
Proof. apply alloc_pages_low_spec. Qed.

(** Witness of C32: two pages of the small machine. *)
Lemma pmm_alloc_pages_low_lowest_witness :
  exists p s', pmm_alloc_pages_low 2 demo = Some (p, s') /\ inv s'.
Proof.
  destruct (pmm_alloc_pages_low_lowest 2 demo demo_inv) as (p & s' & E & Hinv & _); [lia|].
  exists p, s'. split; assumption.
Defined.

(** C20. Releasing an allocated block with its page count succeeds, keeps the invariant
    (so every merge takes the buddy off the list it really is on) and adds exactly
    the block's pages to the free memory. *)
Theorem pmm_free_pages_correct (p count : Z) (s : pmm) :
  inv s -> 0 < count <= 2 ^ 63 -> (order_for count <= MAX_ORDER)%nat ->
  is_allocated s (order_for count) p ->
  exists s', pmm_free_pages p count s = Some s' /\ inv s' /\ released s s' (order_for count) p.
Proof. apply free_pages_spec. Qed.

(** Witness of C20: the reserved page of the small machine, handed to the allocator. *)
Lemma pmm_free_pages_correct_witness :
  exists s', pmm_free_pages 0x40010000 1 demo = Some s' /\ inv s'.
Proof.
  destruct (pmm_free_pages_correct 0x40010000 1 demo demo_inv) as (s' & E & Hinv & _).
  - lia.
  - vm_compute. lia.
  - split; [exists 0x40010; vm_compute; reflexivity|]. split; [vm_compute; congruence|].
    split; [vm_compute; congruence|].
    change (order_for 1) with 0%nat. intros x Hx [_ Hf]. revert Hf. unfold in_block in Hx. rewrite bsize_0 in Hx.
    replace ((x - heap_start demo) / PAGE_SIZE) with 14; [vm_compute; congruence|].
    replace (heap_start demo) with 0x40002000 by (vm_compute; reflexivity).
    apply Z.div_unique with (x - 0x40010000); unfold PAGE_SIZE in *; lia.
  - exists s'. split; assumption.
Defined.

(** [pmm_free_pages] rejects every invalid call without changing anything: no
    pages, NULL, an address outside the heap or not page aligned, an order above
    MAX_ORDER, an address not aligned for the order, and a double free. *)
Theorem pmm_free_pages_rejects (p count : Z) (s : pmm) :
  inv s -> 0 <= count <= 2 ^ 63 ->
  count = 0 \/ p = 0 \/ p < heap_start s \/ heap_end s <= p \/ ~ aligned 0 p \/
  (MAX_ORDER < order_for count)%nat \/ ~ aligned (order_for count) p \/ is_free s p ->
  pmm_free_pages p count s = Some s.
Proof.
  intros (Hini & [L Hi] & _) Hc Hbad. pose proof (b_geom _ _ _ Hi) as Hg. unfold pmm_free_pages.
  rewrite Hini. cbn [negb]. destruct (Z.eqb_spec count 0); [done|].
  destruct (Z.eqb_spec p 0); [done|]. cbn [orb].
  destruct (Z.ltb_spec p (heap_start s)); [done|].
  destruct (Z.leb_spec (heap_end s) p); [done|]. cbn [orb].
  destruct (negb (Z.land p (PAGE_SIZE - 1) =? 0)) eqn:Hpa; [done|]. apply page_aligned_land in Hpa.
  rewrite log2_ceil_order by lia. unfold mbind at 1, option_bind at 1.
  destruct (Nat.ltb_spec MAX_ORDER (order_for count)); [done|].
  destruct (is_aligned_to_order p (order_for count)) eqn:Hao; [|done]. cbn [negb].
  apply is_aligned_to_order_spec in Hao; [|lia].
  assert (Hf : is_free s p).
  { destruct Hbad as [?|[?|[?|[?|[?|[?|[?|?]]]]]]]; (lia || done). }
  unfold get_block_state. rewrite addr_to_block_index_eq by (done || lia). simpl. rewrite Nat2Z.id.
  apply is_free_page in Hf; [|done]. by rewrite Hf.
Qed.

(** An instance: freeing a page of the small machine that is free already. *)
Lemma pmm_free_pages_rejects_witness : pmm_free_pages 0x40003000 1 demo = Some demo.
Proof.
  apply (pmm_free_pages_rejects 0x40003000 1 demo demo_inv); [lia|].
  do 7 right. split; [vm_compute; congruence|]. vm_compute. reflexivity.
Defined.

(** C31. Allocating and then freeing restores the allocator: the same pages are free,
    the same number is counted, and the free lists hold the same blocks with the
    same orders, every split having been undone by a merge. *)
Theorem pmm_alloc_free_roundtrip (count p : Z) (s s1 : pmm) :
  inv s -> 0 < count <= 2 ^ 63 -> pmm_alloc_pages count s = Some (p, s1) -> p <> 0 ->
  exists s2, pmm_free_pages p count s1 = Some s2 /\ inv s2 /\
    (forall x, is_free s2 x <-> is_free s x) /\ free_pages s2 = free_pages s /\
    (forall L L2, binv s L no_hole -> binv s2 L2 no_hole -> forall o a, listed L2 o a <-> listed L o a).
Proof.
  intros Hinv Hc E Hp. destruct (alloc_pages_spec count s Hinv Hc) as (p' & s1' & E' & Hinv1 & Hres).
  rewrite E in E'. injection E' as <- <-. destruct Hres as [(_ & Ho & Hal)|(? & _)]; [|done].
  destruct Hal as (Ha & Hle & He & Hfree & Hf1 & Hs & Hend & Hfp).
  destruct (free_pages_spec p count s1 Hinv1 Hc Ho) as (s2 & E2 & Hinv2 & Hf2 & _ & _ & Hfp2).
  { split_and!; try done; try lia. intros x Hx. rewrite Hf1. tauto. }
  assert (Hsame : forall x, is_free s2 x <-> is_free s x).
  { intros x. rewrite Hf2, Hf1. specialize (Hfree x).
    assert (in_block p (order_for count) x \/ ~ in_block p (order_for count) x) by (unfold in_block; lia).
    tauto. }
  exists s2. split_and!; try done; try lia. intros L L2 HL HL2 o a.
  split; by eapply lists_canonical.
Qed.

(** Witness of C31: three pages of the small machine. *)
Lemma pmm_alloc_free_roundtrip_witness :
  exists p s1 s2, pmm_alloc_pages 3 demo = Some (p, s1) /\ pmm_free_pages p 3 s1 = Some s2 /\
    free_pages s2 = free_pages demo.
Proof.
  assert (Hp : fst <$> pmm_alloc_pages 3 demo = Some 0x40014000) by (vm_compute; reflexivity).
  destruct (pmm_alloc_pages 3 demo) as [[p s1]|] eqn:E; [|simpl in Hp; congruence].
  simpl in Hp. destruct (pmm_alloc_free_roundtrip 3 p demo s1 demo_inv ltac:(lia) E) as (s2 & E2 & _ & _ & Hfp & _).
  - congruence.
  - exists p, s1, s2. split; [reflexivity|]. split; assumption.
Defined.

(** ** Sequences of client calls *)

Inductive call :=
  | CallAlloc (count : Z)
  | CallAllocLow (count : Z)
  | CallFree (i : nat).

(** The allocator and the allocations a client holds, as address and page count. *)
Record session := Session { st : pmm; held : list (Z * Z) }.

Definition keep (count : Z) (r : Z * pmm) (h : list (Z * Z)) : session :=
  let '(p, s) := r in
  if p =? 0 then Session s h else Session s (h ++ [(p, count)]).

(** One call; a free is of an allocation the client holds. *)
Definition do_call (c : call) (ss : session) : option session :=
  match c with
  | CallAlloc n => r ← pmm_alloc_pages n (st ss); Some (keep n r (held ss))
  | CallAllocLow n => r ← pmm_alloc_pages_low n (st ss); Some (keep n r (held ss))
  | CallFree i =>
      match held ss !! i with
      | Some (p, n) => s ← pmm_free_pages p n (st ss); Some (Session s (delete i (held ss)))
      | None => Some ss
      end
  end.

Fixpoint run_calls (cs : list call) (ss : session) : option session :=
  match cs with
  | [] => Some ss
  | c :: cs => ss ← do_call c ss; run_calls cs ss
  end.

Definition call_ok (c : call) : Prop :=
  match c with CallAlloc n | CallAllocLow n => 0 < n <= 2 ^ 63 | CallFree _ => True end.

(** The pages the client holds. *)
Definition held_pages (h : list (Z * Z)) : Z :=
  foldr (fun '(_, n) acc => 2 ^ Z.of_nat (order_for n) + acc) 0 h.

(** Held blocks are allocated, pairwise disjoint and accounted for. *)
Record session_ok (total : Z) (ss : session) : Prop := {
  ss_inv : inv (st ss);
  ss_held : forall p n, (p, n) ∈ held ss ->
    0 < n <= 2 ^ 63 /\ (order_for n <= MAX_ORDER)%nat /\ is_allocated (st ss) (order_for n) p;
  ss_disj : forall i j p n q m x, held ss !! i = Some (p, n) -> held ss !! j = Some (q, m) ->
    in_block p (order_for n) x -> in_block q (order_for m) x -> i = j;
  ss_count : free_pages (st ss) + held_pages (held ss) = total
}.

Lemma held_pages_app h1 h2 : held_pages (h1 ++ h2) = held_pages h1 + held_pages h2.
Proof. induction h1 as [|[p n] h1 IH]; simpl; [done|]. rewrite IH. lia. Qed.

Lemma keep_ok total ss n p s' :
  session_ok total ss -> 0 < n <= 2 ^ 63 -> (order_for n <= MAX_ORDER)%nat -> inv s' ->
  allocated (st ss) s' (order_for n) p -> session_ok total (Session s' (held ss ++ [(p, n)])).
Proof.
  intros [Hinv Hh Hd Hct] Hn Ho Hinv' (Ha & Hle & He & Hfree & Hf & Hs & Hend & Hfp).
  constructor; simpl; [done|..].
  - intros q m. rewrite elem_of_app, list_elem_of_singleton. intros [Hin|[= -> ->]].
    + destruct (Hh q m Hin) as (? & ? & ? & ? & ? & Hnf). split_and!; try done; try lia.
      split_and!; try done; try lia. intros x Hx. rewrite Hf. specialize (Hnf x Hx). tauto.
    + split_and!; try done; try lia. split_and!; try done; try lia.
      intros x Hx. rewrite Hf. tauto.
  - assert (Hno : forall i q m x, held ss !! i = Some (q, m) -> in_block q (order_for m) x ->
      in_block p (order_for n) x -> False).
    { intros i q m x Hi Hx Hx'. destruct (Hh q m) as (_ & _ & _ & _ & _ & Hnf).
      - by eapply list_elem_of_lookup_2.
      - by apply (Hnf x Hx), Hfree. }
    intros i j q1 m1 q2 m2 x Hi Hj Hx1 Hx2.
    apply lookup_snoc_Some in Hi as [[Hil Hi]|[-> [= <- <-]]];
      apply lookup_snoc_Some in Hj as [[Hjl Hj]|[-> [= <- <-]]]; eauto.
    + destruct (Hno _ _ _ _ Hi Hx1 Hx2).
    + destruct (Hno _ _ _ _ Hj Hx2 Hx1).
  - rewrite held_pages_app. simpl. lia.
Qed.

Lemma lookup_delete_inj {A} (l : list A) k i x :
  delete k l !! i = Some x -> exists i', l !! i' = Some x /\ i' <> k /\ i = (if decide (i' < k)%nat then i' else pred i').
Proof.
  intros Hi. destruct (decide (i < k)%nat) as [Hlt|Hge].
  - rewrite list_lookup_delete_lt in Hi by done. exists i. rewrite decide_True by done. split_and!; [done|lia|done].
  - rewrite list_lookup_delete_ge in Hi by lia. exists (S i). rewrite decide_False by lia. split_and!; [done|lia|done].
Qed.

Lemma free_ok total ss i p n s' :
  session_ok total ss -> held ss !! i = Some (p, n) -> inv s' ->
  released (st ss) s' (order_for n) p -> session_ok total (Session s' (delete i (held ss))).
Proof.
  intros [Hinv Hh Hd Hct] Hi Hinv' (Hf & Hs & Hend & Hfp). constructor; simpl; [done|..].
  - intros q m Hin. apply list_elem_of_lookup in Hin as [j Hj].
    apply lookup_delete_inj in Hj as (j' & Hj & Hne & _).
    destruct (Hh q m) as (? & ? & ? & ? & ? & Hnf); [by eapply list_elem_of_lookup_2|].
    split_and!; try done; try lia. split_and!; try done; try lia.
    intros x Hx. rewrite Hf. intros [Hfr|Hx']; [by apply (Hnf x)|]. apply Hne. by eapply (Hd j' i).
  - intros j k q1 m1 q2 m2 x Hj Hk Hx1 Hx2.
    apply lookup_delete_inj in Hj as (j' & Hj & _ & ->). apply lookup_delete_inj in Hk as (k' & Hk & _ & ->).
    by rewrite (Hd _ _ _ _ _ _ _ Hj Hk Hx1 Hx2).
  - rewrite <- (take_drop_middle _ _ _ Hi) in Hct. rewrite delete_take_drop.
    rewrite held_pages_app in *. simpl in Hct. lia.
Qed.

Lemma do_call_ok total c ss :
  session_ok total ss -> call_ok c -> exists ss', do_call c ss = Some ss' /\ session_ok total ss'.
Proof.
  intros Hss Hc. pose proof (ss_inv _ _ Hss) as Hinv. destruct c as [n|n|i]; simpl in *.
  - destruct (alloc_pages_spec n (st ss) Hinv Hc) as (p & s' & -> & Hinv' & Hres). simpl.
    eexists. split; [done|]. destruct Hres as [(Hp & Ho & Hal)|(-> & -> & _)]; simpl.
    + rewrite (proj2 (Z.eqb_neq p 0)) by done. by apply keep_ok.
    + by destruct ss.
  - destruct (alloc_pages_low_spec n (st ss) Hinv Hc) as (p & s' & -> & Hinv' & Hres). simpl.
    eexists. split; [done|]. destruct Hres as [(Hp & Ho & Hal & _)|(-> & -> & _)]; simpl.
    + rewrite (proj2 (Z.eqb_neq p 0)) by done. by apply keep_ok.
    + by destruct ss.
  - destruct (held ss !! i) as [[p n]|] eqn:Hi; [|by exists ss].
    destruct (ss_held _ _ Hss p n) as (Hn & Ho & Hal); [by eapply list_elem_of_lookup_2|].
    destruct (free_pages_spec p n (st ss) Hinv Hn Ho Hal) as (s' & -> & Hinv' & Hrel). simpl.
    eexists. split; [done|]. by eapply free_ok.
Qed.

(** C3. Any sequence of allocations and of releases of held blocks runs without an
    internal failure; afterwards the held blocks are pairwise disjoint, lie in the
    heap, contain no free page, and free pages plus held pages are as many as the
    free pages at the start. *)
Theorem pmm_sessions_safe (cs : list call) (s : pmm) :
  inv s -> Forall call_ok cs ->
  exists ss, run_calls cs (Session s []) = Some ss /\ session_ok (free_pages s) ss.
Proof.
  intros Hinv Hcs.
  assert (H0 : session_ok (free_pages s) (Session s [])).
  { constructor; simpl; [done|..|lia].
    - intros p n Hin. by apply not_elem_of_nil in Hin.
    - intros i j p n q m x Hi. by rewrite lookup_nil in Hi. }
  revert H0. generalize (Session s []). induction Hcs as [|c cs Hc Hcs IH]; intros ss Hss; simpl.
  - eauto.
  - destruct (do_call_ok _ c ss Hss Hc) as (ss' & -> & Hss'). simpl. auto.
Qed.

(** Witness of C3: two allocations, a release and a low allocation on the small machine. *)
Lemma pmm_sessions_safe_witness :
  exists ss, run_calls [CallAlloc 3; CallAlloc 1; CallFree 0; CallAllocLow 2] (Session demo []) = Some ss /\
    session_ok (free_pages demo) ss.
Proof.
  apply (pmm_sessions_safe [CallAlloc 3; CallAlloc 1; CallFree 0; CallAllocLow 2] demo demo_inv).
  repeat constructor; simpl; lia.
Defined.

(** ** What the code does not guarantee *)

(** C34. A page count above [2 ^ 63] makes [log2_ceil] loop forever: its accumulator
    shifts out to zero and never reaches the count. *)
Theorem log2_ceil_diverges (fuel : nat) (n : Z) : 2 ^ 63 < n < 2 ^ 64 -> log2_ceil fuel n = None.
Proof.
  intros Hn. unfold log2_ceil. rewrite (proj2 (Z.leb_gt _ _)) by lia.
  apply log2_ceil_stuck; [lia|]. right. exists 0. split; [lia|done].
Qed.

(** Witness of C34: the largest [size_t], with a million iterations. *)
Lemma log2_ceil_diverges_witness : log2_ceil (Z.to_nat 1000000) (2 ^ 64 - 1) = None.
Proof. apply (log2_ceil_diverges (Z.to_nat 1000000) (2 ^ 64 - 1)). lia. Defined.

(** A reservation that does not start on a page boundary is not protected: its
    first bytes are in a page [pmm_init] puts on a free list. *)
Theorem unaligned_reserve_is_freed :
  exists s', pmm_init demo_platform 0x40001234 [Carve.MemReserve 0x40010100 0x100] [] pmm_zero = Some s' /\
    is_free s' 0x40010100.
Proof.
  set (r := pmm_init _ _ _ _ _).
  assert (Hb : (s ← r; block_state s !! 14%nat) = Some BLOCK_FREE) by (vm_compute; reflexivity).
  assert (Hh : heap_start <$> r = Some 0x40002000) by (vm_compute; reflexivity).
  destruct r as [s|]; [|done]. simpl in Hb, Hh. injection Hh as Hh.
  exists s. split; [done|]. unfold is_free. rewrite Hh. split; [lia|exact Hb].
Qed.

End PmmSpec.
