(* ===== verification/StealDeque.v ===== *)
(** The bounded work-stealing deque of kernel/sched/steal_deque.c.

    A deque is two arrays of [STEAL_DEQUE_CAPACITY] slots and two 32-bit indices
    that only grow, masked at each access.  [view] is the sequence of slots from
    [top] to [bottom]; every operation is shown to be the expected one on that
    sequence, also when the indices wrap around at [2 ^ 32]. *)

From S2P Require Import Prelude.

Open Scope Z_scope.
Open Scope slm_scope.

Module StealDeque.

Definition STEAL_DEQUE_CAPACITY : Z := 32.
Definition DEQUE_MASK : Z := STEAL_DEQUE_CAPACITY - 1.

(** [steal_deque_t]; a task pointer is a [Z], NULL is 0. *)
Record steal_deque := StealDeque {
  buf : list Z;
  gen_buf : list Z;
  bottom : Z;
  top : Z
}.

Definition slot (i : Z) : nat := Z.to_nat (Z.land i DEQUE_MASK).

Definition steal_deque_init : steal_deque :=
  StealDeque (replicate (Z.to_nat STEAL_DEQUE_CAPACITY) 0)
    (replicate (Z.to_nat STEAL_DEQUE_CAPACITY) 0) 0 0.

(** [t] with its generation counter. *)
Definition steal_deque_push (d : steal_deque) (t generation : Z) : Z * steal_deque :=
  let size := bottom d -32 top d in
  if STEAL_DEQUE_CAPACITY <=? size then (-1, d)
  else
    let idx := slot (bottom d) in
    (0, StealDeque (<[idx := t]> (buf d)) (<[idx := generation]> (gen_buf d))
          (bottom d +32 1) (top d)).

(** The loops return the task, its captured generation and the deque; [None] is
    running out of fuel. *)
Fixpoint pop_loop (fuel : nat) (d : steal_deque) : option (Z * Z * steal_deque) :=
  match fuel with
  | O => None
  | S fuel =>
      if bottom d =? top d then Some (0, 0, d)
      else
        let b := bottom d -32 1 in
        let idx := slot b in
        let t := buf d !!! idx in
        let gen := gen_buf d !!! idx in
        let d := StealDeque (<[idx := 0]> (buf d)) (<[idx := 0]> (gen_buf d)) b (top d) in
        if negb (t =? 0) then Some (t, gen, d) else pop_loop fuel d
  end.

Fixpoint steal_loop (fuel : nat) (d : steal_deque) : option (Z * Z * steal_deque) :=
  match fuel with
  | O => None
  | S fuel =>
      if top d =? bottom d then Some (0, 0, d)
      else
        let idx := slot (top d) in
        let t := buf d !!! idx in
        let gen := gen_buf d !!! idx in
        let d := StealDeque (<[idx := 0]> (buf d)) (<[idx := 0]> (gen_buf d))
                   (bottom d) (top d +32 1) in
        if negb (t =? 0) then Some (t, gen, d) else steal_loop fuel d
  end.

(** At most [STEAL_DEQUE_CAPACITY] slots are live. *)
Definition DEQUE_FUEL : nat := 33.

Definition steal_deque_pop (d : steal_deque) : option (Z * Z * steal_deque) := pop_loop DEQUE_FUEL d.
Definition steal_deque_steal (d : steal_deque) : option (Z * Z * steal_deque) := steal_loop DEQUE_FUEL d.

Definition steal_deque_size (d : steal_deque) : Z := bottom d -32 top d.
Definition steal_deque_is_empty (d : steal_deque) : bool := bottom d =? top d.

(** The scan of [steal_deque_remove] from index [i]. *)
Fixpoint remove_loop (fuel : nat) (i t : Z) (d : steal_deque) : option (Z * steal_deque) :=
  match fuel with
  | O => None
  | S fuel =>
      if i =? bottom d then Some (0, d)
      else if buf d !!! slot i =? t then
        Some (1, StealDeque (<[slot i := 0]> (buf d)) (<[slot i := 0]> (gen_buf d)) (bottom d) (top d))
      else remove_loop fuel (i +32 1) t d
  end.

Definition steal_deque_remove (d : steal_deque) (t : Z) : option (Z * steal_deque) :=
  if t =? 0 then Some (0, d) else remove_loop DEQUE_FUEL (top d) t d.

(** ** The sequence of live slots *)

Definition live (d : steal_deque) : nat := Z.to_nat (bottom d -32 top d).

Definition at_slot (d : steal_deque) (i : Z) : Z * Z := (buf d !!! slot i, gen_buf d !!! slot i).

Definition view (d : steal_deque) : list (Z * Z) :=
  map (fun k => at_slot d (top d + Z.of_nat k)) (seq 0 (live d)).

Record deque_ok (d : steal_deque) : Prop := {
  d_buf : length (buf d) = 32%nat;
  d_gen : length (gen_buf d) = 32%nat;
  d_bottom : is_u32 (bottom d);
  d_top : is_u32 (top d);
  d_live : (live d <= 32)%nat
}.

Lemma slot_mod i : slot i = Z.to_nat (i mod 32).
Proof. unfold slot. change DEQUE_MASK with (Z.ones 5). by rewrite Z.land_ones by lia. Qed.

Lemma slot_u32 i : slot (u32 i) = slot i.
Proof.
  rewrite !slot_mod. unfold u32. f_equal. rewrite <- Znumtheory.Zmod_div_mod; [done|lia|lia|].
  exists (2 ^ 27). done.
Qed.

Lemma slot_lt i : (slot i < 32)%nat.
Proof. rewrite slot_mod. pose proof (Z.mod_pos_bound i 32 ltac:(lia)). lia. Qed.

(** Indices less than the capacity apart are in different slots. *)
Lemma slot_ne i k : 0 < k < 32 -> slot (i + k) <> slot i.
Proof.
  intros Hk. rewrite !slot_mod. pose proof (Z.mod_pos_bound i 32 ltac:(lia)).
  pose proof (Z.mod_pos_bound (i + k) 32 ltac:(lia)). intros E.
  assert (E' : (i + k) mod 32 = i mod 32) by lia.
  pose proof (Z.div_mod i 32 ltac:(lia)). pose proof (Z.div_mod (i + k) 32 ltac:(lia)). lia.
Qed.

Lemma live_Z d : deque_ok d -> Z.of_nat (live d) = bottom d -32 top d.
Proof. intros _. unfold live. pose proof (u32_range (bottom d - top d)) as [? ?]. lia. Qed.

(** [bottom] is [live] past [top], up to the wrap. *)
Lemma bottom_eq d : deque_ok d -> bottom d = u32 (top d + Z.of_nat (live d)).
Proof.
  intros Hd. rewrite live_Z by done. unfold u32. rewrite Z.add_mod_idemp_r by lia.
  replace (top d + (bottom d - top d)) with (bottom d) by lia. symmetry. apply u32_small, Hd.
Qed.

Lemma live_zero d : deque_ok d -> bottom d = top d <-> live d = 0%nat.
Proof.
  intros Hd. split.
  - intros E. unfold live. rewrite E, Z.sub_diag. done.
  - intros E. pose proof (bottom_eq d Hd) as Hb. rewrite E, Z.add_0_r in Hb. rewrite Hb.
    apply u32_small, Hd.
Qed.

Lemma length_view d : length (view d) = live d.
Proof. unfold view. by rewrite length_map, length_seq. Qed.

Lemma view_lookup d k : (k < live d)%nat -> view d !! k = Some (at_slot d (top d + Z.of_nat k)).
Proof.
  intros Hk. unfold view. rewrite list_lookup_fmap. rewrite lookup_seq_lt by done. done.
Qed.

(** Writing a slot and moving the indices. *)
Definition write (d : steal_deque) (i t g b tp : Z) : steal_deque :=
  StealDeque (<[slot i := t]> (buf d)) (<[slot i := g]> (gen_buf d)) b tp.

Lemma at_slot_write_eq d i j t g b tp :
  deque_ok d -> slot i = slot j -> at_slot (write d i t g b tp) j = (t, g).
Proof.
  intros Hd E. unfold at_slot, write. simpl. rewrite <- E. pose proof (slot_lt i).
  rewrite !list_lookup_total_insert_eq by (rewrite ?(d_buf _ Hd), ?(d_gen _ Hd); done). done.
Qed.

Lemma at_slot_write_ne d i j t g b tp :
  slot i <> slot j -> at_slot (write d i t g b tp) j = at_slot d j.
Proof. intros E. unfold at_slot, write. simpl. by rewrite !list_lookup_total_insert_ne by done. Qed.

Lemma write_ok d i t g b tp :
  deque_ok d -> is_u32 b -> is_u32 tp -> (live (write d i t g b tp) <= 32)%nat ->
  deque_ok (write d i t g b tp).
Proof. intros [] ? ? ?. constructor; simpl; rewrite ?length_insert; done. Qed.

Lemma live_write d i t g b tp n :
  u32 (b - tp) = Z.of_nat n -> live (write d i t g b tp) = n.
Proof. intros E. unfold live. simpl. rewrite E. lia. Qed.

(** The view of a deque whose slots agree with [d] at the live indices. *)
Lemma view_eq d' tp n (f : nat -> Z * Z) :
  live d' = n -> (forall k, (k < n)%nat -> at_slot d' (top d' + Z.of_nat k) = f (tp + k)%nat) ->
  view d' = map f (seq tp n).
Proof.
  intros Hl Hf. apply list_eq_same_length with n; [by rewrite length_map, length_seq|by rewrite length_view|].
  intros k x y Hk Hx Hy. rewrite view_lookup in Hx by lia. injection Hx as <-.
  rewrite list_lookup_fmap, lookup_seq_lt in Hy by done. injection Hy as <-. by apply Hf.
Qed.

Lemma push_view d t g :
  deque_ok d -> (live d < 32)%nat ->
  exists d', steal_deque_push d t g = (0, d') /\ deque_ok d' /\ view d' = view d ++ [(t, g)].
Proof.
  intros Hd Hl. unfold steal_deque_push. rewrite <- live_Z by done.
  rewrite (proj2 (Z.leb_gt _ _)) by (unfold STEAL_DEQUE_CAPACITY; lia).
  set (d' := StealDeque _ _ _ _). exists d'. split; [done|].
  change d' with (write d (bottom d) t g (bottom d +32 1) (top d)).
  assert (Hn : u32 ((bottom d +32 1) - top d) = Z.of_nat (S (live d))).
  { unfold u32 at 1 2. rewrite Zminus_mod_idemp_l. replace (bottom d + 1 - top d) with (bottom d - top d + 1) by lia.
    rewrite <- Zplus_mod_idemp_l. fold (u32 (bottom d - top d)). rewrite <- live_Z by done.
    rewrite Z.mod_small; lia. }
  assert (Hb : slot (bottom d) = slot (top d + Z.of_nat (live d))) by (rewrite (bottom_eq d Hd) at 1; apply slot_u32).
  pose proof (live_write d (bottom d) t g _ _ _ Hn) as Hlive.
  split; [apply write_ok; [done|apply u32_range|apply Hd|lia]|].
  erewrite (view_eq _ 0 (S (live d)) (fun k => if decide (k < live d)%nat then at_slot d (top d + Z.of_nat k) else (t, g)));
    [|exact Hlive|].
  - rewrite seq_S, map_app. f_equal.
    + unfold view. apply map_ext_in. intros k Hk%in_seq. by rewrite decide_True by lia.
    + simpl. by rewrite decide_False by lia.
  - intros k Hk. simpl. destruct (decide (k < live d)%nat).
    + apply at_slot_write_ne. rewrite Hb.
      replace (top d + Z.of_nat (live d)) with (top d + Z.of_nat k + (Z.of_nat (live d) - Z.of_nat k)) by lia.
      apply slot_ne. lia.
    + apply at_slot_write_eq; [done|]. rewrite Hb. do 2 f_equal. lia.
Qed.

(** One step of [pop]: the last live slot. *)
Lemma pop_step d n :
  deque_ok d -> live d = S n ->
  let d' := write d (bottom d -32 1) 0 0 (bottom d -32 1) (top d) in
  deque_ok d' /\ live d' = n /\ slot (bottom d -32 1) = slot (top d + Z.of_nat n) /\
  view d = view d' ++ [at_slot d (bottom d -32 1)].
Proof.
  intros Hd Hl d'. pose proof (live_Z d Hd) as HZ. pose proof (d_live _ Hd).
  assert (Hs : slot (bottom d -32 1) = slot (top d + Z.of_nat n)).
  { rewrite slot_u32, (bottom_eq d Hd), Hl. rewrite !slot_mod. unfold u32.
    rewrite <- Zminus_mod_idemp_l, <- Znumtheory.Zmod_div_mod, Zminus_mod_idemp_l;
      [f_equal; f_equal; lia|lia|lia|by exists (2 ^ 27)]. }
  assert (Hn : u32 ((bottom d -32 1) - top d) = Z.of_nat n).
  { unfold u32 at 1 2. rewrite Zminus_mod_idemp_l. replace (bottom d - 1 - top d) with (bottom d - top d - 1) by lia.
    rewrite <- Zminus_mod_idemp_l. fold (u32 (bottom d - top d)). rewrite <- HZ, Z.mod_small; lia. }
  pose proof (live_write d (bottom d -32 1) 0 0 _ _ _ Hn) as Hlive. fold d' in Hlive.
  split; [apply write_ok; [done|apply u32_range|apply Hd|fold d'; lia]|].
  split; [done|]. split; [done|].
  rewrite (view_eq d' 0 n (fun k => at_slot d (top d + Z.of_nat k)) Hlive).
  - unfold view. rewrite Hl, seq_S, map_app. f_equal. simpl. unfold at_slot. by rewrite Hs.
  - intros k Hk. simpl. apply at_slot_write_ne. rewrite Hs.
    replace (top d + Z.of_nat n) with (top d + Z.of_nat k + (Z.of_nat n - Z.of_nat k)) by lia.
    apply slot_ne. lia.
Qed.

(** One step of [steal]: the first live slot. *)
Lemma steal_step d n :
  deque_ok d -> live d = S n ->
  let d' := write d (top d) 0 0 (bottom d) (top d +32 1) in
  deque_ok d' /\ live d' = n /\ view d = at_slot d (top d) :: view d'.
Proof.
  intros Hd Hl d'. pose proof (live_Z d Hd) as HZ. pose proof (d_live _ Hd).
  assert (Hn : u32 (bottom d - (top d +32 1)) = Z.of_nat n).
  { unfold u32 at 1 2. rewrite Zminus_mod_idemp_r. replace (bottom d - (top d + 1)) with (bottom d - top d - 1) by lia.
    rewrite <- Zminus_mod_idemp_l. fold (u32 (bottom d - top d)). rewrite <- HZ, Z.mod_small; lia. }
  pose proof (live_write d (top d) 0 0 _ _ _ Hn) as Hlive. fold d' in Hlive.
  split; [apply write_ok; [done|apply Hd|apply u32_range|fold d'; lia]|]. split; [done|].
  rewrite (view_eq d' 1 n (fun k => at_slot d (top d + Z.of_nat k)) Hlive).
  - unfold view. rewrite Hl. simpl. f_equal. f_equal. lia.
  - intros k Hk. unfold d' at 2. cbn [top write].
    assert (E : forall e, at_slot e (u32 (top d + 1) + Z.of_nat k) = at_slot e (top d + Z.of_nat (1 + k))).
    { intros e. unfold at_slot. replace (slot (u32 (top d + 1) + Z.of_nat k)) with (slot (top d + Z.of_nat (1 + k))); [done|].
      rewrite <- (slot_u32 (_ + Z.of_nat k)). unfold u32. rewrite Zplus_mod_idemp_l. fold (u32 (top d + 1 + Z.of_nat k)).
      rewrite slot_u32. f_equal. lia. }
    rewrite E. apply at_slot_write_ne. intros Es. symmetry in Es. revert Es. apply slot_ne. lia.
Qed.

Definition null_slot (e : Z * Z) : Prop := e.1 = 0.

Lemma pop_loop_spec fuel d :
  deque_ok d -> (live d < fuel)%nat ->
  exists t g d', pop_loop fuel d = Some (t, g, d') /\ deque_ok d' /\
    (t = 0 /\ view d' = [] /\ Forall null_slot (view d) \/
     t <> 0 /\ exists nulls, view d = view d' ++ (t, g) :: nulls /\ Forall null_slot nulls).
Proof.
  revert d. induction fuel as [|fuel IH]; intros d Hd Hf; [lia|]. cbn [pop_loop].
  destruct (Z.eqb_spec (bottom d) (top d)) as [E|E].
  - apply (live_zero d Hd) in E. exists 0, 0, d. split_and!; auto. left.
    assert (Hv : view d = []) by (apply nil_length_inv; by rewrite length_view). rewrite Hv. auto.
  - rewrite (live_zero d Hd) in E. destruct (live d) as [|n] eqn:Hl; [done|].
    destruct (pop_step d n Hd Hl) as (Hd' & Hl' & _ & Hv). cbv zeta.
    fold (write d (bottom d -32 1) 0 0 (bottom d -32 1) (top d)). set (d' := write _ _ _ _ _ _) in *.
    destruct (Z.eqb_spec (buf d !!! slot (bottom d -32 1)) 0) as [Ez|Ez]; cbn [negb].
    + destruct (IH d' Hd' ltac:(lia)) as (t & g & d2 & -> & Hd2 & Hres). exists t, g, d2. split_and!; auto.
      assert (Hnull : null_slot (at_slot d (bottom d -32 1))) by exact Ez.
      destruct Hres as [(-> & Hv2 & Hn)|(Ht & nulls & Hv2 & Hn)]; [left|right].
      * split_and!; auto. rewrite Hv. by apply Forall_app_2; [|constructor].
      * split; [done|]. exists (nulls ++ [at_slot d (bottom d -32 1)]). rewrite Hv, Hv2, <- (assoc (++)). split; [done|].
        by apply Forall_app_2; [|constructor].
    + eexists _, _, d'. split_and!; [done|done|]. right. split; [done|]. exists []. split; [exact Hv|constructor].
Qed.

Lemma steal_loop_spec fuel d :
  deque_ok d -> (live d < fuel)%nat ->
  exists t g d', steal_loop fuel d = Some (t, g, d') /\ deque_ok d' /\
    (t = 0 /\ view d' = [] /\ Forall null_slot (view d) \/
     t <> 0 /\ exists nulls, view d = nulls ++ (t, g) :: view d' /\ Forall null_slot nulls).
Proof.
  revert d. induction fuel as [|fuel IH]; intros d Hd Hf; [lia|]. cbn [steal_loop].
  destruct (Z.eqb_spec (top d) (bottom d)) as [E|E].
  - symmetry in E. apply (live_zero d Hd) in E. exists 0, 0, d. split_and!; auto. left.
    assert (Hv : view d = []) by (apply nil_length_inv; by rewrite length_view). rewrite Hv. auto.
  - destruct (live d) as [|n] eqn:Hl; [exfalso; by apply E, eq_sym, (live_zero d Hd)|].
    destruct (steal_step d n Hd Hl) as (Hd' & Hl' & Hv). cbv zeta.
    fold (write d (top d) 0 0 (bottom d) (top d +32 1)). set (d' := write _ _ _ _ _ _) in *.
    destruct (Z.eqb_spec (buf d !!! slot (top d)) 0) as [Ez|Ez]; cbn [negb].
    + destruct (IH d' Hd' ltac:(lia)) as (t & g & d2 & -> & Hd2 & Hres). exists t, g, d2. split_and!; auto.
      assert (Hnull : null_slot (at_slot d (top d))) by exact Ez.
      destruct Hres as [(-> & Hv2 & Hn)|(Ht & nulls & Hv2 & Hn)]; [left|right].
      * split_and!; auto. rewrite Hv. by constructor.
      * split; [done|]. exists (at_slot d (top d) :: nulls). rewrite Hv, Hv2. split; [done|]. by constructor.
    + eexists _, _, d'. split_and!; [done|done|]. right. split; [done|]. exists []. split; [exact Hv|constructor].
Qed.

Lemma remove_loop_spec fuel d t n :
  deque_ok d -> t <> 0 -> (n <= live d)%nat -> (live d - n < fuel)%nat ->
  t ∉ (take n (view d)).*1 ->
  exists r d', remove_loop fuel (u32 (top d + Z.of_nat n)) t d = Some (r, d') /\ deque_ok d' /\
    (r = 0 /\ d' = d /\ t ∉ (view d).*1 \/
     r = 1 /\ exists l1 g l2, view d = l1 ++ (t, g) :: l2 /\ t ∉ l1.*1 /\ view d' = l1 ++ (0, 0) :: l2).
Proof.
  intros Hd Ht. revert n. induction fuel as [|fuel IH]; intros n Hn Hf Hnot; [lia|]. cbn [remove_loop].
  pose proof (d_live _ Hd). rewrite slot_u32.
  destruct (Z.eqb_spec (u32 (top d + Z.of_nat n)) (bottom d)) as [E|E].
  - exists 0, d. split_and!; auto. left. split_and!; auto.
    assert (n = live d) as ->.
    { rewrite (bottom_eq d Hd) in E. unfold u32 in E. pose proof (d_top _ Hd) as [? ?].
      destruct (decide (n = live d)) as [|Hne]; [done|]. exfalso.
      assert (Hdiv : ((top d + Z.of_nat (live d)) - (top d + Z.of_nat n)) mod 2 ^ 32 = 0)
        by (rewrite Zminus_mod, E, Z.sub_diag; done).
      rewrite Z.mod_small in Hdiv; lia. }
    by rewrite take_ge in Hnot by (rewrite length_view; lia).
  - assert (Hlt : (n < live d)%nat).
    { destruct (decide (n < live d)%nat); [done|]. exfalso. apply E.
      rewrite (bottom_eq d Hd). do 3 f_equal. lia. }
    pose proof (view_lookup d n Hlt) as Hvn.
    destruct (Z.eqb_spec (buf d !!! slot (top d + Z.of_nat n)) t) as [Ez|Ez].
    + set (d' := StealDeque _ _ _ _). exists 1, d'. split; [done|].
      change d' with (write d (top d + Z.of_nat n) 0 0 (bottom d) (top d)).
      assert (Hn' : u32 (bottom d - top d) = Z.of_nat (live d)) by by rewrite live_Z.
      pose proof (live_write d (top d + Z.of_nat n) 0 0 _ _ _ Hn') as Hlive.
      split; [apply write_ok; [done|apply Hd|apply Hd|lia]|]. right. split; [done|].
      exists (take n (view d)), (gen_buf d !!! slot (top d + Z.of_nat n)), (drop (S n) (view d)).
      split_and!; [|done|].
      * rewrite <- (take_drop_middle _ _ _ Hvn) at 1. unfold at_slot. by rewrite Ez.
      * rewrite <- insert_take_drop by (rewrite length_view; done).
        apply list_eq_same_length with (live d); [by rewrite length_insert, length_view|by rewrite length_view|].
        intros k x y Hk Hx Hy. rewrite view_lookup in Hx by lia. injection Hx as <-. cbn [write top].
        destruct (decide (k = n)) as [->|Hne].
        { rewrite list_lookup_insert_eq in Hy by (rewrite length_view; done). injection Hy as <-.
          by apply at_slot_write_eq. }
        rewrite list_lookup_insert_ne, view_lookup in Hy by done. injection Hy as <-.
        apply at_slot_write_ne. destruct (decide (k < n)%nat).
        { replace (top d + Z.of_nat n) with (top d + Z.of_nat k + (Z.of_nat n - Z.of_nat k)) by lia.
          apply slot_ne. lia. }
        { replace (top d + Z.of_nat k) with (top d + Z.of_nat n + (Z.of_nat k - Z.of_nat n)) by lia.
          apply not_eq_sym, slot_ne. lia. }
    + replace (u32 (top d + Z.of_nat n) +32 1) with (u32 (top d + Z.of_nat (S n))).
      2:{ unfold u32. rewrite Zplus_mod_idemp_l. f_equal. lia. }
      apply IH; [lia|lia|]. rewrite (take_S_r _ _ _ Hvn), fmap_app, elem_of_app. simpl.
      rewrite list_elem_of_singleton. intros [?|E']; [done|]. unfold at_slot in E'. simpl in E'. congruence.
Qed.

(** C35. The deque refines a bounded sequence of (task, generation) slots: push appends
    unless the capacity is reached, pop returns the newest and steal the oldest
    entry that has not been cleared, remove clears the oldest entry of a task.
    This holds for any value of the 32-bit indices, wrapped or not. *)
Theorem steal_deque_refines (d : steal_deque) :
  deque_ok d ->
  (forall t g, if decide (live d < 32)%nat
     then exists d', steal_deque_push d t g = (0, d') /\ deque_ok d' /\ view d' = view d ++ [(t, g)]
     else steal_deque_push d t g = (-1, d)) /\
  (exists t g d', steal_deque_pop d = Some (t, g, d') /\ deque_ok d' /\
     (t = 0 /\ view d' = [] /\ Forall null_slot (view d) \/
      t <> 0 /\ exists nulls, view d = view d' ++ (t, g) :: nulls /\ Forall null_slot nulls)) /\
  (exists t g d', steal_deque_steal d = Some (t, g, d') /\ deque_ok d' /\
     (t = 0 /\ view d' = [] /\ Forall null_slot (view d) \/
      t <> 0 /\ exists nulls, view d = nulls ++ (t, g) :: view d' /\ Forall null_slot nulls)) /\
  (forall t, t <> 0 -> exists r d', steal_deque_remove d t = Some (r, d') /\ deque_ok d' /\
     (r = 0 /\ d' = d /\ t ∉ (view d).*1 \/
      r = 1 /\ exists l1 g l2, view d = l1 ++ (t, g) :: l2 /\ t ∉ l1.*1 /\ view d' = l1 ++ (0, 0) :: l2)).
Proof.
  intros Hd. pose proof (d_live _ Hd) as Hl. split_and!.
  - intros t g. destruct (decide (live d < 32)%nat); [by apply push_view|].
    unfold steal_deque_push. rewrite <- live_Z by done.
    by rewrite (proj2 (Z.leb_le _ _)) by (unfold STEAL_DEQUE_CAPACITY; lia).
  - apply pop_loop_spec; [done|]. unfold DEQUE_FUEL. lia.
  - apply steal_loop_spec; [done|]. unfold DEQUE_FUEL. lia.
  - intros t Ht. unfold steal_deque_remove. rewrite (proj2 (Z.eqb_neq _ _)) by done.
    destruct (remove_loop_spec DEQUE_FUEL d t 0 Hd Ht) as (r & d' & E & Hres);
      [lia|unfold DEQUE_FUEL; lia|by apply not_elem_of_nil|].
    exists r, d'. rewrite Z.add_0_r, u32_small in E by apply Hd. done.
Qed.

(** A deque about to wrap: [top] and [bottom] at the end of the 32-bit range. *)
Definition deque_wrapping : steal_deque :=
  StealDeque (replicate 32 0) (replicate 32 0) (2 ^ 32 - 1) (2 ^ 32 - 1).

(** Witness of C35: the deque about to wrap, where a push and a steal cross the boundary. *)
Lemma steal_deque_refines_witness :
  exists t g d', steal_deque_steal (steal_deque_push deque_wrapping 7 3).2 = Some (t, g, d') /\ deque_ok d'.
Proof.
  assert (Hd : deque_ok (steal_deque_push deque_wrapping 7 3).2)
    by (constructor; vm_compute; repeat split; try congruence; lia).
  destruct (steal_deque_refines _ Hd) as (_ & _ & (t & g & d' & E & Hok & _) & _).
  exists t, g, d'. split; assumption.
Defined.

(** The deque has fewer slots than there can be tasks, although the header asks for
    at least as many: the thirty-third push is refused. *)
Theorem steal_deque_smaller_than_task_table :
  STEAL_DEQUE_CAPACITY < 64 /\
  (foldl (fun r t => steal_deque_push r.2 (Z.of_nat t) 0) (0, steal_deque_init) (seq 1 33)).1 = -1.
Proof. split; [done|]. vm_compute. reflexivity. Qed.

End StealDeque.
