(* ===== verification/Task.v ===== *)
(** The task control block of kernel/include/task.h and the per-task operations of
    kernel/sched/task.c that only touch one TCB.

    The build modelled is the x86-64 one without the AI scheduler, so the fields
    for EL0 address spaces and AI bookkeeping are absent; the saved registers are
    the ones [task_create_with_priority] sets.  Pointers are [Z] with NULL as 0. *)

From S2P Require Import Prelude.

Open Scope Z_scope.
Open Scope slm_scope.

Module Task.

Definition MAX_CPUS : Z := 8.
Definition MAX_TASKS : Z := 64.
Definition STACK_SIZE : Z := 0x40000.
Definition TASK_NAME_LEN : nat := 16.

Definition CPU_AFFINITY_ANY : Z := 2 ^ 32 - 1.

Definition TASK_PRIORITY_IDLE : Z := 0.
Definition TASK_PRIORITY_LOW : Z := 2.
Definition TASK_PRIORITY_NORMAL : Z := 4.
Definition TASK_PRIORITY_HIGH : Z := 6.
Definition TASK_PRIORITY_CRITICAL : Z := 7.
Definition TASK_PRIORITY_DEFAULT : Z := TASK_PRIORITY_NORMAL.
Definition TASK_PRIORITY_MAX : Z := 7.

Definition TASK_FLAG_IDLE : Z := Z.shiftl 1 0.
Definition TASK_FLAG_WAKEUP_PENDING : Z := Z.shiftl 1 1.

Inductive task_state :=
  | TASK_READY | TASK_RUNNING | TASK_BLOCKED | TASK_TERMINATED | TASK_DESTROYED.

#[export] Instance task_state_eq_dec : EqDecision task_state.
Proof. solve_decision. Defined.

(** The registers a new task starts from. *)
Record cpu_context := CpuContext { rsp : Z; rip : Z; rbx : Z; r12 : Z; rflags : Z }.

(** [struct task]. *)
Record task := Task {
  id : Z;
  name : list Z;
  state : task_state;
  next : Z;
  context : cpu_context;
  stack_base : Z;
  stack_top : Z;
  cpu_affinity : Z;
  assigned_cpu : Z;
  priority : Z;
  effective_priority : Z;
  input_wait : Z;
  pi_priority : Z;
  pi_mutexes_held : Z;
  deadline_ns : Z;
  wake_time_ns : Z;
  sleep_next : Z;
  switches : Z;
  cleanup : Z;
  cleanup_arg : Z;
  flags : Z;
  generation : Z
}.

(** Field assignments. *)
Definition set_id (v : Z) (t : task) : task :=
    Task v (name t) (state t) (next t) (context t) (stack_base t) (stack_top t) (cpu_affinity t)
    (assigned_cpu t) (priority t) (effective_priority t) (input_wait t) (pi_priority t)
    (pi_mutexes_held t) (deadline_ns t) (wake_time_ns t) (sleep_next t) (switches t) (cleanup t)
    (cleanup_arg t) (flags t) (generation t).
Definition set_name (v : list Z) (t : task) : task :=
    Task (id t) v (state t) (next t) (context t) (stack_base t) (stack_top t) (cpu_affinity t)
    (assigned_cpu t) (priority t) (effective_priority t) (input_wait t) (pi_priority t)
    (pi_mutexes_held t) (deadline_ns t) (wake_time_ns t) (sleep_next t) (switches t) (cleanup t)
    (cleanup_arg t) (flags t) (generation t).
Definition set_state (v : task_state) (t : task) : task :=
    Task (id t) (name t) v (next t) (context t) (stack_base t) (stack_top t) (cpu_affinity t)
    (assigned_cpu t) (priority t) (effective_priority t) (input_wait t) (pi_priority t)
    (pi_mutexes_held t) (deadline_ns t) (wake_time_ns t) (sleep_next t) (switches t) (cleanup t)
    (cleanup_arg t) (flags t) (generation t).
Definition set_next (v : Z) (t : task) : task :=
    Task (id t) (name t) (state t) v (context t) (stack_base t) (stack_top t) (cpu_affinity t)
    (assigned_cpu t) (priority t) (effective_priority t) (input_wait t) (pi_priority t)
    (pi_mutexes_held t) (deadline_ns t) (wake_time_ns t) (sleep_next t) (switches t) (cleanup t)
    (cleanup_arg t) (flags t) (generation t).
Definition set_context (v : cpu_context) (t : task) : task :=
    Task (id t) (name t) (state t) (next t) v (stack_base t) (stack_top t) (cpu_affinity t)
    (assigned_cpu t) (priority t) (effective_priority t) (input_wait t) (pi_priority t)
    (pi_mutexes_held t) (deadline_ns t) (wake_time_ns t) (sleep_next t) (switches t) (cleanup t)
    (cleanup_arg t) (flags t) (generation t).
Definition set_stack_base (v : Z) (t : task) : task :=
    Task (id t) (name t) (state t) (next t) (context t) v (stack_top t) (cpu_affinity t)
    (assigned_cpu t) (priority t) (effective_priority t) (input_wait t) (pi_priority t)
    (pi_mutexes_held t) (deadline_ns t) (wake_time_ns t) (sleep_next t) (switches t) (cleanup t)
    (cleanup_arg t) (flags t) (generation t).
Definition set_stack_top (v : Z) (t : task) : task :=
    Task (id t) (name t) (state t) (next t) (context t) (stack_base t) v (cpu_affinity t)
    (assigned_cpu t) (priority t) (effective_priority t) (input_wait t) (pi_priority t)
    (pi_mutexes_held t) (deadline_ns t) (wake_time_ns t) (sleep_next t) (switches t) (cleanup t)
    (cleanup_arg t) (flags t) (generation t).
Definition set_cpu_affinity (v : Z) (t : task) : task :=
    Task (id t) (name t) (state t) (next t) (context t) (stack_base t) (stack_top t) v (assigned_cpu
    t) (priority t) (effective_priority t) (input_wait t) (pi_priority t) (pi_mutexes_held t)
    (deadline_ns t) (wake_time_ns t) (sleep_next t) (switches t) (cleanup t) (cleanup_arg t) (flags
    t) (generation t).
Definition set_assigned_cpu (v : Z) (t : task) : task :=
    Task (id t) (name t) (state t) (next t) (context t) (stack_base t) (stack_top t) (cpu_affinity
    t) v (priority t) (effective_priority t) (input_wait t) (pi_priority t) (pi_mutexes_held t)
    (deadline_ns t) (wake_time_ns t) (sleep_next t) (switches t) (cleanup t) (cleanup_arg t) (flags
    t) (generation t).
Definition set_priority (v : Z) (t : task) : task :=
    Task (id t) (name t) (state t) (next t) (context t) (stack_base t) (stack_top t) (cpu_affinity
    t) (assigned_cpu t) v (effective_priority t) (input_wait t) (pi_priority t) (pi_mutexes_held t)
    (deadline_ns t) (wake_time_ns t) (sleep_next t) (switches t) (cleanup t) (cleanup_arg t) (flags
    t) (generation t).
Definition set_effective_priority (v : Z) (t : task) : task :=
    Task (id t) (name t) (state t) (next t) (context t) (stack_base t) (stack_top t) (cpu_affinity
    t) (assigned_cpu t) (priority t) v (input_wait t) (pi_priority t) (pi_mutexes_held t)
    (deadline_ns t) (wake_time_ns t) (sleep_next t) (switches t) (cleanup t) (cleanup_arg t) (flags
    t) (generation t).
Definition set_input_wait (v : Z) (t : task) : task :=
    Task (id t) (name t) (state t) (next t) (context t) (stack_base t) (stack_top t) (cpu_affinity
    t) (assigned_cpu t) (priority t) (effective_priority t) v (pi_priority t) (pi_mutexes_held t)
    (deadline_ns t) (wake_time_ns t) (sleep_next t) (switches t) (cleanup t) (cleanup_arg t) (flags
    t) (generation t).
Definition set_pi_priority (v : Z) (t : task) : task :=
    Task (id t) (name t) (state t) (next t) (context t) (stack_base t) (stack_top t) (cpu_affinity
    t) (assigned_cpu t) (priority t) (effective_priority t) (input_wait t) v (pi_mutexes_held t)
    (deadline_ns t) (wake_time_ns t) (sleep_next t) (switches t) (cleanup t) (cleanup_arg t) (flags
    t) (generation t).
Definition set_pi_mutexes_held (v : Z) (t : task) : task :=
    Task (id t) (name t) (state t) (next t) (context t) (stack_base t) (stack_top t) (cpu_affinity
    t) (assigned_cpu t) (priority t) (effective_priority t) (input_wait t) (pi_priority t) v
    (deadline_ns t) (wake_time_ns t) (sleep_next t) (switches t) (cleanup t) (cleanup_arg t) (flags
    t) (generation t).
Definition set_deadline_ns (v : Z) (t : task) : task :=
    Task (id t) (name t) (state t) (next t) (context t) (stack_base t) (stack_top t) (cpu_affinity
    t) (assigned_cpu t) (priority t) (effective_priority t) (input_wait t) (pi_priority t)
    (pi_mutexes_held t) v (wake_time_ns t) (sleep_next t) (switches t) (cleanup t) (cleanup_arg t)
    (flags t) (generation t).
Definition set_wake_time_ns (v : Z) (t : task) : task :=
    Task (id t) (name t) (state t) (next t) (context t) (stack_base t) (stack_top t) (cpu_affinity
    t) (assigned_cpu t) (priority t) (effective_priority t) (input_wait t) (pi_priority t)
    (pi_mutexes_held t) (deadline_ns t) v (sleep_next t) (switches t) (cleanup t) (cleanup_arg t)
    (flags t) (generation t).
Definition set_sleep_next (v : Z) (t : task) : task :=
    Task (id t) (name t) (state t) (next t) (context t) (stack_base t) (stack_top t) (cpu_affinity
    t) (assigned_cpu t) (priority t) (effective_priority t) (input_wait t) (pi_priority t)
    (pi_mutexes_held t) (deadline_ns t) (wake_time_ns t) v (switches t) (cleanup t) (cleanup_arg t)
    (flags t) (generation t).
Definition set_switches (v : Z) (t : task) : task :=
    Task (id t) (name t) (state t) (next t) (context t) (stack_base t) (stack_top t) (cpu_affinity
    t) (assigned_cpu t) (priority t) (effective_priority t) (input_wait t) (pi_priority t)
    (pi_mutexes_held t) (deadline_ns t) (wake_time_ns t) (sleep_next t) v (cleanup t) (cleanup_arg
    t) (flags t) (generation t).
Definition set_cleanup (v : Z) (t : task) : task :=
    Task (id t) (name t) (state t) (next t) (context t) (stack_base t) (stack_top t) (cpu_affinity
    t) (assigned_cpu t) (priority t) (effective_priority t) (input_wait t) (pi_priority t)
    (pi_mutexes_held t) (deadline_ns t) (wake_time_ns t) (sleep_next t) (switches t) v (cleanup_arg
    t) (flags t) (generation t).
Definition set_cleanup_arg (v : Z) (t : task) : task :=
    Task (id t) (name t) (state t) (next t) (context t) (stack_base t) (stack_top t) (cpu_affinity
    t) (assigned_cpu t) (priority t) (effective_priority t) (input_wait t) (pi_priority t)
    (pi_mutexes_held t) (deadline_ns t) (wake_time_ns t) (sleep_next t) (switches t) (cleanup t) v
    (flags t) (generation t).
Definition set_flags (v : Z) (t : task) : task :=
    Task (id t) (name t) (state t) (next t) (context t) (stack_base t) (stack_top t) (cpu_affinity
    t) (assigned_cpu t) (priority t) (effective_priority t) (input_wait t) (pi_priority t)
    (pi_mutexes_held t) (deadline_ns t) (wake_time_ns t) (sleep_next t) (switches t) (cleanup t)
    (cleanup_arg t) v (generation t).
Definition set_generation (v : Z) (t : task) : task :=
    Task (id t) (name t) (state t) (next t) (context t) (stack_base t) (stack_top t) (cpu_affinity
    t) (assigned_cpu t) (priority t) (effective_priority t) (input_wait t) (pi_priority t)
    (pi_mutexes_held t) (deadline_ns t) (wake_time_ns t) (sleep_next t) (switches t) (cleanup t)
    (cleanup_arg t) (flags t) v.

(** ** Predicates and accessors; [None] is a NULL task. *)

Definition is_idle_task (t : option task) : bool :=
  match t with Some t => negb (Z.land (flags t) TASK_FLAG_IDLE =? 0) | None => false end.

Definition task_counts_as_running (t : option task) : bool :=
  match t with
  | Some t' => negb (is_idle_task t) && (input_wait t' =? 0)
  | None => false
  end.

Definition task_get_affinity (t : option task) : Z :=
  match t with Some t => cpu_affinity t | None => CPU_AFFINITY_ANY end.

Definition task_get_priority (t : option task) : Z :=
  match t with Some t => priority t | None => TASK_PRIORITY_NORMAL end.

Definition task_get_effective_priority (t : option task) : Z :=
  match t with Some t => effective_priority t | None => TASK_PRIORITY_NORMAL end.

Definition task_get_deadline (t : option task) : Z :=
  match t with Some t => deadline_ns t | None => 0 end.

(** ** One-task updates *)

Definition clamp_priority (priority : Z) : Z :=
  if TASK_PRIORITY_MAX <? priority then TASK_PRIORITY_MAX else priority.

Definition task_set_affinity (cpu_count cpu : Z) (t : task) : task :=
  let t := set_cpu_affinity cpu t in
  if negb (cpu =? CPU_AFFINITY_ANY) && (cpu <? cpu_count) then set_assigned_cpu cpu t else t.

Definition task_set_priority (p : Z) (t : task) : task :=
  let p := clamp_priority p in
  let t := set_priority p t in
  if effective_priority t <? p then set_effective_priority p t else t.

Definition task_set_deadline (deadline : Z) (t : task) : task := set_deadline_ns deadline t.

Definition task_set_cleanup (f arg : Z) (t : task) : task := set_cleanup_arg arg (set_cleanup f t).

(** [str_copy]: at most [max - 1] characters up to the terminator, then a terminator. *)
Fixpoint str_copy_chars (n : nat) (src : list Z) : list Z :=
  match n, src with
  | S n, c :: src => if c =? 0 then [] else c :: str_copy_chars n src
  | _, _ => []
  end.

Definition str_copy (src : list Z) (max : nat) : list Z := str_copy_chars (max - 1) src ++ [0].

(** "unnamed". *)
Definition unnamed : list Z := [117; 110; 110; 97; 109; 101; 100].

(** The stores with which [task_alloc] fills a slot it owns. *)
Definition task_alloc_init (nm : option (list Z)) (p : Z) (t : task) : task :=
  let t := set_name (str_copy (default unnamed nm) TASK_NAME_LEN) t in
  let t := set_next 0 (set_state TASK_READY t) in
  let t := set_assigned_cpu 0 (set_cpu_affinity CPU_AFFINITY_ANY t) in
  let t := set_effective_priority p (set_priority p t) in
  let t := set_pi_mutexes_held 0 (set_pi_priority 0 t) in
  let t := set_input_wait 0 t in
  let t := set_sleep_next 0 (set_wake_time_ns 0 (set_deadline_ns 0 t)) in
  let t := set_switches 0 t in
  let t := set_stack_top 0 (set_stack_base 0 t) in
  let t := set_context (CpuContext 0 0 0 0 0) t in
  set_cleanup_arg 0 (set_cleanup 0 t).

(** The stores with which [task_create_with_priority] fills a slot it owns;
    [wrapper] is the address of [task_entry_wrapper]. *)
Definition task_create_init (wrapper : Z) (nm : option (list Z)) (entry arg p stack : Z) (t : task) : task :=
  let t := set_name (str_copy (default unnamed nm) TASK_NAME_LEN) t in
  let t := set_next 0 (set_state TASK_READY t) in
  let t := set_assigned_cpu 0 (set_cpu_affinity CPU_AFFINITY_ANY t) in
  let t := set_effective_priority p (set_priority p t) in
  let t := set_pi_mutexes_held 0 (set_pi_priority 0 t) in
  let t := set_sleep_next 0 (set_wake_time_ns 0 (set_deadline_ns 0 t)) in
  let t := set_switches 0 t in
  let t := set_stack_top (stack +64 STACK_SIZE) (set_stack_base stack t) in
  let t := set_context (CpuContext (stack_top t -64 8) wrapper entry arg 0) t in
  set_cleanup_arg 0 (set_cleanup 0 t).

(** The stores of [task_destroy] on the reclaimed slot. *)
Definition task_destroy_clear (t : task) : task :=
  let t := set_name (match name t with _ :: n => 0 :: n | [] => [] end) (set_id 0 t) in
  let t := set_stack_top 0 (set_stack_base 0 t) in
  let t := set_cleanup_arg 0 (set_cleanup 0 t) in
  set_generation (generation t +32 1) t.

End Task.
