(* ===== verification/Sys.v ===== *)
(** The state the scheduler, the sleep queue and the task table share: run queues,
    work-stealing deques, current tasks, the task table and the page allocator.

    Each kernel call is one step on this state.  A call holds the lock of the data
    it works on with interrupts off, so its effect is that of the code run alone;
    the retry loops that guard against a concurrent steal between an unlocked read
    and the lock therefore take one turn.  The clocks ([now_ns] for
    [slm_get_time_ns], [timer_count] for [timer_get_count]) do not move during a
    step.  [None] is a panic, or a list walk that outruns the task table. *)

From S2P Require Import Prelude FreeList Buddy StealDeque Task.

Open Scope Z_scope.
Open Scope slm_scope.

Module Sys.
Import Task.

(** [struct cpu_runqueue]. *)
Record cpu_runqueue := CpuRunqueue {
  head : Z;
  tail : Z;
  idle_task : Z;
  zombie : Z;
  ready_count : Z
}.

Definition with_head (v : Z) (q : cpu_runqueue) : cpu_runqueue :=
    CpuRunqueue v (tail q) (idle_task q) (zombie q) (ready_count q).
Definition with_tail (v : Z) (q : cpu_runqueue) : cpu_runqueue :=
    CpuRunqueue (head q) v (idle_task q) (zombie q) (ready_count q).
Definition with_idle_task (v : Z) (q : cpu_runqueue) : cpu_runqueue :=
    CpuRunqueue (head q) (tail q) v (zombie q) (ready_count q).
Definition with_zombie (v : Z) (q : cpu_runqueue) : cpu_runqueue :=
    CpuRunqueue (head q) (tail q) (idle_task q) v (ready_count q).
Definition with_ready_count (v : Z) (q : cpu_runqueue) : cpu_runqueue :=
    CpuRunqueue (head q) (tail q) (idle_task q) (zombie q) v.

(** The diagnostic counters [sched_diag_*], one per CPU. *)
Inductive counter :=
  | DiagTick | DiagSchedule | DiagPicked | DiagStealAttempts | DiagStealSuccesses
  | DiagStealStale | DiagStealEmptyVictim | DiagStealPushFull.

#[export] Instance counter_eq_dec : EqDecision counter.
Proof. solve_decision. Defined.

Record sys := Sys {
  tasks : Z -> task;
  rqs : list cpu_runqueue;
  deques : list StealDeque.steal_deque;
  current_task : list Z;
  preempt_disabled : list Z;
  task_count : Z;
  context_switches : Z;
  timer_ticks : Z;
  isolated_cores : Z;
  cpu_count : Z;
  sleep_queue_head : Z;
  rr_next : Z;
  rebalance_tick_counter : Z;
  rebalance_migrations : Z;
  diag : counter * Z -> Z;
  next_task_id : Z;
  heap : Buddy.pmm;
  cleanups : list (Z * Z);
  now_ns : Z;
  timer_count : Z;
  timer_freq : Z
}.

Definition with_tasks (v : Z -> task) (s : sys) : sys :=
    Sys v (rqs s) (deques s) (current_task s) (preempt_disabled s) (task_count s)
    (context_switches s) (timer_ticks s) (isolated_cores s) (cpu_count s) (sleep_queue_head s)
    (rr_next s) (rebalance_tick_counter s) (rebalance_migrations s) (diag s) (next_task_id s)
    (heap s) (cleanups s) (now_ns s) (timer_count s) (timer_freq s).
Definition with_rqs (v : list cpu_runqueue) (s : sys) : sys :=
    Sys (tasks s) v (deques s) (current_task s) (preempt_disabled s) (task_count s)
    (context_switches s) (timer_ticks s) (isolated_cores s) (cpu_count s) (sleep_queue_head s)
    (rr_next s) (rebalance_tick_counter s) (rebalance_migrations s) (diag s) (next_task_id s)
    (heap s) (cleanups s) (now_ns s) (timer_count s) (timer_freq s).
Definition with_deques (v : list StealDeque.steal_deque) (s : sys) : sys :=
    Sys (tasks s) (rqs s) v (current_task s) (preempt_disabled s) (task_count s) (context_switches
    s) (timer_ticks s) (isolated_cores s) (cpu_count s) (sleep_queue_head s) (rr_next s)
    (rebalance_tick_counter s) (rebalance_migrations s) (diag s) (next_task_id s) (heap s)
    (cleanups s) (now_ns s) (timer_count s) (timer_freq s).
Definition with_current_task (v : list Z) (s : sys) : sys :=
    Sys (tasks s) (rqs s) (deques s) v (preempt_disabled s) (task_count s) (context_switches s)
    (timer_ticks s) (isolated_cores s) (cpu_count s) (sleep_queue_head s) (rr_next s)
    (rebalance_tick_counter s) (rebalance_migrations s) (diag s) (next_task_id s) (heap s)
    (cleanups s) (now_ns s) (timer_count s) (timer_freq s).
Definition with_preempt_disabled (v : list Z) (s : sys) : sys :=
    Sys (tasks s) (rqs s) (deques s) (current_task s) v (task_count s) (context_switches s)
    (timer_ticks s) (isolated_cores s) (cpu_count s) (sleep_queue_head s) (rr_next s)
    (rebalance_tick_counter s) (rebalance_migrations s) (diag s) (next_task_id s) (heap s)
    (cleanups s) (now_ns s) (timer_count s) (timer_freq s).
Definition with_task_count (v : Z) (s : sys) : sys :=
    Sys (tasks s) (rqs s) (deques s) (current_task s) (preempt_disabled s) v (context_switches s)
    (timer_ticks s) (isolated_cores s) (cpu_count s) (sleep_queue_head s) (rr_next s)
    (rebalance_tick_counter s) (rebalance_migrations s) (diag s) (next_task_id s) (heap s)
    (cleanups s) (now_ns s) (timer_count s) (timer_freq s).
Definition with_context_switches (v : Z) (s : sys) : sys :=
    Sys (tasks s) (rqs s) (deques s) (current_task s) (preempt_disabled s) (task_count s) v
    (timer_ticks s) (isolated_cores s) (cpu_count s) (sleep_queue_head s) (rr_next s)
    (rebalance_tick_counter s) (rebalance_migrations s) (diag s) (next_task_id s) (heap s)
    (cleanups s) (now_ns s) (timer_count s) (timer_freq s).
Definition with_timer_ticks (v : Z) (s : sys) : sys :=
    Sys (tasks s) (rqs s) (deques s) (current_task s) (preempt_disabled s) (task_count s)
    (context_switches s) v (isolated_cores s) (cpu_count s) (sleep_queue_head s) (rr_next s)
    (rebalance_tick_counter s) (rebalance_migrations s) (diag s) (next_task_id s) (heap s)
    (cleanups s) (now_ns s) (timer_count s) (timer_freq s).
Definition with_isolated_cores (v : Z) (s : sys) : sys :=
    Sys (tasks s) (rqs s) (deques s) (current_task s) (preempt_disabled s) (task_count s)
    (context_switches s) (timer_ticks s) v (cpu_count s) (sleep_queue_head s) (rr_next s)
    (rebalance_tick_counter s) (rebalance_migrations s) (diag s) (next_task_id s) (heap s)
    (cleanups s) (now_ns s) (timer_count s) (timer_freq s).
Definition with_sleep_queue_head (v : Z) (s : sys) : sys :=
    Sys (tasks s) (rqs s) (deques s) (current_task s) (preempt_disabled s) (task_count s)
    (context_switches s) (timer_ticks s) (isolated_cores s) (cpu_count s) v (rr_next s)
    (rebalance_tick_counter s) (rebalance_migrations s) (diag s) (next_task_id s) (heap s)
    (cleanups s) (now_ns s) (timer_count s) (timer_freq s).
Definition with_rr_next (v : Z) (s : sys) : sys :=
    Sys (tasks s) (rqs s) (deques s) (current_task s) (preempt_disabled s) (task_count s)
    (context_switches s) (timer_ticks s) (isolated_cores s) (cpu_count s) (sleep_queue_head s) v
    (rebalance_tick_counter s) (rebalance_migrations s) (diag s) (next_task_id s) (heap s)
    (cleanups s) (now_ns s) (timer_count s) (timer_freq s).
Definition with_rebalance_tick_counter (v : Z) (s : sys) : sys :=
    Sys (tasks s) (rqs s) (deques s) (current_task s) (preempt_disabled s) (task_count s)
    (context_switches s) (timer_ticks s) (isolated_cores s) (cpu_count s) (sleep_queue_head s)
    (rr_next s) v (rebalance_migrations s) (diag s) (next_task_id s) (heap s) (cleanups s) (now_ns
    s) (timer_count s) (timer_freq s).
Definition with_rebalance_migrations (v : Z) (s : sys) : sys :=
    Sys (tasks s) (rqs s) (deques s) (current_task s) (preempt_disabled s) (task_count s)
    (context_switches s) (timer_ticks s) (isolated_cores s) (cpu_count s) (sleep_queue_head s)
    (rr_next s) (rebalance_tick_counter s) v (diag s) (next_task_id s) (heap s) (cleanups s)
    (now_ns s) (timer_count s) (timer_freq s).
Definition with_diag (v : counter * Z -> Z) (s : sys) : sys :=
    Sys (tasks s) (rqs s) (deques s) (current_task s) (preempt_disabled s) (task_count s)
    (context_switches s) (timer_ticks s) (isolated_cores s) (cpu_count s) (sleep_queue_head s)
    (rr_next s) (rebalance_tick_counter s) (rebalance_migrations s) v (next_task_id s) (heap s)
    (cleanups s) (now_ns s) (timer_count s) (timer_freq s).
Definition with_next_task_id (v : Z) (s : sys) : sys :=
    Sys (tasks s) (rqs s) (deques s) (current_task s) (preempt_disabled s) (task_count s)
    (context_switches s) (timer_ticks s) (isolated_cores s) (cpu_count s) (sleep_queue_head s)
    (rr_next s) (rebalance_tick_counter s) (rebalance_migrations s) (diag s) v (heap s) (cleanups
    s) (now_ns s) (timer_count s) (timer_freq s).
Definition with_heap (v : Buddy.pmm) (s : sys) : sys :=
    Sys (tasks s) (rqs s) (deques s) (current_task s) (preempt_disabled s) (task_count s)
    (context_switches s) (timer_ticks s) (isolated_cores s) (cpu_count s) (sleep_queue_head s)
    (rr_next s) (rebalance_tick_counter s) (rebalance_migrations s) (diag s) (next_task_id s) v
    (cleanups s) (now_ns s) (timer_count s) (timer_freq s).
Definition with_cleanups (v : list (Z * Z)) (s : sys) : sys :=
    Sys (tasks s) (rqs s) (deques s) (current_task s) (preempt_disabled s) (task_count s)
    (context_switches s) (timer_ticks s) (isolated_cores s) (cpu_count s) (sleep_queue_head s)
    (rr_next s) (rebalance_tick_counter s) (rebalance_migrations s) (diag s) (next_task_id s)
    (heap s) v (now_ns s) (timer_count s) (timer_freq s).

(** ** Access *)

(** The TCB behind a pointer. *)
Definition tcb (s : sys) (p : Z) : task := tasks s p.

(** A pointer that may be NULL. *)
Definition deref (s : sys) (p : Z) : option task := if p =? 0 then None else Some (tasks s p).

Definition upd (p : Z) (f : task -> task) (s : sys) : sys :=
  with_tasks (<[p := f (tasks s p)]> (tasks s)) s.

Definition cpu_rq (cpu : Z) (s : sys) : cpu_runqueue :=
  nth (Z.to_nat cpu) (rqs s) (CpuRunqueue 0 0 0 0 0).

Definition set_rq (cpu : Z) (q : cpu_runqueue) (s : sys) : sys :=
  with_rqs (<[Z.to_nat cpu := q]> (rqs s)) s.

Definition cpu_deque (cpu : Z) (s : sys) : StealDeque.steal_deque :=
  nth (Z.to_nat cpu) (deques s) StealDeque.steal_deque_init.

Definition set_deque (cpu : Z) (d : StealDeque.steal_deque) (s : sys) : sys :=
  with_deques (<[Z.to_nat cpu := d]> (deques s)) s.

Definition task_current_on_cpu (cpu : Z) (s : sys) : Z :=
  if MAX_CPUS <=? cpu then 0 else nth (Z.to_nat cpu) (current_task s) 0.

Definition task_set_current (cpu p : Z) (s : sys) : sys :=
  with_current_task (<[Z.to_nat cpu := p]> (current_task s)) s.

Definition set_preempt_disabled (cpu v : Z) (s : sys) : sys :=
  with_preempt_disabled (<[Z.to_nat cpu := v]> (preempt_disabled s)) s.

Definition bump (c : counter) (cpu : Z) (s : sys) : sys :=
  with_diag (<[(c, cpu) := diag s (c, cpu) +32 1]> (diag s)) s.

(** A walk over linked tasks visits each of the [MAX_TASKS] slots at most once. *)
Definition QUEUE_FUEL : nat := 65.

(** ** The task table *)

(** The pointer to slot [i] of [task_table]. *)
Definition slot_ptr (i : nat) : Z := Z.of_nat (S i).

Fixpoint alloc_slot_loop (n i : nat) (s : sys) : Z :=
  match n with
  | O => 0
  | S n => if id (tasks s (slot_ptr i)) =? 0 then slot_ptr i else alloc_slot_loop n (S i) s
  end.

Definition alloc_task_slot (s : sys) : Z := alloc_slot_loop (Z.to_nat MAX_TASKS) 0 s.

Fixpoint task_get_loop (n i : nat) (tid : Z) (s : sys) : Z :=
  match n with
  | O => 0
  | S n => if id (tasks s (slot_ptr i)) =? tid then slot_ptr i else task_get_loop n (S i) tid s
  end.

Definition task_get (tid : Z) (s : sys) : Z := task_get_loop (Z.to_nat MAX_TASKS) 0 tid s.

Definition task_slot (idx : Z) : Z := if MAX_TASKS <=? idx then 0 else slot_ptr (Z.to_nat idx).

(** Claiming a slot: the fresh id marks it used. *)
Definition claim_slot (p : Z) (s : sys) : sys :=
  let tid := next_task_id s in
  upd p (set_id tid) (with_next_task_id (tid +32 1) s).

Definition task_alloc (nm : option (list Z)) (p : Z) (s : sys) : Z * sys :=
  let p := clamp_priority p in
  let t := alloc_task_slot s in
  if t =? 0 then (0, s)
  else (t, upd t (task_alloc_init nm p) (claim_slot t s)).

Definition task_create_with_priority (wrapper : Z) (nm : option (list Z)) (entry arg p : Z) (s : sys)
  : option (Z * sys) :=
  let p := clamp_priority p in
  let stack_pages := STACK_SIZE / 4096 in
  '(stack, h) ← Buddy.pmm_alloc_pages stack_pages (heap s);
  let s := with_heap h s in
  if stack =? 0 then Some (0, s)
  else
    let t := alloc_task_slot s in
    if t =? 0 then
      h ← Buddy.pmm_free_pages stack stack_pages (heap s);
      Some (0, with_heap h s)
    else Some (t, upd t (task_create_init wrapper nm entry arg p stack) (claim_slot t s)).

Definition task_create (wrapper : Z) (nm : option (list Z)) (entry arg : Z) (s : sys) : option (Z * sys) :=
  task_create_with_priority wrapper nm entry arg TASK_PRIORITY_DEFAULT s.

(** [task_destroy]; running the cleanup callback is recorded in [cleanups]. *)
Definition task_destroy (p : Z) (s : sys) : option sys :=
  match deref s p with
  | None => Some s
  | Some t =>
      if is_idle_task (Some t) then None
      else if negb (bool_decide (state t = TASK_TERMINATED)) then Some s
      else
        let stack := stack_base t in
        let s := upd p task_destroy_clear s in
        let s := if cleanup t =? 0 then s else with_cleanups (cleanups s ++ [(cleanup t, cleanup_arg t)]) s in
        if stack =? 0 then Some s
        else
          h ← Buddy.pmm_free_pages stack (STACK_SIZE / 4096) (heap s);
          Some (with_heap h s)
  end.

End Sys.
