(* ===== verification/Sched.v ===== *)
(** The scheduler of kernel/sched/sched.c: priority run queues, placement, work
    stealing, migration, dispatch and rebalancing.

    A scheduling policy is the record [policy] of the operations a
    [struct sched_policy_ops] provides. *)

From S2P Require Import Prelude FreeList Buddy StealDeque Task Sys.

Open Scope Z_scope.
Open Scope slm_scope.

Module Sched.
Import Task Sys.

(** ** Effective priority *)

Definition DEADLINE_CRITICAL_NS : Z := 10 * 1000000.
Definition DEADLINE_HIGH_NS : Z := 50 * 1000000.
Definition DEADLINE_BOOST_NS : Z := 100 * 1000000.

Definition effective_base_priority (t : task) : Z := priority t.

(** [set_effective_priority]: never below the inherited priority. *)
Definition store_effective_priority (p : Z) (t : task) : task :=
  set_effective_priority (if p <? pi_priority t then pi_priority t else p) t.

(** [update_deadline_boost] on the TCB, at time [now]. *)
Definition deadline_boost (now : Z) (t : task) : task :=
  if deadline_ns t =? 0 then store_effective_priority (effective_base_priority t) t
  else
    let base := effective_base_priority t in
    let boosted :=
      if deadline_ns t <=? now then TASK_PRIORITY_CRITICAL
      else
        let remaining := deadline_ns t -64 now in
        if remaining <? DEADLINE_CRITICAL_NS then TASK_PRIORITY_CRITICAL
        else if remaining <? DEADLINE_HIGH_NS then
          if TASK_PRIORITY_HIGH <? base then base else TASK_PRIORITY_HIGH
        else if remaining <? DEADLINE_BOOST_NS then
          if base <? TASK_PRIORITY_MAX then base + 1 else TASK_PRIORITY_MAX
        else base in
    store_effective_priority boosted t.

Definition update_deadline_boost (p : Z) (s : sys) : sys :=
  if p =? 0 then s else upd p (deadline_boost (now_ns s)) s.

Definition sched_refresh_effective_priority (p : Z) (s : sys) : sys := update_deadline_boost p s.

(** ** Run queues *)

(** The insertion loop: the last task at or above [prio] and the one after it. *)
Fixpoint add_walk (fuel : nat) (ts : Z -> task) (prio prev curr : Z) : option (Z * Z) :=
  match fuel with
  | O => None
  | S fuel =>
      if negb (curr =? 0) && (prio <=? effective_priority (ts curr))
      then add_walk fuel ts prio curr (next (ts curr))
      else Some (prev, curr)
  end.

Definition add_to_cpu_queue_locked (p cpu : Z) (s : sys) : option sys :=
  let s := upd p (set_assigned_cpu cpu) s in
  let s := update_deadline_boost p s in
  let rq := cpu_rq cpu s in
  if head rq =? 0 then
    let s := upd p (set_next 0) s in
    Some (set_rq cpu (with_ready_count (ready_count rq +32 1) (with_tail p (with_head p rq))) s)
  else
    '(prev, curr) ← add_walk QUEUE_FUEL (tasks s) (effective_priority (tasks s p)) 0 (head rq);
    let s := upd p (set_next curr) s in
    let s := if prev =? 0 then s else upd prev (set_next p) s in
    let rq := if prev =? 0 then with_head p rq else rq in
    let rq := if curr =? 0 then with_tail p rq else rq in
    Some (set_rq cpu (with_ready_count (ready_count rq +32 1) rq) s).

(** The removal loop: the predecessor of [p], when [p] is in the list. *)
Fixpoint remove_walk (fuel : nat) (ts : Z -> task) (p prev curr : Z) : option (option Z) :=
  match fuel with
  | O => None
  | S fuel =>
      if curr =? 0 then Some None
      else if curr =? p then Some (Some prev)
      else remove_walk fuel ts p curr (next (ts curr))
  end.

Definition remove_from_cpu_queue_locked (p cpu : Z) (s : sys) : option (bool * sys) :=
  let rq := cpu_rq cpu s in
  r ← remove_walk QUEUE_FUEL (tasks s) p 0 (head rq);
  match r with
  | None => Some (false, s)
  | Some prev =>
      let nx := next (tasks s p) in
      let s := if prev =? 0 then s else upd prev (set_next nx) s in
      let rq := if prev =? 0 then with_head nx rq else rq in
      let rq := if p =? tail rq then with_tail prev rq else rq in
      let s := upd p (set_next 0) s in
      Some (true, set_rq cpu (with_ready_count (ready_count rq -32 1) rq) s)
  end.

Definition scheduler_add_task_to_cpu (p cpu : Z) (s : sys) : option sys :=
  match deref s p with
  | None => Some s
  | Some t =>
      if negb (bool_decide (state t = TASK_READY)) || (cpu_count s <=? cpu) then Some s
      else
        s ← add_to_cpu_queue_locked p cpu s;
        let s := with_task_count (task_count s +32 1) s in
        if (cpu_affinity (tasks s p) =? CPU_AFFINITY_ANY) && negb (p =? idle_task (cpu_rq cpu s)) then
          let '(rc, d) := StealDeque.steal_deque_push (cpu_deque cpu s) p (generation (tasks s p)) in
          let s := set_deque cpu d s in
          Some (if rc <? 0 then bump DiagStealPushFull cpu s else s)
        else Some s
  end.

(** ** Placement *)

Definition is_isolated (cpu : Z) (s : sys) : bool :=
  negb (Z.land (isolated_cores s) (u32 (Z.shiftl 1 cpu)) =? 0).

(** [least_loaded_cpu]: [(best_cpu, best_ready, sum, n)] after CPUs [c ..]. *)
Fixpoint least_loaded_loop (n : nat) (c : Z) (s : sys) (acc : Z * Z * Z * Z) : Z * Z * Z * Z :=
  match n with
  | O => acc
  | S n =>
      let '(best_cpu, best_ready, sum, k) := acc in
      let acc :=
        if is_isolated c s then acc
        else
          let r := ready_count (cpu_rq c s) in
          if r <? best_ready then (c, r, sum +32 r, k +32 1) else (best_cpu, best_ready, sum +32 r, k +32 1) in
      least_loaded_loop n (c + 1) s acc
  end.

Definition UINT32_MAX : Z := 2 ^ 32 - 1.

Definition least_loaded_cpu (fallback : Z) (s : sys) : Z * Z * Z :=
  let '(best, _, sum, n) :=
    least_loaded_loop (Z.to_nat (cpu_count s)) 0 s (fallback, UINT32_MAX, 0, 0) in
  (best, sum, n).

(** [struct sched_runtime_balance_config] with its defaults. *)
Record balance_config := BalanceConfig {
  bal_enabled : Z; min_target_ready : Z; min_active_cpus : Z; imbalance_num : Z; imbalance_den : Z
}.

Definition sched_balance_config_defaults : balance_config := BalanceConfig 1 2 2 3 2.

(** The load-balance override of [scheduler_add_task] for an unpinned task. *)
Definition balance_override (cfg : balance_config) (target : Z) (s : sys) : Z :=
  if (1 <? cpu_count s) && (target <? cpu_count s) && negb (bal_enabled cfg =? 0) &&
     negb (is_isolated target s)
  then
    let target_ready := ready_count (cpu_rq target s) in
    if min_target_ready cfg <=? target_ready then
      let '(idle, sum, active) := least_loaded_cpu target s in
      if (min_active_cpus cfg <=? active) && negb (idle =? target) then
        let idle_ready := ready_count (cpu_rq idle s) in
        if (idle_ready <? target_ready) &&
           (u64 (imbalance_num cfg * sum) <? u64 (imbalance_den cfg * target_ready * active))
        then idle else target
      else target
    else target
  else target.

(** [struct sched_policy_ops]: the callbacks a policy provides. *)
Record policy := Policy {
  assign_cpu : Z -> sys -> option (Z * sys);
  policy_tick : Z -> sys -> option sys
}.

Definition scheduler_add_task (pol : policy) (p : Z) (s : sys) : option sys :=
  match deref s p with
  | None => Some s
  | Some t =>
      if negb (bool_decide (state t = TASK_READY)) then Some s
      else if negb (cpu_affinity t =? CPU_AFFINITY_ANY) then
        scheduler_add_task_to_cpu p (cpu_affinity t) s
      else
        '(target, s) ← assign_cpu pol p s;
        scheduler_add_task_to_cpu p (balance_override sched_balance_config_defaults target s) s
  end.

(** ** Removal, repositioning and termination *)

Definition scheduler_remove_task (p : Z) (s : sys) : option sys :=
  match deref s p with
  | None => Some s
  | Some t =>
      let cpu := assigned_cpu t in
      if cpu_count s <=? cpu then Some s
      else
        '(removed, s) ← remove_from_cpu_queue_locked p cpu s;
        Some (if (removed : bool) then with_task_count (task_count s -32 1) s else s)
  end.

(** [reposition_locked]: whether the task moved. *)
Definition reposition_locked (p cpu : Z) (s : sys) : option (bool * sys) :=
  r ← remove_walk QUEUE_FUEL (tasks s) p 0 (head (cpu_rq cpu s));
  match r with
  | None => Some (false, s)
  | Some prev =>
      let s := update_deadline_boost p s in
      let t := tasks s p in
      if ((prev =? 0) || (effective_priority t <=? effective_priority (tasks s prev))) &&
         ((next t =? 0) || (effective_priority (tasks s (next t)) <=? effective_priority t))
      then Some (false, s)
      else
        '(_, s) ← remove_from_cpu_queue_locked p cpu s;
        s ← add_to_cpu_queue_locked p cpu s;
        Some (true, s)
  end.

Definition sched_reposition_task (p : Z) (s : sys) : option sys :=
  match deref s p with
  | None => Some s
  | Some t =>
      let cpu := assigned_cpu t in
      if cpu_count s <=? cpu then Some s
      else '(_, s) ← reposition_locked p cpu s; Some s
  end.

Definition scheduler_terminate_task (p : Z) (s : sys) : option sys :=
  match deref s p with
  | None => Some s
  | Some t =>
      if is_idle_task (Some t) then None
      else
        let cpu := assigned_cpu t in
        if cpu_count s <=? cpu then Some s
        else
          let s := upd p (set_state TASK_TERMINATED) s in
          '(removed, s) ← remove_from_cpu_queue_locked p cpu s;
          let s := if (removed : bool) then with_task_count (task_count s -32 1) s else s in
          '(_, d) ← StealDeque.steal_deque_remove (cpu_deque cpu s) p;
          Some (set_deque cpu d s)
  end.

(** ** Migration *)

Definition sched_migrate_task (p target : Z) (s : sys) : option (Z * sys) :=
  match deref s p with
  | None => Some (-1, s)
  | Some t =>
      if cpu_count s <=? target then Some (-1, s)
      else if bool_decide (state t = TASK_RUNNING) then Some (-1, s)
      else if negb (cpu_affinity t =? CPU_AFFINITY_ANY) && negb (cpu_affinity t =? target) then Some (-1, s)
      else
        let old := assigned_cpu t in
        if old =? target then Some (0, s)
        else if bool_decide (state t = TASK_READY) then
          '(removed, s) ← remove_from_cpu_queue_locked p old s;
          if (removed : bool) then s ← add_to_cpu_queue_locked p target s; Some (0, s)
          else Some (0, upd p (set_assigned_cpu target) s)
        else Some (0, upd p (set_assigned_cpu target) s)
  end.

Definition sched_set_task_affinity (pol : policy) (p cpu : Z) (s : sys) : option (Z * sys) :=
  match deref s p with
  | None => Some (-1, s)
  | Some t =>
      if negb (cpu =? CPU_AFFINITY_ANY) && (cpu_count s <=? cpu) then Some (-1, s)
      else
        let old := cpu_affinity t in
        let s := upd p (set_cpu_affinity cpu) s in
        if bool_decide (state t = TASK_READY) && negb (old =? cpu) then
          '(target, s) ← (if cpu =? CPU_AFFINITY_ANY then assign_cpu pol p s else Some (cpu, s));
          if negb (target =? assigned_cpu (tasks s p)) then
            '(_, s) ← sched_migrate_task p target s; Some (0, s)
          else Some (0, s)
        else Some (0, s)
  end.

(** ** Work stealing *)

(** The probes of one victim: the stolen task or 0, and whether the victim had an entry. *)
Fixpoint steal_probe (n : nat) (this victim : Z) (had : bool) (s : sys) : option (Z * bool * sys) :=
  match n with
  | O => Some (0, had, s)
  | S n =>
      '(c, gen, d) ← StealDeque.steal_deque_steal (cpu_deque victim s);
      let s := set_deque victim d s in
      if c =? 0 then Some (0, had, s)
      else
        let t := tasks s c in
        if (generation t =? gen) && bool_decide (state t = TASK_READY) &&
           (assigned_cpu t =? victim) && (cpu_affinity t =? CPU_AFFINITY_ANY)
        then
          '(removed, s) ← remove_from_cpu_queue_locked c victim s;
          if (removed : bool) then Some (c, true, bump DiagStealSuccesses this s)
          else steal_probe n this victim true (bump DiagStealStale this s)
        else steal_probe n this victim true (bump DiagStealStale this s)
  end.

(** The scan of the victims [this + i .. this + cpu_count - 1]. *)
Fixpoint steal_scan (n : nat) (i this : Z) (s : sys) : option (Z * sys) :=
  match n with
  | O => Some (0, s)
  | S n =>
      let victim := (this + i) mod cpu_count s in
      if (victim =? this) || negb (nth (Z.to_nat victim) (preempt_disabled s) 0 =? 0)
      then steal_scan n (i + 1) this s
      else
        '(c, had, s) ← steal_probe (Z.to_nat StealDeque.STEAL_DEQUE_CAPACITY) this victim false s;
        if negb (c =? 0) then Some (c, s)
        else steal_scan n (i + 1) this
               (if (had : bool) then s else bump DiagStealEmptyVictim this s)
  end.

Definition sched_try_steal (this : Z) (s : sys) : option (Z * sys) :=
  let s := bump DiagStealAttempts this s in
  if is_isolated this s then Some (0, s)
  else steal_scan (Z.to_nat (cpu_count s) - 1) 1 this s.

(** ** Dispatch *)

Definition is_dead (t : task) : bool :=
  bool_decide (state t = TASK_TERMINATED) || bool_decide (state t = TASK_DESTROYED).

(** [pick_next_task]; a dead task at the head panics. *)
Definition pick_next_task (cpu : Z) (s : sys) : option (Z * sys) :=
  let rq := cpu_rq cpu s in
  if negb (head rq =? 0) then
    if is_dead (tasks s (head rq)) then None else Some (head rq, bump DiagPicked cpu s)
  else Some (idle_task rq, s).

(** Pulling a task from another CPU when the local queue is empty. *)
Definition schedule_steal (this : Z) (s : sys) : option sys :=
  if head (cpu_rq this s) =? 0 then
    '(stolen, s) ← sched_try_steal this s;
    if stolen =? 0 then Some s else add_to_cpu_queue_locked stolen this s
  else Some s.

(** Destroying the task a previous switch left behind. *)
Definition schedule_reap (this : Z) (s : sys) : option sys :=
  let rq := cpu_rq this s in
  if zombie rq =? 0 then Some s
  else task_destroy (zombie rq) (set_rq this (with_zombie 0 rq) s).

(** Re-queueing the running task and choosing the next one. *)
Definition schedule_pick (this current : Z) (s : sys) : option (Z * sys) :=
  '(nxt, s) ← pick_next_task this s;
  if negb (current =? 0) && bool_decide (state (tasks s current) = TASK_RUNNING) then
    let s := upd current (set_state TASK_READY) s in
    s ← (if current =? idle_task (cpu_rq this s) then Some s else add_to_cpu_queue_locked current this s);
    let s := update_deadline_boost (head (cpu_rq this s)) s in
    pick_next_task this s
  else Some (nxt, s).

(** Taking the chosen task off the front of the queue. *)
Definition dequeue_head (this nxt : Z) (s : sys) : sys :=
  let rq := cpu_rq this s in
  if negb (nxt =? idle_task rq) && (head rq =? nxt) then
    let h := next (tasks s nxt) in
    let rq := with_head h rq in
    let rq := if h =? 0 then with_tail 0 rq else rq in
    set_rq this (with_ready_count (ready_count rq -32 1) rq) (upd nxt (set_next 0) s)
  else s.

(** The switch itself; [live_sp] is the stack pointer, checked against the
    outgoing task's stack. *)
Definition schedule_switch (this current nxt live_sp : Z) (s : sys) : option sys :=
  let s := upd nxt (fun t => set_switches (switches t +64 1) (set_state TASK_RUNNING t)) s in
  let s := with_context_switches (context_switches s +64 1) s in
  let s :=
    if negb (current =? 0) && bool_decide (state (tasks s current) = TASK_TERMINATED)
    then set_rq this (with_zombie current (cpu_rq this s)) s else s in
  let s := set_preempt_disabled this 1 (task_set_current this nxt s) in
  let c := tasks s current in
  if negb (current =? 0) && negb (stack_base c =? 0) && negb (stack_top c =? 0) &&
     ((live_sp <? stack_base c) || (stack_top c <? live_sp))
  then None
  else Some (set_preempt_disabled this 0 s).

(** [schedule] on CPU [this]. *)
Definition schedule (this live_sp : Z) (s : sys) : option sys :=
  let s := bump DiagSchedule this s in
  s ← schedule_steal this s;
  s ← schedule_reap this s;
  let current := task_current_on_cpu this s in
  '(nxt, s) ← schedule_pick this current s;
  let s := dequeue_head this nxt s in
  if nxt =? current then
    if negb (current =? 0) && is_dead (tasks s current) then None
    else Some (if current =? 0 then s else upd current (set_state TASK_RUNNING) s)
  else if nxt =? 0 then None
  else schedule_switch this current nxt live_sp s.

Definition yield (this live_sp : Z) (s : sys) : option sys := schedule this live_sp s.

(** [scheduler_start] up to the switch to the first task. *)
Definition scheduler_start (this : Z) (s : sys) : option sys :=
  '(first, s) ← pick_next_task this s;
  if first =? 0 then None
  else
    let rq := cpu_rq this s in
    let s :=
      if negb (first =? idle_task rq) && (head rq =? first) then
        let h := next (tasks s first) in
        let rq := with_head h rq in
        let rq := if h =? 0 then with_tail 0 rq else rq in
        set_rq this (with_ready_count (ready_count rq -32 1) rq) s
      else s in
    let s := upd first (fun t => set_switches (switches t +64 1) (set_state TASK_RUNNING t)) s in
    let s := with_context_switches (context_switches s +64 1) s in
    Some (set_preempt_disabled this 0 (task_set_current this first s)).

(** [task_exit] on CPU [this]; [schedule] does not come back to it. *)
Definition task_exit (this live_sp : Z) (s : sys) : option sys :=
  s ← scheduler_terminate_task (task_current_on_cpu this s) s;
  schedule this live_sp s.

(** ** Periodic rebalancing *)

Definition REBALANCE_INTERVAL_TICKS : Z := 100.
Definition REBALANCE_IMBALANCE_MIN : Z := 2.

(** The busiest and the idlest CPU: [(busy, idle, max_ready, min_ready)]. *)
Fixpoint busy_idle_loop (n : nat) (i : Z) (s : sys) (acc : Z * Z * Z * Z) : Z * Z * Z * Z :=
  match n with
  | O => acc
  | S n =>
      let '(busy, idle, mx, mn) := acc in
      let ready := ready_count (cpu_rq i s) in
      let '(busy, mx) := if mx <? ready then (i, ready) else (busy, mx) in
      let '(idle, mn) := if ready <? mn then (i, ready) else (idle, mn) in
      busy_idle_loop n (i + 1) s (busy, idle, mx, mn)
  end.

(** The first task of the busy queue that may move. *)
Fixpoint find_migratable (fuel : nat) (s : sys) (idle t : Z) : option Z :=
  match fuel with
  | O => None
  | S fuel =>
      if t =? 0 then Some 0
      else if (t =? idle) || negb (cpu_affinity (tasks s t) =? CPU_AFFINITY_ANY) ||
              negb (bool_decide (state (tasks s t) = TASK_READY))
      then find_migratable fuel s idle (next (tasks s t))
      else Some t
  end.

Definition sched_rebalance_tick (cpu : Z) (s : sys) : option sys :=
  if negb (cpu =? 0) then Some s
  else
    let s := with_rebalance_tick_counter (rebalance_tick_counter s +64 1) s in
    if negb (rebalance_tick_counter s mod REBALANCE_INTERVAL_TICKS =? 0) then Some s
    else if cpu_count s <? 2 then Some s
    else
      let '(busy, idle, mx, mn) :=
        busy_idle_loop (Z.to_nat (cpu_count s)) 0 s (0, 0, 0, UINT32_MAX) in
      if busy =? idle then Some s
      else if mx <? mn +32 REBALANCE_IMBALANCE_MIN then Some s
      else
        c ← find_migratable QUEUE_FUEL s (idle_task (cpu_rq busy s)) (head (cpu_rq busy s));
        if c =? 0 then Some s
        else
          '(_, s) ← remove_from_cpu_queue_locked c busy s;
          let s := upd c (fun t => set_assigned_cpu idle (set_state TASK_READY t)) s in
          s ← scheduler_add_task_to_cpu c idle s;
          Some (with_rebalance_migrations (rebalance_migrations s +64 1) s).

(** ** Core isolation, statistics, recovery *)

Definition sched_isolate_core (cpu : Z) (s : sys) : Z * sys :=
  if cpu_count s <=? cpu then (-1, s)
  else if cpu =? 0 then (-1, s)
  else (0, with_isolated_cores (Z.lor (isolated_cores s) (u32 (Z.shiftl 1 cpu))) s).

Definition sched_unisolate_core (cpu : Z) (s : sys) : Z * sys :=
  if cpu_count s <=? cpu then (-1, s)
  else (0, with_isolated_cores (Z.ldiff (isolated_cores s) (u32 (Z.shiftl 1 cpu))) s).

Definition sched_is_core_isolated (cpu : Z) (s : sys) : bool :=
  if cpu_count s <=? cpu then false else is_isolated cpu s.

Definition sched_get_isolated_cores (s : sys) : Z := isolated_cores s.

(** [struct sched_stats]. *)
Record sched_stats := SchedStats {
  ss_task_count : Z; ss_ready_count : Z; ss_context_switches : Z; ss_timer_ticks : Z
}.

Definition scheduler_get_stats (s : sys) : sched_stats :=
  SchedStats (task_count s)
    (foldl (fun acc i => acc +32 ready_count (cpu_rq (Z.of_nat i) s)) 0 (seq 0 (Z.to_nat (cpu_count s))))
    (context_switches s) (timer_ticks s).

Definition sched_drain_cpu_runqueue (cpu : Z) (s : sys) : sys :=
  if MAX_CPUS <=? cpu then s
  else
    let rq := cpu_rq cpu s in
    set_rq cpu (with_zombie 0 (with_ready_count 0 (with_tail 0 (with_head 0 rq)))) s.

(** ** Start-up of the queues *)

Definition sched_runqueue_clear : cpu_runqueue := CpuRunqueue 0 0 0 0 0.

(** The part of [scheduler_init] that prepares the queues and CPU 0's idle task.
    [task_table_init] leaves the zero-initialised table alone on this build. *)
Definition scheduler_init (wrapper idle_func : Z) (s : sys) : option sys :=
  let s := with_isolated_cores 0 (with_timer_ticks 0 (with_context_switches 0 (with_task_count 0 s))) in
  let s := with_sleep_queue_head 0 s in
  let s := with_rqs (replicate (Z.to_nat MAX_CPUS) sched_runqueue_clear) s in
  let s := with_deques (replicate (Z.to_nat MAX_CPUS) StealDeque.steal_deque_init) s in
  '(idle, s) ← task_create wrapper (Some [105; 100; 108; 101]) idle_func 0 s;
  let s := set_rq 0 (with_idle_task idle (cpu_rq 0 s)) s in
  if idle =? 0 then None
  else Some (upd idle (fun t => set_flags (Z.lor (flags t) TASK_FLAG_IDLE)
                         (set_assigned_cpu 0 (set_cpu_affinity 0 (set_state TASK_READY t)))) s).

(** The idle task of a secondary CPU. *)
Definition scheduler_init_secondary (wrapper idle_func cpu : Z) (s : sys) : option sys :=
  if (cpu =? 0) || (MAX_CPUS <=? cpu) then Some s
  else
    '(idle, s) ← task_create wrapper (Some [105; 100; 108; 101; 95; 48 + cpu]) idle_func 0 s;
    if idle =? 0 then None
    else
      let s := upd idle (fun t => set_flags (Z.lor (flags t) TASK_FLAG_IDLE)
                           (set_assigned_cpu cpu (set_cpu_affinity cpu (set_state TASK_READY t)))) s in
      Some (set_rq cpu (with_idle_task idle (cpu_rq cpu s)) s).

End Sched.
