(* ===== verification/TaskSleep.v ===== *)
(** The sleep queue of kernel/sched/task_sleep.c and the timer tick that drives it
    ([scheduler_tick] of kernel/sched/sched.c). *)

From S2P Require Import Prelude FreeList Buddy StealDeque Task Sys Sched.

Open Scope Z_scope.
Open Scope slm_scope.

Module TaskSleep.
Import Task Sys Sched.

Definition task_sleep_init (s : sys) : sys := with_sleep_queue_head 0 s.

Definition sleep_queue_add_locked (p : Z) (s : sys) : sys :=
  with_sleep_queue_head p (upd p (set_sleep_next (sleep_queue_head s)) s).

(** [task_sleep_ms] up to its call of [schedule]: whether the task went to sleep. *)
Definition sleep_enqueue (this ms : Z) (s : sys) : bool * sys :=
  if ms =? 0 then (false, s)
  else if timer_freq s =? 0 then (false, s)
  else
    let self := task_current_on_cpu this s in
    if self =? 0 then (false, s)
    else
      let deadline := timer_count s +64 u64 (timer_freq s / 1000 * ms) in
      if negb (Z.land (flags (tasks s self)) TASK_FLAG_WAKEUP_PENDING =? 0) then
        (false, upd self (fun t => set_flags (Z.ldiff (flags t) TASK_FLAG_WAKEUP_PENDING) t) s)
      else
        let s := upd self (set_wake_time_ns deadline) s in
        let s := sleep_queue_add_locked self s in
        (true, upd self (set_state TASK_BLOCKED) s).

Definition task_sleep_ms (this live_sp ms : Z) (s : sys) : option sys :=
  let '(asleep, s) := sleep_enqueue this ms s in
  if (asleep : bool) then schedule this live_sp s else Some s.

(** The scan of the sleep queue.  [prev] is the task whose [sleep_next] the C code's
    [link] points at, 0 when it points at [sleep_queue_head]; expired tasks are
    moved to the list [to_wake]. *)
Fixpoint collect_expired (fuel : nat) (now prev cur to_wake : Z) (s : sys) : option (Z * sys) :=
  match fuel with
  | O => None
  | S fuel =>
      if cur =? 0 then Some (to_wake, s)
      else
        let nx := sleep_next (tasks s cur) in
        if wake_time_ns (tasks s cur) <=? now then
          let s := if prev =? 0 then with_sleep_queue_head nx s else upd prev (set_sleep_next nx) s in
          collect_expired fuel now prev nx cur (upd cur (set_sleep_next to_wake) s)
        else collect_expired fuel now cur nx to_wake s
  end.

(** Waking the collected tasks. *)
Fixpoint wake_list (fuel : nat) (pol : policy) (p : Z) (s : sys) : option sys :=
  match fuel with
  | O => None
  | S fuel =>
      if p =? 0 then Some s
      else
        let nx := sleep_next (tasks s p) in
        let s := upd p (fun t => set_state TASK_READY (set_wake_time_ns 0 (set_sleep_next 0 t))) s in
        s ← scheduler_add_task pol p s;
        wake_list fuel pol nx s
  end.

Definition task_wake_sleepers (pol : policy) (s : sys) : option sys :=
  '(to_wake, s) ← collect_expired QUEUE_FUEL (timer_count s) 0 (sleep_queue_head s) 0 s;
  wake_list QUEUE_FUEL pol to_wake s.

(** The search of [task_sleep_wake], unlinking [p] when it is found. *)
Fixpoint unlink_sleeper (fuel : nat) (p prev cur : Z) (s : sys) : option (bool * sys) :=
  match fuel with
  | O => None
  | S fuel =>
      if cur =? 0 then Some (false, s)
      else if cur =? p then
        let nx := sleep_next (tasks s p) in
        let s := if prev =? 0 then with_sleep_queue_head nx s else upd prev (set_sleep_next nx) s in
        Some (true, upd p (fun t => set_state TASK_READY (set_wake_time_ns 0 (set_sleep_next 0 t))) s)
      else unlink_sleeper fuel p cur (sleep_next (tasks s cur)) s
  end.

Definition task_sleep_wake (pol : policy) (p : Z) (s : sys) : option sys :=
  if p =? 0 then Some s
  else
    '(removed, s) ← unlink_sleeper QUEUE_FUEL p 0 (sleep_queue_head s) s;
    if (removed : bool) then scheduler_add_task pol p s
    else Some (upd p (fun t => set_flags (Z.lor (flags t) TASK_FLAG_WAKEUP_PENDING) t) s).

(** The timer interrupt on CPU [cpu]. *)
Definition scheduler_tick (pol : policy) (cpu live_sp : Z) (s : sys) : option sys :=
  s ← task_wake_sleepers pol s;
  let s := bump DiagTick cpu (with_timer_ticks (timer_ticks s +64 1) s) in
  s ← policy_tick pol cpu s;
  if negb (nth (Z.to_nat cpu) (preempt_disabled s) 0 =? 0) then Some s
  else schedule cpu live_sp s.

End TaskSleep.
