(* ===== verification/Heuristic.v ===== *)
(** The built-in scheduling policy, kernel/sched/sched_heuristic.c: least combined
    load with a round-robin start, deadline tasks on CPUs other than 0. *)

From S2P Require Import Prelude FreeList Buddy StealDeque Task Sys Sched.

Open Scope Z_scope.
Open Scope slm_scope.

Module Heuristic.
Import Task Sys Sched.

(** The weight of one queued task. *)
Definition task_pressure (now : Z) (t : task) : Z :=
  if deadline_ns t =? 0 then 0
  else if deadline_ns t <=? now then 8
  else
    let remaining := deadline_ns t -64 now in
    if remaining <? DEADLINE_CRITICAL_NS then 8
    else if remaining <? DEADLINE_HIGH_NS then 4
    else if remaining <? DEADLINE_BOOST_NS then 2
    else 1.

Fixpoint pressure_loop (fuel : nat) (s : sys) (t pressure : Z) : option Z :=
  match fuel with
  | O => None
  | S fuel =>
      if t =? 0 then Some pressure
      else pressure_loop fuel s (next (tasks s t)) (pressure +32 task_pressure (now_ns s) (tasks s t))
  end.

Definition calculate_deadline_pressure (cpu : Z) (s : sys) : option Z :=
  pressure_loop QUEUE_FUEL s (head (cpu_rq cpu s)) 0.

Definition cpu_score (cpu : Z) (s : sys) : option Z :=
  pr ← calculate_deadline_pressure cpu s;
  Some (ready_count (cpu_rq cpu s) +32 pr).

(** The loop of [find_target_cpu] over [(start + i) % cpu_count]. *)
Fixpoint target_loop (n : nat) (i start : Z) (s : sys) (best_cpu best_score : Z) : option Z :=
  match n with
  | O => Some best_cpu
  | S n =>
      let cpu := (start +32 i) mod cpu_count s in
      if is_isolated cpu s then target_loop n (i + 1) start s best_cpu best_score
      else
        score ← cpu_score cpu s;
        if score <? best_score then target_loop n (i + 1) start s cpu score
        else target_loop n (i + 1) start s best_cpu best_score
  end.

Definition find_target_cpu (s : sys) : option (Z * sys) :=
  best ← target_loop (Z.to_nat (cpu_count s)) 0 (rr_next s) s 0 UINT32_MAX;
  Some (best, with_rr_next (best +32 1) s).

(** The loop of [find_performance_cpu] from [cpu]: the best CPU and whether one was found. *)
Fixpoint performance_loop (n : nat) (cpu : Z) (s : sys) (best_cpu best_score : Z) (found : bool)
  : option (Z * bool) :=
  match n with
  | O => Some (best_cpu, found)
  | S n =>
      if is_isolated cpu s then performance_loop n (cpu + 1) s best_cpu best_score found
      else
        score ← cpu_score cpu s;
        if score <? best_score then performance_loop n (cpu + 1) s cpu score true
        else performance_loop n (cpu + 1) s best_cpu best_score found
  end.

Definition find_performance_cpu (s : sys) : option (Z * sys) :=
  if cpu_count s <=? 1 then Some (0, s)
  else
    '(best, found) ← performance_loop (Z.to_nat (cpu_count s) - 1) 1 s 0 UINT32_MAX false;
    if negb found then find_target_cpu s else Some (best, s).

Definition heuristic_assign_cpu (p : Z) (s : sys) : option (Z * sys) :=
  if 0 <? deadline_ns (tasks s p) then find_performance_cpu s else find_target_cpu s.

Definition heuristic_tick (cpu : Z) (s : sys) : option sys := sched_rebalance_tick cpu s.

Definition sched_policy_heuristic : policy := Policy heuristic_assign_cpu heuristic_tick.

End Heuristic.
