(* ===== verification/RunQueue.v ===== *)
(** Linked lists of tasks, and what the run-queue primitives of sched.c do to them.

    [chain] relates a link field to the sequence of tasks reached through it;
    [rq_repr] a run queue to the sequence it holds.  Insertion and removal are
    shown to be the list operations, touching no field but the links (and, on
    insertion, the inserted task's CPU and effective priority). *)

From S2P Require Import Prelude FreeList Buddy StealDeque Task Sys Sched.

Open Scope Z_scope.
Open Scope slm_scope.

Module RunQueue.
Import Task Sys Sched.

(** ** Chains *)

(** Following [nx] from [p] visits [l] and ends in NULL. *)
Fixpoint chain (nx : Z -> Z) (p : Z) (l : list Z) : Prop :=
  match l with
  | [] => p = 0
  | a :: l' => p = a /\ a <> 0 /\ chain nx (nx a) l'
  end.

(** A segment of a chain, whose last link is [x]. *)
Fixpoint seg (nx : Z -> Z) (p : Z) (l : list Z) (x : Z) : Prop :=
  match l with
  | [] => p = x
  | a :: l' => p = a /\ a <> 0 /\ seg nx (nx a) l' x
  end.

Lemma chain_frame nx nx' p l :
  chain nx p l -> (forall a, a ∈ l -> nx' a = nx a) -> chain nx' p l.
Proof.
  revert p. induction l as [|a l IH]; simpl; [done|]. intros p (-> & Ha & Hl) Hn.
  split_and!; [done..|]. rewrite Hn by apply elem_of_cons, or_introl, eq_refl.
  apply IH; [done|]. intros b Hb. apply Hn, elem_of_cons. auto.
Qed.

Lemma chain_app nx p l1 l2 :
  chain nx p (l1 ++ l2) <-> exists x, seg nx p l1 x /\ chain nx x l2.
Proof.
  revert p. induction l1 as [|a l1 IH]; intros p; simpl.
  - split; [by exists p|]. by intros (x & -> & ?).
  - rewrite IH. split.
    + intros (-> & Ha & x & Hs & Hc). by exists x.
    + intros (x & (-> & Ha & Hs) & Hc). split_and!; eauto.
Qed.

Lemma slice_frame nx nx' p l x :
  seg nx p l x -> (forall a, a ∈ l -> nx' a = nx a) -> seg nx' p l x.
Proof.
  revert p. induction l as [|a l IH]; simpl; [done|]. intros p (-> & Ha & Hl) Hn.
  split_and!; [done..|]. rewrite Hn by apply elem_of_cons, or_introl, eq_refl.
  apply IH; [done|]. intros b Hb. apply Hn, elem_of_cons. auto.
Qed.

Lemma chain_nonzero nx p l a : chain nx p l -> a ∈ l -> a <> 0.
Proof.
  revert p. induction l as [|b l IH]; simpl; intros p Hl Ha; [by apply not_elem_of_nil in Ha|].
  destruct Hl as (-> & Hb & Hl). apply elem_of_cons in Ha as [->|Ha]; eauto.
Qed.

Lemma chain_head nx p l : chain nx p l -> p = default 0 (hd_error l).
Proof. destruct l; simpl; [done|]. by intros [-> _]. Qed.

Lemma chain_nil nx l : chain nx 0 l -> l = [].
Proof. destruct l; simpl; [done|]. intros (<- & ? & _). done. Qed.

(** Redirecting the last link of a segment. *)
Lemma seg_redirect nx nx' p l b x y :
  seg nx p (l ++ [b]) x -> b ∉ l -> nx' b = y -> (forall a, a ∈ l -> nx' a = nx a) ->
  seg nx' p (l ++ [b]) y.
Proof.
  revert p. induction l as [|a l IH]; simpl; intros p.
  - intros (-> & Hb & _) _ Hy _. auto.
  - intros (-> & Ha & Hl) [Hab Hbl]%not_elem_of_cons Hy Hn. split_and!; [done..|].
    rewrite Hn by apply elem_of_cons, or_introl, eq_refl. apply IH; auto.
    intros c Hc. apply Hn, elem_of_cons. auto.
Qed.

(** Inserting [p] after [l1]: [nx'] links the last task of [l1] to [p], and [p] to
    what followed. *)
Lemma chain_insert nx nx' h l1 p l2 :
  chain nx h (l1 ++ l2) -> NoDup (l1 ++ l2) -> p <> 0 -> p ∉ l1 ++ l2 ->
  nx' p = default 0 (hd_error l2) ->
  (forall a, a ∈ l1 ++ l2 -> nx' a = if decide (last l1 = Some a) then p else nx a) ->
  chain nx' (if decide (l1 = []) then p else h) (l1 ++ p :: l2).
Proof.
  intros Hc Hnd Hp Hpl Hnp Hn. apply NoDup_app in Hnd as (Hnd1 & Hdis & Hnd2).
  apply chain_app in Hc as (x & Hs & Hc). rewrite <- (chain_head _ _ _ Hc) in Hnp.
  assert (Hc2 : chain nx' x l2).
  { eapply chain_frame; [done|]. intros a Ha. rewrite Hn by (apply elem_of_app; auto).
    rewrite decide_False; [done|]. intros Hl. apply last_Some_elem_of in Hl. by apply (Hdis a). }
  destruct l1 as [|b l1 _] using rev_ind.
  - rewrite decide_True by done. simpl. by rewrite Hnp.
  - rewrite decide_False by (by destruct l1). apply chain_app. exists p. split.
    + apply NoDup_app in Hnd1 as (_ & Hb & _).
      assert (Hbl : b ∉ l1) by (intros Hbl; apply (Hb b Hbl), list_elem_of_singleton; done).
      eapply seg_redirect; [done|done|..].
      * rewrite Hn by (rewrite !elem_of_app, list_elem_of_singleton; auto).
        by rewrite last_snoc, decide_True.
      * intros a Ha. rewrite Hn by (rewrite !elem_of_app; auto). rewrite last_snoc, decide_False; [done|congruence].
    + simpl. rewrite Hnp. auto.
Qed.

(** Unlinking [p]: [nx'] links the last task of [l1] to what followed [p]. *)
Lemma chain_remove nx nx' h l1 p l2 :
  chain nx h (l1 ++ p :: l2) -> NoDup (l1 ++ p :: l2) ->
  (forall a, a ∈ l1 ++ l2 -> nx' a = if decide (last l1 = Some a) then nx p else nx a) ->
  chain nx' (if decide (l1 = []) then nx p else h) (l1 ++ l2) /\ nx p = default 0 (hd_error l2).
Proof.
  intros Hc Hnd Hn. apply NoDup_app in Hnd as (Hnd1 & Hdis & [Hp2 Hnd2]%NoDup_cons).
  apply chain_app in Hc as (x & Hs & -> & Hp & Hc). split; [|by eapply chain_head].
  assert (Hc2 : chain nx' (nx p) l2).
  { eapply chain_frame; [done|]. intros a Ha. rewrite Hn by (apply elem_of_app; auto).
    rewrite decide_False; [done|]. intros Hl. apply last_Some_elem_of in Hl.
    apply (Hdis a Hl), elem_of_cons. auto. }
  destruct l1 as [|b l1 _] using rev_ind.
  - rewrite decide_True by done. done.
  - rewrite decide_False by (by destruct l1). apply chain_app. exists (nx p). split; [|done].
    apply NoDup_app in Hnd1 as (_ & Hb & _).
    assert (Hbl : b ∉ l1) by (intros Hbl; apply (Hb b Hbl), list_elem_of_singleton; done).
    eapply seg_redirect; [done|done|..].
    + rewrite Hn by (rewrite !elem_of_app, list_elem_of_singleton; auto).
      by rewrite last_snoc, decide_True.
    + intros a Ha. rewrite Hn by (rewrite !elem_of_app; auto). rewrite last_snoc, decide_False; [done|congruence].
Qed.

(** ** The loops *)

Lemma add_walk_spec fuel ts prio prev curr l :
  chain (fun a => next (ts a)) curr l -> (length l < fuel)%nat ->
  exists l1 l2, l = l1 ++ l2 /\
    add_walk fuel ts prio prev curr = Some (default prev (last l1), default 0 (hd_error l2)) /\
    Forall (fun a => prio <= effective_priority (ts a)) l1 /\
    (forall a, hd_error l2 = Some a -> effective_priority (ts a) < prio).
Proof.
  revert prev curr l. induction fuel as [|fuel IH]; intros prev curr l Hc Hf; [lia|]. cbn [add_walk].
  destruct l as [|a l]; simpl in Hc.
  { subst. exists [], []. split_and!; done. }
  destruct Hc as (-> & Ha & Hc). rewrite (proj2 (Z.eqb_neq a 0)) by done. simpl.
  destruct (Z.leb_spec prio (effective_priority (ts a))) as [Hle|Hgt].
  - destruct (IH a _ l Hc ltac:(simpl in Hf; lia)) as (l1 & l2 & -> & -> & H1 & H2).
    exists (a :: l1), l2. split_and!; auto. f_equal. f_equal. rewrite last_cons. by destruct (last l1).
  - exists [], (a :: l). split_and!; try done. intros b [= <-]. done.
Qed.

Lemma remove_walk_spec fuel ts p prev curr l :
  chain (fun a => next (ts a)) curr l -> (length l < fuel)%nat ->
  (p ∉ l /\ remove_walk fuel ts p prev curr = Some None) \/
  (exists l1 l2, l = l1 ++ p :: l2 /\ p ∉ l1 /\
     remove_walk fuel ts p prev curr = Some (Some (default prev (last l1)))).
Proof.
  revert prev curr l. induction fuel as [|fuel IH]; intros prev curr l Hc Hf; [lia|]. cbn [remove_walk].
  destruct l as [|a l]; simpl in Hc.
  { subst. left. split; [apply not_elem_of_nil|done]. }
  destruct Hc as (-> & Ha & Hc). rewrite (proj2 (Z.eqb_neq a 0)) by done.
  destruct (Z.eqb_spec a p) as [->|Hne].
  - right. exists [], l. split_and!; auto. apply not_elem_of_nil.
  - destruct (IH a _ l Hc ltac:(simpl in Hf; lia)) as [[Hp ->]|(l1 & l2 & -> & Hp & ->)].
    + left. split; [|done]. rewrite elem_of_cons. intros [?|?]; congruence.
    + right. exists (a :: l1), l2. split_and!; auto.
      * rewrite elem_of_cons. intros [?|?]; congruence.
      * f_equal. f_equal. rewrite last_cons. by destruct (last l1).
Qed.

(** ** Updates of the task store *)

Lemma tasks_upd_eq p f s : tasks (upd p f s) p = f (tasks s p).
Proof. unfold upd. simpl. apply fn_lookup_insert. Qed.

Lemma tasks_upd_ne p q f s : p <> q -> tasks (upd p f s) q = tasks s q.
Proof. intros Hne. unfold upd. simpl. by apply fn_lookup_insert_ne. Qed.

(** Equal up to the [next] link. *)
Definition same_but_next (t t' : task) : Prop := set_next 0 t = set_next 0 t'.

#[export] Instance same_but_next_equiv : Equivalence same_but_next.
Proof. split; unfold same_but_next; congruence. Qed.

Lemma same_but_next_set t v : same_but_next (set_next v t) t.
Proof. done. Qed.

Lemma sbn_state t t' : same_but_next t t' -> state t = state t'.
Proof. intros H. by apply (f_equal state) in H. Qed.
Lemma sbn_prio t t' : same_but_next t t' -> effective_priority t = effective_priority t'.
Proof. intros H. by apply (f_equal effective_priority) in H. Qed.
Lemma sbn_cpu t t' : same_but_next t t' -> assigned_cpu t = assigned_cpu t'.
Proof. intros H. by apply (f_equal assigned_cpu) in H. Qed.
Lemma sbn_flags t t' : same_but_next t t' -> flags t = flags t'.
Proof. intros H. by apply (f_equal flags) in H. Qed.
Lemma sbn_affinity t t' : same_but_next t t' -> cpu_affinity t = cpu_affinity t'.
Proof. intros H. by apply (f_equal cpu_affinity) in H. Qed.
Lemma sbn_stack t t' : same_but_next t t' -> stack_base t = stack_base t'.
Proof. intros H. by apply (f_equal stack_base) in H. Qed.
Lemma sbn_sleep t t' : same_but_next t t' -> sleep_next t = sleep_next t'.
Proof. intros H. by apply (f_equal sleep_next) in H. Qed.

(** ** Run queues as sequences *)

Definition links (s : sys) (a : Z) : Z := next (tasks s a).

Record rq_repr (s : sys) (cpu : Z) (l : list Z) : Prop := {
  q_chain : chain (links s) (head (cpu_rq cpu s)) l;
  q_tail : tail (cpu_rq cpu s) = default 0 (last l);
  q_count : ready_count (cpu_rq cpu s) = Z.of_nat (length l);
  q_nodup : NoDup l
}.

(** What a queue operation on [cpu] leaves alone. *)
Record qframe (s s' : sys) (cpu : Z) : Prop := {
  f_rest : s' = with_rqs (rqs s') (with_tasks (tasks s') s);
  f_rqs : forall c, Z.to_nat c <> Z.to_nat cpu -> cpu_rq c s' = cpu_rq c s;
  f_idle : idle_task (cpu_rq cpu s') = idle_task (cpu_rq cpu s);
  f_zombie : zombie (cpu_rq cpu s') = zombie (cpu_rq cpu s);
  f_len : length (rqs s') = length (rqs s)
}.

Lemma cpu_rq_set_eq cpu q s : (Z.to_nat cpu < length (rqs s))%nat -> cpu_rq cpu (set_rq cpu q s) = q.
Proof.
  intros Hlt. unfold cpu_rq, set_rq. simpl. apply nth_lookup_Some. by apply list_lookup_insert_eq.
Qed.

Lemma cpu_rq_set_ne c cpu q s : Z.to_nat c <> Z.to_nat cpu -> cpu_rq c (set_rq cpu q s) = cpu_rq c s.
Proof.
  intros Hne. unfold cpu_rq, set_rq. simpl. rewrite !nth_lookup. by rewrite list_lookup_insert_ne by done.
Qed.

(** The result of an operation that stores new tasks and one new run queue. *)
Lemma qframe_set s ts cpu q :
  (Z.to_nat cpu < length (rqs s))%nat -> idle_task q = idle_task (cpu_rq cpu s) ->
  zombie q = zombie (cpu_rq cpu s) -> qframe s (set_rq cpu q (with_tasks ts s)) cpu.
Proof.
  intros Hlt Hi Hz. constructor.
  - done.
  - intros c Hc. rewrite cpu_rq_set_ne by done. done.
  - by rewrite cpu_rq_set_eq.
  - by rewrite cpu_rq_set_eq.
  - unfold set_rq. simpl. by rewrite length_insert.
Qed.

(** The TCB as [add_to_cpu_queue_locked] stores it, links aside. *)
Definition enqueued (s : sys) (cpu p : Z) : task :=
  deadline_boost (now_ns s) (set_assigned_cpu cpu (tasks s p)).

(** The store before the insertion starts to link. *)
Definition staged (s : sys) (cpu p : Z) : sys := update_deadline_boost p (upd p (set_assigned_cpu cpu) s).

Lemma staged_spec s cpu p :
  p <> 0 -> staged s cpu p = with_tasks (tasks (staged s cpu p)) s /\
  tasks (staged s cpu p) p = enqueued s cpu p /\
  (forall a, a <> p -> tasks (staged s cpu p) a = tasks s a).
Proof.
  intros Hp. unfold staged, update_deadline_boost. rewrite (proj2 (Z.eqb_neq p 0)) by done.
  split; [done|]. split.
  - by rewrite !tasks_upd_eq.
  - intros a Ha. by rewrite !tasks_upd_ne by done.
Qed.

(** Storing [p]'s TCB does not disturb a queue [p] is not in. *)
Lemma rq_repr_frame s s' cpu l :
  rq_repr s cpu l -> cpu_rq cpu s' = cpu_rq cpu s -> (forall a, a ∈ l -> links s' a = links s a) ->
  rq_repr s' cpu l.
Proof.
  intros [Hc Ht Hn Hnd] Hq Hl. constructor; rewrite ?Hq; try done. by eapply chain_frame.
Qed.

Lemma last_cases (h : Z) nx l l2 :
  chain nx h (l ++ l2) -> let b := default 0 (last l) in
  (b = 0 /\ l = []) \/ (b <> 0 /\ last l = Some b /\ l <> []).
Proof.
  intros Hc. simpl. destruct (last l) as [b|] eqn:Hl; simpl.
  - right. split; [|split; [done|intros ->; done]].
    eapply chain_nonzero; [done|]. apply elem_of_app. left. by apply last_Some_elem_of.
  - left. split; [done|]. by apply last_None.
Qed.

(** Both loops end by redirecting the link of the predecessor, if there is one. *)
Definition relink (b v : Z) (s : sys) : sys := if b =? 0 then s else upd b (set_next v) s.

Lemma relink_spec s h l l2 v :
  chain (links s) h (l ++ l2) -> let s' := relink (default 0 (last l)) v s in
  s' = with_tasks (tasks s') s /\
  (forall a, tasks s' a = if decide (last l = Some a) then set_next v (tasks s a) else tasks s a).
Proof.
  intros Hc. cbv zeta. unfold relink. destruct (last_cases _ _ _ _ Hc) as [[Hb Hl]|(Hb & Hl & _)].
  - rewrite Hb. subst l. split; [by destruct s|]. intros a. by rewrite decide_False.
  - rewrite (proj2 (Z.eqb_neq _ _) Hb). split; [done|]. intros a. rewrite Hl.
    destruct (decide _) as [[= <-]|Hne]; [apply tasks_upd_eq|]. apply tasks_upd_ne. congruence.
Qed.

(** The linking part of the insertion. *)
Definition link_in (p cpu prev curr : Z) (s : sys) : sys :=
  let rq := cpu_rq cpu s in
  let rq := if prev =? 0 then with_head p rq else rq in
  let rq := if curr =? 0 then with_tail p rq else rq in
  set_rq cpu (with_ready_count (ready_count rq +32 1) rq) (relink prev p (upd p (set_next curr) s)).

Lemma link_in_tasks s p cpu l1 l2 h a :
  chain (links s) h (l1 ++ l2) -> p ∉ l1 ++ l2 ->
  tasks (link_in p cpu (default 0 (last l1)) (default 0 (hd_error l2)) s) a =
    if decide (a = p) then set_next (default 0 (hd_error l2)) (tasks s p)
    else if decide (last l1 = Some a) then set_next p (tasks s a) else tasks s a.
Proof.
  intros Hc Hpl. unfold link_in. set (s1 := upd p _ s). simpl.
  assert (Hc1 : chain (links s1) h (l1 ++ l2)).
  { eapply chain_frame; [done|]. intros b Hb. unfold links, s1. by rewrite tasks_upd_ne by congruence. }
  rewrite (proj2 (relink_spec _ _ _ _ p Hc1)). destruct (decide (a = p)) as [->|Ha].
  - rewrite decide_False; [by unfold s1; rewrite tasks_upd_eq|].
    intros Hl. apply Hpl, elem_of_app. left. by apply last_Some_elem_of.
  - unfold s1. by rewrite tasks_upd_ne by congruence.
Qed.

Lemma link_in_frame s p cpu prev curr :
  (Z.to_nat cpu < length (rqs s))%nat -> qframe s (link_in p cpu prev curr s) cpu.
Proof.
  intros Hcpu. unfold link_in, relink. destruct (prev =? 0).
  - apply (qframe_set s (tasks (upd p (set_next curr) s))); [done| |]; by destruct (curr =? 0).
  - apply (qframe_set s (tasks (upd prev (set_next p) (upd p (set_next curr) s)))); [done| |];
      by destruct (curr =? 0).
Qed.

Lemma relink_rqs b v s : rqs (relink b v s) = rqs s.
Proof. unfold relink. by destruct (b =? 0). Qed.

Lemma link_in_spec s p cpu l1 l2 :
  rq_repr s cpu (l1 ++ l2) -> (length (l1 ++ l2) <= 64)%nat -> p <> 0 -> p ∉ l1 ++ l2 ->
  (Z.to_nat cpu < length (rqs s))%nat ->
  rq_repr (link_in p cpu (default 0 (last l1)) (default 0 (hd_error l2)) s) cpu (l1 ++ p :: l2).
Proof.
  intros [Hc Ht Hn Hnd] Hlen Hp Hpl Hcpu.
  pose proof (fun a => link_in_tasks s p cpu l1 l2 _ a Hc Hpl) as Hts.
  set (s' := link_in _ _ _ _ _) in *.
  assert (Hq : cpu_rq cpu s' = CpuRunqueue (if decide (l1 = []) then p else head (cpu_rq cpu s))
     (default 0 (last (l1 ++ p :: l2))) (idle_task (cpu_rq cpu s)) (zombie (cpu_rq cpu s))
     (ready_count (cpu_rq cpu s) +32 1)).
  { unfold s', link_in. rewrite cpu_rq_set_eq by (by rewrite relink_rqs).
    assert (Htl : default 0 (last (l1 ++ p :: l2)) =
      if default 0 (hd_error l2) =? 0 then p else tail (cpu_rq cpu s)).
    { rewrite Ht. destruct l2 as [|b l2]; simpl; [by rewrite last_snoc|].
      rewrite (proj2 (Z.eqb_neq b 0)) by (eapply chain_nonzero; [done|]; rewrite elem_of_app, elem_of_cons; auto).
      rewrite !last_app, !last_cons. by destruct (last l2). }
    rewrite Htl. destruct (last_cases _ _ _ _ Hc) as [[-> ->]|(Hb & _ & Hne)].
    - rewrite decide_True by done. simpl. by destruct (_ =? 0).
    - rewrite decide_False by exact Hne. rewrite (proj2 (Z.eqb_neq _ _) Hb).
      destruct (cpu_rq cpu s). by destruct (default 0 (hd_error l2) =? 0). }
  constructor; rewrite ?Hq; simpl.
  - eapply (chain_insert (links s)); try done; unfold links.
    + rewrite Hts, decide_True by done. done.
    + intros a Ha. rewrite Hts, decide_False by congruence.
      by destruct (decide (last l1 = Some a)).
  - done.
  - rewrite Hn, u32_small; rewrite !length_app in *; simpl; [lia|]. unfold is_u32. lia.
  - rewrite <- Permutation_middle. by apply NoDup_cons.
Qed.

(** [add_to_cpu_queue_locked] finds the place and links the task in there; the branch
    for an empty queue is the same insertion. *)
Lemma add_as_link_in s p cpu l :
  rq_repr s cpu l -> (length l <= 64)%nat -> p <> 0 -> p ∉ l ->
  exists l1 l2, l = l1 ++ l2 /\
    add_to_cpu_queue_locked p cpu s =
      Some (link_in p cpu (default 0 (last l1)) (default 0 (hd_error l2)) (staged s cpu p)) /\
    Forall (fun a => effective_priority (enqueued s cpu p) <= effective_priority (tasks s a)) l1 /\
    (forall a, hd_error l2 = Some a -> effective_priority (tasks s a) < effective_priority (enqueued s cpu p)).
Proof.
  intros [Hc _ _ _] Hlen Hp Hpl. destruct (staged_spec s cpu p Hp) as (Hst & Htp & Hta).
  unfold add_to_cpu_queue_locked. fold (staged s cpu p). set (s1 := staged s cpu p) in *.
  assert (Hrq : cpu_rq cpu s1 = cpu_rq cpu s) by (by rewrite Hst). cbv zeta.
  assert (Hc1 : chain (fun a => next (tasks s1 a)) (head (cpu_rq cpu s1)) l).
  { rewrite Hrq. eapply chain_frame; [done|]. intros a Ha. unfold links. by rewrite Hta by congruence. }
  destruct (add_walk_spec QUEUE_FUEL _ (effective_priority (tasks s1 p)) 0 _ l Hc1 ltac:(unfold QUEUE_FUEL; lia))
    as (l1 & l2 & Hl & Hw & H1 & H2).
  exists l1, l2. split; [done|]. split; [|split].
  - destruct (Z.eqb_spec (head (cpu_rq cpu s1)) 0) as [Hh|_].
    + rewrite Hh in Hc1. apply chain_nil in Hc1. subst l. symmetry in Hl.
      apply app_eq_nil in Hl as [-> ->]. done.
    + rewrite Hw. done.
  - rewrite Htp in H1. apply Forall_forall. intros a Ha. rewrite Forall_forall in H1.
    rewrite <- Hta; [by apply H1|]. intros ->. apply Hpl. subst l. apply elem_of_app. auto.
  - intros a Ha. rewrite Htp in H2. rewrite <- Hta; [by apply H2|]. intros ->. apply Hpl.
    subst l. apply elem_of_app. right. destruct l2; [done|]. injection Ha as ->. apply elem_of_cons. auto.
Qed.

(** [p] has been inserted into queue [cpu] between [l1] and [l2]: behind every task of
    at least its priority, before every task of lower priority when the queue is
    sorted, with no field but links changed except [p]'s CPU and priority. *)
Record inserted (s s' : sys) (cpu p : Z) (l1 l2 : list Z) : Prop := {
  ins_before : Forall (fun a => effective_priority (enqueued s cpu p) <= effective_priority (tasks s a)) l1;
  ins_after : forall a, hd_error l2 = Some a ->
    effective_priority (tasks s a) < effective_priority (enqueued s cpu p);
  ins_repr : rq_repr s' cpu (l1 ++ p :: l2);
  ins_frame : qframe s s' cpu;
  ins_self : same_but_next (tasks s' p) (enqueued s cpu p);
  ins_other : forall a, a <> p -> same_but_next (tasks s' a) (tasks s a);
  ins_outside : forall a, a ∉ p :: l1 ++ l2 -> tasks s' a = tasks s a
}.

Lemma add_queue_spec s p cpu l :
  rq_repr s cpu l -> (length l <= 64)%nat -> p <> 0 -> p ∉ l -> (Z.to_nat cpu < length (rqs s))%nat ->
  exists s' l1 l2, add_to_cpu_queue_locked p cpu s = Some s' /\ l = l1 ++ l2 /\ inserted s s' cpu p l1 l2.
Proof.
  intros Hq Hlen Hp Hpl Hcpu. destruct (add_as_link_in _ _ cpu _ Hq Hlen Hp Hpl) as (l1 & l2 & -> & Hadd & H1 & H2).
  destruct (staged_spec s cpu p Hp) as (Hst & Htp & Hta). set (s1 := staged s cpu p) in *.
  assert (Hq1 : rq_repr s1 cpu (l1 ++ l2)).
  { eapply rq_repr_frame; [done|by rewrite Hst|]. intros a Ha. unfold links. by rewrite Hta by congruence. }
  pose proof (fun a => link_in_tasks s1 p cpu l1 l2 _ a (q_chain _ _ _ Hq1) Hpl) as Hts.
  eexists _, l1, l2. split; [exact Hadd|]. split; [done|]. constructor; try done.
  - apply link_in_spec; try done. by rewrite Hst.
  - pose proof (link_in_frame s1 p cpu (default 0 (last l1)) (default 0 (hd_error l2))) as Hf.
    rewrite Hst in Hf |- *. by destruct (Hf Hcpu).
  - rewrite Hts, decide_True by done. by rewrite Htp.
  - intros a Ha. rewrite Hts, decide_False by done. destruct (decide _); by rewrite Hta.
  - intros a [Ha Hal]%not_elem_of_cons. rewrite Hts, decide_False by done. rewrite decide_False; [by apply Hta|].
    intros Hl. apply Hal, elem_of_app. left. by apply last_Some_elem_of.
Qed.

Lemma pivot_unique (p : Z) l1 l2 m1 m2 :
  l1 ++ p :: l2 = m1 ++ p :: m2 -> p ∉ l1 -> p ∉ m1 -> l1 = m1.
Proof.
  revert m1. induction l1 as [|a l1 IH]; intros [|b m1] Heq Hl Hm; simplify_eq/=.
  - done.
  - destruct Hm. apply elem_of_cons. auto.
  - destruct Hl. apply elem_of_cons. auto.
  - apply not_elem_of_cons in Hl as [_ Hl], Hm as [_ Hm]. by rewrite (IH m1).
Qed.

(** The unlinking part of the removal. *)
Definition link_out (p cpu prev : Z) (s : sys) : sys :=
  let rq := cpu_rq cpu s in
  let nx := next (tasks s p) in
  let rq := if prev =? 0 then with_head nx rq else rq in
  let rq := if p =? tail rq then with_tail prev rq else rq in
  set_rq cpu (with_ready_count (ready_count rq -32 1) rq) (upd p (set_next 0) (relink prev nx s)).

Lemma link_out_frame s p cpu prev :
  (Z.to_nat cpu < length (rqs s))%nat -> qframe s (link_out p cpu prev s) cpu.
Proof.
  intros Hcpu. unfold link_out, relink. set (nx := next (tasks s p)). destruct (prev =? 0); cbv zeta.
  - apply (qframe_set s (tasks (upd p (set_next 0) s))); [done| |]; by destruct (p =? _).
  - apply (qframe_set s (tasks (upd p (set_next 0) (upd prev (set_next nx) s)))); [done| |];
      by destruct (p =? _).
Qed.

Lemma link_out_tasks s p cpu l1 l2 h a :
  chain (links s) h (l1 ++ p :: l2) -> NoDup (l1 ++ p :: l2) ->
  tasks (link_out p cpu (default 0 (last l1)) s) a =
    if decide (a = p) then set_next 0 (tasks s p)
    else if decide (last l1 = Some a) then set_next (next (tasks s p)) (tasks s a) else tasks s a.
Proof.
  intros Hc Hnd. unfold link_out. cbn [set_rq with_rqs tasks]. destruct (decide (a = p)) as [->|Ha].
  - rewrite tasks_upd_eq. rewrite (proj2 (relink_spec _ _ _ _ _ Hc)). rewrite decide_False; [done|].
    intros Hl%last_Some_elem_of. apply NoDup_app in Hnd as (_ & Hd & _). apply (Hd p Hl), elem_of_cons. auto.
  - rewrite tasks_upd_ne by congruence. by rewrite (proj2 (relink_spec _ _ _ _ _ Hc)).
Qed.

Lemma link_out_spec s p cpu l1 l2 :
  rq_repr s cpu (l1 ++ p :: l2) -> (length (l1 ++ p :: l2) <= 64)%nat -> (Z.to_nat cpu < length (rqs s))%nat ->
  rq_repr (link_out p cpu (default 0 (last l1)) s) cpu (l1 ++ l2).
Proof.
  intros [Hc Ht Hn Hnd] Hlen Hcpu.
  pose proof (fun a => link_out_tasks s p cpu l1 l2 _ a Hc Hnd) as Hts.
  set (s' := link_out _ _ _ _) in *.
  assert (Hq : cpu_rq cpu s' = CpuRunqueue (if decide (l1 = []) then links s p else head (cpu_rq cpu s))
     (default 0 (last (l1 ++ l2))) (idle_task (cpu_rq cpu s)) (zombie (cpu_rq cpu s))
     (ready_count (cpu_rq cpu s) -32 1)).
  { unfold s', link_out. rewrite cpu_rq_set_eq by (simpl; by rewrite relink_rqs).
    assert (Htl : default 0 (last (l1 ++ l2)) =
      if p =? tail (cpu_rq cpu s) then default 0 (last l1) else tail (cpu_rq cpu s)).
    { rewrite Ht. apply NoDup_app in Hnd as (_ & _ & [Hp2 _]%NoDup_cons).
      rewrite !last_app, last_cons. destruct (last l2) as [b|] eqn:Hl; simpl.
      - rewrite (proj2 (Z.eqb_neq p b)); [done|]. intros ->. by apply Hp2, last_Some_elem_of.
      - by rewrite Z.eqb_refl. }
    rewrite Htl. destruct (last_cases _ _ _ _ Hc) as [[-> ->]|(Hb & _ & Hne)].
    - rewrite decide_True by done. simpl. by destruct (p =? _).
    - rewrite decide_False by exact Hne. rewrite (proj2 (Z.eqb_neq _ _) Hb).
      destruct (cpu_rq cpu s). simpl. by destruct (p =? _). }
  assert (Hlk : forall a, a ∈ l1 ++ l2 -> links s' a = if decide (last l1 = Some a) then links s p else links s a).
  { intros a Ha. unfold links. rewrite Hts, decide_False; [by destruct (decide (last l1 = Some a))|].
    intros ->. rewrite <- Permutation_middle in Hnd. apply NoDup_cons in Hnd as [Hd _]. done. }
  constructor; rewrite ?Hq; simpl.
  - by apply (chain_remove _ _ _ _ _ _ Hc Hnd Hlk).
  - done.
  - rewrite Hn, u32_small; rewrite !length_app in *; simpl in *; [lia|]. unfold is_u32. lia.
  - rewrite <- Permutation_middle in Hnd. by apply NoDup_cons in Hnd as [_ Hd].
Qed.

(** [p] has been taken out of queue [cpu] from between [l1] and [l2]. *)
Record removed (s s' : sys) (cpu p : Z) (l1 l2 : list Z) : Prop := {
  rem_repr : rq_repr s' cpu (l1 ++ l2);
  rem_frame : qframe s s' cpu;
  rem_next : next (tasks s' p) = 0;
  rem_other : forall a, same_but_next (tasks s' a) (tasks s a);
  rem_outside : forall a, a ∉ l1 ++ p :: l2 -> tasks s' a = tasks s a
}.

(** [remove_from_cpu_queue_locked] on a task that is in the queue, and on one that is not. *)
Lemma remove_as_link_out s p cpu l1 l2 :
  rq_repr s cpu (l1 ++ p :: l2) -> (length (l1 ++ p :: l2) <= 64)%nat ->
  remove_from_cpu_queue_locked p cpu s = Some (true, link_out p cpu (default 0 (last l1)) s).
Proof.
  intros [Hc _ _ Hnd] Hlen. unfold remove_from_cpu_queue_locked.
  destruct (remove_walk_spec QUEUE_FUEL _ p 0 _ _ Hc ltac:(unfold QUEUE_FUEL; lia)) as [[Hn _]|(m1 & m2 & Hm & Hp & ->)].
  - destruct Hn. rewrite elem_of_app, elem_of_cons. auto.
  - assert (m1 = l1) as ->; [|done]. symmetry.
    eapply pivot_unique; [done| |exact Hp]. apply NoDup_app in Hnd as (_ & Hd & _).
    intros Hin. apply (Hd p Hin), elem_of_cons. auto.
Qed.

Lemma remove_queue_spec s p cpu l1 l2 :
  rq_repr s cpu (l1 ++ p :: l2) -> (length (l1 ++ p :: l2) <= 64)%nat -> (Z.to_nat cpu < length (rqs s))%nat ->
  exists s', remove_from_cpu_queue_locked p cpu s = Some (true, s') /\ removed s s' cpu p l1 l2.
Proof.
  intros Hq Hlen Hcpu. pose proof Hq as [Hc _ _ Hnd].
  pose proof (fun a => link_out_tasks s p cpu l1 l2 _ a Hc Hnd) as Hts.
  exists (link_out p cpu (default 0 (last l1)) s). split; [by eapply remove_as_link_out|].
  constructor; [by apply link_out_spec|by apply link_out_frame|by rewrite Hts, decide_True|..].
  - intros a. rewrite Hts. destruct (decide _) as [->|]; [done|]. by destruct (decide _).
  - intros a [Ha1 [Hap Ha2]%not_elem_of_cons]%not_elem_of_app. rewrite Hts, decide_False by done.
    rewrite decide_False; [done|]. intros Hl. by apply Ha1, last_Some_elem_of.
Qed.

Lemma remove_queue_absent s p cpu l :
  rq_repr s cpu l -> (length l <= 64)%nat -> p ∉ l -> remove_from_cpu_queue_locked p cpu s = Some (false, s).
Proof.
  intros [Hc _ _ _] Hlen Hp. unfold remove_from_cpu_queue_locked.
  destruct (remove_walk_spec QUEUE_FUEL _ p 0 _ _ Hc ltac:(unfold QUEUE_FUEL; lia)) as [[_ ->]|(m1 & m2 & -> & _)].
  - done.
  - destruct Hp. rewrite elem_of_app, elem_of_cons. auto.
Qed.

End RunQueue.
