(* ===== verification/SchedInv.v ===== *)
(** The scheduler's invariant.

    [core s Q S C] says that run queue [c] holds the sequence [Q c], the sleep queue
    holds [S] and CPU [c] runs [C c], and that every task is where its state says:
    READY tasks of a queue are assigned to its CPU, sleepers are BLOCKED, current
    tasks are neither READY nor destroyed, zombies are TERMINATED, each CPU has its
    own idle task outside all queues, and task stacks are distinct allocated blocks.
    A [floating] task is in none of these places.  The lemmas move a task between
    places; the scheduler calls are compositions of such moves. *)

From S2P Require Import Prelude FreeList Buddy BuddyInv BuddyStep BuddySpec PmmSpec.
From S2P Require Import StealDeque Task Sys Sched RunQueue.

Open Scope Z_scope.
Open Scope slm_scope.

Module SchedInv.
Import Task Sys Sched RunQueue.

(** What other components hold while the scheduler works: the queues of tasks blocked on
    mutexes and message queues, linked through [next], and blocks of the page allocator. *)
Class Ghost := Ghosts { waits : list (list Z); blocks : list (nat * Z) }.

Section invariant.
Context {G : Ghost}.

Definition waiters : list Z := concat waits.

Definition in_table (p : Z) : Prop := 1 <= p <= MAX_TASKS.

Definition idle (s : sys) (p : Z) : bool := is_idle_task (Some (tasks s p)).

Definition rq_of (c : nat) (s : sys) : cpu_runqueue := cpu_rq (Z.of_nat c) s.

(** Stacks are [STACK_SIZE] bytes, a block of order 6. *)
Definition STACK_ORDER : nat := 6.

(** A TCB's CPU numbers: the affinity is a CPU of the machine or ANY. *)
Definition tcb_ok (n : Z) (t : task) : Prop :=
  (cpu_affinity t = CPU_AFFINITY_ANY \/ 0 <= cpu_affinity t < n) /\ 0 <= assigned_cpu t < MAX_CPUS.

(** The task table: well-formed TCBs whose stacks are distinct allocated blocks. *)
Record stacks_ok (n : Z) (h : Buddy.pmm) (ts : Z -> task) : Prop := {
  stk_tcb : forall p, tcb_ok n (ts p);
  stk_inv : BuddyInv.inv h;
  stk_held : forall p, in_table p -> stack_base (ts p) <> 0 ->
    BuddySpec.is_allocated h STACK_ORDER (stack_base (ts p));
  stk_disj : forall p q x, in_table p -> in_table q -> stack_base (ts p) <> 0 -> stack_base (ts q) <> 0 ->
    BuddyInv.in_block (stack_base (ts p)) STACK_ORDER x ->
    BuddyInv.in_block (stack_base (ts q)) STACK_ORDER x -> p = q;
  stk_blocks : forall o a, (o, a) ∈ blocks -> BuddySpec.is_allocated h o a;
  stk_clear : forall p o a x, in_table p -> stack_base (ts p) <> 0 -> (o, a) ∈ blocks ->
    BuddyInv.in_block (stack_base (ts p)) STACK_ORDER x -> ~ BuddyInv.in_block a o x;
  stk_sep : forall i j b c x, blocks !! i = Some b -> blocks !! j = Some c ->
    BuddyInv.in_block b.2 b.1 x -> BuddyInv.in_block c.2 c.1 x -> i = j
}.

Definition deques_ok (s : sys) : Prop :=
  length (deques s) = 8%nat /\ Forall StealDeque.deque_ok (deques s).

(** The tasks that own their slot of the task table: those in one of the places below. *)
Definition homed (s : sys) (Q : nat -> list Z) (S : list Z) (C : nat -> Z) (p : Z) : Prop :=
  (exists c, (c < 8)%nat /\ p ∈ Q c) \/ p ∈ S ++ waiters \/ (exists c, C c = p /\ p <> 0) \/ idle s p = true \/
  (exists c, (c < 8)%nat /\ zombie (rq_of c s) = p /\ p <> 0).

Record core (s : sys) (Q : nat -> list Z) (S : list Z) (C : nat -> Z) : Prop := {
  k_rqs : length (rqs s) = 8%nat;
  k_cpus : 1 <= cpu_count s <= MAX_CPUS;
  k_queues : forall c, (c < 8)%nat -> rq_repr s (Z.of_nat c) (Q c);
  k_queued : forall c p, (c < 8)%nat -> p ∈ Q c ->
    in_table p /\ state (tasks s p) = TASK_READY /\ assigned_cpu (tasks s p) = Z.of_nat c /\ idle s p = false;
  k_chain : chain (fun a => sleep_next (tasks s a)) (sleep_queue_head s) S;
  k_snodup : NoDup S;
  k_asleep : forall p, p ∈ S -> in_table p /\ state (tasks s p) = TASK_BLOCKED /\ idle s p = false;
  k_waits : forall l, l ∈ waits -> chain (fun a => next (tasks s a)) (default 0 (hd_error l)) l;
  k_waiting : forall p, p ∈ waiters ->
    in_table p /\ state (tasks s p) = TASK_BLOCKED /\ idle s p = false /\ p ∉ S;
  k_wnodup : NoDup waiters;
  k_cur : forall c, C c <> 0 ->
    in_table (C c) /\ state (tasks s (C c)) <> TASK_READY /\ state (tasks s (C c)) <> TASK_DESTROYED /\
    (idle s (C c) = true -> C c = idle_task (rq_of c s));
  k_cur_inj : forall c d, C c <> 0 -> C c = C d -> c = d;
  k_idle : forall c, Z.of_nat c < cpu_count s ->
    in_table (idle_task (rq_of c s)) /\ idle s (idle_task (rq_of c s)) = true /\
    (state (tasks s (idle_task (rq_of c s))) = TASK_READY \/ state (tasks s (idle_task (rq_of c s))) = TASK_RUNNING);
  k_idle_cur : forall c d, Z.of_nat c < cpu_count s -> C d = idle_task (rq_of c s) -> d = c;
  k_idle_inj : forall c d, Z.of_nat c < cpu_count s -> Z.of_nat d < cpu_count s ->
    idle_task (rq_of c s) = idle_task (rq_of d s) -> c = d;
  k_zombie : forall c, (c < 8)%nat -> zombie (rq_of c s) <> 0 ->
    in_table (zombie (rq_of c s)) /\ state (tasks s (zombie (rq_of c s))) = TASK_TERMINATED /\
    idle s (zombie (rq_of c s)) = false /\ forall d, C d <> zombie (rq_of c s);
  k_zombie_inj : forall c d, (c < 8)%nat -> (d < 8)%nat -> zombie (rq_of c s) <> 0 ->
    zombie (rq_of c s) = zombie (rq_of d s) -> c = d;
  k_ids : forall p, homed s Q S C p -> id (tasks s p) <> 0;
  k_deques : deques_ok s;
  k_stacks : stacks_ok (cpu_count s) (heap s) (tasks s)
}.

(** In no queue, not running, not waiting to be destroyed and not an idle task. *)
Record floating (s : sys) (Q : nat -> list Z) (S : list Z) (C : nat -> Z) (p : Z) : Prop := {
  fl_table : in_table p;
  fl_idle : idle s p = false;
  fl_id : id (tasks s p) <> 0;
  fl_queue : forall c, (c < 8)%nat -> p ∉ Q c;
  fl_sleep : p ∉ S;
  fl_wait : p ∉ waiters;
  fl_cur : forall c, C c <> p;
  fl_zombie : forall c, (c < 8)%nat -> zombie (rq_of c s) <> p
}.

(** ** Frames *)

(** The fields of a TCB the invariant reads. *)
Definition view (t : task) : Z * Z * task_state * Z * bool * Z :=
  (next t, sleep_next t, state t, assigned_cpu t, is_idle_task (Some t), id t).

Lemma view_fields t t' : view t = view t' ->
  next t = next t' /\ sleep_next t = sleep_next t' /\ state t = state t' /\
  assigned_cpu t = assigned_cpu t' /\ is_idle_task (Some t) = is_idle_task (Some t').
Proof. unfold view. intros E. by injection E as ? ? ? ? ? ?. Qed.

Lemma view_id t t' : view t = view t' -> id t = id t'.
Proof. unfold view. intros E. by injection E as ? ? ? ? ? ?. Qed.

(** The parts of the state the invariant reads, TCBs aside. *)
Definition parts (s : sys) : list cpu_runqueue * Z * Z := (rqs s, cpu_count s, sleep_queue_head s).

Lemma stacks_ext n h ts ts' :
  stacks_ok n h ts -> (forall a, stack_base (ts' a) = stack_base (ts a)) -> (forall a, tcb_ok n (ts' a)) ->
  stacks_ok n h ts'.
Proof.
  intros [H0 H1 H2 H3 H4 H5 H6] Hst Htc. constructor; try done.
  - intros p. rewrite Hst. apply H2.
  - intros p q x. rewrite !Hst. apply H3.
  - intros p o a x. rewrite Hst. apply H5.
Qed.

(** The rest of the state that dispatch reads. *)
Definition env (s : sys) : list Z * Z * Z * list Z * Z * Z * Z :=
  (current_task s, cpu_count s, isolated_cores s, preempt_disabled s, now_ns s, timer_count s, timer_freq s).

(** The stacks stay where they are. *)
Definition stk_same (s s' : sys) : Prop :=
  forall a, stack_base (tasks s' a) = stack_base (tasks s a) /\ stack_top (tasks s' a) = stack_top (tasks s a).

#[export] Instance stk_same_preorder : PreOrder stk_same.
Proof.
  split; [by intros s a|]. intros s1 s2 s3 H1 H2 a. destruct (H1 a), (H2 a). split; congruence.
Qed.

Lemma stk_same_upd s p f :
  stack_base (f (tasks s p)) = stack_base (tasks s p) -> stack_top (f (tasks s p)) = stack_top (tasks s p) ->
  stk_same s (upd p f s).
Proof.
  intros H1 H2 a. destruct (decide (a = p)) as [->|]; [by rewrite tasks_upd_eq|by rewrite tasks_upd_ne].
Qed.

(** In none of the places; floating tasks and idle tasks that do not run are loose. *)
Definition loose (s : sys) (Q : nat -> list Z) (S : list Z) (C : nat -> Z) (p : Z) : Prop :=
  (forall c, (c < 8)%nat -> p ∉ Q c /\ zombie (rq_of c s) <> p) /\ p ∉ S /\ (forall c, C c <> p) /\ p ∉ waiters.

Lemma floating_loose s Q S C p : floating s Q S C p -> loose s Q S C p.
Proof. intros []. split_and!; auto. Qed.

Lemma awake_asleep (S : list Z) p : p ∉ S ++ waiters -> p ∉ S.
Proof. rewrite elem_of_app. tauto. Qed.

Lemma awake_waiting (S : list Z) p : p ∉ S ++ waiters -> p ∉ waiters.
Proof. rewrite elem_of_app. tauto. Qed.

Lemma floating_awake s Q S C p : floating s Q S C p -> p ∉ S ++ waiters.
Proof. intros []. rewrite elem_of_app. tauto. Qed.

Lemma idle_awake s Q S C p : core s Q S C -> idle s p = true -> p ∉ S ++ waiters.
Proof.
  intros K Hi. rewrite elem_of_app. intros [Hin|Hin].
  - destruct (k_asleep _ _ _ _ K _ Hin) as (_ & _ & E). congruence.
  - destruct (k_waiting _ _ _ _ K _ Hin) as (_ & _ & E & _). congruence.
Qed.

Lemma idle_loose s Q S C c :
  core s Q S C -> Z.of_nat c < cpu_count s -> (forall d, C d <> idle_task (rq_of c s)) ->
  loose s Q S C (idle_task (rq_of c s)).
Proof.
  intros K Hc Hd. destruct (k_idle _ _ _ _ K c Hc) as ([? ?] & Hi & _). split_and!; [| |done|].
  - intros d Hd8. split; [intros Hin|intros Hz].
    + destruct (k_queued _ _ _ _ K d _ Hd8 Hin) as (_ & _ & _ & E). congruence.
    + destruct (k_zombie _ _ _ _ K d Hd8) as (_ & _ & E & _); [lia|]. congruence.
  - intros Hin. destruct (k_asleep _ _ _ _ K _ Hin) as (_ & _ & E). congruence.
  - intros Hin. destruct (k_waiting _ _ _ _ K _ Hin) as (_ & _ & E & _). congruence.
Qed.

Lemma waiters_in l p : l ∈ waits -> p ∈ l -> p ∈ waiters.
Proof. intros Hl Hp. unfold waiters. apply list_elem_of_In, in_concat. exists l. by rewrite <- !list_elem_of_In. Qed.

(** Loose tasks may change freely, except for their stack; an idle task stays one. *)
Lemma core_ext (E : Z -> Prop) s s' Q S C :
  (forall a, E a \/ ~ E a) -> core s Q S C -> parts s' = parts s ->
  (forall a, E a -> loose s Q S C a /\ (idle s' a = true -> id (tasks s' a) <> 0) /\ (idle s a = true -> idle s' a = true /\
     (state (tasks s' a) = TASK_READY \/ state (tasks s' a) = TASK_RUNNING))) ->
  (forall a, ~ E a -> view (tasks s' a) = view (tasks s a)) ->
  deques_ok s' -> stacks_ok (cpu_count s) (heap s') (tasks s') -> core s' Q S C.
Proof.
  intros Hem K Hp HE Hv Hd Hst. unfold parts in Hp. injection Hp as Hq Hc Hs.
  assert (Hrq : forall c, rq_of c s' = rq_of c s) by (intros c; unfold rq_of, cpu_rq; by rewrite Hq).
  assert (Hnf : forall a, ~ loose s Q S C a -> view (tasks s' a) = view (tasks s a)).
  { intros a Ha. apply Hv. intros He. by apply Ha, HE. }
  assert (Hqv : forall c a, (c < 8)%nat -> a ∈ Q c -> view (tasks s' a) = view (tasks s a)).
  { intros c a Hc8 Ha. apply Hnf. intros (Hf & _). by destruct (Hf c Hc8). }
  assert (Hsv : forall a, a ∈ S -> view (tasks s' a) = view (tasks s a)).
  { intros a Ha. apply Hnf. by intros (_ & Hf & _). }
  assert (Hwv : forall a, a ∈ waiters -> view (tasks s' a) = view (tasks s a)).
  { intros a Ha. apply Hnf. by intros (_ & _ & _ & Hf). }
  assert (Hcv : forall c, view (tasks s' (C c)) = view (tasks s (C c))).
  { intros c. apply Hnf. intros (_ & _ & Hf & _). by apply (Hf c). }
  assert (Hzv : forall c, (c < 8)%nat -> view (tasks s' (zombie (rq_of c s))) = view (tasks s (zombie (rq_of c s)))).
  { intros c Hc8. apply Hnf. intros (Hf & _). by destruct (Hf c Hc8). }
  destruct K. constructor; rewrite ?Hq, ?Hc, ?Hs; try done.
  - intros c Hc8. eapply rq_repr_frame; [by apply k_queues0|apply Hrq|].
    intros a Ha. by apply view_fields, (Hqv c).
  - intros c p Hc8 Hp. destruct (k_queued0 c p Hc8 Hp) as (? & ? & ? & ?).
    destruct (view_fields _ _ (Hqv c p Hc8 Hp)) as (_ & _ & E1 & E2 & E3). unfold idle. by rewrite E1, E2, E3.
  - eapply chain_frame; [done|]. intros a Ha. by apply view_fields, Hsv.
  - intros p Hp. destruct (k_asleep0 p Hp) as (? & ? & ?).
    destruct (view_fields _ _ (Hsv p Hp)) as (_ & _ & E1 & E2 & E3). unfold idle. by rewrite E1, E3.
  - intros l Hl. eapply chain_frame; [by apply k_waits0|]. intros a Ha. by apply view_fields, Hwv, (waiters_in l).
  - intros p Hp. destruct (k_waiting0 p Hp) as (? & ? & ? & ?).
    destruct (view_fields _ _ (Hwv p Hp)) as (_ & _ & E1 & E2 & E3). unfold idle. by rewrite E1, E3.
  - intros c Hc0. rewrite Hrq. destruct (view_fields _ _ (Hcv c)) as (_ & _ & E1 & E2 & E3).
    unfold idle. rewrite E1, E3. by apply k_cur0.
  - intros c Hlt. rewrite Hrq. destruct (k_idle0 c Hlt) as (? & Hi & ?). split; [done|].
    destruct (Hem (idle_task (rq_of c s))) as [He|He].
    + by apply HE.
    + destruct (view_fields _ _ (Hv _ He)) as (_ & _ & E1 & E2 & E3). unfold idle. rewrite E1, E3. done.
  - intros c d. rewrite Hrq. apply k_idle_cur0.
  - intros c d. rewrite !Hrq. apply k_idle_inj0.
  - intros c Hc8. rewrite Hrq. intros Hz. destruct (view_fields _ _ (Hzv c Hc8)) as (_ & _ & E1 & E2 & E3).
    unfold idle. rewrite E1, E3. by apply k_zombie0.
  - intros c d. rewrite !Hrq. apply k_zombie_inj0.
  - intros p Hp. destruct (Hem p) as [He|He].
    + destruct (HE p He) as ((Hl1 & Hl2 & Hl3 & Hl4) & Hid & _).
      destruct Hp as [(c & Hc8 & Hp)|[Hp|[(c & Hp & _)|[Hp|(c & Hc8 & Hp & _)]]]].
      * by destruct (Hl1 c Hc8).
      * apply elem_of_app in Hp. tauto.
      * by destruct (Hl3 c).
      * by apply Hid.
      * destruct (Hl1 c Hc8) as [_ Hz]. rewrite Hrq in Hp. done.
    + rewrite (view_id _ _ (Hv p He)). apply k_ids0. destruct (view_fields _ _ (Hv p He)) as (_ & _ & _ & _ & E3).
      unfold homed, idle in *. rewrite E3 in Hp. by setoid_rewrite Hrq in Hp.
Qed.

(** ** Changing one queue *)

Lemma deadline_boost_only now t :
  deadline_boost now t = set_effective_priority (effective_priority (deadline_boost now t)) t.
Proof. unfold deadline_boost, store_effective_priority. by destruct (deadline_ns t =? 0). Qed.

(** READY and RUNNING tasks alternate between these states; the others stay as they are. *)
Definition settled (st : task_state) : option task_state :=
  match st with TASK_READY | TASK_RUNNING => None | _ => Some st end.

(** A blocked task keeps its effective priority, the others may have it recomputed from
    unchanged inputs. *)
Definition prio_kept (t t' : task) : Prop :=
  (priority t' = priority t /\ deadline_ns t' = deadline_ns t /\ pi_priority t' = pi_priority t) /\
  pi_mutexes_held t' = pi_mutexes_held t /\ settled (state t') = settled (state t) /\
  (effective_priority t' = effective_priority t \/
   state t <> TASK_BLOCKED /\ exists now, effective_priority t' = effective_priority (deadline_boost now t)).

Lemma boost_standing now t t' :
  priority t' = priority t /\ deadline_ns t' = deadline_ns t /\ pi_priority t' = pi_priority t ->
  effective_priority (deadline_boost now t') = effective_priority (deadline_boost now t).
Proof.
  intros (H1 & H2 & H3). unfold deadline_boost, store_effective_priority, effective_base_priority. cbv zeta.
  rewrite H1, H2, H3. by destruct (deadline_ns t =? 0).
Qed.

#[export] Instance prio_kept_preorder : PreOrder prio_kept.
Proof.
  split; [intros t; split; auto|]. intros t1 t2 t3 [(A1 & A2 & A3) (A4 & A5 & HA)] [(B1 & B2 & B3) (B4 & B5 & HB)].
  split; [split_and!; congruence|]. split; [congruence|]. split; [congruence|].
  destruct HB as [->|[Hb [now ->]]]; [done|]. right. split.
  { intros E. rewrite E in A5. by destruct (state t2). } exists now. by apply boost_standing.
Qed.

(** The fields that survive being queued or unqueued. *)
Definition kept (t t' : task) : Prop :=
  sleep_next t' = sleep_next t /\ state t' = state t /\ flags t' = flags t /\ stack_base t' = stack_base t /\
  stack_top t' = stack_top t /\ cpu_affinity t' = cpu_affinity t /\ id t' = id t /\
  prio_kept t t'.

Lemma sbn_kept t t' : same_but_next t' t -> kept t t'.
Proof.
  intros H. split_and!; [by apply sbn_sleep|by apply sbn_state|by apply sbn_flags|by apply sbn_stack|..].
  - by apply (f_equal stack_top) in H.
  - by apply sbn_affinity.
  - by apply (f_equal id) in H.
  - unfold same_but_next in H. split; [|split; [by apply (f_equal pi_mutexes_held) in H|split; [by rewrite (sbn_state _ _ H)|left; by apply (f_equal effective_priority) in H]]].
    split_and!; [by apply (f_equal priority) in H|by apply (f_equal deadline_ns) in H|by apply (f_equal pi_priority) in H].
Qed.

Lemma kept_trans t1 t2 t3 : kept t1 t2 -> kept t2 t3 -> kept t1 t3.
Proof. 
  intros (? & ? & ? & ? & ? & ? & ? & P1) (? & ? & ? & ? & ? & ? & ? & P2).
  split_and!; try congruence; apply (transitivity P1 P2).
Qed.

Lemma boost_kept now t : state t <> TASK_BLOCKED -> kept t (deadline_boost now t).
Proof.
  intros Hst. unfold kept, prio_kept. rewrite deadline_boost_only. split_and!; try done. right. split; [done|]. by exists now.
Qed.

Lemma enqueued_kept s cpu p : state (tasks s p) <> TASK_BLOCKED -> kept (tasks s p) (enqueued s cpu p).
Proof.
  intros Hst. eapply (kept_trans _ (set_assigned_cpu cpu (tasks s p))); [|by apply boost_kept].
  unfold kept, prio_kept. split_and!; try done. by left.
Qed.

Lemma enqueued_cpu s cpu p : assigned_cpu (enqueued s cpu p) = cpu.
Proof. unfold enqueued. rewrite deadline_boost_only. done. Qed.

Lemma kept_stk s s' : (forall a, kept (tasks s a) (tasks s' a)) -> stk_same s s'.
Proof. intros H a. destruct (H a) as (_ & _ & _ & ? & ? & _). done. Qed.

Lemma inserted_kept s s' c p l1 l2 :
  inserted s s' c p l1 l2 -> state (tasks s p) <> TASK_BLOCKED -> forall a, kept (tasks s a) (tasks s' a).
Proof.
  intros I Hst. intros a. destruct (decide (a = p)) as [->|Ha].
  - eapply kept_trans; [by apply enqueued_kept|]. apply sbn_kept, I.
  - by apply sbn_kept, I.
Qed.

Lemma kept_idle s s' p : kept (tasks s p) (tasks s' p) -> idle s' p = idle s p.
Proof. intros (_ & _ & Hf & _). unfold idle, is_idle_task. by rewrite Hf. Qed.

Lemma rq_frame s s' cpu c :
  qframe s s' cpu -> idle_task (rq_of c s') = idle_task (rq_of c s) /\ zombie (rq_of c s') = zombie (rq_of c s).
Proof.
  intros F. unfold rq_of. destruct (decide (Z.to_nat (Z.of_nat c) = Z.to_nat cpu)) as [E|E].
  - assert (Hc : forall x, cpu_rq (Z.of_nat c) x = cpu_rq cpu x) by (intros x; unfold cpu_rq; by rewrite E).
    rewrite !Hc. split; [by apply F|by apply F].
  - by rewrite (f_rqs _ _ _ F) by done.
Qed.

Lemma qframe_parts s s' cpu : qframe s s' cpu ->
  deques s' = deques s /\ cpu_count s' = cpu_count s /\ sleep_queue_head s' = sleep_queue_head s /\
  heap s' = heap s /\ current_task s' = current_task s /\ isolated_cores s' = isolated_cores s /\
  now_ns s' = now_ns s /\ timer_count s' = timer_count s /\ preempt_disabled s' = preempt_disabled s.
Proof. intros F. rewrite (f_rest _ _ _ F). done. Qed.

(** Replacing the contents of queue [c], where [p] is the only task that joins or leaves. *)
Lemma core_requeue s s' Q S C c l p :
  core s Q S C -> (c < 8)%nat -> qframe s s' (Z.of_nat c) -> rq_repr s' (Z.of_nat c) l ->
  (forall a, a ∉ p :: Q c -> tasks s' a = tasks s a) ->
  (forall a, a <> p -> same_but_next (tasks s' a) (tasks s a)) -> kept (tasks s p) (tasks s' p) ->
  (forall d, (d < 8)%nat -> d <> c -> p ∉ Q d) -> p ∉ waiters -> (forall a, a ∈ l -> a <> p -> a ∈ Q c) ->
  (p ∈ l -> in_table p /\ state (tasks s p) = TASK_READY /\ idle s p = false /\ id (tasks s p) <> 0 /\
            assigned_cpu (tasks s' p) = Z.of_nat c) ->
  0 <= assigned_cpu (tasks s' p) < MAX_CPUS -> core s' (<[c := l]> Q) S C.
Proof.
  intros K Hc F Hr Hout Hoth Hkp Hpd Hpw Hsub Hpl Hpa.
  assert (Hk : forall a, kept (tasks s a) (tasks s' a)).
  { intros a. destruct (decide (a = p)) as [->|Ha]; [done|]. by apply sbn_kept, Hoth. }
  assert (Hi : forall a, idle s' a = idle s a) by (intros a; by apply kept_idle).
  assert (Hrq : forall d, idle_task (rq_of d s') = idle_task (rq_of d s) /\ zombie (rq_of d s') = zombie (rq_of d s)).
  { intros d. by eapply rq_frame. }
  destruct (qframe_parts _ _ _ F) as (Hd & Hcc & Hsl & Hh & _).
  destruct K. constructor; unfold deques_ok; rewrite ?Hd, ?Hcc, ?Hsl, ?Hh; try done.
  - by rewrite (f_len _ _ _ F).
  - intros d Hd8. destruct (decide (d = c)) as [->|Hne]; [by rewrite fn_lookup_insert|].
    rewrite fn_lookup_insert_ne by done. eapply rq_repr_frame; [by apply k_queues0|apply F; lia|].
    intros a Ha. unfold links. rewrite Hout; [done|]. apply not_elem_of_cons. split.
    + intros ->. by apply (Hpd d).
    + intros Hac. destruct (k_queued0 d a Hd8 Ha) as (_ & _ & E1 & _).
      destruct (k_queued0 c a Hc Hac) as (_ & _ & E2 & _). lia.
  - intros d a Hd8. rewrite Hi. destruct (Hk a) as (_ & -> & _).
    destruct (decide (d = c)) as [->|Hne].
    + rewrite fn_lookup_insert. intros Ha. destruct (decide (a = p)) as [->|Hap].
      * destruct (Hpl Ha) as (? & ? & ? & _ & ?). done.
      * destruct (k_queued0 c a Hc (Hsub a Ha Hap)) as (? & ? & ? & ?).
        rewrite (sbn_cpu _ _ (Hoth a Hap)). done.
    + rewrite fn_lookup_insert_ne by done. intros Ha. destruct (k_queued0 d a Hd8 Ha) as (? & ? & ? & ?).
      rewrite (sbn_cpu (tasks s' a) (tasks s a)); [done|]. apply Hoth. intros ->. by apply (Hpd d).
  - eapply chain_frame; [done|]. intros a _. by apply Hk.
  - intros a Ha. rewrite Hi. destruct (Hk a) as (_ & -> & _). by apply k_asleep0.
  - intros w Hw. eapply chain_frame; [by apply k_waits0|]. intros a Ha. pose proof (waiters_in w a Hw Ha) as Haw.
    rewrite Hout; [done|]. rewrite not_elem_of_cons. split; [congruence|]. intros Hin.
    destruct (k_queued0 c a Hc Hin) as (_ & E1 & _). destruct (k_waiting0 a Haw) as (_ & E2 & _). congruence.
  - intros a Ha. rewrite Hi. destruct (Hk a) as (_ & -> & _). by apply k_waiting0.
  - intros d Hd0. rewrite Hi, (proj1 (Hrq d)). destruct (Hk (C d)) as (_ & -> & _). by apply k_cur0.
  - intros d Hlt. rewrite Hi, (proj1 (Hrq d)). destruct (Hk (idle_task (rq_of d s))) as (_ & -> & _). by apply k_idle0.
  - intros d e. rewrite (proj1 (Hrq d)). apply k_idle_cur0.
  - intros d e. rewrite (proj1 (Hrq d)), (proj1 (Hrq e)). apply k_idle_inj0.
  - intros d Hd8. rewrite Hi, (proj2 (Hrq d)). destruct (Hk (zombie (rq_of d s))) as (_ & -> & _). by apply k_zombie0.
  - intros d e. rewrite (proj2 (Hrq d)), (proj2 (Hrq e)). apply k_zombie_inj0.
  - intros a Ha. destruct (Hk a) as (_ & _ & _ & _ & _ & _ & -> & _). destruct (decide (a = p /\ a ∈ l)) as [[-> Hal]|Hn]; [by apply Hpl|].
    apply k_ids0. unfold homed in *. rewrite Hi in Ha. destruct Ha as [(d & Hd8 & Ha)|[?|[?|[?|(d & Hd8 & Ha & ?)]]]]; try tauto.
    + left. destruct (decide (d = c)) as [->|Hne]; [|rewrite fn_lookup_insert_ne in Ha by done; by exists d].
      rewrite fn_lookup_insert in Ha. exists c. split; [done|]. apply Hsub; [done|]. intros ->. tauto.
    + rewrite (proj2 (Hrq d)) in Ha. do 4 right. by exists d.
  - eapply stacks_ext; [done|intros a; apply Hk|]. intros a. destruct (stk_tcb _ _ _ k_stacks0 a) as [Hta Htb].
    unfold tcb_ok. destruct (Hk a) as (_ & _ & _ & _ & _ & -> & _). split; [done|].
    destruct (decide (a = p)) as [->|Hap]; [done|]. by rewrite (sbn_cpu _ _ (Hoth a Hap)).
Qed.

Lemma queue_length s Q S C c : core s Q S C -> (c < 8)%nat -> (length (Q c) <= 64)%nat.
Proof.
  intros K Hc. pose proof (q_nodup _ _ _ (k_queues _ _ _ _ K c Hc)) as Hnd.
  apply (NoDup_range_length (Q c) 1 65) in Hnd; [lia|].
  intros a Ha. destruct (k_queued _ _ _ _ K c a Hc Ha) as ([? ?] & _). unfold MAX_TASKS in *. lia.
Qed.

(** A floating READY task joins a queue. *)
Lemma core_add s Q S C c p :
  core s Q S C -> floating s Q S C p -> state (tasks s p) = TASK_READY -> (c < 8)%nat ->
  exists s' l1 l2, add_to_cpu_queue_locked p (Z.of_nat c) s = Some s' /\ Q c = l1 ++ l2 /\
    inserted s s' (Z.of_nat c) p l1 l2 /\ core s' (<[c := l1 ++ p :: l2]> Q) S C.
Proof.
  intros K F Hst Hc. destruct (fl_table _ _ _ _ _ F) as [? ?].
  destruct (add_queue_spec s p (Z.of_nat c) (Q c)) as (s' & l1 & l2 & Hadd & Hl & Hins).
  - by apply K.
  - by eapply queue_length.
  - lia.
  - by apply F.
  - rewrite (k_rqs _ _ _ _ K). lia.
  - exists s', l1, l2. split_and!; try done. destruct Hins. rewrite <- Hl in ins_outside0.
    eapply core_requeue; try done.
    + eapply kept_trans; [apply enqueued_kept; congruence|]. by apply sbn_kept.
    + intros d Hd _. by apply F.
    + apply F.
    + rewrite Hl. intros a. rewrite !elem_of_app, elem_of_cons. tauto.
    + intros _. split_and!; try done; try apply F. rewrite (sbn_cpu _ _ ins_self0). apply enqueued_cpu.
    + rewrite (sbn_cpu _ _ ins_self0), enqueued_cpu. unfold MAX_CPUS. lia.
Qed.

(** A queued task leaves its queue and floats. *)
Lemma core_remove s Q S C c p l1 l2 :
  core s Q S C -> (c < 8)%nat -> Q c = l1 ++ p :: l2 ->
  exists s', remove_from_cpu_queue_locked p (Z.of_nat c) s = Some (true, s') /\
    removed s s' (Z.of_nat c) p l1 l2 /\ core s' (<[c := l1 ++ l2]> Q) S C /\
    floating s' (<[c := l1 ++ l2]> Q) S C p.
Proof.
  intros K Hc Hl. pose proof (k_queues _ _ _ _ K c Hc) as Hq. pose proof (queue_length _ _ _ _ _ K Hc) as Hlen.
  rewrite Hl in Hq, Hlen.
  destruct (remove_queue_spec s p (Z.of_nat c) l1 l2) as (s' & Hrem & Hr); [done|done|by rewrite (k_rqs _ _ _ _ K); lia|].
  assert (Hp : p ∈ Q c) by (rewrite Hl, elem_of_app, elem_of_cons; auto).
  destruct (k_queued _ _ _ _ K c p Hc Hp) as (Ht & Hst & Ha & Hi).
  assert (Hnp : p ∉ l1 ++ l2).
  { pose proof (q_nodup _ _ _ Hq) as Hnd. rewrite <- Permutation_middle in Hnd. by apply NoDup_cons in Hnd as [? _]. }
  assert (Hod : forall d, (d < 8)%nat -> d <> c -> p ∉ Q d).
  { intros d Hd Hne Hin. destruct (k_queued _ _ _ _ K d p Hd Hin) as (_ & _ & E & _). lia. }
  exists s'. split_and!; try done; destruct Hr.
  - eapply core_requeue; try done.
    + intros a Hna. apply rem_outside0. rewrite <- Hl. apply not_elem_of_cons in Hna. tauto.
    + by apply sbn_kept, rem_other0.
    + intros Hw. destruct (k_waiting _ _ _ _ K p Hw) as (_ & E & _). congruence.
    + rewrite Hl. intros a. rewrite !elem_of_app, elem_of_cons. tauto.
    + rewrite (sbn_cpu _ _ (rem_other0 p)), Ha. unfold MAX_CPUS. lia.
  - constructor; try done.
    + rewrite <- Hi. by apply kept_idle, sbn_kept.
    + destruct (sbn_kept _ _ (rem_other0 p)) as (_ & _ & _ & _ & _ & _ & -> & _). apply (k_ids _ _ _ _ K). left. by exists c.
    + intros d Hd. destruct (decide (d = c)) as [->|]; [by rewrite fn_lookup_insert|].
      rewrite fn_lookup_insert_ne by done. by apply Hod.
    + intros Hin. destruct (k_asleep _ _ _ _ K p Hin) as (_ & E & _). congruence.
    + intros Hw. destruct (k_waiting _ _ _ _ K p Hw) as (_ & E & _). congruence.
    + intros d Hd. destruct (k_cur _ _ _ _ K d) as (_ & E & _); [destruct Ht; lia|]. congruence.
    + intros d Hd. rewrite (proj2 (rq_frame _ _ _ d rem_frame0)). intros Hz.
      destruct (k_zombie _ _ _ _ K d Hd) as (_ & E & _); [destruct Ht; lia|]. congruence.
Qed.

(** ** Changing one TCB *)

(** A change of fields the invariant does not read. *)
Lemma core_same s s' Q S C :
  core s Q S C -> parts s' = parts s -> deques_ok s' -> heap s' = heap s -> (forall a, view (tasks s' a) = view (tasks s a)) ->
  (forall a, stack_base (tasks s' a) = stack_base (tasks s a)) -> (forall a, tcb_ok (cpu_count s) (tasks s' a)) ->
  core s' Q S C.
Proof.
  intros K Hp Hd Hh Hv Hs Ht. apply (core_ext (fun _ => False) s); try done; [by auto|].
  rewrite Hh. eapply stacks_ext; [apply K|done|done].
Qed.

Lemma core_irrel s s' Q S C :
  core s Q S C -> parts s' = parts s -> deques_ok s' -> heap s' = heap s -> tasks s' = tasks s -> core s' Q S C.
Proof.
  intros K Hp Hd Hh Ht. eapply core_same; try done; rewrite ?Ht; try done. apply (stk_tcb _ _ _ (k_stacks _ _ _ _ K)).
Qed.

Lemma core_tcb s Q S C : core s Q S C -> forall p, tcb_ok (cpu_count s) (tasks s p).
Proof. intros K. apply (stk_tcb _ _ _ (k_stacks _ _ _ _ K)). Qed.

Lemma core_upd_loose s Q S C p f :
  core s Q S C -> loose s Q S C p -> stack_base (f (tasks s p)) = stack_base (tasks s p) ->
  id (f (tasks s p)) = id (tasks s p) -> tcb_ok (cpu_count s) (f (tasks s p)) ->
  is_idle_task (Some (f (tasks s p))) = idle s p ->
  (idle s p = true -> state (f (tasks s p)) = TASK_READY \/ state (f (tasks s p)) = TASK_RUNNING) ->
  core (upd p f s) Q S C.
Proof.
  intros K L Hs Hid Htc Hfl Hi. apply (core_ext (fun a => a = p) s); try done.
  - intros a. destruct (decide (a = p)); auto.
  - intros a ->. unfold idle at 1 3. rewrite !tasks_upd_eq, Hfl, Hid. split_and!; auto.
    intros Hp. apply (k_ids _ _ _ _ K). unfold homed. auto.
  - intros a Ha. by rewrite tasks_upd_ne by done.
  - apply K.
  - eapply stacks_ext; [apply K|..]; intros a; destruct (decide (a = p)) as [->|];
      rewrite ?tasks_upd_eq, ?tasks_upd_ne by done; try done. apply (stk_tcb _ _ _ (k_stacks _ _ _ _ K)).
Qed.

Lemma core_upd_floating s Q S C p f :
  core s Q S C -> floating s Q S C p -> stack_base (f (tasks s p)) = stack_base (tasks s p) ->
  id (f (tasks s p)) = id (tasks s p) -> tcb_ok (cpu_count s) (f (tasks s p)) ->
  is_idle_task (Some (f (tasks s p))) = idle s p -> core (upd p f s) Q S C.
Proof.
  intros K F Hs Hid Htc Hfl. apply core_upd_loose; try done; [by apply floating_loose|].
  intros Hi. pose proof (fl_idle _ _ _ _ _ F). congruence.
Qed.

Lemma floating_ext s s' Q S C p :
  floating s Q S C p -> (forall c, zombie (rq_of c s') = zombie (rq_of c s)) -> idle s' p = false ->
  id (tasks s' p) = id (tasks s p) -> floating s' Q S C p.
Proof. intros [] Hz Hi Hid. constructor; try done; [by rewrite Hid|]. intros c Hc. rewrite Hz. auto. Qed.

Lemma floating_upd s Q S C p q f :
  floating s Q S C p -> (q = p -> is_idle_task (Some (f (tasks s p))) = false /\ id (f (tasks s p)) = id (tasks s p)) ->
  floating (upd q f s) Q S C p.
Proof.
  intros F Hf. eapply floating_ext; [done|done|..]; unfold idle; (destruct (decide (q = p)) as [->|];
    [rewrite tasks_upd_eq; by apply Hf|rewrite tasks_upd_ne by done; done || apply F]).
Qed.

(** ** The running tasks *)

Lemma core_cur_ext s Q S C C' : core s Q S C -> (forall c, C' c = C c) -> core s Q S C'.
Proof.
  intros [] H. assert (Hh : forall p, homed s Q S C' p -> homed s Q S C p) by (unfold homed; intros p; by setoid_rewrite H).
  constructor; try done; try by intros; apply k_ids0, Hh.
  - intros c. rewrite H. apply k_cur0.
  - intros c d. rewrite !H. apply k_cur_inj0.
  - intros c d. rewrite H. apply k_idle_cur0.
  - intros c Hc Hz. destruct (k_zombie0 c Hc Hz) as (? & ? & ? & Hd). split_and!; try done.
    intros d. rewrite H. apply Hd.
Qed.

(** CPU [c] gives up its task. *)
Lemma core_stop s Q S C c : core s Q S C -> core s Q S (<[c := 0]> C).
Proof.
  intros K. assert (Hz : forall d, <[c := 0]> C d = 0 \/ <[c := 0]> C d = C d).
  { intros d. destruct (decide (d = c)) as [->|]; [left; apply fn_lookup_insert|right; by apply fn_lookup_insert_ne]. }
  destruct K. constructor; try done.
  - intros d. destruct (Hz d) as [->| ->]; [done|]. apply k_cur0.
  - intros d e. destruct (Hz d) as [->| ->]; [done|]. destruct (Hz e) as [->| ->]; [done|]. apply k_cur_inj0.
  - intros d e Hd. destruct (Hz e) as [->| ->]; [|by apply k_idle_cur0].
    destruct (k_idle0 d Hd) as ([? ?] & _). lia.
  - intros d Hd Hnz. destruct (k_zombie0 d Hd Hnz) as (? & ? & ? & Hdd). split_and!; try done.
    intros e. destruct (Hz e) as [->| ->]; [done|]. apply Hdd.
  - intros p Hp. apply k_ids0. destruct Hp as [?|[?|[(d & Hp & ?)|?]]]; unfold homed; try tauto.
    do 2 right. left. exists d. destruct (Hz d); split; congruence.
Qed.

Lemma stop_floating s Q S C c :
  core s Q S C -> C c <> 0 -> idle s (C c) = false -> C c ∉ S -> C c ∉ waiters -> floating s Q S (<[c := 0]> C) (C c).
Proof.
  intros K Hn Hi Hs Hw. destruct (k_cur _ _ _ _ K c Hn) as (Ht & Hst & _). constructor; try done.
  - apply (k_ids _ _ _ _ K). do 2 right. left. by exists c.
  - intros d Hd Hin. by destruct (k_queued _ _ _ _ K d _ Hd Hin) as (_ & E & _).
  - intros d. destruct (decide (d = c)) as [->|Hne]; [rewrite fn_lookup_insert; done|].
    rewrite fn_lookup_insert_ne by done. intros E. apply Hne. symmetry. by apply (k_cur_inj _ _ _ _ K).
  - intros d Hd Hz. destruct (k_zombie _ _ _ _ K d Hd) as (_ & _ & _ & E); [congruence|]. by apply (E c).
Qed.

(** CPU [c] starts to run a floating task. *)
Lemma core_start s Q S C c p :
  core s Q S C -> floating s Q S C p -> state (tasks s p) <> TASK_READY ->
  state (tasks s p) <> TASK_DESTROYED -> core s Q S (<[c := p]> C).
Proof.
  intros K F H1 H2. assert (Hz : forall d, d <> c -> <[c := p]> C d = C d) by (intros; by apply fn_lookup_insert_ne).
  assert (Hc : <[c := p]> C c = p) by apply fn_lookup_insert. destruct K. constructor; try done.
  - intros d. destruct (decide (d = c)) as [->|Hne]; [|by rewrite Hz; auto]. rewrite Hc. intros _.
    pose proof (fl_idle _ _ _ _ _ F). split_and!; try done; [by apply F..|congruence].
  - intros d e. destruct (decide (d = c)) as [->|Hd], (decide (e = c)) as [->|He]; rewrite ?Hc, ?Hz by done; auto.
    + intros _ E. by destruct (fl_cur _ _ _ _ _ F e).
    + intros _ E. by destruct (fl_cur _ _ _ _ _ F d).
  - intros d e Hd. destruct (decide (e = c)) as [->|He]; [|by rewrite Hz; auto]. rewrite Hc. intros ->.
    destruct (k_idle0 d Hd) as (_ & Hi & _). pose proof (fl_idle _ _ _ _ _ F). congruence.
  - intros d Hd Hnz. destruct (k_zombie0 d Hd Hnz) as (? & ? & ? & Hdd). split_and!; try done.
    intros e. destruct (decide (e = c)) as [->|He]; [|by rewrite Hz; auto]. rewrite Hc. intros E.
    by apply (fl_zombie _ _ _ _ _ F d).
  - intros a Ha. destruct (decide (a = p)) as [->|Hne]; [apply F|]. apply k_ids0.
    destruct Ha as [?|[?|[(d & Hp & ?)|?]]]; unfold homed; try tauto. do 2 right. left. exists d. rewrite <- Hz; [done|]. congruence.
Qed.

(** CPU [c] starts to run its idle task. *)
Lemma core_start_idle s Q S C c :
  core s Q S C -> Z.of_nat c < cpu_count s -> (forall d, C d <> idle_task (rq_of c s)) ->
  state (tasks s (idle_task (rq_of c s))) = TASK_RUNNING -> core s Q S (<[c := idle_task (rq_of c s)]> C).
Proof.
  intros K Hcc Hno Hrun. set (i := idle_task (rq_of c s)) in *.
  assert (Hz : forall d, d <> c -> <[c := i]> C d = C d) by (intros; by apply fn_lookup_insert_ne).
  assert (Hc : <[c := i]> C c = i) by apply fn_lookup_insert.
  destruct (idle_loose _ _ _ _ _ K Hcc Hno) as (Hl & _ & _). destruct K. constructor; try done.
  - intros d. destruct (decide (d = c)) as [->|Hne]; [|by rewrite Hz; auto]. rewrite Hc, Hrun. intros _.
    destruct (k_idle0 c Hcc) as (? & _). done.
  - intros d e. destruct (decide (d = c)) as [->|Hd], (decide (e = c)) as [->|He]; rewrite ?Hc, ?Hz by done; auto.
    + intros _ E. by destruct (Hno e).
  - intros d e Hd. destruct (decide (e = c)) as [->|He]; [|by rewrite Hz; auto]. rewrite Hc. intros E. by apply k_idle_inj0.
  - intros d Hd Hnz. destruct (k_zombie0 d Hd Hnz) as (? & ? & ? & Hdd). split_and!; try done.
    intros e. destruct (decide (e = c)) as [->|He]; [|by rewrite Hz; auto]. rewrite Hc. intros E. by apply (Hl d).
  - intros a Ha. apply k_ids0. destruct Ha as [?|[?|[(d & Hp & ?)|?]]]; unfold homed; try tauto.
    destruct (decide (d = c)) as [->|Hne]; [|rewrite Hz in Hp by done; do 2 right; left; by exists d].
    do 3 right. left. rewrite <- Hp, Hc. by apply k_idle0.
Qed.

(** ** Zombies and destruction *)

Lemma rq_of_set c d q s :
  (c < length (rqs s))%nat -> rq_of d (set_rq (Z.of_nat c) q s) = if decide (d = c) then q else rq_of d s.
Proof.
  intros Hc. unfold rq_of. destruct (decide (d = c)) as [->|Hne].
  - apply cpu_rq_set_eq. lia.
  - apply cpu_rq_set_ne. lia.
Qed.

(** A terminated task becomes the zombie of CPU [c], or its zombie is forgotten. *)
Lemma core_zombie s Q S C c z :
  core s Q S C -> (c < 8)%nat -> (z <> 0 -> floating s Q S C z /\ state (tasks s z) = TASK_TERMINATED) ->
  core (set_rq (Z.of_nat c) (with_zombie z (rq_of c s)) s) Q S C.
Proof.
  intros K Hc Hz. set (s' := set_rq _ _ _).
  assert (Hrq : forall d, rq_of d s' = if decide (d = c) then with_zombie z (rq_of c s) else rq_of d s).
  { intros d. apply rq_of_set. by rewrite (k_rqs _ _ _ _ K). }
  assert (Hi : forall d, idle_task (rq_of d s') = idle_task (rq_of d s)).
  { intros d. rewrite Hrq. by destruct (decide (d = c)) as [->|]. }
  destruct K. constructor; try done.
  - simpl. by rewrite length_insert.
  - intros d Hd. destruct (k_queues0 d Hd) as [H1 H2 H3 H4]. fold (rq_of d s) in *.
    assert (Hd' : head (rq_of d s') = head (rq_of d s) /\ tail (rq_of d s') = tail (rq_of d s) /\
      ready_count (rq_of d s') = ready_count (rq_of d s)) by (rewrite Hrq; by destruct (decide (d = c)) as [->|]).
    destruct Hd' as (E1 & E2 & E3). constructor; fold (rq_of d s'); rewrite ?E1, ?E2, ?E3; done.
  - intros d. rewrite Hi. apply k_cur0.
  - intros d. rewrite Hi. apply k_idle0.
  - intros d e. rewrite Hi. apply k_idle_cur0.
  - intros d e. rewrite !Hi. apply k_idle_inj0.
  - intros d Hd. rewrite Hrq. destruct (decide (d = c)) as [->|]; [|by apply k_zombie0]. simpl. intros Hnz.
    destruct (Hz Hnz) as [F Hst]. split_and!; try apply F. done.
  - intros d e Hd He. rewrite !Hrq. destruct (decide (d = c)) as [->|], (decide (e = c)) as [->|]; simpl; auto.
    + intros Hnz E. destruct (Hz Hnz) as [F _]. by destruct (fl_zombie _ _ _ _ _ F e He).
    + intros Hnz E. destruct (Hz ltac:(congruence)) as [F _]. by destruct (fl_zombie _ _ _ _ _ F d Hd).
  - intros a Ha. change (tasks s' a) with (tasks s a).
    destruct Ha as [?|[?|[?|[?|(d & Hd & Ha & ?)]]]]; try (apply k_ids0; unfold homed; tauto). rewrite Hrq in Ha.
    destruct (decide (d = c)) as [->|]; [|apply k_ids0; do 4 right; by exists d]. simpl in Ha. subst z. by apply Hz.
Qed.

(** The zombie of CPU [c] floats once it is forgotten. *)
Lemma zombie_floating s Q S C c :
  core s Q S C -> (c < 8)%nat -> zombie (rq_of c s) <> 0 ->
  floating (set_rq (Z.of_nat c) (with_zombie 0 (rq_of c s)) s) Q S C (zombie (rq_of c s)).
Proof.
  intros K Hc Hz. destruct (k_zombie _ _ _ _ K c Hc Hz) as (Ht & Hst & Hi & Hcur). constructor; try done.
  - apply (k_ids _ _ _ _ K). do 4 right. by exists c.
  - intros d Hd Hin. destruct (k_queued _ _ _ _ K d _ Hd Hin) as (_ & E & _). congruence.
  - intros Hin. destruct (k_asleep _ _ _ _ K _ Hin) as (_ & E & _). congruence.
  - intros Hw. destruct (k_waiting _ _ _ _ K _ Hw) as (_ & E & _). congruence.
  - intros d Hd. rewrite rq_of_set by (by rewrite (k_rqs _ _ _ _ K)). destruct (decide (d = c)) as [->|Hne]; [done|].
    intros E. apply Hne. symmetry. by apply (k_zombie_inj _ _ _ _ K).
Qed.

Lemma stack_pages_order : BuddySpec.order_for (STACK_SIZE / 4096) = STACK_ORDER.
Proof. done. Qed.

Lemma alloc_frame h h' o a :
  BuddySpec.is_allocated h o a -> Buddy.heap_start h' = Buddy.heap_start h -> Buddy.heap_end h' = Buddy.heap_end h ->
  (forall x, BuddyInv.in_block a o x -> BuddyInv.is_free h' x -> BuddyInv.is_free h x) -> BuddySpec.is_allocated h' o a.
Proof.
  intros (H1 & H2 & H3 & H4) Hs He Hf. split_and!; [done|by rewrite Hs|by rewrite He|].
  intros x Hx Hfx. by apply (H4 x), Hf.
Qed.

(** Giving back the stack of [p]. *)
Lemma stacks_free n h ts ts' p :
  stacks_ok n h ts -> (forall a, tcb_ok n (ts' a)) -> in_table p -> stack_base (ts p) <> 0 -> stack_base (ts' p) = 0 ->
  (forall a, a <> p -> stack_base (ts' a) = stack_base (ts a)) ->
  exists h', Buddy.pmm_free_pages (stack_base (ts p)) (STACK_SIZE / 4096) h = Some h' /\ stacks_ok n h' ts'.
Proof.
  intros [_ Hinv Hheld Hdisj Hbl Hcl Hsep] Htc Hp Hb Hb' Hoth. pose proof (Hheld p Hp Hb) as Hal.
  destruct (PmmSpec.free_pages_spec (stack_base (ts p)) (STACK_SIZE / 4096) h) as (h' & Hf & Hinv' & Hrel & Hs & He & _).
  - done.
  - done.
  - rewrite stack_pages_order. unfold STACK_ORDER, FreeList.MAX_ORDER. lia.
  - by rewrite stack_pages_order.
  - rewrite stack_pages_order in Hrel. exists h'. split; [done|].
    assert (Hne : forall a, stack_base (ts' a) <> 0 -> a <> p) by (intros a Ha ->; congruence).
    constructor; try done.
    + intros a Ha Hna. pose proof (Hne a Hna) as Hap. rewrite Hoth in * by done.
      eapply alloc_frame; [by apply Hheld|done|done|]. intros x Hx. rewrite Hrel. intros [Hfr|Hx']; [done|].
      exfalso. by apply Hap, (Hdisj a p x).
    + intros a b x Ha Hb2 Hna Hnb. rewrite !Hoth by auto. apply Hdisj; try done; by rewrite <- Hoth by auto.
    + intros o a Ha. eapply alloc_frame; [by apply Hbl|done|done|]. intros x Hx. rewrite Hrel. intros [Hfr|Hx']; [done|].
      exfalso. by apply (Hcl p o a x).
    + intros a o b x Ha Hna. pose proof (Hne a Hna) as Hap. rewrite Hoth in * by done. by apply Hcl.
Qed.

(** [task_destroy] clears the slot of a floating terminated task and frees its stack. *)
Lemma core_destroy s Q S C p :
  core s Q S C -> floating s Q S C p -> state (tasks s p) = TASK_TERMINATED ->
  exists s', task_destroy p s = Some s' /\ core s' Q S C /\
    (forall a, a <> p -> tasks s' a = tasks s a) /\ tasks s' p = task_destroy_clear (tasks s p) /\
    rqs s' = rqs s /\ env s' = env s.
Proof.
  intros K F Hst. destruct (fl_table _ _ _ _ _ F) as [? ?]. unfold task_destroy, deref.
  rewrite (proj2 (Z.eqb_neq p 0)) by lia. pose proof (fl_idle _ _ _ _ _ F) as Hi. unfold idle in Hi. rewrite Hi.
  rewrite bool_decide_true by done. cbn [negb].
  set (s1 := upd p task_destroy_clear s).
  set (s2 := if cleanup (tasks s p) =? 0 then s1 else _).
  assert (Hs2 : tasks s2 = tasks s1 /\ parts s2 = parts s /\ heap s2 = heap s /\ env s2 = env s /\ deques s2 = deques s)
    by (unfold s2; by destruct (cleanup (tasks s p) =? 0)).
  destruct Hs2 as (Ht2 & Hp2 & Hh2 & He2 & Hd2).
  assert (Ht1 : forall a, a <> p -> tasks s1 a = tasks s a) by (intros; by apply tasks_upd_ne).
  assert (Htp : tasks s1 p = task_destroy_clear (tasks s p)) by apply tasks_upd_eq.
  assert (Htc : forall a, tcb_ok (cpu_count s) (tasks s1 a)).
  { intros a. destruct (decide (a = p)) as [->|]; [rewrite Htp|rewrite Ht1 by done];
      by eapply core_tcb. }
  assert (Hgoal : forall s', tasks s' = tasks s1 -> parts s' = parts s -> env s' = env s ->
    deques s' = deques s -> stacks_ok (cpu_count s) (heap s') (tasks s') -> core s' Q S C /\
    (forall a, a <> p -> tasks s' a = tasks s a) /\ tasks s' p = task_destroy_clear (tasks s p) /\
    rqs s' = rqs s /\ env s' = env s).
  { intros s' Hts Hps Hes Hd Hss. injection Hps as Hq Hcc Hsl.
    assert (Hrq : forall c, rq_of c s' = rq_of c s) by (intros c; unfold rq_of, cpu_rq; by rewrite Hq).
    split_and!; try done; rewrite ?Hts; try done.
    - apply (core_ext (fun a => a = p) s); try done.
      + intros a. destruct (decide (a = p)); auto.
      + unfold parts. congruence.
      + intros a ->. assert (Hi' : idle s' p = false) by (unfold idle; by rewrite Hts, Htp).
        split; [by apply floating_loose|]. split; [congruence|]. unfold idle at 1. congruence.
      + intros a Ha. by rewrite Hts, Ht1.
      + unfold deques_ok. rewrite Hd. apply K. }
  destruct (Z.eqb_spec (stack_base (tasks s p)) 0) as [Hb|Hb].
  - exists s2. split; [done|]. apply Hgoal; try done. rewrite Hh2, Ht2. eapply stacks_ext; [apply K| |done].
    intros a. destruct (decide (a = p)) as [->|]; [by rewrite Htp|by rewrite Ht1].
  - rewrite Hh2. destruct (stacks_free (cpu_count s) (heap s) (tasks s) (tasks s1) p) as (h & Hf & Hss).
    + apply K.
    + done.
    + done.
    + done.
    + by rewrite Htp.
    + intros a Ha. by rewrite Ht1.
    + unfold mbind, option_bind. rewrite Hf. eexists. split; [done|]. apply Hgoal; try done. simpl. by rewrite Ht2.
Qed.

(** ** Sleepers *)

(** The fields the invariant reads other than the sleep link. *)
Definition view_awake (t : task) : Z * task_state * Z * bool * Z * Z * Z :=
  (next t, state t, assigned_cpu t, is_idle_task (Some t), stack_base t, cpu_affinity t, id t).

(** Replacing the contents of the sleep queue, where [p] is the only task that joins or
    leaves and the other tasks change in their sleep links only. *)
Lemma core_resleep s s' Q S S' C p :
  core s Q S C -> rqs s' = rqs s -> deques s' = deques s -> cpu_count s' = cpu_count s -> heap s' = heap s ->
  (forall a, a <> p -> view_awake (tasks s' a) = view_awake (tasks s a)) ->
  stack_base (tasks s' p) = stack_base (tasks s p) -> tcb_ok (cpu_count s) (tasks s' p) ->
  (homed s' Q S' C p -> id (tasks s' p) <> 0) ->
  chain (fun a => sleep_next (tasks s' a)) (sleep_queue_head s') S' -> NoDup S' ->
  (forall a, a ∈ S' -> a <> p -> a ∈ S) ->
  (p ∈ S' -> in_table p /\ state (tasks s' p) = TASK_BLOCKED /\ idle s' p = false) ->
  (forall c, (c < 8)%nat -> p ∉ Q c) ->
  (p ∈ waiters -> next (tasks s' p) = next (tasks s p) /\ state (tasks s' p) = TASK_BLOCKED /\ idle s' p = false /\ p ∉ S') ->
  (forall c, (c < 8)%nat -> zombie (rq_of c s) = p -> state (tasks s' p) = TASK_TERMINATED /\ idle s' p = false) ->
  idle s p = false ->
  (forall c, C c = p -> state (tasks s' p) <> TASK_READY /\ state (tasks s' p) <> TASK_DESTROYED /\ idle s' p = false) ->
  core s' Q S' C.
Proof.
  intros K Hq Hd Hc Hh Hv Hsp Htcp Hidp Hch Hnd Hsub HpS HpQ HpW HpZ Hpi HpC.
  assert (Hrq : forall c, rq_of c s' = rq_of c s) by (intros c; unfold rq_of, cpu_rq; by rewrite Hq).
  assert (Hf : forall a, a <> p -> next (tasks s' a) = next (tasks s a) /\ state (tasks s' a) = state (tasks s a) /\
    assigned_cpu (tasks s' a) = assigned_cpu (tasks s a) /\ idle s' a = idle s a /\
    stack_base (tasks s' a) = stack_base (tasks s a) /\ cpu_affinity (tasks s' a) = cpu_affinity (tasks s a) /\
    id (tasks s' a) = id (tasks s a)).
  { intros a Ha. specialize (Hv a Ha). unfold view_awake in Hv. by injection Hv as ? ? ? ? ? ? ?. }
  destruct K. constructor; unfold deques_ok; rewrite ?Hq, ?Hd, ?Hc, ?Hh; try done.
  - intros c Hc8. eapply rq_repr_frame; [by apply k_queues0|apply Hrq|].
    intros a Ha. apply Hf. intros ->. by apply (HpQ c Hc8).
  - intros c a Hc8 Ha. destruct (Hf a) as (_ & -> & -> & -> & _); [|by apply k_queued0].
    intros ->. by apply (HpQ c Hc8).
  - intros a Ha. destruct (decide (a = p)) as [->|Hne]; [by apply HpS|].
    destruct (Hf a Hne) as (_ & -> & _ & -> & _). by apply k_asleep0, Hsub.
  - intros w Hw. eapply chain_frame; [by apply k_waits0|]. intros a Ha. pose proof (waiters_in w a Hw Ha) as Haw.
    destruct (decide (a = p)) as [->|Hne]; [by apply HpW|by apply Hf].
  - intros a Ha. destruct (k_waiting0 a Ha) as (? & ? & ? & Hns). destruct (decide (a = p)) as [->|Hne].
    + destruct (HpW Ha) as (_ & ? & ? & ?). done.
    + destruct (Hf a Hne) as (_ & -> & _ & -> & _). split_and!; try done. intros Hin. by apply Hns, Hsub.
  - intros c Hc0. rewrite Hrq. destruct (decide (C c = p)) as [E|Hne].
    + destruct (HpC c E) as (? & ? & ?). destruct (k_cur0 c Hc0) as (? & _). rewrite E in *. split_and!; try done. congruence.
    + destruct (Hf _ Hne) as (_ & -> & _ & -> & _). by apply k_cur0.
  - intros c Hlt. rewrite Hrq. destruct (k_idle0 c Hlt) as (? & Hi & ?).
    destruct (Hf (idle_task (rq_of c s))) as (_ & -> & _ & -> & _); [congruence|]. done.
  - intros c d. rewrite Hrq. apply k_idle_cur0.
  - intros c d. rewrite !Hrq. apply k_idle_inj0.
  - intros c Hc8. rewrite Hrq. intros Hz. destruct (k_zombie0 c Hc8 Hz) as (? & ? & ? & ?).
    destruct (decide (zombie (rq_of c s) = p)) as [E|Hne].
    + rewrite E in *. by destruct (HpZ c Hc8 E).
    + by destruct (Hf _ Hne) as (_ & -> & _ & -> & _).
  - intros c d. rewrite !Hrq. apply k_zombie_inj0.
  - intros a Ha. destruct (decide (a = p)) as [->|Hne]; [by apply Hidp|]. destruct (Hf a Hne) as (_ & _ & _ & Hia & _ & _ & ->).
    apply k_ids0. unfold homed in *. rewrite Hia in Ha. setoid_rewrite Hrq in Ha.
    destruct Ha as [?|[Ha|?]]; auto. right. left. rewrite elem_of_app in *. destruct Ha; auto.
  - eapply stacks_ext; [done|..]; intros a; destruct (decide (a = p)) as [->|Hne]; try done; [by apply Hf|].
    destruct (stk_tcb _ _ _ k_stacks0 a) as [? ?]. destruct (Hf a Hne) as (_ & _ & E1 & _ & _ & E2 & _).
    unfold tcb_ok. by rewrite E1, E2.
Qed.

Lemma sleep_places s Q S C p : core s Q S C -> p ∈ S ->
  (forall c, (c < 8)%nat -> p ∉ Q c /\ zombie (rq_of c s) <> p) /\ p <> 0.
Proof.
  intros K Hp. destruct (k_asleep _ _ _ _ K p Hp) as ([? ?] & Hst & Hi). split; [|lia].
  intros c Hc. split; [intros Hin|intros Hz].
  - destruct (k_queued _ _ _ _ K c p Hc Hin) as (_ & E & _). congruence.
  - destruct (k_zombie _ _ _ _ K c Hc) as (_ & E & _); [lia|]. congruence.
Qed.

(** A task leaves the sleep queue and floats: its predecessor's link is redirected and
    [f] rewrites its TCB. *)
Definition unsleep (prev p : Z) (f : task -> task) (s : sys) : sys :=
  let nx := sleep_next (tasks s p) in
  let s := if prev =? 0 then with_sleep_queue_head nx s else upd prev (set_sleep_next nx) s in
  upd p f s.

Lemma unsleep_tasks s prev p f a :
  prev <> p -> tasks (unsleep prev p f s) a =
    if decide (a = p) then f (tasks s p)
    else if decide (a = prev /\ prev <> 0) then set_sleep_next (sleep_next (tasks s p)) (tasks s prev) else tasks s a.
Proof.
  intros Hne. unfold unsleep. destruct (Z.eqb_spec prev 0) as [->|Hp]; destruct (decide (a = p)) as [->|Ha].
  - rewrite tasks_upd_eq. done.
  - rewrite tasks_upd_ne by done. rewrite decide_False by tauto. done.
  - rewrite tasks_upd_eq, tasks_upd_ne by done. done.
  - rewrite tasks_upd_ne by done. destruct (decide (a = prev /\ prev <> 0)) as [[-> _]|Hn].
    + by rewrite tasks_upd_eq.
    + rewrite tasks_upd_ne; [done|]. intros ->. tauto.
Qed.

Lemma core_unsleep s Q S1 p S2 C f :
  core s Q (S1 ++ p :: S2) C -> (forall c, C c <> p) ->
  (forall t, stack_base (f t) = stack_base t /\ flags (f t) = flags t /\ cpu_affinity (f t) = cpu_affinity t /\
     assigned_cpu (f t) = assigned_cpu t /\ id (f t) = id t) ->
  let s' := unsleep (default 0 (last S1)) p f s in
  core s' Q (S1 ++ S2) C /\ floating s' Q (S1 ++ S2) C p /\ tasks s' p = f (tasks s p) /\ env s' = env s /\
  (forall a, a <> p -> set_sleep_next 0 (tasks s' a) = set_sleep_next 0 (tasks s a)).
Proof.
  intros K HC Hf. cbv zeta. set (b := default 0 (last S1)). set (s' := unsleep b p f s).
  pose proof (k_snodup _ _ _ _ K) as Hnd. pose proof (k_chain _ _ _ _ K) as Hch.
  assert (Hnp : p ∉ S1 ++ S2) by (rewrite <- Permutation_middle in Hnd; by apply NoDup_cons in Hnd as [? _]).
  assert (Hin : p ∈ S1 ++ p :: S2) by (rewrite elem_of_app, elem_of_cons; auto).
  destruct (sleep_places _ _ _ _ _ K Hin) as [Hpl Hp0].
  destruct (k_asleep _ _ _ _ K p Hin) as (Htab & Hst & Hidle).
  assert (Hb : b = 0 /\ S1 = [] \/ b <> 0 /\ last S1 = Some b /\ S1 <> []) by (by eapply last_cases).
  assert (Hbp : b <> p).
  { destruct Hb as [[-> _]|(_ & Hl & _)]; [done|]. intros E. apply Hnp, elem_of_app. left.
    rewrite E in Hl. by apply last_Some_elem_of. }
  pose proof (fun a => unsleep_tasks s b p f a Hbp) as Hts. fold s' in Hts.
  assert (Hoth : forall a, a <> p -> set_sleep_next 0 (tasks s' a) = set_sleep_next 0 (tasks s a)).
  { intros a Ha. rewrite Hts, decide_False by done. by destruct (decide _) as [[-> _]|]. }
  assert (Htp : tasks s' p = f (tasks s p)) by (by rewrite Hts, decide_True).
  assert (Hidle' : idle s' p = false) by (unfold idle, is_idle_task; rewrite Htp; destruct (Hf (tasks s p)) as (_ & -> & _); exact Hidle).
  assert (Hid' : id (tasks s' p) <> 0).
  { rewrite Htp. destruct (Hf (tasks s p)) as (_ & _ & _ & _ & ->). apply (k_ids _ _ _ _ K). right. left. apply elem_of_app. auto. }
  assert (Hrest : rqs s' = rqs s /\ deques s' = deques s /\ cpu_count s' = cpu_count s /\ heap s' = heap s /\ env s' = env s).
  { unfold s', unsleep. by destruct (b =? 0). }
  destruct Hrest as (Hq & Hd & Hc & Hh & He).
  assert (Hch' : chain (fun a => sleep_next (tasks s' a)) (sleep_queue_head s') (S1 ++ S2)).
  { assert (Hhd : sleep_queue_head s' = if decide (S1 = []) then sleep_next (tasks s p) else sleep_queue_head s).
    { unfold s', unsleep. destruct Hb as [[-> ->]|(Hb & _ & Hne)].
      - by rewrite decide_True.
      - rewrite decide_False by done. by rewrite (proj2 (Z.eqb_neq b 0)). }
    rewrite Hhd. apply (chain_remove (fun a => sleep_next (tasks s a)) _ _ S1 p S2 Hch Hnd).
    intros a Ha. rewrite Hts, decide_False by congruence.
    destruct Hb as [[Hb0 ->]|(Hb0 & Hl & _)].
    - rewrite decide_False by tauto. done.
    - rewrite Hl. destruct (decide (a = b /\ b <> 0)) as [[-> _]|Hn].
      + by destruct (decide (Some b = Some b)).
      + destruct (decide (Some b = Some a)) as [[= <-]|]; [tauto|done]. }
  assert (K' : core s' Q (S1 ++ S2) C).
  { eapply (core_resleep s s' Q (S1 ++ p :: S2) (S1 ++ S2) C p); try done.
    - intros a Ha. specialize (Hoth a Ha). by apply (f_equal view_awake) in Hoth.
    - rewrite Htp. apply Hf.
    - rewrite Htp. unfold tcb_ok. destruct (Hf (tasks s p)) as (_ & _ & -> & -> & _).
      apply (stk_tcb _ _ _ (k_stacks _ _ _ _ K)).
    - rewrite <- Permutation_middle in Hnd. by apply NoDup_cons in Hnd as [_ ?].
    - intros a. rewrite !elem_of_app, elem_of_cons. tauto.
    - intros c Hc8. by apply Hpl.
    - intros Hw. by destruct (k_waiting _ _ _ _ K p Hw) as (_ & _ & _ & ?).
    - intros c Hc8 E. by destruct (Hpl c Hc8).
    - intros c E. by destruct (HC c). }
  split_and!; try done. constructor; try done.
  - intros c Hc8. by apply Hpl.
  - intros Hw. by destruct (k_waiting _ _ _ _ K p Hw) as (_ & _ & _ & ?).
  - intros c Hc8. assert (Hr : rq_of c s' = rq_of c s) by (unfold rq_of, cpu_rq; by rewrite Hq).
    rewrite Hr. by apply Hpl.
Qed.

End invariant.

End SchedInv.
