(* ===== verification/Dispatch.v ===== *)
(** Work stealing and dispatch: [schedule] never fails on a state that satisfies the
    invariant, keeps the invariant, and runs a queued task of highest priority. *)

From S2P Require Import Prelude FreeList Buddy BuddyInv BuddyStep BuddySpec PmmSpec.
From S2P Require Import StealDeque Task Sys Sched RunQueue SchedInv.

Open Scope Z_scope.
Open Scope slm_scope.

Module Dispatch.
Import Task Sys Sched RunQueue SchedInv.

Section held.
Context {G : Ghost}.

(** ** Stealing *)

(** Steps that only relink tasks and touch deques and counters. *)
Record qmove (s s' : sys) : Prop := {
  m_env : env s' = env s;
  m_tasks : forall a, same_but_next (tasks s' a) (tasks s a);
  m_rq : forall d, idle_task (rq_of d s') = idle_task (rq_of d s) /\ zombie (rq_of d s') = zombie (rq_of d s)
}.

#[export] Instance qmove_preorder : PreOrder qmove.
Proof.
  split.
  - intros s. constructor; done.
  - intros s1 s2 s3 [E1 T1 R1] [E2 T2 R2]. constructor.
    + by rewrite E2.
    + intros a. by transitivity (tasks s2 a).
    + intros d. destruct (R1 d) as [<- <-]. apply R2.
Qed.

Lemma qmove_stk s s' : qmove s s' -> stk_same s s'.
Proof. intros M. apply kept_stk. intros a. apply sbn_kept, M. Qed.

Lemma core_bump s Q S C k cpu : core s Q S C -> core (bump k cpu s) Q S C.
Proof. intros K. eapply core_irrel; try done. apply K. Qed.

Lemma bump_qmove s k cpu : qmove s (bump k cpu s).
Proof. by constructor. Qed.

Lemma core_set_deque s Q S C cpu d :
  core s Q S C -> StealDeque.deque_ok d -> core (set_deque cpu d s) Q S C.
Proof.
  intros K Hd. eapply core_irrel; try done. destruct (k_deques _ _ _ _ K) as [Hl Hf]. split; simpl.
  - by rewrite length_insert.
  - by apply Forall_insert.
Qed.

Lemma cpu_deque_ok s Q S C c : core s Q S C -> (c < 8)%nat -> StealDeque.deque_ok (cpu_deque (Z.of_nat c) s).
Proof.
  intros K Hc. destruct (k_deques _ _ _ _ K) as [Hl Hf]. unfold cpu_deque. rewrite Nat2Z.id.
  rewrite nth_lookup. destruct (lookup_lt_is_Some_2 (deques s) c ltac:(lia)) as [d Hd]. rewrite Hd. simpl.
  by eapply Forall_lookup_1.
Qed.

Lemma qframe_qmove s s' cpu :
  qframe s s' cpu -> (forall a, same_but_next (tasks s' a) (tasks s a)) -> qmove s s'.
Proof.
  intros F Ht. constructor; [|done|by intros d; eapply rq_frame]. unfold env. by rewrite (f_rest _ _ _ F).
Qed.

(** What a thief brings home from CPU [v]: nothing, or a READY task without affinity
    that has left the queue of [v]. *)
Definition taken (s' : sys) (Q : nat -> list Z) (S : list Z) (C : nat -> Z) (v : nat) (p : Z) : Prop :=
  (p = 0 /\ core s' Q S C) \/
  (p <> 0 /\ exists l1 l2, Q v = l1 ++ p :: l2 /\ core s' (<[v := l1 ++ l2]> Q) S C /\
     floating s' (<[v := l1 ++ l2]> Q) S C p /\ state (tasks s' p) = TASK_READY /\
     cpu_affinity (tasks s' p) = CPU_AFFINITY_ANY).

Lemma taken_bump s' Q S C v p k cpu : taken s' Q S C v p -> taken (bump k cpu s') Q S C v p.
Proof.
  intros [[-> K]|(Hp & l1 & l2 & Hl & K & F & Hst & Ha)]; [left|right].
  - split; [done|by apply core_bump].
  - split; [done|]. exists l1, l2. split_and!; try done; [by apply core_bump|]. by eapply floating_ext; [done|done|apply F|].
Qed.

Lemma steal_probe_spec n this v had s Q S C :
  core s Q S C -> (v < 8)%nat ->
  exists p had' s', steal_probe n this (Z.of_nat v) had s = Some (p, had', s') /\ qmove s s' /\ taken s' Q S C v p.
Proof.
  revert had s. induction n as [|n IH]; intros had s K Hv; cbn [steal_probe].
  { exists 0, had, s. split_and!; [done|done|by left]. }
  pose proof (cpu_deque_ok _ _ _ _ _ K Hv) as Hd.
  destruct (StealDeque.steal_loop_spec StealDeque.DEQUE_FUEL _ Hd) as (p & g & d & Hst & Hd' & _).
  { pose proof (StealDeque.d_live _ Hd). unfold StealDeque.DEQUE_FUEL. lia. }
  unfold StealDeque.steal_deque_steal. rewrite Hst. unfold mbind at 1, option_bind at 1. cbv zeta beta iota.
  assert (K1 : core (set_deque (Z.of_nat v) d s) Q S C) by (by apply core_set_deque).
  assert (M1 : qmove s (set_deque (Z.of_nat v) d s)) by (by constructor).
  set (s1 := set_deque (Z.of_nat v) d s) in *.
  assert (Hnext : exists p' had' s', steal_probe n this (Z.of_nat v) true (bump DiagStealStale this s1) = Some (p', had', s') /\
    qmove s s' /\ taken s' Q S C v p').
  { destruct (IH true (bump DiagStealStale this s1)) as (p' & had' & s' & E & M & T); [by apply core_bump|done|].
    exists p', had', s'. split_and!; try done. transitivity s1; [done|]. transitivity (bump DiagStealStale this s1); [apply bump_qmove|done]. }
  destruct (Z.eqb_spec p 0) as [->|Hp].
  { exists 0, had, s1. split_and!; [done|done|by left]. }
  destruct (_ && _) eqn:Hchk; [|done].
  rewrite !andb_true_iff, bool_decide_eq_true, !Z.eqb_eq in Hchk. destruct Hchk as (((_ & Hready) & _) & Haff).
  destruct (decide (p ∈ Q v)) as [Hin|Hnin].
  - apply list_elem_of_split in Hin as (l1 & l2 & Hl).
    destruct (core_remove s1 Q S C v p l1 l2 K1 Hv Hl) as (s2 & Hrem & Hr & K2 & F2).
    rewrite Hrem. unfold mbind, option_bind. cbv beta iota.
    assert (Hsbn := rem_other _ _ _ _ _ _ Hr p).
    eexists p, true, _. split; [done|]. split.
    + transitivity s1; [done|]. transitivity s2; [|apply bump_qmove].
      eapply qframe_qmove; [by apply Hr|by apply Hr].
    + apply taken_bump. right. split; [done|]. exists l1, l2. split_and!; try done.
      * by rewrite (sbn_state _ _ Hsbn).
      * by rewrite (sbn_affinity _ _ Hsbn).
  - rewrite (remove_queue_absent s1 p (Z.of_nat v) (Q v)); [exact Hnext|by apply K1|by eapply queue_length|done].
Qed.

(** A scan ends empty-handed or with a task of another CPU. *)
Lemma steal_scan_spec n i this s Q S C :
  core s Q S C ->
  exists p s', steal_scan n i this s = Some (p, s') /\ qmove s s' /\
    exists v, (v < 8)%nat /\ taken s' Q S C v p /\ (p <> 0 -> Z.of_nat v <> this).
Proof.
  revert i s. induction n as [|n IH]; intros i s K; cbn [steal_scan].
  { exists 0, s. split_and!; [done|done|]. exists 0%nat. split_and!; [lia|by left|done]. }
  pose proof (k_cpus _ _ _ _ K) as Hcc. unfold MAX_CPUS in Hcc.
  pose proof (Z.mod_pos_bound (this + i) (cpu_count s) ltac:(lia)) as Hv.
  destruct ((_ =? this) || _) eqn:Hskip; [by apply IH|]. apply orb_false_iff in Hskip as [Hne _]. apply Z.eqb_neq in Hne.
  set (v := Z.to_nat ((this + i) mod cpu_count s)).
  assert (Hvz : (this + i) mod cpu_count s = Z.of_nat v) by (unfold v; lia). rewrite Hvz in *.
  destruct (steal_probe_spec (Z.to_nat StealDeque.STEAL_DEQUE_CAPACITY) this v false s Q S C K ltac:(lia))
    as (p & had & s1 & -> & M & T).
  unfold mbind, option_bind. cbv beta iota. destruct (Z.eqb_spec p 0) as [->|Hp]; cbn [negb].
  - destruct T as [[_ K1]|[? _]]; [|done]. set (s2 := if had then s1 else _).
    assert (K2 : core s2 Q S C) by (unfold s2; destruct had; [done|by apply core_bump]).
    assert (M2 : qmove s1 s2) by (unfold s2; destruct had; [done|apply bump_qmove]).
    destruct (IH (i + 1) s2 K2) as (p & s' & E & M' & Hr). exists p, s'. split_and!; try done.
    by transitivity s1; [|transitivity s2].
  - exists p, s1. split_and!; try done. exists v. split_and!; [lia|done|done].
Qed.

(** After the stealing step the queues are as before, or [this] was empty, is not
    isolated and now holds one task of another CPU. *)
Definition stole (s : sys) (this : nat) (Q Q' : nat -> list Z) (p : Z) : Prop :=
  Q this = [] /\ is_isolated (Z.of_nat this) s = false /\ p <> 0 /\
  cpu_affinity (tasks s p) = CPU_AFFINITY_ANY /\
  exists v l1 l2, (v < 8)%nat /\ v <> this /\ Q v = l1 ++ p :: l2 /\ Q' = <[this := [p]]> (<[v := l1 ++ l2]> Q).

Lemma schedule_steal_spec this s Q S C :
  core s Q S C -> (this < 8)%nat ->
  exists s' Q', schedule_steal (Z.of_nat this) s = Some s' /\ core s' Q' S C /\ env s' = env s /\
    (forall a, kept (tasks s a) (tasks s' a)) /\
    (forall d, idle_task (rq_of d s') = idle_task (rq_of d s) /\ zombie (rq_of d s') = zombie (rq_of d s)) /\
    ((Q' = Q /\ (Q this <> [] -> s' = s)) \/ exists p, stole s this Q Q' p).
Proof.
  intros K Ht. unfold schedule_steal. fold (rq_of this s). pose proof (k_queues _ _ _ _ K this Ht) as Hq.
  destruct (Z.eqb_spec (head (rq_of this s)) 0) as [Hh|Hh].
  2:{ exists s, Q. split_and!; auto; intros a; by apply sbn_kept. }
  assert (HQ : Q this = []).
  { destruct (Q this) as [|a l] eqn:E; [done|]. destruct (q_chain _ _ _ Hq) as (? & ? & _). unfold rq_of in Hh. congruence. }
  unfold sched_try_steal. change (is_isolated (Z.of_nat this) (bump DiagStealAttempts (Z.of_nat this) s)) with (is_isolated (Z.of_nat this) s).
  set (s0 := bump DiagStealAttempts (Z.of_nat this) s).
  assert (K0 : core s0 Q S C) by (by apply core_bump).
  assert (M0 : qmove s s0) by apply bump_qmove.
  destruct (is_isolated (Z.of_nat this) s) eqn:Hiso.
  { exists s0, Q. split_and!; try done. left. done. }
  destruct (steal_scan_spec (Z.to_nat (cpu_count s0) - 1) 1 (Z.of_nat this) s0 Q S C K0) as (p & s1 & -> & M & v & Hv & T & Hne).
  unfold mbind, option_bind. cbv beta iota. assert (M1 : qmove s s1) by (by transitivity s0).
  destruct T as [[-> K1]|(Hp & l1 & l2 & Hl & K1 & F1 & Hst & Haff)].
  - exists s1, Q. split_and!; try done; [by apply M1|intros a; by apply sbn_kept, M1|by apply M1|]. left. done.
  - rewrite (proj2 (Z.eqb_neq p 0)) by done.
    destruct (core_add s1 _ S C this p K1 F1 Hst Ht) as (s2 & m1 & m2 & Hadd & Hm & Hins & K2).
    rewrite fn_lookup_insert_ne in Hm by lia. rewrite HQ in Hm. symmetry in Hm. apply app_eq_nil in Hm as [-> ->].
    exists s2, (<[this := [p]]> (<[v := l1 ++ l2]> Q)). split_and!; try done.
    + rewrite <- (m_env _ _ M1). unfold env. by rewrite (f_rest _ _ _ (ins_frame _ _ _ _ _ _ Hins)).
    + intros a. eapply kept_trans; [apply sbn_kept, M1|]. destruct (decide (a = p)) as [->|Ha].
      * eapply kept_trans; [apply enqueued_kept; congruence|]. apply sbn_kept, Hins.
      * by apply sbn_kept, Hins.
    + intros d. destruct (m_rq _ _ M1 d) as [<- <-]. eapply rq_frame, Hins.
    + right. exists p. split_and!; try done.
      * rewrite <- Haff. symmetry. apply sbn_affinity, M1.
      * exists v, l1, l2. split_and!; try done. intros ->. by apply (Hne Hp).
Qed.

(** ** Reaping *)

Lemma schedule_reap_spec this s Q S C :
  core s Q S C -> (this < 8)%nat ->
  exists s', schedule_reap (Z.of_nat this) s = Some s' /\ core s' Q S C /\ env s' = env s /\
    zombie (rq_of this s') = 0 /\ (forall d, idle_task (rq_of d s') = idle_task (rq_of d s)) /\
    (forall a, state (tasks s a) <> TASK_TERMINATED \/ (exists c, C c = a) -> tasks s' a = tasks s a) /\
    (forall a, prio_kept (tasks s a) (tasks s' a)).
Proof.
  intros K Ht. unfold schedule_reap. fold (rq_of this s).
  destruct (Z.eqb_spec (zombie (rq_of this s)) 0) as [Hz|Hz]; [by exists s|].
  pose proof (zombie_floating _ _ _ _ _ K Ht Hz) as F.
  destruct (k_zombie _ _ _ _ K this Ht Hz) as (_ & Hst & _ & Hcur).
  assert (K1 : core (set_rq (Z.of_nat this) (with_zombie 0 (rq_of this s)) s) Q S C) by (by apply core_zombie).
  destruct (core_destroy _ _ _ _ _ K1 F Hst) as (s' & -> & K' & Hoth & Hself & Hq & He).
  assert (Hlen : (this < length (rqs s))%nat) by (by rewrite (k_rqs _ _ _ _ K)).
  assert (Hrq : forall d, rq_of d s' = if decide (d = this) then with_zombie 0 (rq_of this s) else rq_of d s).
  { intros d. rewrite <- (rq_of_set this d _ s Hlen). unfold rq_of, cpu_rq. by rewrite Hq. }
  exists s'. split_and!; try done.
  - by rewrite Hrq, decide_True.
  - intros d. rewrite Hrq. by destruct (decide (d = this)) as [->|].
  - intros a Ha. rewrite Hoth; [done|]. intros ->. destruct Ha as [Ha|[c Hc]]; [done|]. by apply (Hcur c).
  - intros a. destruct (decide (a = zombie (rq_of this s))) as [->|Ha]; [|by rewrite Hoth].
    rewrite Hself. unfold prio_kept. split_and!; try done. by left.
Qed.

(** ** Picking *)

(** The task [pick_next_task] returns: the front of the queue, or the idle task. *)
Definition front (s : sys) (this : nat) (l : list Z) : Z := default (idle_task (rq_of this s)) (hd_error l).

Lemma pick_next_spec this s Q S C :
  core s Q S C -> (this < 8)%nat ->
  exists s', pick_next_task (Z.of_nat this) s = Some (front s this (Q this), s') /\
    tasks s' = tasks s /\ rqs s' = rqs s /\ env s' = env s /\ core s' Q S C.
Proof.
  intros K Ht. unfold pick_next_task. fold (rq_of this s). pose proof (k_queues _ _ _ _ K this Ht) as Hq.
  pose proof (chain_head _ _ _ (q_chain _ _ _ Hq)) as Hh. fold (rq_of this s) in Hh. unfold front.
  destruct (Q this) as [|a l] eqn:E; simpl in Hh.
  - rewrite Hh. simpl. exists s. done.
  - assert (Ha : a ∈ Q this) by (rewrite E; apply elem_of_cons; auto).
    destruct (k_queued _ _ _ _ K this a Ht Ha) as ([? ?] & Hst & _).
    rewrite Hh, (proj2 (Z.eqb_neq a 0)) by lia. unfold is_dead. rewrite Hst. simpl.
    eexists. split; [done|]. split_and!; try done. by apply core_bump.
Qed.

Lemma core_boost s Q S C p : core s Q S C -> core (update_deadline_boost p s) Q S C.
Proof.
  intros K. unfold update_deadline_boost. destruct (p =? 0); [done|].
  assert (Hv : forall a, tasks (upd p (deadline_boost (now_ns s)) s) a =
    set_effective_priority (effective_priority (tasks (upd p (deadline_boost (now_ns s)) s) a)) (tasks s a)).
  { intros a. destruct (decide (a = p)) as [->|Ha].
    - rewrite tasks_upd_eq. apply deadline_boost_only.
    - rewrite tasks_upd_ne by done. by destruct (tasks s a). }
  eapply core_same; try done; [apply K|..]; intros a; rewrite Hv; try done. by eapply (core_tcb s).
Qed.

Lemma boost_fields p s :
  (p <> 0 -> state (tasks s p) <> TASK_BLOCKED) ->
  rqs (update_deadline_boost p s) = rqs s /\ env (update_deadline_boost p s) = env s /\
  (forall a, kept (tasks s a) (tasks (update_deadline_boost p s) a)).
Proof.
  intros Hst. unfold update_deadline_boost. destruct (Z.eqb_spec p 0); [split_and!; try done; intros a; by apply sbn_kept|].
  split_and!; try done. intros a. destruct (decide (a = p)) as [->|Ha].
  - rewrite tasks_upd_eq. by apply boost_kept, Hst.
  - rewrite tasks_upd_ne by done. by apply sbn_kept.
Qed.

(** What re-queueing does to the state of the outgoing task. *)
Definition parked (cur a : Z) (t : task) : task :=
  if decide (a = cur /\ cur <> 0 /\ state t = TASK_RUNNING) then set_state TASK_READY t else t.

(** The queues after the outgoing task has been put back, if it is put back. *)
Definition requeued (s : sys) (this : nat) (cur : Z) (Q Q' : nat -> list Z) : Prop :=
  if decide (cur <> 0 /\ state (tasks s cur) = TASK_RUNNING /\ cur <> idle_task (rq_of this s)) then
    exists l1 l2, Q this = l1 ++ l2 /\ Q' = <[this := l1 ++ cur :: l2]> Q /\
      Forall (fun a => effective_priority (enqueued s (Z.of_nat this) cur) <= effective_priority (tasks s a)) l1 /\
      (forall a, hd_error l2 = Some a ->
         effective_priority (tasks s a) < effective_priority (enqueued s (Z.of_nat this) cur))
  else Q' = Q.

Record picked (s s' : sys) (this : nat) (Q Q' : nat -> list Z) (S : list Z) (C : nat -> Z) : Prop := {
  pk_core : core s' Q' S (<[this := 0]> C);
  pk_env : env s' = env s;
  pk_rq : forall d, idle_task (rq_of d s') = idle_task (rq_of d s) /\ zombie (rq_of d s') = zombie (rq_of d s);
  pk_tasks : forall a, kept (parked (C this) a (tasks s a)) (tasks s' a);
  pk_queues : requeued s this (C this) Q Q'
}.

(** The boost of the front task and the second pick, after the outgoing task was put back. *)
Lemma repick_spec this s s1 Q Q' S C :
  (this < 8)%nat -> picked s s1 this Q Q' S C ->
  exists s', (let s2 := update_deadline_boost (head (cpu_rq (Z.of_nat this) s1)) s1 in
              pick_next_task (Z.of_nat this) s2) = Some (front s this (Q' this), s') /\
    picked s s' this Q Q' S C.
Proof.
  intros Ht [K E R T HQ]. cbv zeta. set (s2 := update_deadline_boost _ _).
  assert (Hhd : head (cpu_rq (Z.of_nat this) s1) <> 0 -> state (tasks s1 (head (cpu_rq (Z.of_nat this) s1))) <> TASK_BLOCKED).
  { rewrite (chain_head _ _ _ (q_chain _ _ _ (k_queues _ _ _ _ K this Ht))). destruct (Q' this) as [|a l] eqn:HQa; [done|]. intros _.
    destruct (k_queued _ _ _ _ K this a Ht) as (_ & E1 & _); [rewrite HQa; apply elem_of_cons; auto|]. simpl. congruence. }
  destruct (boost_fields (head (cpu_rq (Z.of_nat this) s1)) s1 Hhd) as (Hq2 & He2 & Ht2). fold s2 in Hq2, He2, Ht2.
  assert (K2 : core s2 Q' S (<[this := 0]> C)) by (by apply core_boost).
  destruct (pick_next_spec this s2 Q' S _ K2 Ht) as (s3 & -> & Ht3 & Hq3 & He3 & K3).
  assert (Hrq : forall d, rq_of d s3 = rq_of d s1) by (intros d; unfold rq_of, cpu_rq; by rewrite Hq3, Hq2).
  assert (Hrq2 : rq_of this s2 = rq_of this s1) by (unfold rq_of, cpu_rq; by rewrite Hq2).
  exists s3. split.
  - unfold front. by rewrite Hrq2, (proj1 (R this)).
  - constructor; try done.
    + by rewrite He3, He2.
    + intros d. by rewrite Hrq.
    + intros a. eapply kept_trans; [apply T|]. by rewrite Ht3.
Qed.

Lemma kept_refl t : kept t t.
Proof. done. Qed.

Lemma picked_none s this Q S C :
  core s Q S C -> (C this <> 0 -> state (tasks s (C this)) <> TASK_RUNNING) -> picked s s this Q Q S C.
Proof.
  intros K Hn. constructor; try done.
  - by apply core_stop.
  - intros a. unfold parked. rewrite decide_False by (intros (-> & ? & ?); by apply Hn). done.
  - unfold requeued. rewrite decide_False; [done|]. intros (? & ? & _). by apply Hn.
Qed.

Lemma picked_idle s this Q S C :
  core s Q S C -> Z.of_nat this < cpu_count s -> C this <> 0 -> C this = idle_task (rq_of this s) ->
  state (tasks s (C this)) = TASK_RUNNING ->
  picked s (upd (C this) (set_state TASK_READY) s) this Q Q S C.
Proof.
  intros K Hlt Hnz Hid Hrun. pose proof (core_stop _ _ _ _ this K) as K0.
  assert (Hl : loose s Q S (<[this := 0]> C) (C this)).
  { rewrite Hid. apply idle_loose; [done|done|]. rewrite <- Hid. intros d.
    destruct (decide (d = this)) as [->|Hne]; [by rewrite fn_lookup_insert|].
    rewrite fn_lookup_insert_ne by done. intros E. by apply Hne, eq_sym, (k_cur_inj _ _ _ _ K). }
  constructor; try done.
  - apply core_upd_loose; try done; [by eapply (core_tcb s)|]. intros Hi. by left.
  - intros a. unfold parked. destruct (decide (a = C this)) as [->|Ha].
    + by rewrite decide_True, tasks_upd_eq by done.
    + rewrite decide_False, tasks_upd_ne by (congruence || tauto). done.
  - unfold requeued. rewrite decide_False; [done|]. tauto.
Qed.

Lemma enqueued_set_state s p v c :
  effective_priority (enqueued (upd p (set_state v) s) c p) = effective_priority (enqueued s c p).
Proof.
  unfold enqueued. rewrite tasks_upd_eq. unfold deadline_boost, store_effective_priority. simpl.
  by destruct (deadline_ns (tasks s p) =? 0).
Qed.

Lemma picked_requeue s this Q S C :
  core s Q S C -> (this < 8)%nat -> C this <> 0 -> C this <> idle_task (rq_of this s) ->
  state (tasks s (C this)) = TASK_RUNNING ->
  exists s' Q', add_to_cpu_queue_locked (C this) (Z.of_nat this) (upd (C this) (set_state TASK_READY) s) = Some s' /\
    picked s s' this Q Q' S C.
Proof.
  intros K Ht Hnz Hid Hrun. set (cur := C this) in *.
  destruct (k_cur _ _ _ _ K this Hnz) as (Htab & _ & _ & Hidle). fold cur in Htab, Hidle.
  assert (Hni : idle s cur = false) by (destruct (idle s cur); [exfalso; by apply Hid, Hidle|done]).
  assert (HnS : cur ∉ S) by (intros Hin; destruct (k_asleep _ _ _ _ K _ Hin) as (_ & E & _); congruence).
  assert (HnW : cur ∉ waiters) by (intros Hin; destruct (k_waiting _ _ _ _ K _ Hin) as (_ & E & _); congruence).
  pose proof (stop_floating _ _ _ _ this K Hnz Hni HnS HnW) as F0. fold cur in F0.
  pose proof (core_stop _ _ _ _ this K) as K0. set (s1 := upd cur (set_state TASK_READY) s).
  assert (K1 : core s1 Q S (<[this := 0]> C)) by (apply core_upd_floating; try done; by eapply (core_tcb s)).
  assert (F1 : floating s1 Q S (<[this := 0]> C) cur) by (apply floating_upd; [done|by intros _]).
  assert (Hcur : tasks s1 cur = set_state TASK_READY (tasks s cur)) by apply tasks_upd_eq.
  assert (Hoth : forall a, a <> cur -> tasks s1 a = tasks s a) by (intros; by apply tasks_upd_ne).
  destruct (core_add s1 Q S _ this cur K1 F1) as (s' & l1 & l2 & Hadd & Hl & Hins & K'); [by rewrite Hcur|done|].
  assert (Hnq : forall a, a ∈ Q this -> a <> cur) by (intros a Ha ->; by apply (fl_queue _ _ _ _ _ F1 this)).
  pose proof (enqueued_set_state s cur TASK_READY (Z.of_nat this)) as Hpr. fold s1 in Hpr.
  exists s', (<[this := l1 ++ cur :: l2]> Q). split; [done|]. destruct Hins. constructor; try done.
  - unfold env. by rewrite (f_rest _ _ _ ins_frame0).
  - intros d. by apply (rq_frame s1 s' (Z.of_nat this)).
  - intros a. unfold parked. fold cur. destruct (decide (a = cur)) as [->|Ha].
    + rewrite decide_True by done. eapply kept_trans; [|apply sbn_kept, ins_self0].
      rewrite <- Hcur. apply enqueued_kept. by rewrite Hcur.
    + rewrite decide_False by tauto. rewrite <- (Hoth a Ha). by apply sbn_kept, ins_other0.
  - unfold requeued. fold cur. rewrite decide_True by done. exists l1, l2. split_and!; try done.
    + apply Forall_forall. intros a Ha. rewrite Forall_forall in ins_before0. specialize (ins_before0 a Ha).
      rewrite Hpr, Hoth in ins_before0; [done|]. apply Hnq. rewrite Hl. apply elem_of_app. auto.
    + intros a Ha. specialize (ins_after0 a Ha). rewrite Hpr, Hoth in ins_after0; [done|].
      apply Hnq. rewrite Hl. apply elem_of_app. right. destruct l2; [done|]. injection Ha as ->. apply elem_of_cons. auto.
Qed.

Lemma schedule_pick_spec this s Q S C :
  core s Q S C -> (this < 8)%nat -> Z.of_nat this < cpu_count s ->
  exists s' Q', schedule_pick (Z.of_nat this) (C this) s = Some (front s this (Q' this), s') /\
    picked s s' this Q Q' S C.
Proof.
  intros K Ht Hlt. unfold schedule_pick.
  destruct (pick_next_spec this s Q S C K Ht) as (s0 & -> & Ht0 & Hq0 & He0 & K0).
  assert (Hrq : forall d, rq_of d s0 = rq_of d s) by (intros d; unfold rq_of, cpu_rq; by rewrite Hq0).
  assert (Hlift : forall s' Q', picked s0 s' this Q Q' S C -> picked s s' this Q Q' S C).
  { intros s' Q' [H1 H2 H3 H4 H5]. constructor; try done.
    - by rewrite H2.
    - intros d. rewrite <- Hrq. apply H3.
    - intros a. rewrite <- Ht0. apply H4.
    - assert (Hnow : now_ns s0 = now_ns s) by (unfold env in He0; congruence).
      unfold requeued, enqueued in *. by rewrite Ht0, Hrq, Hnow in H5. }
  unfold mbind at 1, option_bind at 1. cbv beta iota.
  destruct (decide (C this <> 0 /\ state (tasks s0 (C this)) = TASK_RUNNING)) as [[Hnz Hrun]|Hno].
  - rewrite (proj2 (Z.eqb_neq _ _) Hnz), bool_decide_true by done. cbn [negb andb]. cbv zeta.
    change (cpu_rq (Z.of_nat this) (upd (C this) (set_state TASK_READY) s0)) with (rq_of this s0).
    assert (Hfr : forall l, front s0 this l = front s this l) by (intros l; unfold front; by rewrite Hrq).
    assert (Hlt0 : Z.of_nat this < cpu_count s0) by (unfold env in He0; congruence).
    destruct (Z.eqb_spec (C this) (idle_task (rq_of this s0))) as [Hid|Hid].
    + pose proof (picked_idle s0 this Q S C K0 Hlt0 Hnz Hid Hrun) as P.
      destruct (repick_spec this s0 _ Q Q S C Ht P) as (s' & Hp & P').
      exists s', Q. rewrite <- Hfr. split; [exact Hp|by apply Hlift].
    + destruct (picked_requeue s0 this Q S C K0 Ht Hnz Hid Hrun) as (s1 & Q' & -> & P).
      destruct (repick_spec this s0 _ Q Q' S C Ht P) as (s' & Hp & P').
      exists s', Q'. rewrite <- Hfr. split; [exact Hp|by apply Hlift].
  - replace (negb (C this =? 0) && _) with false.
    2:{ symmetry. apply andb_false_iff. destruct (Z.eqb_spec (C this) 0); [by left|right].
        apply bool_decide_eq_false. tauto. }
    exists s0, Q. split; [done|]. apply Hlift, picked_none; [done|]. tauto.
Qed.

(** ** Dequeueing and switching *)

(** Taking the front task off is the removal of it. *)
Lemma dequeue_as_remove s this nxt l :
  rq_repr s this (nxt :: l) -> nxt <> idle_task (cpu_rq this s) ->
  remove_from_cpu_queue_locked nxt this s = Some (true, dequeue_head this nxt s).
Proof.
  intros [Hc Ht Hn Hnd] Hid. destruct Hc as (Hh & Hnz & Hl). apply NoDup_cons in Hnd as [Hnl _].
  unfold remove_from_cpu_queue_locked, dequeue_head, QUEUE_FUEL. cbn [remove_walk].
  rewrite Hh, (proj2 (Z.eqb_neq nxt 0)), Z.eqb_refl by done.
  rewrite (proj2 (Z.eqb_neq nxt (idle_task _))) by done. cbn [negb andb]. unfold mbind, option_bind.
  cbn [Z.eqb]. cbv zeta. do 3 f_equal. unfold links in Hl. rewrite (chain_head _ _ _ Hl).
  destruct l as [|b l]; simpl.
  - replace (tail (cpu_rq this s)) with nxt by (by rewrite Ht). by rewrite Z.eqb_refl.
  - destruct Hl as (_ & Hb & _). rewrite (proj2 (Z.eqb_neq b 0)) by done.
    replace (nxt =? tail (cpu_rq this s)) with false; [done|]. symmetry. apply Z.eqb_neq. rewrite Ht. simpl.
    intros E. apply Hnl. rewrite E. rewrite last_cons. destruct (last l) as [x|] eqn:El; simpl.
    + apply elem_of_cons. right. by apply last_Some_elem_of.
    + apply elem_of_cons. auto.
Qed.

(** Dequeueing the picked task: a queued task floats, an idle task stays where it is. *)
Lemma dequeue_head_spec this s Q S C :
  core s Q S C -> (this < 8)%nat -> Z.of_nat this < cpu_count s ->
  let nxt := front s this (Q this) in
  let s' := dequeue_head (Z.of_nat this) nxt s in
  qmove s s' /\ nxt <> 0 /\
  ((exists l, Q this = nxt :: l /\ core s' (<[this := l]> Q) S C /\ floating s' (<[this := l]> Q) S C nxt /\
      state (tasks s' nxt) = TASK_READY) \/
   (Q this = [] /\ s' = s /\ nxt = idle_task (rq_of this s))).
Proof.
  intros K Ht Hlt. cbv zeta. destruct (k_idle _ _ _ _ K this Hlt) as ([? ?] & Hi & _).
  unfold front. destruct (Q this) as [|a l] eqn:E; simpl.
  - split_and!; [|lia|right; split_and!; auto]; unfold dequeue_head; fold (rq_of this s); rewrite Z.eqb_refl; done.
  - assert (Ha : a ∈ Q this) by (rewrite E; apply elem_of_cons; auto).
    destruct (k_queued _ _ _ _ K this a Ht Ha) as ([? ?] & Hst & _ & Hia).
    destruct (core_remove s Q S C this a [] l K Ht E) as (s' & Hrem & Hr & K' & F).
    pose proof (k_queues _ _ _ _ K this Ht) as Hq. rewrite E in Hq.
    rewrite (dequeue_as_remove s (Z.of_nat this) a l Hq) in Hrem by (fold (rq_of this s); congruence).
    injection Hrem as <-. split_and!; [by eapply qframe_qmove; apply Hr|lia|]. left. exists l. split_and!; try done.
    by rewrite (sbn_state _ _ (rem_other _ _ _ _ _ _ Hr a)).
Qed.

(** The fields a switch may change in a TCB. *)
Definition resumed (t : task) : task := set_switches (switches t +64 1) (set_state TASK_RUNNING t).

(** Starting the picked task on [this]: [f] makes it RUNNING. *)
Lemma core_dispatch this s Q S C nxt f :
  core s Q S C -> Z.of_nat this < cpu_count s -> C this = 0 ->
  (forall t, state (f t) = TASK_RUNNING /\ stack_base (f t) = stack_base t /\ flags (f t) = flags t /\
     cpu_affinity (f t) = cpu_affinity t /\ assigned_cpu (f t) = assigned_cpu t /\ id (f t) = id t) ->
  (floating s Q S C nxt \/ nxt = idle_task (rq_of this s) /\ forall d, C d <> nxt) ->
  core (upd nxt f s) Q S (<[this := nxt]> C).
Proof.
  intros K Hlt Hc Hf Hn. destruct (Hf (tasks s nxt)) as (Hrun & Hstk & Hfl & Haf & Has & Hidf).
  assert (Htc : tcb_ok (cpu_count s) (f (tasks s nxt))) by (unfold tcb_ok; rewrite Haf, Has; by eapply core_tcb).
  assert (Hid : is_idle_task (Some (f (tasks s nxt))) = idle s nxt) by (unfold idle, is_idle_task; by rewrite Hfl).
  destruct Hn as [F|[-> Hd]].
  - apply core_start.
    + by apply core_upd_floating.
    + apply floating_upd; [done|]. intros _. split; [rewrite Hid; apply F|done].
    + by rewrite tasks_upd_eq, Hrun.
    + by rewrite tasks_upd_eq, Hrun.
  - set (i := idle_task (rq_of this s)) in *.
    assert (K1 : core (upd i f s) Q S C).
    { apply core_upd_loose; try done; [by apply idle_loose|]. intros Hi. auto. }
    apply (core_start_idle (upd i f s) Q S C this K1); [done|done|]. simpl. fold i. by rewrite fn_lookup_insert.
Qed.

(** The stack pointer is inside the stack of the task, when it has one. *)
Definition sp_ok (t : task) (sp : Z) : Prop :=
  stack_base t <> 0 -> stack_top t <> 0 -> stack_base t <= sp <= stack_top t.

Lemma schedule_switch_spec this cur nxt sp s Q S C :
  core s Q S C -> (this < 8)%nat -> Z.of_nat this < cpu_count s -> C this = 0 -> nxt <> cur ->
  (floating s Q S C nxt \/ nxt = idle_task (rq_of this s) /\ forall d, C d <> nxt) ->
  (cur <> 0 -> state (tasks s cur) = TASK_TERMINATED -> floating s Q S C cur) -> sp_ok (tasks s cur) sp ->
  exists s', schedule_switch (Z.of_nat this) cur nxt sp s = Some s' /\ core s' Q S (<[this := nxt]> C) /\
    current_task s' = <[this := nxt]> (current_task s) /\ tasks s' = tasks (upd nxt resumed s) /\
    cpu_count s' = cpu_count s.
Proof.
  intros K Ht Hlt HC Hne Hn Hz Hsp. unfold schedule_switch. fold resumed.
  assert (K1 : core (upd nxt resumed s) Q S (<[this := nxt]> C)) by (by apply core_dispatch).
  assert (Hcur : tasks (upd nxt resumed s) cur = tasks s cur) by (by apply tasks_upd_ne).
  set (s1 := with_context_switches _ (upd nxt resumed s)).
  assert (K1' : core s1 Q S (<[this := nxt]> C)) by (by eapply core_irrel; try done; apply K1).
  cbv zeta. set (s2 := if _ && _ then _ else s1).
  assert (K2 : core s2 Q S (<[this := nxt]> C) /\ tasks s2 = tasks s1 /\ current_task s2 = current_task s /\ cpu_count s2 = cpu_count s).
  { unfold s2. destruct (negb (cur =? 0) && _) eqn:E; [|done]. split; [|done].
    rewrite andb_true_iff, negb_true_iff, Z.eqb_neq, bool_decide_eq_true in E. destruct E as [E1 E2].
    apply core_zombie; [done..|]. intros _. split; [|done]. simpl in E2. rewrite fn_lookup_insert_ne in E2 by done.
    destruct (Hz E1 E2) as [H1 H2 H3 H4 H5 H6 H7]. constructor; try done.
    - unfold idle. simpl. by rewrite fn_lookup_insert_ne.
    - change (id (tasks (upd nxt resumed s) cur) <> 0). by rewrite Hcur.
    - intros d. destruct (decide (d = this)) as [->|]; [by rewrite fn_lookup_insert|by rewrite fn_lookup_insert_ne]. }
  destruct K2 as (K2 & Ht2 & Hc2 & Hcc2).
  change (tasks (set_preempt_disabled (Z.of_nat this) 1 (task_set_current (Z.of_nat this) nxt s2)) cur) with (tasks s2 cur).
  replace (tasks s2 cur) with (tasks s cur) by (rewrite Ht2; by symmetry).
  set (bad := negb (cur =? 0) && _ && _ && _).
  assert (bad = false) as ->.
  { unfold bad. destruct (Z.eqb_spec (stack_base (tasks s cur)) 0) as [|Hb]; [by rewrite andb_false_r|].
    destruct (Z.eqb_spec (stack_top (tasks s cur)) 0) as [|Htp]; [by rewrite andb_false_r|].
    specialize (Hsp Hb Htp). rewrite (proj2 (Z.ltb_ge _ _)), (proj2 (Z.ltb_ge _ _)) by lia. by rewrite andb_false_r. }
  eexists. split; [done|]. split_and!; try done.
  - by eapply core_irrel; try done; apply K2.
  - unfold set_preempt_disabled, task_set_current. simpl. by rewrite Nat2Z.id, Hc2.
Qed.

(** ** The whole of [schedule] *)

Definition curs (s : sys) (c : nat) : Z := nth c (current_task s) 0.

(** The invariant between calls: [core], and no running task is asleep or blocked. *)
Record sched_inv (s : sys) (Q : nat -> list Z) (S : list Z) : Prop := {
  si_core : core s Q S (curs s);
  si_len : length (current_task s) = 8%nat;
  si_awake : forall c, curs s c ∉ S ++ waiters
}.

(** The state in which CPU [this] may call [schedule]: its own task may have blocked. *)
Record at_schedule (s : sys) (Q : nat -> list Z) (S : list Z) (this : nat) (sp : Z) : Prop := {
  as_core : core s Q S (curs s);
  as_len : length (current_task s) = 8%nat;
  as_awake : forall c, c <> this -> curs s c ∉ S ++ waiters;
  as_cpu : Z.of_nat this < cpu_count s;
  as_sp : sp_ok (tasks s (curs s this)) sp
}.

(** What a TCB keeps across [schedule]. *)
Definition carried (t t' : task) : Prop :=
  prio_kept t t' /\ flags t' = flags t /\ stack_base t' = stack_base t /\ stack_top t' = stack_top t.

#[export] Instance carried_preorder : PreOrder carried.
Proof.
  split; [intros t; split_and!; try done; reflexivity|]. intros t1 t2 t3 (P1 & ? & ? & ?) (P2 & ? & ? & ?).
  split_and!; try congruence; apply (transitivity P1 P2).
Qed.

Lemma carried_state t st : settled st = settled (state t) -> carried t (set_state st t).
Proof. intros H1. unfold carried, prio_kept. split_and!; try done. by left. Qed.

Lemma kept_carried t t' : kept t t' -> carried t t'.
Proof. intros (_ & _ & ? & ? & ? & _ & _ & P). split_and!; try done; apply P. Qed.

(** The queues and the task chosen, from the queues [Q] at the time of the choice. *)
Definition chosen (s : sys) (this : nat) (cur nxt : Z) (Q Q' : nat -> list Z) : Prop :=
  exists Q1, requeued s this cur Q Q1 /\ (forall d, d <> this -> Q' d = Q1 d) /\
    ((Q1 this = nxt :: Q' this) \/ (Q1 this = [] /\ Q' this = [] /\ nxt = idle_task (rq_of this s))).

Lemma curs_set s s' this p :
  length (current_task s) = 8%nat -> (this < 8)%nat -> current_task s' = <[this := p]> (current_task s) ->
  forall c, curs s' c = <[this := p]> (curs s) c.
Proof.
  intros Hl Ht E c. unfold curs. rewrite E, nth_lookup. destruct (decide (c = this)) as [->|Hne].
  - rewrite list_lookup_insert_eq by lia. by rewrite fn_lookup_insert.
  - rewrite list_lookup_insert_ne by done. rewrite fn_lookup_insert_ne by done. by rewrite nth_lookup.
Qed.

(** [schedule] after stealing and reaping. *)
Definition schedule_tail (this live_sp : Z) (s : sys) : option sys :=
  let current := task_current_on_cpu this s in
  '(nxt, s) ← schedule_pick this current s;
  let s := dequeue_head this nxt s in
  if nxt =? current then
    if negb (current =? 0) && is_dead (tasks s current) then None
    else Some (if current =? 0 then s else upd current (set_state TASK_RUNNING) s)
  else if nxt =? 0 then None
  else schedule_switch this current nxt live_sp s.

Lemma current_curs this s : (this < 8)%nat -> task_current_on_cpu (Z.of_nat this) s = curs s this.
Proof.
  intros Ht. unfold task_current_on_cpu. rewrite (proj2 (Z.leb_gt _ _)) by (unfold MAX_CPUS; lia).
  by rewrite Nat2Z.id.
Qed.

Lemma terminated_floating s Q S C p :
  core s Q S C -> in_table p -> id (tasks s p) <> 0 -> state (tasks s p) = TASK_TERMINATED -> idle s p = false ->
  (forall d, C d <> p) -> (forall d, (d < 8)%nat -> zombie (rq_of d s) <> p) -> floating s Q S C p.
Proof.
  intros K Ht Hid Hst Hi Hc Hz. constructor; try done.
  - intros d Hd Hin. destruct (k_queued _ _ _ _ K d _ Hd Hin) as (_ & E & _). congruence.
  - intros Hin. destruct (k_asleep _ _ _ _ K _ Hin) as (_ & E & _). congruence.
  - intros Hin. destruct (k_waiting _ _ _ _ K _ Hin) as (_ & E & _). congruence.
Qed.

Lemma insert_zero (C : nat -> Z) this p d : <[this := p]> (<[this := 0]> C) d = <[this := p]> C d.
Proof.
  destruct (decide (d = this)) as [->|]; [by rewrite !fn_lookup_insert|by rewrite !fn_lookup_insert_ne].
Qed.

(** The state after the choice and the dequeueing, ready to run [nxt]. *)
Record prepared (s s2 : sys) (this : nat) (nxt : Z) (Q Q' : nat -> list Z) (S : list Z) : Prop := {
  pr_core : core s2 Q' S (<[this := 0]> (curs s));
  pr_next : floating s2 Q' S (<[this := 0]> (curs s)) nxt \/
            nxt = idle_task (rq_of this s2) /\ forall d, <[this := 0]> (curs s) d <> nxt;
  pr_alive : state (tasks s2 nxt) = TASK_READY \/ state (tasks s2 nxt) = TASK_RUNNING;
  pr_nonzero : nxt <> 0;
  pr_awake : nxt ∉ S ++ waiters;
  pr_env : env s2 = env s;
  pr_zombie : forall d, zombie (rq_of d s2) = zombie (rq_of d s);
  pr_tasks : forall a, kept (parked (curs s this) a (tasks s a)) (tasks s2 a);
  pr_chosen : chosen s this (curs s this) nxt Q Q'
}.

Lemma schedule_prepare this s Q S sp :
  at_schedule s Q S this sp -> (this < 8)%nat ->
  exists s1 nxt Q', schedule_pick (Z.of_nat this) (curs s this) s = Some (nxt, s1) /\
    prepared s (dequeue_head (Z.of_nat this) nxt s1) this nxt Q Q' S.
Proof.
  intros [K Hlen Haw Hlt Hsp] Ht. destruct (schedule_pick_spec this s Q S (curs s) K Ht Hlt) as (s1 & Q1 & -> & P).
  destruct P as [K1 He1 R1 T1 HQ1]. set (C0 := <[this := 0]> (curs s)) in *.
  assert (Hcc : cpu_count s1 = cpu_count s) by (unfold env in He1; congruence).
  assert (Hfr : front s this (Q1 this) = front s1 this (Q1 this)) by (unfold front; by rewrite (proj1 (R1 this))).
  rewrite Hfr. destruct (dequeue_head_spec this s1 Q1 S C0 K1 Ht ltac:(lia)) as (M & Hnz & Hcase).
  set (nxt := front s1 this (Q1 this)) in *. set (s2 := dequeue_head (Z.of_nat this) nxt s1) in *.
  assert (Htk : forall a, kept (parked (curs s this) a (tasks s a)) (tasks s2 a)).
  { intros a. eapply kept_trans; [apply T1|]. apply sbn_kept, M. }
  assert (Hz : forall d, zombie (rq_of d s2) = zombie (rq_of d s)).
  { intros d. rewrite (proj2 (m_rq _ _ M d)). apply R1. }
  assert (Hen : env s2 = env s) by (by rewrite (m_env _ _ M)).
  destruct Hcase as [(l & Hl & K2 & F2 & Hst)|(Hnil & Heq & Hid)].
  - exists s1, nxt, (<[this := l]> Q1). split; [done|]. constructor; auto; [by eapply floating_awake|].
    exists Q1. split_and!; [done|by intros d Hd; apply fn_lookup_insert_ne|]. left. by rewrite fn_lookup_insert.
  - exists s1, nxt, Q1. split; [done|]. assert (Hlt1 : Z.of_nat this < cpu_count s1) by lia.
    destruct (k_idle _ _ _ _ K1 this Hlt1) as ([? ?] & Hi & Hst). rewrite <- Hid in *.
    assert (HC0 : forall d, C0 d <> nxt).
    { intros d E. rewrite Hid in E. pose proof (k_idle_cur _ _ _ _ K1 this d Hlt1 E) as ->.
      unfold C0 in E. rewrite fn_lookup_insert in E. congruence. }
    fold s2. rewrite Heq in *. constructor; auto.
    + by eapply idle_awake.
    + exists Q1. split_and!; [done|done|]. right. split_and!; [done|done|]. rewrite Hid. apply R1.
Qed.

(** A terminated task that is being switched away from is in no other place. *)
Lemma outgoing_floating this s s2 nxt Q Q' S :
  core s Q S (curs s) -> Z.of_nat this < cpu_count s -> prepared s s2 this nxt Q Q' S ->
  curs s this <> 0 -> state (tasks s2 (curs s this)) = TASK_TERMINATED ->
  floating s2 Q' S (<[this := 0]> (curs s)) (curs s this).
Proof.
  intros K Hlt [K2 _ _ _ _ _ Hz Htk _] Hc0 Hst. set (cur := curs s this) in *.
  destruct (k_cur _ _ _ _ K this Hc0) as (Htab & Hnr & _ & Hidl). fold cur in Htab, Hnr, Hidl.
  assert (Hst0 : state (tasks s cur) = TASK_TERMINATED).
  { destruct (Htk cur) as (_ & E & _). rewrite Hst in E. unfold parked in E.
    destruct (decide _) as [|]; [done|by symmetry]. }
  assert (Hi0 : idle s cur = false).
  { destruct (idle s cur) eqn:Ei; [|done]. destruct (k_idle _ _ _ _ K this Hlt) as (_ & _ & Hrr).
    rewrite <- (Hidl eq_refl) in Hrr. destruct Hrr; congruence. }
  apply terminated_floating; try done.
  - destruct (Htk cur) as (_ & _ & _ & _ & _ & _ & -> & _).
    assert (Hid : id (tasks s cur) <> 0) by (apply (k_ids _ _ _ _ K); do 2 right; left; by exists this).
    unfold parked. by destruct (decide _).
  - destruct (Htk cur) as (_ & _ & Hf & _). unfold idle, is_idle_task in *. rewrite Hf.
    unfold parked. by destruct (decide _).
  - intros d. destruct (decide (d = this)) as [->|Hd]; [rewrite fn_lookup_insert; done|].
    rewrite fn_lookup_insert_ne by done. intros E. by apply Hd, eq_sym, (k_cur_inj _ _ _ _ K).
  - intros d Hd E. rewrite Hz in E. destruct (k_zombie _ _ _ _ K d Hd) as (_ & _ & _ & Hcz); [congruence|].
    by apply (Hcz this).
Qed.

Lemma schedule_tail_spec this sp s Q S :
  at_schedule s Q S this sp -> (this < 8)%nat ->
  exists s' Q', schedule_tail (Z.of_nat this) sp s = Some s' /\ sched_inv s' Q' S /\
    chosen s this (curs s this) (curs s' this) Q Q' /\ (forall c, c <> this -> curs s' c = curs s c) /\
    (forall a, carried (tasks s a) (tasks s' a)) /\ state (tasks s' (curs s' this)) = TASK_RUNNING /\
    cpu_count s' = cpu_count s.
Proof.
  intros A Ht. destruct (schedule_prepare _ _ _ _ _ A Ht) as (s1 & nxt & Q' & Hpick & P).
  pose proof P as [K2 Hn Hal Hnz Hns He Hz Htk Hch]. destruct A as [K Hlen Haw Hlt Hsp]. unfold schedule_tail. rewrite current_curs by done. cbv zeta.
  set (cur := curs s this) in *. rewrite Hpick. unfold mbind, option_bind. cbv beta iota.
  set (s2 := dequeue_head (Z.of_nat this) nxt s1) in *. set (C0 := <[this := 0]> (curs s)) in *.
  assert (Hlt2 : Z.of_nat this < cpu_count s2) by (unfold env in He; congruence).
  assert (Hct : current_task s2 = current_task s) by (unfold env in He; congruence).
  assert (HC0 : C0 this = 0) by apply fn_lookup_insert.
  assert (Hfin : forall s' f, core s' Q' S (<[this := nxt]> C0) -> current_task s' = <[this := nxt]> (current_task s) ->
    tasks s' = tasks (upd nxt f s2) -> carried (tasks s2 nxt) (f (tasks s2 nxt)) /\ state (f (tasks s2 nxt)) = TASK_RUNNING -> cpu_count s' = cpu_count s2 ->
    sched_inv s' Q' S /\ chosen s this cur (curs s' this) Q Q' /\ (forall c, c <> this -> curs s' c = curs s c) /\
    (forall a, carried (tasks s a) (tasks s' a)) /\ state (tasks s' (curs s' this)) = TASK_RUNNING /\ cpu_count s' = cpu_count s).
  { intros s' f Ks Hc' Hts Hf Hcc. pose proof (curs_set s s' this nxt Hlen Ht Hc') as Hcs.
    assert (Hnx : curs s' this = nxt) by (by rewrite Hcs, fn_lookup_insert).
    split; [|split; [|split; [|split; [|split]]]].
    - constructor.
      + eapply core_cur_ext; [done|]. intros c. unfold C0. by rewrite Hcs, insert_zero.
      + by rewrite Hc', length_insert.
      + intros c. rewrite Hcs. destruct (decide (c = this)) as [->|]; [by rewrite fn_lookup_insert|].
        rewrite fn_lookup_insert_ne by done. by apply Haw.
    - by rewrite Hnx.
    - intros c Hc. by rewrite Hcs, fn_lookup_insert_ne.
    - intros a. assert (Hpk : carried (tasks s a) (tasks s2 a)).
      { transitivity (parked cur a (tasks s a)); [|by apply kept_carried]. unfold parked. destruct (decide _) as [a0|]; [|done].
        destruct a0 as (-> & _ & E0). apply carried_state. by rewrite E0. }
      rewrite Hts. destruct (decide (a = nxt)) as [->|]; [rewrite tasks_upd_eq|by rewrite tasks_upd_ne].
      etransitivity; [done|apply Hf].
    - rewrite Hnx, Hts, tasks_upd_eq. apply Hf.
    - unfold env in He. congruence. }
  assert (Hnb : settled TASK_RUNNING = settled (state (tasks s2 nxt))) by (by destruct Hal as [-> | ->]).
  assert (Hrn : carried (tasks s2 nxt) (set_state TASK_RUNNING (tasks s2 nxt)) /\ state (set_state TASK_RUNNING (tasks s2 nxt)) = TASK_RUNNING)
    by (split; [by apply carried_state|done]).
  assert (Hrs : carried (tasks s2 nxt) (resumed (tasks s2 nxt)) /\ state (resumed (tasks s2 nxt)) = TASK_RUNNING)
    by (split; [by apply (carried_state _ TASK_RUNNING)|done]).
  destruct (Z.eqb_spec nxt cur) as [E|Hne].
  - rewrite <- E, (proj2 (Z.eqb_neq nxt 0)) by done. unfold is_dead.
    replace (_ || _) with false by (destruct Hal as [-> | ->]; done). cbn [negb andb].
    eexists _, Q'. split; [done|]. rewrite E at 2. eapply Hfin; [by apply core_dispatch| |done|exact Hrn|done].
    + simpl. rewrite Hct, E. symmetry. apply list_insert_id. unfold cur, curs.
      destruct (nth_lookup_or_length (current_task s) this 0) as [->|]; [done|lia].
  - rewrite (proj2 (Z.eqb_neq nxt 0)) by done.
    destruct (schedule_switch_spec this cur nxt sp s2 Q' S C0) as (s' & Hsw & Ks & Hcs & Hts & Hcc); try done.
    + by eapply outgoing_floating.
    + intros Hb Htp. destruct (Htk cur) as (_ & _ & _ & Eb & Et & _). rewrite Eb, Et in *.
      unfold parked in *. destruct (decide _); by apply Hsp.
    + exists s', Q'. split; [done|]. eapply Hfin; [done|by rewrite Hcs, Hct|done|exact Hrs|done].
Qed.

Lemma chosen_reap s s' this cur nxt Q Q' :
  (forall a, a ∈ Q this \/ a = cur -> tasks s' a = tasks s a) -> now_ns s' = now_ns s ->
  idle_task (rq_of this s') = idle_task (rq_of this s) -> chosen s' this cur nxt Q Q' -> chosen s this cur nxt Q Q'.
Proof.
  intros Ht Hnow Hi (Q1 & Hr & Hoth & Hnx). exists Q1. rewrite Hi in Hnx. split_and!; try done.
  unfold requeued, enqueued in *. rewrite Hi, Hnow, (Ht cur) in Hr by auto.
  destruct (decide _) as [Hd|Hd]; [|done]. destruct Hr as (l1 & l2 & Hl & HQ & H1 & H2).
  exists l1, l2. split_and!; try done.
  - apply Forall_forall. intros a Ha. rewrite Forall_forall in H1. specialize (H1 a Ha).
    rewrite Ht in H1; [done|]. left. rewrite Hl. apply elem_of_app. auto.
  - intros a Ha. specialize (H2 a Ha). rewrite Ht in H2; [done|]. left. rewrite Hl. apply elem_of_app. right.
    destruct l2; [done|]. injection Ha as ->. apply elem_of_cons. auto.
Qed.

Lemma schedule_spec this sp s Q S :
  at_schedule s Q S this sp ->
  exists s' s1 Q1 Q', schedule (Z.of_nat this) sp s = Some s' /\ sched_inv s' Q' S /\
    (Q1 = Q /\ (Q this <> [] -> s1 = bump DiagSchedule (Z.of_nat this) s) \/ exists p, stole s this Q Q1 p) /\
    chosen s1 this (curs s this) (curs s' this) Q1 Q' /\ (forall c, c <> this -> curs s' c = curs s c) /\
    (forall a, state (tasks s a) <> TASK_TERMINATED \/ (exists c, curs s c = a) -> carried (tasks s a) (tasks s' a)) /\
    state (tasks s' (curs s' this)) = TASK_RUNNING /\ cpu_count s' = cpu_count s /\
    (forall a, kept (tasks s a) (tasks s1 a)) /\ (forall d, idle_task (rq_of d s1) = idle_task (rq_of d s)) /\
    (forall a, prio_kept (tasks s a) (tasks s' a)).
Proof.
  intros [K Hlen Haw Hlt Hsp]. pose proof (k_cpus _ _ _ _ K) as Hcc. unfold MAX_CPUS in Hcc.
  assert (Ht : (this < 8)%nat) by lia. set (s0 := bump DiagSchedule (Z.of_nat this) s).
  assert (K0 : core s0 Q S (curs s)) by (by apply core_bump).
  destruct (schedule_steal_spec this s0 Q S (curs s) K0 Ht) as (s1 & Q1 & Hs1 & K1 & He1 & T1 & R1 & HQ1).
  destruct (schedule_reap_spec this s1 Q1 S (curs s) K1 Ht) as (s2 & Hs2 & K2 & He2 & _ & Hi2 & T2 & P2).
  assert (He : env s2 = env s) by (by rewrite He2, He1).
  assert (Hct : current_task s2 = current_task s) by (unfold env in He; congruence).
  assert (Hcs : forall c, curs s2 c = curs s c) by (intros c; unfold curs; by rewrite Hct).
  assert (A2 : at_schedule s2 Q1 S this sp).
  { constructor; [|by rewrite Hct| | |].
    - by eapply core_cur_ext.
    - intros c Hc. rewrite Hcs. by apply Haw.
    - unfold env in He. congruence.
    - rewrite Hcs, T2 by (right; by eauto). intros Hb Htp. destruct (T1 (curs s this)) as (_ & _ & _ & E1 & E2 & _).
      rewrite E1, E2 in *. by apply Hsp. }
  destruct (schedule_tail_spec this sp s2 Q1 S A2 Ht) as (s' & Q' & Hs' & I' & Hch & Hoth & Hcar & Hrun & Hcc').
  exists s', s1, Q1, Q'. split; [|split; [done|split; [done|split; [|split; [|split; [|split; [done|split; [unfold env in He; congruence|split; [exact T1|split; [apply R1|]]]]]]]]]].
  - unfold schedule. fold s0. rewrite Hs1. unfold mbind at 1, option_bind at 1. rewrite Hs2. exact Hs'.
  - rewrite <- (Hcs this). apply (chosen_reap s1 s2); [|unfold env in He2; congruence|apply Hi2|done].
    rewrite Hcs. intros a [Ha| ->]; apply T2; [left|right; by eauto].
    destruct (k_queued _ _ _ _ K1 this a Ht Ha) as (_ & E & _). congruence.
  - intros c Hc. rewrite <- Hcs. by apply Hoth.
  - intros a Ha. pose proof (kept_carried _ _ (T1 a)) as H1. etransitivity; [exact H1|].
    rewrite <- (T2 a); [apply Hcar|]. destruct (T1 a) as (_ & -> & _). done.
  - intros a. destruct (kept_carried _ _ (T1 a)) as (P1 & _). destruct (Hcar a) as (P3 & _).
    etransitivity; [exact P1|]. etransitivity; [apply P2|exact P3].
Qed.

End held.

End Dispatch.
