(* ===== verification/SchedCalls.v ===== *)
(** The scheduler's entry points keep the invariant: placement, removal,
    termination, migration, repositioning and rebalancing, for every policy that
    satisfies [PolicyOk]. *)

From S2P Require Import Prelude FreeList Buddy BuddyInv BuddyStep BuddySpec PmmSpec.
From S2P Require Import StealDeque Task Sys Sched TaskSleep Heuristic RunQueue SchedInv Dispatch.

Open Scope Z_scope.
Open Scope slm_scope.

Module SchedCalls.
Import Task Sys Sched RunQueue SchedInv Dispatch.

Section held.
Context {G : Ghost}.

(** What the scheduler relies on in a policy: placement names an existing CPU, not an
    isolated one while CPU 0 is not isolated, and changes nothing but the policy's cursor; the tick hook keeps the invariant. *)
Class PolicyOk (pol : policy) : Prop := {
  assign_ok : forall p s Q S C, core s Q S C ->
    exists t r, assign_cpu pol p s = Some (t, with_rr_next r s) /\ 0 <= t < cpu_count s /\
      (is_isolated 0 s = false -> is_isolated t s = false);
  tick_ok : forall cpu s Q S C, core s Q S C -> 0 <= cpu ->
    exists s' Q', policy_tick pol cpu s = Some s' /\ core s' Q' S C /\ env s' = env s /\ stk_same s s'
}.

(** ** Placement *)

Lemma push_ok d t g : StealDeque.deque_ok d -> StealDeque.deque_ok (StealDeque.steal_deque_push d t g).2.
Proof.
  intros Hd. destruct (decide (StealDeque.live d < 32)%nat) as [Hl|Hl].
  - destruct (StealDeque.push_view d t g Hd Hl) as (d' & -> & ? & _). done.
  - unfold StealDeque.steal_deque_push. rewrite <- StealDeque.live_Z by done.
    rewrite (proj2 (Z.leb_le _ _)) by (unfold StealDeque.STEAL_DEQUE_CAPACITY; lia). done.
Qed.

(** Changes of fields no invariant reads. *)
Lemma core_rr s Q S C r : core s Q S C -> core (with_rr_next r s) Q S C.
Proof. intros K. eapply core_irrel; try done. apply K. Qed.

Lemma core_count s Q S C n : core s Q S C -> core (with_task_count n s) Q S C.
Proof. intros K. eapply core_irrel; try done. apply K. Qed.

Lemma floating_rr s Q S C r p : floating s Q S C p -> floating (with_rr_next r s) Q S C p.
Proof. intros F. by eapply floating_ext; [done|done|apply F|]. Qed.

(** A READY task that is in no place joins the queue of [c]. *)
Lemma add_to_cpu_spec s Q S C p c :
  core s Q S C -> floating s Q S C p -> state (tasks s p) = TASK_READY -> Z.of_nat c < cpu_count s ->
  exists s' s1 l1 l2, scheduler_add_task_to_cpu p (Z.of_nat c) s = Some s' /\ Q c = l1 ++ l2 /\
    core s' (<[c := l1 ++ p :: l2]> Q) S C /\ env s' = env s /\ inserted s s1 (Z.of_nat c) p l1 l2 /\
    tasks s' = tasks s1 /\ rqs s' = rqs s1 /\ sleep_queue_head s' = sleep_queue_head s.
Proof.
  intros K F Hst Hc. pose proof (k_cpus _ _ _ _ K) as Hcc. unfold MAX_CPUS in Hcc.
  destruct (fl_table _ _ _ _ _ F) as [? ?]. unfold scheduler_add_task_to_cpu, deref.
  rewrite (proj2 (Z.eqb_neq p 0)), bool_decide_true, (proj2 (Z.leb_gt _ _)) by (done || lia). cbn [negb orb].
  destruct (core_add s Q S C c p K F Hst ltac:(lia)) as (s1 & l1 & l2 & -> & Hl & Hins & K1).
  unfold mbind, option_bind. cbv zeta. set (s2 := with_task_count _ s1).
  assert (K2 : core s2 (<[c := l1 ++ p :: l2]> Q) S C) by (by apply core_count).
  assert (He : env s2 = env s /\ sleep_queue_head s2 = sleep_queue_head s).
  { pose proof (f_rest _ _ _ (ins_frame _ _ _ _ _ _ Hins)) as E. unfold s2, env. simpl. by rewrite E. }
  destruct He as [He Hsl]. pose proof (cpu_deque_ok _ _ _ _ c K2 ltac:(lia)) as Hd.
  destruct (_ && _).
  - pose proof (push_ok (cpu_deque (Z.of_nat c) s2) p (generation (tasks s2 p)) Hd) as Hd'.
    destruct (StealDeque.steal_deque_push _ _ _) as [rc d]. simpl in Hd'.
    assert (K3 : core (set_deque (Z.of_nat c) d s2) (<[c := l1 ++ p :: l2]> Q) S C) by (by apply core_set_deque).
    eexists _, s1, l1, l2. split; [done|]. destruct (rc <? 0); split_and!; try done. by apply core_bump.
  - exists s2, s1, l1, l2. split_and!; done.
Qed.

(** [scheduler_add_task_to_cpu] on any task: an unready task or an absent CPU changes nothing. *)
Lemma add_to_cpu_ok s Q S C p cpu :
  core s Q S C -> 0 <= cpu -> (p <> 0 -> state (tasks s p) = TASK_READY -> floating s Q S C p) ->
  exists s' Q', scheduler_add_task_to_cpu p cpu s = Some s' /\ core s' Q' S C /\ env s' = env s /\
    (forall a, kept (tasks s a) (tasks s' a)) /\
    (p <> 0 -> state (tasks s p) = TASK_READY -> cpu < cpu_count s -> p ∈ Q' (Z.to_nat cpu)).
Proof.
  intros K Hcpu Hp. destruct (decide (p = 0)) as [->|Hnz]; [exists s, Q; split_and!; try done; intros a; apply kept_refl|].
  destruct (decide (state (tasks s p) = TASK_READY /\ cpu < cpu_count s)) as [[Hst Hlt]|Hno].
  - rewrite <- (Z2Nat.id cpu Hcpu). destruct (add_to_cpu_spec s Q S C p (Z.to_nat cpu) K (Hp Hnz Hst) Hst ltac:(lia))
      as (s' & s1 & l1 & l2 & Hadd & _ & K' & He & Hins & Ht & _). eexists s', _. split_and!; try done.
    + intros a. rewrite Ht. eapply inserted_kept; [done|congruence].
    + intros _ _ _. rewrite Nat2Z.id, fn_lookup_insert, elem_of_app, elem_of_cons. auto.
  - exists s, Q. split; [|split_and!; try done; tauto]. unfold scheduler_add_task_to_cpu, deref. rewrite (proj2 (Z.eqb_neq p 0)) by done.
    replace (_ || _) with true; [done|]. symmetry. apply orb_true_iff.
    destruct (bool_decide_reflect (state (tasks s p) = TASK_READY)); [right|by left].
    destruct (Z.leb_spec (cpu_count s) cpu); [done|tauto].
Qed.

(** [least_loaded_cpu] falls back or names a CPU that is not isolated. *)
Lemma least_loaded_loop_spec n c s acc :
  let '(b, _, _, _) := acc in
  let '(b', _, _, _) := least_loaded_loop n c s acc in
  b' = b \/ (c <= b' < c + Z.of_nat n /\ is_isolated b' s = false).
Proof.
  revert c acc. induction n as [|n IH]; intros c [[[b r] sum] k]; cbn [least_loaded_loop]; [by left|].
  destruct (is_isolated c s) eqn:Hi.
  - specialize (IH (c + 1) (b, r, sum, k)). simpl in IH.
    destruct (least_loaded_loop n (c + 1) s _) as [[[b' ?] ?] ?].
    destruct IH as [->|[? ?]]; [by left|right]. split; [lia|done].
  - destruct (_ <? r).
    + specialize (IH (c + 1) (c, ready_count (cpu_rq c s), sum +32 ready_count (cpu_rq c s), k +32 1)). simpl in IH.
      destruct (least_loaded_loop n (c + 1) s _) as [[[b' ?] ?] ?]. right.
      destruct IH as [->|[? ?]]; split; (lia || done).
    + specialize (IH (c + 1) (b, r, sum +32 ready_count (cpu_rq c s), k +32 1)). simpl in IH.
      destruct (least_loaded_loop n (c + 1) s _) as [[[b' ?] ?] ?].
      destruct IH as [->|[? ?]]; [by left|right]. split; [lia|done].
Qed.

(** The load-balance override keeps the target or moves it to a CPU that is not isolated. *)
Lemma balance_override_spec cfg target s :
  let r := balance_override cfg target s in
  r = target \/ (0 <= r < cpu_count s /\ is_isolated r s = false).
Proof.
  cbv zeta. unfold balance_override. destruct (_ && _ && _ && _); [|by left]. destruct (_ <=? _); [|by left].
  unfold least_loaded_cpu.
  pose proof (least_loaded_loop_spec (Z.to_nat (cpu_count s)) 0 s (target, UINT32_MAX, 0, 0)) as H.
  destruct (least_loaded_loop _ _ _ _) as [[[b ?] sum] n].
  destruct (_ && _); [|by left]. destruct (_ && _); [|by left]. destruct H as [->|[? ?]]; [by left|right].
  split; [lia|done].
Qed.

(** [p] joined the queue of CPU [c] and nothing else about the tasks changed. *)
Record placed (s s' : sys) (p : Z) (c : nat) (Q Q' : nat -> list Z) : Prop := {
  pl_cpu : Z.of_nat c < cpu_count s;
  pl_queue : exists l1 l2, Q c = l1 ++ l2 /\ Q' = <[c := l1 ++ p :: l2]> Q /\
    Forall (fun a => effective_priority (enqueued s (Z.of_nat c) p) <= effective_priority (tasks s a)) l1 /\
    (forall a, hd_error l2 = Some a -> effective_priority (tasks s a) < effective_priority (enqueued s (Z.of_nat c) p));
  pl_pinned : cpu_affinity (tasks s p) <> CPU_AFFINITY_ANY -> Z.of_nat c = cpu_affinity (tasks s p);
  pl_iso : cpu_affinity (tasks s p) = CPU_AFFINITY_ANY -> is_isolated 0 s = false -> is_isolated (Z.of_nat c) s = false;
  pl_env : env s' = env s;
  pl_head : sleep_queue_head s' = sleep_queue_head s;
  pl_rq : forall d, idle_task (rq_of d s') = idle_task (rq_of d s) /\ zombie (rq_of d s') = zombie (rq_of d s);
  pl_self : same_but_next (tasks s' p) (enqueued s (Z.of_nat c) p);
  pl_other : forall a, a <> p -> same_but_next (tasks s' a) (tasks s a)
}.

Lemma add_task_spec pol `{!PolicyOk pol} s Q S C p :
  core s Q S C -> floating s Q S C p -> state (tasks s p) = TASK_READY ->
  exists s' c Q', scheduler_add_task pol p s = Some s' /\ core s' Q' S C /\ placed s s' p c Q Q'.
Proof.
  intros K F Hst. destruct (core_tcb _ _ _ _ K p) as [Hpl _]. destruct (fl_table _ _ _ _ _ F) as [? ?]. pose proof (k_cpus _ _ _ _ K) as Hcc. unfold MAX_CPUS in Hcc.
  assert (Hgo : forall r c, 0 <= c < cpu_count s -> (cpu_affinity (tasks s p) <> CPU_AFFINITY_ANY -> c = cpu_affinity (tasks s p)) ->
    (cpu_affinity (tasks s p) = CPU_AFFINITY_ANY -> is_isolated 0 s = false -> is_isolated c s = false) ->
    exists s' c' Q', scheduler_add_task_to_cpu p c (with_rr_next r s) = Some s' /\ core s' Q' S C /\ placed s s' p c' Q Q').
  { intros r c Hc Hpin Hiso. rewrite <- (Z2Nat.id c) by lia.
    destruct (add_to_cpu_spec (with_rr_next r s) Q S C p (Z.to_nat c)) as (s' & s1 & l1 & l2 & Hadd & Hl & K' & He & Hins & Ht & Hrq & Hsl).
    - by apply core_rr.
    - by apply floating_rr.
    - done.
    - simpl. lia.
    - exists s', (Z.to_nat c), (<[Z.to_nat c := l1 ++ p :: l2]> Q). split_and!; try done. constructor; try done.
      + lia.
      + exists l1, l2. split_and!; try done; apply Hins.
      + intros Ha. rewrite Z2Nat.id by lia. by apply Hpin.
      + rewrite Z2Nat.id by lia. done.
      + intros d. replace (rq_of d s') with (rq_of d s1) by (unfold rq_of, cpu_rq; by rewrite Hrq).
        apply (rq_frame (with_rr_next r s) s1 (Z.of_nat (Z.to_nat c)) d), Hins.
      + rewrite Ht. apply Hins.
      + intros a Ha. rewrite Ht. by apply Hins. }
  unfold scheduler_add_task, deref. rewrite (proj2 (Z.eqb_neq p 0)), bool_decide_true by (done || lia). cbn [negb].
  destruct (Z.eqb_spec (cpu_affinity (tasks s p)) CPU_AFFINITY_ANY) as [Ha|Ha]; cbn [negb].
  - destruct (assign_ok p s Q S C K) as (t & r & -> & Ht & Hti). unfold mbind, option_bind.
    destruct (balance_override_spec sched_balance_config_defaults t (with_rr_next r s)) as [->|[Hr Hri]]; apply Hgo; done.
  - destruct Hpl as [?|Hpl]; [done|].
    pose proof (Hgo (rr_next s) _ Hpl ltac:(done) ltac:(done)) as Hr.
    by replace (with_rr_next (rr_next s) s) with s in Hr by (by destruct s).
Qed.

(** ** Removal and termination *)

(** [p] is in no run queue, or in the one of its assigned CPU. *)
Lemma queued_where s Q S C p c :
  core s Q S C -> (c < 8)%nat -> p ∈ Q c -> exists l1 l2, Q c = l1 ++ p :: l2 /\
    assigned_cpu (tasks s p) = Z.of_nat c /\ forall d, (d < 8)%nat -> d <> c -> p ∉ Q d.
Proof.
  intros K Hc Hin. destruct (k_queued _ _ _ _ K c p Hc Hin) as (_ & _ & Ha & _).
  apply list_elem_of_split in Hin as (l1 & l2 & Hl). exists l1, l2. split_and!; try done.
  intros d Hd Hne Hin'. destruct (k_queued _ _ _ _ K d p Hd Hin') as (_ & _ & Ha' & _). lia.
Qed.

(** The outcome of removing [p] from the queue of its CPU: it floats, or it was not queued
    there and nothing changed. *)
Lemma remove_from_spec s Q S C p c :
  core s Q S C -> (c < 8)%nat ->
  exists b s' Q', remove_from_cpu_queue_locked p (Z.of_nat c) s = Some (b, s') /\ core s' Q' S C /\ qmove s s' /\
    sleep_queue_head s' = sleep_queue_head s /\
    ((b = true /\ p ∈ Q c /\ floating s' Q' S C p) \/ (b = false /\ p ∉ Q c /\ s' = s /\ Q' = Q)).
Proof.
  intros K Hc. destruct (decide (p ∈ Q c)) as [Hin|Hnin].
  - destruct (queued_where _ _ _ _ _ _ K Hc Hin) as (l1 & l2 & Hl & _).
    destruct (core_remove _ _ _ _ _ _ _ _ K Hc Hl) as (s' & Hrem & Hr & K' & F).
    exists true, s', (<[c := l1 ++ l2]> Q). split_and!; auto.
    + eapply qframe_qmove; apply Hr.
    + pose proof (qframe_parts _ _ _ (rem_frame _ _ _ _ _ _ Hr)). tauto.
  - exists false, s, Q. split_and!; auto; [|done].
    eapply remove_queue_absent; [by apply K|by eapply queue_length|done].
Qed.

Lemma remove_task_ok s Q S C p :
  core s Q S C ->
  exists s' Q', scheduler_remove_task p s = Some s' /\ core s' Q' S C /\ env s' = env s.
Proof.
  intros K. destruct (core_tcb _ _ _ _ K p) as [_ [Ha _]]. unfold scheduler_remove_task, deref. destruct (p =? 0); [by exists s, Q|].
  pose proof (k_cpus _ _ _ _ K) as Hcc. unfold MAX_CPUS in Hcc.
  destruct (Z.leb_spec (cpu_count s) (assigned_cpu (tasks s p))) as [Hge|Hlt]; [by exists s, Q|].
  rewrite <- (Z2Nat.id _ Ha).
  destruct (remove_from_spec s Q S C p (Z.to_nat (assigned_cpu (tasks s p))) K ltac:(lia))
    as (b & s' & Q' & -> & K' & M & _). unfold mbind, option_bind. cbv beta iota.
  eexists _, Q'. split; [done|]. destruct b; [split; [by apply core_count|]|split; [done|]]; apply M.
Qed.

(** Changing the state of a task that is in no queue. *)
Lemma core_terminate s Q S C p :
  core s Q S C -> idle s p = false -> p ∉ S ++ waiters -> (forall c, (c < 8)%nat -> p ∉ Q c) ->
  core (upd p (set_state TASK_TERMINATED) s) Q S C.
Proof.
  intros K Hi [Hs Hw]%not_elem_of_app Hq. set (s' := upd p _ s).
  assert (Htp : tasks s' p = set_state TASK_TERMINATED (tasks s p)) by apply tasks_upd_eq.
  assert (Hta : forall a, a <> p -> tasks s' a = tasks s a) by (intros; by apply tasks_upd_ne).
  assert (Hip : idle s' p = false) by (unfold idle; rewrite Htp; exact Hi).
  eapply (core_resleep s s' Q S S C p); try done.
  - intros a Ha. by rewrite Hta.
  - by rewrite Htp.
  - rewrite Htp. by eapply (core_tcb s).
  - intros Hh. rewrite Htp. apply (k_ids _ _ _ _ K). unfold homed in *. by rewrite Hip, <- Hi in Hh.
  - eapply chain_frame; [apply K|]. intros a Ha. rewrite Hta; [done|]. by intros ->.
  - apply K.
  - rewrite Htp. done.
  - rewrite Htp. done.
Qed.

(** Unlinking does not read the state, so it commutes with terminating. *)
Lemma link_out_terminate s Q S C p c l1 l2 :
  core s Q S C -> (c < 8)%nat -> Q c = l1 ++ p :: l2 -> p ∉ S -> idle s p = false ->
  let s1 := upd p (set_state TASK_TERMINATED) s in
  exists s', remove_from_cpu_queue_locked p (Z.of_nat c) s1 = Some (true, s') /\
    core s' (<[c := l1 ++ l2]> Q) S C /\ env s' = env s /\ stk_same s s' /\
    floating s' (<[c := l1 ++ l2]> Q) S C p /\ state (tasks s' p) = TASK_TERMINATED.
Proof.
  intros K Hc Hl Hs Hi. cbv zeta. set (s1 := upd p _ s).
  pose proof (k_queues _ _ _ _ K c Hc) as Hq. pose proof (queue_length _ _ _ _ _ K Hc) as Hlen. rewrite Hl in Hq, Hlen.
  assert (Hn : forall a, links s1 a = links s a).
  { intros a. unfold links, s1. destruct (decide (a = p)) as [->|]; [by rewrite tasks_upd_eq|by rewrite tasks_upd_ne]. }
  assert (Hq1 : rq_repr s1 (Z.of_nat c) (l1 ++ p :: l2)) by (by eapply rq_repr_frame).
  destruct (core_remove _ _ _ _ _ _ _ _ K Hc Hl) as (s2 & Hrem & Hr & K2 & F2).
  rewrite (remove_as_link_out _ _ _ _ _ Hq Hlen) in Hrem. injection Hrem as <-.
  rewrite (remove_as_link_out _ _ _ _ _ Hq1 Hlen). eexists. split; [done|].
  set (b := default 0 (last l1)). set (s2 := link_out p (Z.of_nat c) b s) in *. set (s3 := link_out p (Z.of_nat c) b s1).
  assert (K3 : core (upd p (set_state TASK_TERMINATED) s2) (<[c := l1 ++ l2]> Q) S C)
    by (apply core_upd_floating; try done; by eapply (core_tcb s2)).
  assert (Hrest : rqs s3 = rqs s2 /\ deques s3 = deques s2 /\ cpu_count s3 = cpu_count s2 /\
    sleep_queue_head s3 = sleep_queue_head s2 /\ heap s3 = heap s2 /\ env s3 = env s).
  { assert (Hnp : next (tasks s1 p) = next (tasks s p)) by apply (Hn p).
    unfold s3, s2, link_out. rewrite Hnp. unfold relink, s1. by destruct (b =? 0). }
  destruct Hrest as (H1 & H2 & H3 & H4 & H5 & H6).
  assert (Hts : forall a, tasks s3 a = tasks (upd p (set_state TASK_TERMINATED) s2) a).
  { intros a. pose proof (q_chain _ _ _ Hq) as Hch. pose proof (q_chain _ _ _ Hq1) as Hch1.
    pose proof (link_out_tasks s1 p (Z.of_nat c) l1 l2 _ a Hch1 (q_nodup _ _ _ Hq1)) as E1.
    pose proof (link_out_tasks s p (Z.of_nat c) l1 l2 _ a Hch (q_nodup _ _ _ Hq)) as E2.
    fold b in E1, E2. fold s3 in E1. fold s2 in E2. rewrite E1. destruct (decide (a = p)) as [->|Ha].
    - rewrite tasks_upd_eq, E2. unfold s1. by rewrite tasks_upd_eq.
    - rewrite tasks_upd_ne, E2 by done. unfold s1. rewrite tasks_upd_eq, tasks_upd_ne by done. done. }
  assert (Hpp : tasks s3 p = set_state TASK_TERMINATED (tasks s2 p)) by (by rewrite Hts, tasks_upd_eq).
  split; [|split; [done|split; [|split; [|by rewrite Hpp]]]].
  3:{ eapply floating_ext; [exact F2| | |].
      - intros d. unfold rq_of, cpu_rq. by rewrite H1.
      - unfold idle. rewrite Hpp. apply F2.
      - by rewrite Hpp. }
  2:{ intros a. rewrite Hts. destruct (sbn_kept _ _ (rem_other _ _ _ _ _ _ Hr a)) as (_ & _ & _ & E1 & E2 & _).
      destruct (decide (a = p)) as [->|]; [by rewrite tasks_upd_eq|by rewrite tasks_upd_ne by done]. }
  eapply core_same; [exact K3| | | |intros a; by rewrite Hts..|intros a; rewrite Hts; by eapply core_tcb].
  - change (parts (upd p (set_state TASK_TERMINATED) s2)) with (parts s2). unfold parts. by rewrite H1, H3, H4.
  - unfold deques_ok. rewrite H2. apply K2.
  - exact H5.
Qed.

Lemma terminate_ok s Q S C p :
  core s Q S C -> (p <> 0 -> idle s p = false) -> p ∉ S ++ waiters ->
  exists s' Q', scheduler_terminate_task p s = Some s' /\ core s' Q' S C /\ env s' = env s /\ stk_same s s'.
Proof.
  intros K Hi Hs. destruct (core_tcb _ _ _ _ K p) as [_ [Ha _]]. unfold scheduler_terminate_task, deref.
  destruct (Z.eqb_spec p 0) as [->|Hp]; [by exists s, Q|]. specialize (Hi Hp). unfold idle in Hi. rewrite Hi. fold (idle s p) in Hi.
  pose proof (k_cpus _ _ _ _ K) as Hcc. unfold MAX_CPUS in Hcc.
  destruct (Z.leb_spec (cpu_count s) (assigned_cpu (tasks s p))) as [Hge|Hlt]; [by exists s, Q|].
  set (c := Z.to_nat (assigned_cpu (tasks s p))). assert (Hc : (c < 8)%nat) by (unfold c; lia).
  assert (Hac : assigned_cpu (tasks s p) = Z.of_nat c) by (unfold c; lia). rewrite Hac.
  assert (Hrem : exists b s1 Q1, remove_from_cpu_queue_locked p (Z.of_nat c) (upd p (set_state TASK_TERMINATED) s) = Some (b, s1) /\
    core s1 Q1 S C /\ env s1 = env s /\ stk_same s s1).
  { destruct (decide (p ∈ Q c)) as [Hin|Hnin].
    - destruct (queued_where _ _ _ _ _ _ K Hc Hin) as (l1 & l2 & Hl & _).
      destruct (link_out_terminate _ _ _ _ _ _ _ _ K Hc Hl (awake_asleep _ _ Hs) Hi) as (s1 & ? & ? & ? & ? & _). by exists true, s1, (<[c := l1 ++ l2]> Q).
    - assert (Hno : forall d, (d < 8)%nat -> p ∉ Q d).
      { intros d Hd Hin. destruct (queued_where _ _ _ _ _ _ K Hd Hin) as (_ & _ & _ & Ha' & _).
        assert (d = c) as -> by lia. done. }
      pose proof (core_terminate s Q S C p K Hi Hs Hno) as K1. exists false, (upd p (set_state TASK_TERMINATED) s), Q.
      split; [|split_and!; [done|done|by apply stk_same_upd]]. eapply remove_queue_absent; [by apply K1|by eapply queue_length|done]. }
  destruct Hrem as (b & s1 & Q1 & -> & K1 & He & Hsk). unfold mbind at 1, option_bind at 1. cbv beta iota zeta.
  set (s2 := if b then _ else s1).
  assert (K2 : core s2 Q1 S C) by (unfold s2; destruct b; [by apply core_count|done]).
  assert (He2 : env s2 = env s /\ stk_same s s2) by (unfold s2; by destruct b). destruct He2 as [He2 Hsk2].
  destruct (StealDeque.remove_loop_spec StealDeque.DEQUE_FUEL (cpu_deque (Z.of_nat c) s2) p 0) as (r & d & Hr & Hd & _).
  - by eapply cpu_deque_ok.
  - done.
  - lia.
  - pose proof (StealDeque.d_live _ (cpu_deque_ok _ _ _ _ _ K2 Hc)). unfold StealDeque.DEQUE_FUEL. lia.
  - apply not_elem_of_nil.
  - unfold StealDeque.steal_deque_remove. rewrite (proj2 (Z.eqb_neq p 0)) by done.
    rewrite Z.add_0_r, u32_small in Hr by (apply (StealDeque.d_top _ (cpu_deque_ok _ _ _ _ _ K2 Hc))).
    rewrite Hr. unfold mbind, option_bind. eexists _, Q1. split; [done|]. split; [by apply core_set_deque|done].
Qed.

(** ** Migration, affinity and repositioning *)

(** A task in no queue may be assigned to another CPU. *)
Lemma core_assign s Q S C p v :
  core s Q S C -> p <> 0 -> 0 <= v < MAX_CPUS -> idle s p = false -> (forall c, (c < 8)%nat -> p ∉ Q c) ->
  core (upd p (set_assigned_cpu v) s) Q S C.
Proof.
  intros K Hp0 Hv Hi Hq. set (s' := upd p _ s).
  assert (Htp : tasks s' p = set_assigned_cpu v (tasks s p)) by apply tasks_upd_eq.
  assert (Hta : forall a, a <> p -> tasks s' a = tasks s a) by (intros; by apply tasks_upd_ne).
  assert (Hip : idle s' p = false) by (unfold idle; rewrite Htp; exact Hi).
  eapply (core_resleep s s' Q S S C p); try done.
  - intros a Ha. by rewrite Hta.
  - by rewrite Htp.
  - rewrite Htp. split; [|done]. apply (core_tcb s Q S C K p).
  - intros Hh. rewrite Htp. apply (k_ids _ _ _ _ K). unfold homed in *. by rewrite Hip, <- Hi in Hh.
  - eapply chain_frame; [apply K|]. intros a Ha. destruct (decide (a = p)) as [->|]; [by rewrite Htp|by rewrite Hta].
  - apply K.
  - intros Hin. destruct (k_asleep _ _ _ _ K p Hin) as (? & ? & ?). by rewrite Htp.
  - intros Hw. rewrite Htp. by destruct (k_waiting _ _ _ _ K _ Hw) as (_ & ? & _ & ?).
  - intros c Hc Hz. rewrite Htp. split; [|done]. simpl. rewrite <- Hz. apply K; congruence.
  - intros c Hc. rewrite Htp. simpl. destruct (k_cur _ _ _ _ K c) as (_ & ? & ? & _); [congruence|]. by rewrite Hc in *.
Qed.

Lemma not_queued s Q S C p c :
  core s Q S C -> (c < 8)%nat -> assigned_cpu (tasks s p) = Z.of_nat c -> p ∉ Q c ->
  forall d, (d < 8)%nat -> p ∉ Q d.
Proof.
  intros K Hc Ha Hn d Hd Hin. destruct (queued_where _ _ _ _ _ _ K Hd Hin) as (_ & _ & _ & Ha' & _).
  assert (d = c) as -> by lia. done.
Qed.

Lemma migrate_ok s Q S C p target :
  core s Q S C -> 0 <= target -> (p <> 0 -> idle s p = false) ->
  exists rc s' Q', sched_migrate_task p target s = Some (rc, s') /\ core s' Q' S C /\ env s' = env s.
Proof.
  intros K Htg Hi. destruct (core_tcb _ _ _ _ K p) as [_ Ha]. unfold sched_migrate_task, deref. unfold MAX_CPUS in Ha.
  destruct (Z.eqb_spec p 0) as [->|Hp]; [by exists (-1), s, Q|]. specialize (Hi Hp).
  pose proof (k_cpus _ _ _ _ K) as Hcc. unfold MAX_CPUS in Hcc.
  destruct (Z.leb_spec (cpu_count s) target) as [|Hlt]; [by exists (-1), s, Q|].
  destruct (bool_decide (state (tasks s p) = TASK_RUNNING)); [by exists (-1), s, Q|].
  destruct (_ && _); [by exists (-1), s, Q|]. cbv zeta.
  destruct (Z.eqb_spec (assigned_cpu (tasks s p)) target); [by exists 0, s, Q|].
  set (c := Z.to_nat (assigned_cpu (tasks s p))).
  assert (Hac : assigned_cpu (tasks s p) = Z.of_nat c) by (unfold c; lia). rewrite Hac.
  assert (Hc : (c < 8)%nat) by lia.
  destruct (bool_decide_reflect (state (tasks s p) = TASK_READY)) as [Hst|Hst].
  - destruct (remove_from_spec s Q S C p c K Hc) as (b & s1 & Q1 & -> & K1 & M & _ & Hb).
    unfold mbind at 1, option_bind at 1. cbv beta iota. destruct Hb as [(-> & _ & F1)|(-> & Hn & -> & ->)].
    + destruct (core_add s1 Q1 S C (Z.to_nat target) p K1 F1) as (s2 & l1 & l2 & Hadd & _ & Hins & K2).
      * rewrite <- Hst. apply sbn_state, M.
      * lia.
      * rewrite Z2Nat.id in Hadd by lia. rewrite Hadd. unfold mbind, option_bind.
        eexists 0, s2, _. split; [done|]. split; [exact K2|]. rewrite <- (m_env _ _ M).
        unfold env. by rewrite (f_rest _ _ _ (ins_frame _ _ _ _ _ _ Hins)).
    + eexists 0, _, Q. split; [done|]. split; [|done]. apply core_assign; try done; [unfold MAX_CPUS; lia|].
      by eapply not_queued.
  - eexists 0, _, Q. split; [done|]. split; [|done]. apply core_assign; try done; [unfold MAX_CPUS; lia|].
    eapply not_queued; try done. intros Hin. by destruct (k_queued _ _ _ _ K c p Hc Hin) as (_ & ? & _).
Qed.

Lemma set_affinity_ok pol `{!PolicyOk pol} s Q S C p cpu :
  core s Q S C -> 0 <= cpu -> (p <> 0 -> idle s p = false) ->
  exists rc s' Q', sched_set_task_affinity pol p cpu s = Some (rc, s') /\ core s' Q' S C /\ env s' = env s.
Proof.
  intros K Hcpu Hi. unfold sched_set_task_affinity, deref.
  destruct (Z.eqb_spec p 0) as [->|Hp]; [by exists (-1), s, Q|].
  destruct (negb (cpu =? CPU_AFFINITY_ANY) && _) eqn:Hbad; [by exists (-1), s, Q|]. cbv zeta.
  assert (Hok : cpu = CPU_AFFINITY_ANY \/ 0 <= cpu < cpu_count s).
  { destruct (Z.eqb_spec cpu CPU_AFFINITY_ANY); [by left|right]. simpl in Hbad. apply Z.leb_gt in Hbad. lia. }
  clear Hbad. set (s1 := upd p (set_cpu_affinity cpu) s).
  assert (Htp : tasks s1 p = set_cpu_affinity cpu (tasks s p)) by apply tasks_upd_eq.
  assert (Hta : forall a, a <> p -> tasks s1 a = tasks s a) by (intros; by apply tasks_upd_ne).
  assert (K1 : core s1 Q S C).
  { eapply core_same; try done; [apply K|..]; intros a; destruct (decide (a = p)) as [->|];
      rewrite ?Htp, ?Hta by done; try done; [split; [done|]|]; by eapply (core_tcb s). }
  destruct (_ && _); [|by exists 0, s1, Q].
  assert (Has : exists t r, (if cpu =? CPU_AFFINITY_ANY then assign_cpu pol p s1 else Some (cpu, s1)) =
    Some (t, with_rr_next r s1) /\ 0 <= t).
  { destruct (cpu =? CPU_AFFINITY_ANY).
    - destruct (assign_ok p s1 Q S C K1) as (t & r & -> & Ht). exists t, r. split; [done|lia].
    - exists cpu, (rr_next s1). split; [|done]. by destruct s1. }
  destruct Has as (t & r & -> & Ht). unfold mbind at 1, option_bind at 1. cbv beta iota.
  destruct (negb _); [|by eexists 0, _, Q; split; [done|split; [by apply core_rr|done]]].
  destruct (migrate_ok (with_rr_next r s1) Q S C p t) as (rc & s2 & Q2 & -> & K2 & He2).
  - by apply core_rr.
  - done.
  - intros _. unfold idle. simpl. rewrite fn_lookup_insert. by apply Hi.
  - unfold mbind, option_bind. exists 0, s2, Q2. done.
Qed.

Lemma boost_other p s a : a <> p -> same_but_next (tasks (update_deadline_boost p s) a) (tasks s a).
Proof. intros Ha. unfold update_deadline_boost. destruct (p =? 0); [done|]. by rewrite tasks_upd_ne. Qed.

Lemma reposition_ok s Q S C p :
  core s Q S C ->
  exists s' Q', sched_reposition_task p s = Some s' /\ core s' Q' S C /\ env s' = env s /\
    (forall a, kept (tasks s a) (tasks s' a)) /\
    (forall d, idle_task (rq_of d s') = idle_task (rq_of d s) /\ zombie (rq_of d s') = zombie (rq_of d s)) /\
    (forall a, a <> p -> same_but_next (tasks s' a) (tasks s a)).
Proof.
  intros K. destruct (core_tcb _ _ _ _ K p) as [_ [Ha _]]. unfold sched_reposition_task, deref. destruct (Z.eqb_spec p 0) as [->|Hp]; [exists s, Q; by split_and!|].
  pose proof (k_cpus _ _ _ _ K) as Hcc. unfold MAX_CPUS in Hcc.
  destruct (Z.leb_spec (cpu_count s) (assigned_cpu (tasks s p))) as [|Hlt]; [exists s, Q; by split_and!|].
  set (c := Z.to_nat (assigned_cpu (tasks s p))).
  assert (Hac : assigned_cpu (tasks s p) = Z.of_nat c) by (unfold c; lia). rewrite Hac.
  assert (Hc : (c < 8)%nat) by lia. unfold reposition_locked.
  pose proof (k_queues _ _ _ _ K c Hc) as Hq. pose proof (queue_length _ _ _ _ _ K Hc) as Hlen.
  destruct (remove_walk_spec QUEUE_FUEL (tasks s) p 0 _ _ (q_chain _ _ _ Hq) ltac:(unfold QUEUE_FUEL; lia))
    as [[_ ->]|(l1 & l2 & Hl & _ & ->)]; unfold mbind, option_bind; cbv beta iota; [exists s, Q; by split_and!|].
  cbv zeta. set (s1 := update_deadline_boost p s).
  assert (Hin : p ∈ Q c) by (rewrite Hl, elem_of_app, elem_of_cons; auto).
  destruct (k_queued _ _ _ _ K c p Hc Hin) as (_ & Hst & _).
  destruct (boost_fields p s) as (Hq1 & He1 & Ht1); [congruence|]. fold s1 in Hq1, He1, Ht1.
  assert (Hr1 : forall d, rq_of d s1 = rq_of d s) by (intros d; unfold rq_of, cpu_rq; by rewrite Hq1).
  assert (K1 : core s1 Q S C) by (by apply core_boost).
  destruct (_ && _); [exists s1, Q; split_and!; try done; [intros d; by rewrite Hr1|intros a Hne; by apply boost_other]|].
  destruct (remove_from_spec s1 Q S C p c K1 Hc) as (b & s2 & Q2 & -> & K2 & M & _ & Hb).
  destruct Hb as [(-> & _ & F2)|(_ & Hn & _)]; [|done].
  assert (Hst2 : state (tasks s2 p) = TASK_READY).
  { rewrite (sbn_state _ _ (m_tasks _ _ M p)). by destruct (Ht1 p) as (_ & -> & _). }
  destruct (core_add s2 Q2 S C c p K2 F2 Hst2 Hc) as (s3 & m1 & m2 & -> & _ & Hins & K3).
  eexists s3, _. split; [done|]. split; [exact K3|]. split_and!.
  - rewrite <- He1, <- (m_env _ _ M). unfold env. by rewrite (f_rest _ _ _ (ins_frame _ _ _ _ _ _ Hins)).
  - intros a. eapply kept_trans; [apply Ht1|]. eapply kept_trans; [apply sbn_kept, M|].
    eapply inserted_kept; [done|congruence].
  - intros d. destruct (rq_frame s2 s3 (Z.of_nat c) d (ins_frame _ _ _ _ _ _ Hins)) as [-> ->].
    destruct (m_rq _ _ M d) as [-> ->]. by rewrite Hr1.
  - intros a Hne. transitivity (tasks s2 a); [by apply Hins|]. transitivity (tasks s1 a); [apply M|by apply boost_other].
Qed.

(** ** Rebalancing *)

Lemma busy_idle_loop_spec n i s acc :
  let '(b, d, _, _) := acc in
  let '(b', d', _, _) := busy_idle_loop n i s acc in
  (b' = b \/ i <= b' < i + Z.of_nat n) /\ (d' = d \/ i <= d' < i + Z.of_nat n).
Proof.
  revert i acc. induction n as [|n IH]; intros i [[[b d] mx] mn]; cbn [busy_idle_loop]; [by auto|].
  set (r := ready_count (cpu_rq i s)).
  destruct (mx <? r), (r <? mn);
    match goal with |- context [busy_idle_loop n (i + 1) s ?a] => specialize (IH (i + 1) a) end; simpl in IH;
    destruct (busy_idle_loop n (i + 1) s _) as [[[b' d'] ?] ?]; lia.
Qed.

Lemma find_migratable_spec fuel s idl h l :
  chain (links s) h l -> (length l < fuel)%nat ->
  exists r, find_migratable fuel s idl h = Some r /\
    (r = 0 \/ r ∈ l /\ cpu_affinity (tasks s r) = CPU_AFFINITY_ANY).
Proof.
  revert h l. induction fuel as [|fuel IH]; intros h l Hc Hf; [lia|]. cbn [find_migratable].
  destruct l as [|a l]; [simpl in Hc; subst; exists 0; auto|]. destruct Hc as (-> & Ha & Hc).
  rewrite (proj2 (Z.eqb_neq a 0)) by done.
  destruct (_ || _) eqn:E.
  - fold (links s a). destruct (IH _ _ Hc ltac:(simpl in Hf; lia)) as (r & -> & Hr). exists r. split; [done|].
    destruct Hr as [->|[? ?]]; [by left|right]. split; [apply elem_of_cons; auto|done].
  - rewrite !orb_false_iff, !negb_false_iff, Z.eqb_eq in E. destruct E as [[_ E] _].
    exists a. split; [done|]. right. split; [apply elem_of_cons; auto|done].
Qed.

Lemma rebalance_ok s Q S C cpu :
  core s Q S C ->
  exists s' Q', sched_rebalance_tick cpu s = Some s' /\ core s' Q' S C /\ env s' = env s /\ stk_same s s'.
Proof.
  intros K. unfold sched_rebalance_tick. destruct (negb (cpu =? 0)); [by exists s, Q|]. cbv zeta.
  set (s1 := with_rebalance_tick_counter _ s).
  assert (K1 : core s1 Q S C) by (by eapply core_irrel; try done; apply K).
  destruct (negb _); [by exists s1, Q|]. destruct (cpu_count s1 <? 2); [by exists s1, Q|].
  pose proof (k_cpus _ _ _ _ K1) as Hcc. unfold MAX_CPUS in Hcc.
  pose proof (busy_idle_loop_spec (Z.to_nat (cpu_count s1)) 0 s1 (0, 0, 0, UINT32_MAX)) as Hbi.
  destruct (busy_idle_loop _ _ _ _) as [[[busy idl] mx] mn]. destruct Hbi as [Hb Hd].
  destruct (busy =? idl); [by exists s1, Q|]. destruct (_ <? _); [by exists s1, Q|].
  set (c := Z.to_nat busy). assert (Hbz : busy = Z.of_nat c) by (unfold c; lia). rewrite Hbz.
  assert (Hc : (c < 8)%nat) by lia. pose proof (k_queues _ _ _ _ K1 c Hc) as Hq.
  pose proof (queue_length _ _ _ _ _ K1 Hc) as Hlen.
  destruct (find_migratable_spec QUEUE_FUEL s1 (idle_task (cpu_rq (Z.of_nat c) s1)) _ _ (q_chain _ _ _ Hq)
    ltac:(unfold QUEUE_FUEL; lia)) as (p & -> & Hp). unfold mbind at 1, option_bind at 1.
  destruct (Z.eqb_spec p 0) as [|Hp0]; [by exists s1, Q|]. destruct Hp as [?|[Hin _]]; [done|].
  destruct (remove_from_spec s1 Q S C p c K1 Hc) as (b & s2 & Q2 & -> & K2 & M & _ & Hrem).
  destruct Hrem as [(-> & _ & F2)|(_ & Hn & _)]; [|done]. unfold mbind at 1, option_bind at 1. cbv beta iota.
  set (s3 := upd p _ s2).
  assert (K3 : core s3 Q2 S C).
  { apply core_upd_floating; try done. split; simpl; [apply (core_tcb _ _ _ _ K2)|unfold MAX_CPUS; lia]. }
  assert (F3 : floating s3 Q2 S C p) by (apply floating_upd; [done|]; intros _; split; [exact (fl_idle _ _ _ _ _ F2)|done]).
  destruct (add_to_cpu_ok s3 Q2 S C p idl K3) as (s4 & Q4 & -> & K4 & He4 & Hsk4 & _); [lia|by intros _ _|].
  unfold mbind, option_bind. eexists _, Q4. split; [done|]. split; [|split].
  - by eapply core_irrel; try done; apply K4.
  - unfold env in *. simpl. rewrite He4. exact (m_env _ _ M).
  - transitivity s2; [exact (qmove_stk _ _ M)|]. transitivity s3; [by apply stk_same_upd|exact (kept_stk s3 s4 Hsk4)].
Qed.

(** ** The heuristic policy *)

Lemma pressure_total fuel s h l pr :
  chain (links s) h l -> (length l < fuel)%nat -> exists r, Heuristic.pressure_loop fuel s h pr = Some r.
Proof.
  revert h l pr. induction fuel as [|fuel IH]; intros h l pr Hc Hf; [lia|]. cbn [Heuristic.pressure_loop].
  destruct l as [|a l]; [simpl in Hc; subst; simpl; eauto|]. destruct Hc as (-> & Ha & Hc).
  rewrite (proj2 (Z.eqb_neq a 0)) by done. eapply IH; [done|]. simpl in Hf. lia.
Qed.

Lemma score_total s Q S C cpu :
  core s Q S C -> 0 <= cpu < cpu_count s -> exists r, Heuristic.cpu_score cpu s = Some r.
Proof.
  intros K Hc. pose proof (k_cpus _ _ _ _ K) as Hcc. unfold MAX_CPUS in Hcc.
  pose proof (k_queues _ _ _ _ K (Z.to_nat cpu) ltac:(lia)) as Hq. rewrite Z2Nat.id in Hq by lia.
  unfold Heuristic.cpu_score, Heuristic.calculate_deadline_pressure.
  destruct (pressure_total QUEUE_FUEL s _ _ 0 (q_chain _ _ _ Hq)) as [r ->].
  - pose proof (queue_length _ _ _ _ (Z.to_nat cpu) K ltac:(lia)). unfold QUEUE_FUEL. lia.
  - simpl. eauto.
Qed.

(** Both searches keep their fallback or return an existing CPU that is not isolated. *)
Lemma target_loop_spec n i start s Q S C b sc :
  core s Q S C ->
  exists r, Heuristic.target_loop n i start s b sc = Some r /\
    (r = b \/ 0 <= r < cpu_count s /\ is_isolated r s = false).
Proof.
  intros K. pose proof (k_cpus _ _ _ _ K) as Hcc. revert i b sc.
  induction n as [|n IH]; intros i b sc; cbn [Heuristic.target_loop]; [eauto|]. cbv zeta.
  pose proof (Z.mod_pos_bound (start +32 i) (cpu_count s) ltac:(lia)) as Hm.
  set (c := (start +32 i) mod cpu_count s) in *. destruct (is_isolated c s) eqn:Hi; [apply IH|].
  destruct (score_total s Q S C c K Hm) as [sco ->]. unfold mbind, option_bind.
  destruct (sco <? sc); [|apply IH]. destruct (IH (i + 1) c sco) as (r & -> & [->|?]); eauto.
Qed.

Lemma performance_loop_spec n c s Q S C b sc fnd :
  core s Q S C -> 0 <= c -> c + Z.of_nat n <= cpu_count s ->
  exists r f, Heuristic.performance_loop n c s b sc fnd = Some (r, f) /\
    (r = b /\ f = fnd \/ 0 <= r < cpu_count s /\ is_isolated r s = false).
Proof.
  intros K. revert c b sc fnd. induction n as [|n IH]; intros c b sc fnd Hc Hn; cbn [Heuristic.performance_loop]; [eauto 6|].
  destruct (is_isolated c s) eqn:Hi; [apply IH; lia|].
  destruct (score_total s Q S C c K ltac:(lia)) as [sco ->]. unfold mbind, option_bind.
  destruct (sco <? sc); [|apply IH; lia].
  destruct (IH (c + 1) c sco true ltac:(lia) ltac:(lia)) as (r & f & -> & [[-> ->]|?]); [|eauto].
  exists c, true. split; [done|]. right. split; [lia|done].
Qed.

(** The heuristic policy picks an existing CPU; with CPU 0 not isolated, one that is not isolated. *)
Lemma heuristic_assign_spec p s Q S C :
  core s Q S C ->
  exists t r, Heuristic.heuristic_assign_cpu p s = Some (t, with_rr_next r s) /\ 0 <= t < cpu_count s /\
    (is_isolated 0 s = false -> is_isolated t s = false).
Proof.
  intros K. pose proof (k_cpus _ _ _ _ K) as Hcc.
  assert (Ht : exists t r, Heuristic.find_target_cpu s = Some (t, with_rr_next r s) /\ 0 <= t < cpu_count s /\
    (is_isolated 0 s = false -> is_isolated t s = false)).
  { unfold Heuristic.find_target_cpu.
    destruct (target_loop_spec (Z.to_nat (cpu_count s)) 0 (rr_next s) s Q S C 0 UINT32_MAX K) as (r & -> & Hr).
    unfold mbind, option_bind. exists r, (r +32 1). split; [done|]. destruct Hr as [->|[? ?]]; split; (done || lia). }
  unfold Heuristic.heuristic_assign_cpu. destruct (0 <? _); [|done]. unfold Heuristic.find_performance_cpu.
  assert (Hsame : s = with_rr_next (rr_next s) s) by (by destruct s).
  destruct (Z.leb_spec (cpu_count s) 1).
  - exists 0, (rr_next s). split; [by rewrite <- Hsame|]. split; [lia|done].
  - destruct (performance_loop_spec (Z.to_nat (cpu_count s) - 1) 1 s Q S C 0 UINT32_MAX false K ltac:(lia) ltac:(lia))
      as (r & f & -> & Hr). unfold mbind, option_bind. destruct f; cbn [negb]; [|done].
    destruct Hr as [[_ ?]|[? ?]]; [done|]. exists r, (rr_next s). rewrite <- Hsame. done.
Qed.

#[export] Instance heuristic_ok : PolicyOk Heuristic.sched_policy_heuristic.
Proof.
  constructor.
  - intros p s Q S C K. destruct (heuristic_assign_spec p s Q S C K) as (t & r & ? & ? & ?). eauto.
  - intros cpu s Q S C K _. by apply (rebalance_ok s Q S C).
Qed.

End held.

End SchedCalls.
