(* ===== verification/SchedSleep.v ===== *)
(** The sleep queue and the timer tick: going to sleep, waking exactly the expired
    sleepers, early wake-up, and the invariant across all of them. *)

From S2P Require Import Prelude FreeList Buddy BuddyInv BuddyStep BuddySpec PmmSpec.
From S2P Require Import StealDeque Task Sys Sched TaskSleep Heuristic RunQueue SchedInv Dispatch SchedCalls.

Open Scope Z_scope.
Open Scope slm_scope.

Module SchedSleep.
Import Task Sys Sched TaskSleep RunQueue SchedInv Dispatch SchedCalls.

Section held.
Context {G : Ghost}.

(** ** Flags *)

Lemma land_1 x : Z.land x 1 = Z.b2z (Z.odd x).
Proof. change 1 with (Z.ones 1) at 1. rewrite Z.land_ones by lia. change (2 ^ 1) with 2. rewrite Zmod_odd. by destruct (Z.odd x). Qed.

(** The wake-up flag does not touch the idle flag. *)
Lemma idle_clear_pending t v :
  is_idle_task (Some (set_flags (Z.ldiff (flags t) TASK_FLAG_WAKEUP_PENDING) (set_wake_time_ns v t))) = is_idle_task (Some t) /\
  is_idle_task (Some (set_flags (Z.ldiff (flags t) TASK_FLAG_WAKEUP_PENDING) t)) = is_idle_task (Some t) /\
  is_idle_task (Some (set_flags (Z.lor (flags t) TASK_FLAG_WAKEUP_PENDING) t)) = is_idle_task (Some t).
Proof.
  unfold is_idle_task. simpl. change TASK_FLAG_IDLE with 1. change TASK_FLAG_WAKEUP_PENDING with 2. rewrite !land_1.
  rewrite <- !Z.bit0_odd, Z.ldiff_spec, Z.lor_spec. change (Z.testbit 2 0) with false.
  by rewrite andb_true_r, orb_false_r.
Qed.

(** ** Going to sleep *)

(** The running task of [this] joins the sleep queue. *)
Lemma core_block s s' Q S C p t :
  core s Q S C -> in_table p -> idle s p = false -> p ∉ S -> state (tasks s p) = TASK_RUNNING ->
  rqs s' = rqs s -> deques s' = deques s -> cpu_count s' = cpu_count s -> heap s' = heap s ->
  sleep_queue_head s' = p -> tasks s' p = t -> (forall a, a <> p -> tasks s' a = tasks s a) ->
  state t = TASK_BLOCKED -> sleep_next t = sleep_queue_head s -> stack_base t = stack_base (tasks s p) ->
  flags t = flags (tasks s p) -> tcb_ok (cpu_count s) t -> id t <> 0 ->
  core s' Q (p :: S) C.
Proof.
  intros K Ht Hi Hs Hrun Hq Hd Hc Hh Hsl Htp Hta F1 F2 F3 F4 F5 F6.
  assert (Hip : idle s' p = false) by (unfold idle, is_idle_task; rewrite Htp, F4; exact Hi).
  assert (Hp0 : p <> 0) by (destruct Ht; lia).
  eapply (core_resleep s s' Q S (p :: S) C p); try done.
  - intros a Ha. by rewrite Hta.
  - by rewrite Htp.
  - by rewrite Htp.
  - intros _. by rewrite Htp.
  - simpl. rewrite Hsl, Htp, F2. split_and!; try done. eapply chain_frame; [apply K|].
    intros a Ha. by rewrite Hta by congruence.
  - apply NoDup_cons. split; [done|apply K].
  - intros a. rewrite elem_of_cons. tauto.
  - intros _. rewrite Htp. done.
  - intros c Hc8 Hin. destruct (k_queued _ _ _ _ K c p Hc8 Hin) as (_ & E & _). congruence.
  - intros Hw. destruct (k_waiting _ _ _ _ K _ Hw) as (_ & E & _). congruence.
  - intros c Hc8 Hz. destruct (k_zombie _ _ _ _ K c Hc8) as (_ & E & _); [congruence|]. congruence.
  - intros c Hcp. rewrite Htp, F1. done.
Qed.

(** [task_sleep_ms] either returns at once, having consumed a pending wake-up, or the
    running task has joined the sleep queue. *)
Lemma sleep_enqueue_spec this ms sp s Q S :
  sched_inv s Q S -> Z.of_nat this < cpu_count s -> sp_ok (tasks s (curs s this)) sp ->
  (curs s this <> 0 -> state (tasks s (curs s this)) = TASK_RUNNING /\ idle s (curs s this) = false) ->
  exists b s', sleep_enqueue (Z.of_nat this) ms s = (b, s') /\ env s' = env s /\
    (forall a, same_but_next (tasks s' a) (tasks s a) \/ a = curs s this) /\
    if b then at_schedule s' Q (curs s this :: S) this sp else sched_inv s' Q S.
Proof.
  intros [K Hlen Haw] Hlt Hsp Hrun. pose proof (k_cpus _ _ _ _ K) as Hcc. unfold MAX_CPUS in Hcc.
  unfold sleep_enqueue. destruct (ms =? 0); [exists false, s; split_and!; auto; by constructor|].
  destruct (timer_freq s =? 0); [exists false, s; split_and!; auto; by constructor|].
  rewrite current_curs by lia. set (cur := curs s this) in *. cbv zeta.
  destruct (Z.eqb_spec cur 0) as [Hz|Hz]; [exists false, s; split_and!; auto; by constructor|].
  destruct (Hrun Hz) as [Hr Hi]. destruct (k_cur _ _ _ _ K this Hz) as (Htab & _). fold cur in Htab.
  destruct (negb _).
  - eexists false, _. split; [done|]. set (s' := upd cur _ s).
    split; [done|]. split; [intros a; destruct (decide (a = cur)); [by right|left; unfold s'; by rewrite tasks_upd_ne by done]|].
    constructor; [|done|done]. change (curs s') with (curs s). eapply core_same; try done; [apply K|..];
      intros a; unfold s'; (destruct (decide (a = cur)) as [->|]; [rewrite tasks_upd_eq|by rewrite tasks_upd_ne; try done; eapply core_tcb]).
    + unfold view. by rewrite (proj1 (proj2 (idle_clear_pending (tasks s cur) 0))).
    + done.
    + by eapply (core_tcb s).
  - eexists true, _. split; [done|]. unfold sleep_queue_add_locked.
    set (dl := timer_count s +64 _). set (s' := upd cur (set_state TASK_BLOCKED) _).
    assert (Hoth : forall a, a <> cur -> tasks s' a = tasks s a) by (intros a Ha; unfold s'; simpl; by rewrite !fn_lookup_insert_ne by done).
    split; [done|]. split; [intros a; destruct (decide (a = cur)); [by right|left; by rewrite Hoth]|].
    assert (Htp : tasks s' cur = set_state TASK_BLOCKED (set_sleep_next (sleep_queue_head s) (set_wake_time_ns dl (tasks s cur)))).
    { unfold s'. simpl. by rewrite !fn_lookup_insert. }
    constructor; try done.
    + eapply (core_block s s' Q S (curs s) cur); try done; [by apply awake_asleep, Haw|by eapply (core_tcb s)|].
      apply (k_ids _ _ _ _ K). do 2 right. left. by exists this.
    + intros c Hc. simpl. rewrite elem_of_cons. intros [E|Hin]; [|by apply (Haw c)].
      by apply Hc, eq_sym, (k_cur_inj _ _ _ _ K).
    + change (curs s' this) with cur. by rewrite Htp.
Qed.

(** ** Waking the expired sleepers *)

(** Same up to the sleep link. *)
Definition same_but_sleep (t t' : task) : Prop := set_sleep_next 0 t = set_sleep_next 0 t'.

#[export] Instance same_but_sleep_equiv : Equivalence same_but_sleep.
Proof. split; unfold same_but_sleep; congruence. Qed.

Lemma sbs_fields t t' : same_but_sleep t t' ->
  state t = state t' /\ wake_time_ns t = wake_time_ns t' /\ view_awake t = view_awake t'.
Proof.
  intros H. split_and!; [by apply (f_equal state) in H|by apply (f_equal wake_time_ns) in H|].
  by apply (f_equal view_awake) in H.
Qed.

Definition expired (s : sys) (now a : Z) : bool := wake_time_ns (tasks s a) <=? now.

(** Tasks taken off the sleep queue and linked into the private list [W]. *)
Record collected (s : sys) (Q : nat -> list Z) (S : list Z) (C : nat -> Z) (w : Z) (W : list Z) : Prop := {
  co_chain : chain (fun a => sleep_next (tasks s a)) w W;
  co_nodup : NoDup W;
  co_float : forall a, a ∈ W -> floating s Q S C a
}.

(** One step of the scan: an expired sleeper moves to the private list. *)
Lemma collect_step s Q S1 p S2 C w W :
  core s Q (S1 ++ p :: S2) C -> (forall c, C c ∉ S1 ++ p :: S2) -> collected s Q (S1 ++ p :: S2) C w W ->
  let s' := unsleep (default 0 (last S1)) p (set_sleep_next w) s in
  core s' Q (S1 ++ S2) C /\ collected s' Q (S1 ++ S2) C p (p :: W) /\ env s' = env s /\
  (forall a, same_but_sleep (tasks s' a) (tasks s a)).
Proof.
  intros K HC [Hw Hnd Hfl]. cbv zeta.
  assert (Hin : p ∈ S1 ++ p :: S2) by (rewrite elem_of_app, elem_of_cons; auto).
  destruct (core_unsleep s Q S1 p S2 C (set_sleep_next w) K) as (K' & F' & Htp & He & Hoth).
  { intros c E. apply (HC c). by rewrite E. }
  { done. }
  set (s' := unsleep _ _ _ _) in *.
  assert (Hne : forall a, a ∈ W -> a <> p /\ a ∉ S1) .
  { intros a Ha. pose proof (fl_sleep _ _ _ _ _ (Hfl a Ha)) as Hns. split; intros E; apply Hns; [by subst|].
    apply elem_of_app. auto. }
  assert (Heq : forall a, a ∈ W -> tasks s' a = tasks s a).
  { intros a Ha. destruct (Hne a Ha) as [Hap Ha1]. unfold s'. rewrite unsleep_tasks.
    - rewrite decide_False by done. rewrite decide_False; [done|]. intros [-> Hb].
      destruct (last S1) as [b|] eqn:El; simpl in *; [|done]. by apply Ha1, last_Some_elem_of.
    - pose proof (k_snodup _ _ _ _ K) as Hn. intros E. destruct (last S1) as [b|] eqn:El; simpl in E.
      + subst b. apply last_Some_elem_of in El. apply NoDup_app in Hn as (_ & Hd & _).
        apply (Hd p El), elem_of_cons. auto.
      + destruct (fl_table _ _ _ _ _ F'). lia. }
  split; [done|]. split; [|split; [done|]].
  - constructor.
    + cbn [chain]. rewrite Htp. split_and!; [done|destruct (fl_table _ _ _ _ _ F'); lia|]. cbn [sleep_next set_sleep_next].
      eapply chain_frame; [done|]. intros a Ha. by rewrite Heq.
    + apply NoDup_cons. split; [|done]. intros Hp. by destruct (Hne p Hp).
    + intros a [->|Ha]%elem_of_cons; [done|]. destruct (Hfl a Ha) as [H1 H2 Hid H3 H4 Hwtr H5 H6]. constructor; try done.
      * unfold idle. by rewrite Heq.
      * by rewrite Heq.
      * intros Hs. apply H4. rewrite elem_of_app, elem_of_cons in *. tauto.
      * intros c Hc. replace (rq_of c s') with (rq_of c s); [by apply H6|].
        unfold s', unsleep, rq_of, cpu_rq. by destruct (_ =? 0).
  - intros a. destruct (decide (a = p)) as [->|Ha]; [by rewrite Htp|]. by apply Hoth.
Qed.

(** The scan leaves the sleepers that are not due, in order, and collects the others. *)
Lemma collect_expired_spec fuel now s Q S1 S2 C w W :
  core s Q (S1 ++ S2) C -> (forall c, C c ∉ S1 ++ S2) -> collected s Q (S1 ++ S2) C w W -> (length S2 < fuel)%nat ->
  exists w' s', collect_expired fuel now (default 0 (last S1)) (default 0 (hd_error S2)) w s = Some (w', s') /\
    let R := filter (fun a => expired s now a = false) S2 in
    core s' Q (S1 ++ R) C /\
    collected s' Q (S1 ++ R) C w' (reverse (filter (fun a => expired s now a = true) S2) ++ W) /\
    env s' = env s /\ (forall a, same_but_sleep (tasks s' a) (tasks s a)).
Proof.
  revert s S1 S2 w W. induction fuel as [|fuel IH]; intros s S1 S2 w W K HC Hco Hf; [lia|]. cbn [collect_expired].
  destruct S2 as [|p S2]; simpl; [exists w, s; by split_and!|].
  assert (Hp : p ∈ S1 ++ p :: S2) by (rewrite elem_of_app, elem_of_cons; auto).
  destruct (sleep_places _ _ _ _ _ K Hp) as [_ Hp0]. rewrite (proj2 (Z.eqb_neq p 0)) by done.
  pose proof (k_chain _ _ _ _ K) as Hch. apply chain_app in Hch as (x & _ & -> & _ & Hch).
  apply chain_head in Hch. fold (expired s now p). rewrite !filter_cons. simpl in Hf. destruct (expired s now p) eqn:He; simpl.
  - destruct (collect_step s Q S1 p S2 C w W K HC Hco) as (K1 & Hco1 & He1 & Ht1).
    fold (unsleep (default 0 (last S1)) p (set_sleep_next w) s). rewrite Hch.
    set (s1 := unsleep _ _ _ _) in *.
    assert (Hex : forall a, expired s1 now a = expired s now a).
    { intros a. unfold expired. by destruct (sbs_fields _ _ (Ht1 a)) as (_ & -> & _). }
    destruct (IH s1 S1 S2 p (p :: W) K1) as (w' & s' & -> & K' & Hco' & He' & Ht').
    + intros c Hin. apply (HC c). rewrite elem_of_app, elem_of_cons in *. tauto.
    + done.
    + lia.
    + assert (Hf1 : forall b, filter (fun a => expired s1 now a = b) S2 = filter (fun a => expired s now a = b) S2).
      { intros b. apply list_filter_iff. intros a. by rewrite Hex. }
      exists w', s'. rewrite !Hf1 in *. split_and!; try done.
      * by rewrite reverse_cons, <- app_assoc.
      * by rewrite He'.
      * intros a. by transitivity (tasks s1 a).
  - rewrite Hch. replace (S1 ++ p :: S2) with ((S1 ++ [p]) ++ S2) in * by (by rewrite <- app_assoc).
    destruct (IH s (S1 ++ [p]) S2 w W K HC Hco ltac:(lia)) as (w' & s' & Hc & K' & Hco' & He' & Ht').
    rewrite last_snoc in Hc. simpl in Hc. exists w', s'. rewrite <- app_assoc in K', Hco'. by split_and!.
Qed.

Definition woken (t : task) : task := set_state TASK_READY (set_wake_time_ns 0 (set_sleep_next 0 t)).

(** The queues after the tasks [W] have been placed. *)
Record woke (s s' : sys) (Q Q' : nat -> list Z) (W : list Z) : Prop := {
  wk_env : env s' = env s;
  wk_in : forall a, a ∈ W -> exists c, Z.of_nat c < cpu_count s /\ a ∈ Q' c;
  wk_rest : forall c a, (c < 8)%nat -> a ∉ W -> a ∈ Q' c <-> a ∈ Q c;
  wk_time : forall a, a ∈ W -> wake_time_ns (tasks s' a) = 0;
  wk_other : forall a, a ∉ W -> same_but_next (tasks s' a) (tasks s a)
}.

Lemma placed_in s s' p c Q Q' : placed s s' p c Q Q' ->
  p ∈ Q' c /\ forall d a, a <> p -> a ∈ Q' d <-> a ∈ Q d.
Proof.
  intros P. destruct (pl_queue _ _ _ _ _ _ P) as (l1 & l2 & Hl & -> & _). split.
  - rewrite fn_lookup_insert, elem_of_app, elem_of_cons. auto.
  - intros d a Ha. destruct (decide (d = c)) as [->|]; [|by rewrite fn_lookup_insert_ne].
    rewrite fn_lookup_insert, Hl, !elem_of_app, elem_of_cons. tauto.
Qed.

(** Waking one floating task. *)
Lemma wake_first pol `{!PolicyOk pol} s Q S C p :
  core s Q S C -> floating s Q S C p ->
  exists s' c Q', scheduler_add_task pol p (upd p woken s) = Some s' /\ core s' Q' S C /\
    placed (upd p woken s) s' p c Q Q' /\ wake_time_ns (tasks s' p) = 0.
Proof.
  intros K F. assert (K1 : core (upd p woken s) Q S C) by (apply core_upd_floating; try done; by eapply (core_tcb s)).
  assert (F1 : floating (upd p woken s) Q S C p) by (apply floating_upd; [done|]; intros _; split; [exact (fl_idle _ _ _ _ _ F)|done]).
  destruct (add_task_spec pol _ Q S C p K1 F1) as (s' & c & Q' & Hadd & K' & P).
  { by rewrite tasks_upd_eq. }
  exists s', c, Q'. split_and!; try done.
  pose proof (pl_self _ _ _ _ _ _ P) as E. apply (f_equal wake_time_ns) in E. simpl in E. rewrite E.
  unfold enqueued. rewrite deadline_boost_only. simpl. by rewrite fn_lookup_insert.
Qed.

Lemma wake_list_spec pol `{!PolicyOk pol} fuel w W s Q S C :
  core s Q S C -> collected s Q S C w W -> (length W < fuel)%nat ->
  exists s' Q', wake_list fuel pol w s = Some s' /\ core s' Q' S C /\ woke s s' Q Q' W.
Proof.
  revert w W s Q. induction fuel as [|fuel IH]; intros w W s Q K [Hch Hnd Hfl] Hf; [lia|]. cbn [wake_list].
  destruct W as [|p W]; cbn [chain] in Hch.
  { subst w. exists s, Q. split_and!; try done. constructor; try done.
    - intros a Ha. by apply not_elem_of_nil in Ha.
    - intros a Ha. by apply not_elem_of_nil in Ha. }
  destruct Hch as (-> & Hp0 & Hch). rewrite (proj2 (Z.eqb_neq p 0)) by done. apply NoDup_cons in Hnd as [HpW Hnd].
  assert (F : floating s Q S C p) by (apply Hfl, elem_of_cons; auto).
  destruct (wake_first pol s Q S C p K F) as (s1 & c & Q1 & Hadd & K1 & P & Hwt). cbv zeta. fold woken.
  rewrite Hadd. unfold mbind, option_bind. destruct (placed_in _ _ _ _ _ _ P) as [Hpc Hsame].
  assert (Hne : forall a, a ∈ W -> a <> p) by (intros a Ha ->; done).
  assert (Hoth : forall a, a <> p -> same_but_next (tasks s1 a) (tasks s a)).
  { intros a Ha. rewrite <- (tasks_upd_ne p a woken s) by done. by apply P. }
  destruct (IH (sleep_next (tasks s p)) W s1 Q1 K1) as (s' & Q' & -> & K' & [E I R T O]).
  - constructor; [|done|].
    + eapply chain_frame; [done|]. intros a Ha. by apply sbn_sleep, Hoth, Hne.
    + intros a Ha. destruct (Hfl a ltac:(apply elem_of_cons; auto)) as [H1 H2 Hid H3 H4 Hwtr H5 H6]. constructor; try done.
      * rewrite <- H2. by apply kept_idle, sbn_kept, Hoth, Hne.
      * destruct (sbn_kept _ _ (Hoth a (Hne a Ha))) as (_ & _ & _ & _ & _ & _ & -> & _). done.
      * intros d Hd Hin. apply Hsame in Hin; [|by apply Hne]. by apply (H3 d).
      * intros d Hd. rewrite (proj2 (pl_rq _ _ _ _ _ _ P d)). by apply H6.
  - simpl in Hf. lia.
  - assert (Hcc : cpu_count s1 = cpu_count s) by (pose proof (pl_env _ _ _ _ _ _ P) as E1; unfold env in E1; simpl in E1; congruence).
    assert (Hp8 : (c < 8)%nat) by (pose proof (pl_cpu _ _ _ _ _ _ P); pose proof (k_cpus _ _ _ _ K); unfold MAX_CPUS in *; simpl in *; lia).
    exists s', Q'. split_and!; try done. constructor.
    + by rewrite E, (pl_env _ _ _ _ _ _ P).
    + intros a [->|Ha]%elem_of_cons; [|rewrite <- Hcc; by apply I].
      exists c. split; [apply (pl_cpu _ _ _ _ _ _ P)|]. by apply R.
    + intros d a Hd [Hap Ha]%not_elem_of_cons. rewrite (R d a Hd Ha). by apply Hsame.
    + intros a [->|Ha]%elem_of_cons; [|by apply T].
      rewrite <- Hwt. pose proof (O p HpW) as E1. by apply (f_equal wake_time_ns) in E1.
    + intros a [Hap Ha]%not_elem_of_cons. transitivity (tasks s1 a); [by apply O|by apply Hoth].
Qed.

(** [task_wake_sleepers]: the sleepers that are due leave the sleep queue for run queues. *)
Lemma wake_sleepers_spec pol `{!PolicyOk pol} s Q S :
  sched_inv s Q S ->
  let R := filter (fun a => expired s (timer_count s) a = false) S in
  let W := reverse (filter (fun a => expired s (timer_count s) a = true) S) in
  exists s1 s' Q', task_wake_sleepers pol s = Some s' /\ sched_inv s' Q' R /\
    (forall a, same_but_sleep (tasks s1 a) (tasks s a)) /\ env s1 = env s /\ woke s1 s' Q Q' W.
Proof.
  intros [K Hlen Haw]. cbv zeta. unfold task_wake_sleepers.
  assert (Hl : (length S < QUEUE_FUEL)%nat).
  { pose proof (k_snodup _ _ _ _ K) as Hnd. apply (NoDup_range_length S 1 65) in Hnd; [unfold QUEUE_FUEL; lia|].
    intros a Ha. destruct (k_asleep _ _ _ _ K a Ha) as ([? ?] & _). unfold MAX_TASKS in *. lia. }
  assert (Hco : collected s Q ([] ++ S) (curs s) 0 []).
  { constructor; [done|by apply NoDup_nil|]. intros a Ha. by apply not_elem_of_nil in Ha. }
  destruct (collect_expired_spec QUEUE_FUEL (timer_count s) s Q [] S (curs s) 0 [] K (fun c => awake_asleep _ _ (Haw c)) Hco Hl)
    as (w & s1 & Hc & K1 & Hco1 & He1 & Ht1). cbn [app] in K1, Hco1.
  rewrite app_nil_r in Hco1. change (default 0 (last [])) with 0 in Hc.
  rewrite (chain_head _ _ _ (k_chain _ _ _ _ K)), Hc. unfold mbind, option_bind.
  destruct (wake_list_spec pol QUEUE_FUEL w _ s1 Q _ (curs s) K1 Hco1) as (s' & Q' & Hw & K' & Wk).
  { rewrite length_reverse. eapply Nat.le_lt_trans; [apply length_filter|done]. }
  assert (Hct : current_task s' = current_task s) by (pose proof (wk_env _ _ _ _ _ Wk) as E; unfold env in *; congruence).
  exists s1, s', Q'. split_and!; try done. constructor.
  - eapply core_cur_ext; [done|]. intros c. unfold curs. by rewrite Hct.
  - by rewrite Hct.
  - intros c. specialize (Haw c). unfold curs in *. rewrite Hct, elem_of_app, list_elem_of_filter in *. tauto.
Qed.

(** ** Early wake-up *)

Lemma unlink_sleeper_spec fuel p s Q S1 S2 C :
  core s Q (S1 ++ S2) C -> p ∉ S1 -> (length S2 < fuel)%nat ->
  (p ∉ S2 /\ unlink_sleeper fuel p (default 0 (last S1)) (default 0 (hd_error S2)) s = Some (false, s)) \/
  (exists R1 R2, S1 ++ S2 = R1 ++ p :: R2 /\
     unlink_sleeper fuel p (default 0 (last S1)) (default 0 (hd_error S2)) s =
       Some (true, unsleep (default 0 (last R1)) p woken s)).
Proof.
  revert S1 S2. induction fuel as [|fuel IH]; intros S1 S2 K Hp Hf; [lia|]. cbn [unlink_sleeper].
  destruct S2 as [|a S2]; [left; split; [apply not_elem_of_nil|done]|]. change (default 0 (hd_error (a :: S2))) with a.
  assert (Ha : a ∈ S1 ++ a :: S2) by (rewrite elem_of_app, elem_of_cons; auto).
  destruct (sleep_places _ _ _ _ _ K Ha) as [_ Ha0]. rewrite (proj2 (Z.eqb_neq a 0)) by done.
  pose proof (k_chain _ _ _ _ K) as Hch. apply chain_app in Hch as (x & _ & -> & _ & Hch). apply chain_head in Hch.
  destruct (Z.eqb_spec a p) as [->|Hne]; [right; by exists S1, S2|].
  rewrite Hch. replace (S1 ++ a :: S2) with ((S1 ++ [a]) ++ S2) in * by (by rewrite <- app_assoc).
  destruct (IH (S1 ++ [a]) S2 K) as [[Hn E]|(R1 & R2 & HR & E)].
  - rewrite elem_of_app, list_elem_of_singleton. intros [?|?]; [done|congruence].
  - simpl in Hf. lia.
  - left. rewrite last_snoc in E. split; [|exact E]. rewrite elem_of_cons. intros [?|?]; [congruence|done].
  - right. exists R1, R2. rewrite last_snoc in E. done.
Qed.

Lemma sched_inv_env s s' Q Q' S :
  sched_inv s Q S -> core s' Q' S (curs s) -> env s' = env s -> sched_inv s' Q' S.
Proof.
  intros [K Hlen Haw] K' He. assert (Hct : current_task s' = current_task s) by (unfold env in He; congruence).
  assert (Hcs : forall c, curs s' c = curs s c) by (intros c; unfold curs; by rewrite Hct).
  constructor; [by eapply core_cur_ext|by rewrite Hct|]. intros c. by rewrite Hcs.
Qed.

(** [task_sleep_wake] moves a sleeper to a run queue, or leaves a pending wake-up. *)
Lemma sleep_wake_spec pol `{!PolicyOk pol} p s Q S :
  sched_inv s Q S ->
  exists s' Q' S', task_sleep_wake pol p s = Some s' /\ sched_inv s' Q' S' /\ env s' = env s /\
    (p ∈ S -> exists R1 R2 c, S = R1 ++ p :: R2 /\ S' = R1 ++ R2 /\ Z.of_nat c < cpu_count s /\ p ∈ Q' c) /\
    (p ∉ S -> Q' = Q /\ S' = S /\ (p <> 0 -> Z.testbit (flags (tasks s' p)) 1 = true)).
Proof.
  intros I. pose proof I as [K Hlen Haw]. unfold task_sleep_wake. destruct (Z.eqb_spec p 0) as [->|Hp0].
  { exists s, Q, S. split_and!; try done. intros Hin. by destruct (sleep_places _ _ _ _ _ K Hin). }
  assert (Hl : (length S < QUEUE_FUEL)%nat).
  { pose proof (k_snodup _ _ _ _ K) as Hnd. apply (NoDup_range_length S 1 65) in Hnd; [unfold QUEUE_FUEL; lia|].
    intros a Ha. destruct (k_asleep _ _ _ _ K a Ha) as ([? ?] & _). unfold MAX_TASKS in *. lia. }
  rewrite (chain_head _ _ _ (k_chain _ _ _ _ K)).
  destruct (unlink_sleeper_spec QUEUE_FUEL p s Q [] S (curs s) K (not_elem_of_nil _) Hl) as [[Hn E]|(R1 & R2 & HR & E)];
    change (default 0 (last [])) with 0 in E; rewrite E; unfold mbind at 1, option_bind at 1; cbv beta iota.
  - set (s' := upd p _ s). exists s', Q, S.
    assert (Htp : tasks s' p = set_flags (Z.lor (flags (tasks s p)) TASK_FLAG_WAKEUP_PENDING) (tasks s p)) by (unfold s'; by rewrite tasks_upd_eq).
    split; [done|]. split; [|split; [done|split; [done|]]].
    + apply (sched_inv_env s s' Q); try done. eapply core_same; try done; [apply K|..];
        intros a; (destruct (decide (a = p)) as [->|]; [rewrite Htp|by unfold s'; rewrite tasks_upd_ne; try done; eapply core_tcb]).
      * unfold view. by rewrite (proj2 (proj2 (idle_clear_pending (tasks s p) 0))).
      * done.
      * by eapply (core_tcb s).
    + intros _. split_and!; try done. intros _. rewrite Htp. cbn [flags set_flags].
      rewrite Z.lor_spec. apply orb_true_r.
  - simpl in HR. subst S. assert (Hin : p ∈ R1 ++ p :: R2) by (rewrite elem_of_app, elem_of_cons; auto).
    destruct (core_unsleep s Q R1 p R2 (curs s) woken K) as (K1 & F1 & Htp & He1 & _).
    + intros c Hc. apply (awake_asleep _ _ (Haw c)). by rewrite Hc.
    + done.
    + set (s1 := unsleep _ _ _ _) in *.
      destruct (add_task_spec pol s1 Q (R1 ++ R2) (curs s) p K1 F1) as (s2 & c & Q2 & -> & K2 & P); [by rewrite Htp|].
      assert (He2 : env s2 = env s) by (by rewrite (pl_env _ _ _ _ _ _ P)).
      assert (Hct : current_task s2 = current_task s) by (unfold env in He2; congruence).
      assert (Hcs : forall c, curs s2 c = curs s c) by (intros d; unfold curs; by rewrite Hct).
      exists s2, Q2, (R1 ++ R2). split_and!; try done.
      * constructor; [by eapply core_cur_ext|by rewrite Hct|]. intros d. rewrite Hcs. intros Hd.
        apply (Haw d). rewrite !elem_of_app, elem_of_cons in *. tauto.
      * intros _. exists R1, R2, c. 
        assert (Hcc : cpu_count s1 = cpu_count s) by (unfold env in He1; congruence).
        destruct (placed_in _ _ _ _ _ _ P) as [? _]. pose proof (pl_cpu _ _ _ _ _ _ P). rewrite <- Hcc. done.
Qed.

(** ** Calls that end in [schedule] *)

Lemma at_schedule_of s Q S this sp :
  sched_inv s Q S -> Z.of_nat this < cpu_count s -> sp_ok (tasks s (curs s this)) sp -> at_schedule s Q S this sp.
Proof. intros [] ? ?. constructor; auto. Qed.

Lemma schedule_ok this sp s Q S :
  at_schedule s Q S this sp -> exists s' Q', schedule (Z.of_nat this) sp s = Some s' /\ sched_inv s' Q' S.
Proof. intros A. destruct (schedule_spec this sp s Q S A) as (s' & _ & _ & Q' & ? & ? & _). eauto. Qed.

Lemma task_sleep_ms_ok this sp ms s Q S :
  sched_inv s Q S -> Z.of_nat this < cpu_count s -> sp_ok (tasks s (curs s this)) sp ->
  (curs s this <> 0 -> state (tasks s (curs s this)) = TASK_RUNNING /\ idle s (curs s this) = false) ->
  exists s' Q' S', task_sleep_ms (Z.of_nat this) sp ms s = Some s' /\ sched_inv s' Q' S'.
Proof.
  intros I Hlt Hsp Hrun. destruct (sleep_enqueue_spec this ms sp s Q S I Hlt Hsp Hrun) as (b & s1 & E & _ & _ & H).
  unfold task_sleep_ms. rewrite E. destruct b; [|eauto].
  destruct (schedule_ok _ _ _ _ _ H) as (s' & Q' & ? & ?). eauto.
Qed.

Lemma sp_stk s s' p sp : stk_same s s' -> sp_ok (tasks s p) sp -> sp_ok (tasks s' p) sp.
Proof. intros H Hs. unfold sp_ok. destruct (H p) as [-> ->]. exact Hs. Qed.

Lemma task_exit_ok this sp s Q S :
  sched_inv s Q S -> Z.of_nat this < cpu_count s -> sp_ok (tasks s (curs s this)) sp ->
  (curs s this <> 0 -> idle s (curs s this) = false) ->
  exists s' Q', task_exit (Z.of_nat this) sp s = Some s' /\ sched_inv s' Q' S.
Proof.
  intros I Hlt Hsp Hi. pose proof I as [K Hlen Haw]. pose proof (k_cpus _ _ _ _ K) as Hcc. unfold MAX_CPUS in Hcc.
  unfold task_exit. rewrite current_curs by lia.
  destruct (terminate_ok s Q S (curs s) (curs s this) K Hi (Haw this)) as (s1 & Q1 & -> & K1 & He1 & Hs1).
  pose proof (sched_inv_env _ _ _ _ _ I K1 He1) as I1.
  assert (Hct : curs s1 this = curs s this /\ cpu_count s1 = cpu_count s) by (unfold env in He1; unfold curs; split; congruence).
  destruct Hct as [Hc1 Hcc1]. unfold mbind, option_bind. eapply schedule_ok, at_schedule_of; [done|by rewrite Hcc1|].
  rewrite Hc1. by eapply sp_stk.
Qed.

Lemma tick_spec pol `{!PolicyOk pol} this sp s Q S :
  sched_inv s Q S -> Z.of_nat this < cpu_count s -> sp_ok (tasks s (curs s this)) sp ->
  exists s' Q', scheduler_tick pol (Z.of_nat this) sp s = Some s' /\
    sched_inv s' Q' (filter (fun a => expired s (timer_count s) a = false) S).
Proof.
  intros I Hlt Hsp. unfold scheduler_tick.
  destruct (wake_sleepers_spec pol s Q S I) as (s0 & s1 & Q1 & -> & I1 & Hsb & He0 & Wk). unfold mbind at 1, option_bind at 1.
  assert (He1 : env s1 = env s) by (by rewrite (wk_env _ _ _ _ _ Wk)).
  set (s2 := bump DiagTick _ _). pose proof I1 as [K1 _ _].
  assert (K2 : core s2 Q1 _ (curs s1)) by (apply core_bump; eapply core_irrel; try done; apply K1).
  destruct (tick_ok (Z.of_nat this) s2 Q1 _ (curs s1) K2 ltac:(lia)) as (s3 & Q3 & -> & K3 & He3 & Hs3).
  assert (I3 : sched_inv s3 Q3 (filter (fun a => expired s (timer_count s) a = false) S)) by (by eapply sched_inv_env).
  unfold mbind, option_bind. destruct (negb _); [eauto|].
  assert (Hct : curs s3 this = curs s this /\ curs s1 this = curs s this /\ cpu_count s3 = cpu_count s).
  { change (env s2) with (env s1) in He3. unfold env in He1, He3. unfold curs. split_and!; congruence. }
  destruct Hct as (Hc3 & Hc1 & Hcc3). eapply schedule_ok, at_schedule_of; [done|by rewrite Hcc3|].
  rewrite Hc3. eapply sp_stk; [exact Hs3|]. change (tasks s2) with (tasks s1).
  assert (HnW : curs s this ∉ reverse (filter (fun a => expired s (timer_count s) a = true) S)).
  { intros Hin. rewrite elem_of_reverse in Hin. apply list_elem_of_filter in Hin as [_ Hin]. destruct I as [_ _ Haw]. by apply (awake_asleep _ _ (Haw this)). }
  pose proof (wk_other _ _ _ _ _ Wk _ HnW) as E1. pose proof (Hsb (curs s this)) as E2.
  intros Hb Ht. apply (f_equal (fun t => (stack_base t, stack_top t))) in E1, E2. simpl in E1, E2.
  injection E1 as Eb Et. injection E2 as Eb2 Et2. rewrite Eb, Et, Eb2, Et2 in *. by apply Hsp.
Qed.

End held.

End SchedSleep.
