(* ===== verification/TaskLife.v ===== *)
(** Task creation and destruction under the scheduler's invariant.

    A slot of the task table whose id is 0 is in none of the scheduler's places, so the
    slot that [alloc_task_slot] returns can be filled; the new task is [floating] until
    it is added to a run queue.  Its stack is a block the allocator has just handed out,
    disjoint from all other stacks. *)

From S2P Require Import Prelude FreeList Buddy BuddyInv BuddyStep BuddySpec PmmSpec.
From S2P Require Import StealDeque Task Sys Sched RunQueue SchedInv Dispatch.

Open Scope Z_scope.
Open Scope slm_scope.

Module TaskLife.
Import Task Sys Sched RunQueue SchedInv Dispatch.

Section held.
Context {G : Ghost}.

(** ** Free slots *)

Lemma alloc_slot_loop_spec n i s :
  let p := alloc_slot_loop n i s in
  (p = 0 /\ forall k, (i <= k < i + n)%nat -> id (tasks s (slot_ptr k)) <> 0) \/
  (slot_ptr i <= p < slot_ptr (i + n) /\ id (tasks s p) = 0 /\
   forall q, slot_ptr i <= q < p -> id (tasks s q) <> 0).
Proof.
  revert i. induction n as [|n IH]; intros i; cbn [alloc_slot_loop]; [left; split; [done|lia]|].
  destruct (Z.eqb_spec (id (tasks s (slot_ptr i))) 0) as [E|E].
  - right. unfold slot_ptr. split_and!; [lia|lia|done|lia].
  - destruct (IH (S i)) as [[Hz Hk]|(Hr & Hp & Hq)].
    + left. split; [done|]. intros k Hk'. destruct (decide (k = i)) as [->|]; [done|]. apply Hk. lia.
    + right. unfold slot_ptr in *. split_and!; [lia|lia|done|]. intros q Hq'.
      destruct (decide (q = Z.of_nat (S i))) as [->|]; [done|]. apply Hq. lia.
Qed.

(** The slot [alloc_task_slot] finds is the first unused one of the table. *)
Lemma alloc_task_slot_spec s :
  (alloc_task_slot s = 0 /\ forall p, in_table p -> id (tasks s p) <> 0) \/
  (in_table (alloc_task_slot s) /\ id (tasks s (alloc_task_slot s)) = 0 /\
   forall q, 1 <= q < alloc_task_slot s -> id (tasks s q) <> 0).
Proof.
  unfold alloc_task_slot, in_table, MAX_TASKS. destruct (alloc_slot_loop_spec (Z.to_nat 64) 0 s) as [[Hz Hk]|(Hr & Hp & Hq)].
  - left. split; [done|]. intros p Hp. specialize (Hk (Z.to_nat (p - 1)) ltac:(lia)).
    replace (slot_ptr (Z.to_nat (p - 1))) with p in Hk by (unfold slot_ptr; lia). done.
  - right. unfold slot_ptr in *. split_and!; [lia|lia|done|]. intros q ?. apply Hq. lia.
Qed.

(** An unused slot is in none of the places. *)
Lemma unused_loose s Q S C p :
  core s Q S C -> p <> 0 -> id (tasks s p) = 0 -> loose s Q S C p /\ idle s p = false.
Proof.
  intros K Hp Hid. assert (Hn : ~ homed s Q S C p) by (intros Hh; by apply (k_ids _ _ _ _ K p Hh)).
  unfold homed in Hn. rewrite elem_of_app in Hn. split; [split_and!|].
  - intros c Hc. split; intros H; apply Hn; [left; by exists c|do 4 right; by exists c].
  - tauto.
  - intros c H. apply Hn. do 2 right. left. by exists c.
  - tauto.
  - destruct (idle s p); tauto.
Qed.

(** ** Filling a slot *)

(** The TCB of a task that has just been created. *)
Record fresh_tcb (t t0 : task) (tid : Z) : Prop := {
  ft_id : id t = tid;
  ft_state : state t = TASK_READY;
  ft_next : next t = 0;
  ft_affinity : cpu_affinity t = CPU_AFFINITY_ANY;
  ft_cpu : assigned_cpu t = 0;
  ft_flags : flags t = flags t0
}.

Lemma core_fill s s' Q S C p tid :
  core s Q S C -> in_table p -> id (tasks s p) = 0 -> tid <> 0 -> parts s' = parts s -> deques s' = deques s ->
  (forall a, a <> p -> tasks s' a = tasks s a) -> fresh_tcb (tasks s' p) (tasks s p) tid ->
  stacks_ok (cpu_count s) (heap s') (tasks s') -> core s' Q S C /\ floating s' Q S C p.
Proof.
  intros K Ht Hid Htid Hp Hd Hoth [Fid Fst _ _ _ Ffl] Hss. pose proof Ht as [? ?].
  destruct (unused_loose s Q S C p K ltac:(lia) Hid) as [L Hi].
  assert (Hi' : idle s' p = false) by (unfold idle, is_idle_task in *; by rewrite Ffl).
  assert (Hrq : forall c, rq_of c s' = rq_of c s) by (injection Hp as Hq _ _; intros c; unfold rq_of, cpu_rq; by rewrite Hq).
  split.
  - apply (core_ext (fun a => a = p) s); try done.
    + intros a. destruct (decide (a = p)); auto.
    + intros a ->. split_and!; [apply L..|congruence|congruence].
    + intros a Ha. by rewrite Hoth.
    + unfold deques_ok. rewrite Hd. apply K.
  - destruct L as (L1 & L2 & L3 & L4). constructor; try done.
    + congruence.
    + intros c Hc. by apply L1.
    + intros c Hc. rewrite Hrq. by apply L1.
Qed.

(** The table after a block has been handed out for the stack of slot [p]. *)
Lemma stacks_alloc n h h' a ts ts' p :
  stacks_ok n h ts -> BuddyInv.inv h' -> BuddySpec.allocated h h' STACK_ORDER a -> tcb_ok n (ts' p) ->
  stack_base (ts' p) = a -> (forall q, q <> p -> ts' q = ts q) -> stacks_ok n h' ts'.
Proof.
  intros [H0 _ Hheld Hdisj Hbl Hcl Hsp] Hinv (Ha & Hlo & Hhi & Hfr & Hf & Hs & He & _) Htc Hb Hoth.
  assert (Hsep : forall o b x, BuddySpec.is_allocated h o b -> BuddyInv.in_block b o x -> ~ BuddyInv.in_block a STACK_ORDER x).
  { intros o b x (_ & _ & _ & Hnf) Hx Hax. by apply (Hnf x), Hfr. }
  assert (Hstay : forall o b, BuddySpec.is_allocated h o b -> BuddySpec.is_allocated h' o b).
  { intros o b Hob. eapply alloc_frame; [done|done|done|]. intros x _. rewrite Hf. tauto. }
  constructor; try done.
  - intros q. destruct (decide (q = p)) as [->|Hq]; [done|]. by rewrite Hoth.
  - intros q Hq Hn. destruct (decide (q = p)) as [->|Hqp].
    + rewrite Hb. split_and!; [done|by rewrite Hs|by rewrite He|]. intros x Hx. rewrite Hf. tauto.
    + rewrite Hoth in * by done. auto.
  - intros q r x Hq Hr Hn Hm. destruct (decide (q = p)) as [->|Hqp], (decide (r = p)) as [->|Hrp]; try done;
      rewrite ?(Hoth q), ?(Hoth r), ?Hb in * by done; intros H1 H2.
    + by destruct (Hsep _ _ x (Hheld r Hr Hm)).
    + by destruct (Hsep _ _ x (Hheld q Hq Hn)).
    + by apply (Hdisj q r x).
  - auto.
  - intros q o b x Hq Hn Hin. destruct (decide (q = p)) as [->|Hqp].
    + rewrite Hb. intros Hx Hbx. by apply (Hsep o b x (Hbl o b Hin)).
    + rewrite Hoth in * by done. by apply Hcl.
Qed.

(** The heap may change under the tasks as long as their stacks stay allocated. *)
Lemma stacks_heap n h h' ts :
  stacks_ok n h ts -> BuddyInv.inv h' -> (forall x, BuddyInv.is_free h' x -> BuddyInv.is_free h x) ->
  Buddy.heap_start h' = Buddy.heap_start h -> Buddy.heap_end h' = Buddy.heap_end h -> stacks_ok n h' ts.
Proof.
  intros [H0 _ Hheld Hdisj Hbl Hcl Hsp] Hinv Hf Hs He. constructor; try done.
  - intros p Hp Hn. eapply alloc_frame; [by apply Hheld|done|done|auto].
  - intros o a Ha. eapply alloc_frame; [by apply Hbl|done|done|auto].
Qed.

(** ** Creation *)

(** Slot [p] of the table has been filled by a creation. *)
Record filled (s s' : sys) (p : Z) : Prop := {
  cr_table : in_table p;
  cr_unused : id (tasks s p) = 0;
  cr_first : forall q, 1 <= q < p -> id (tasks s q) <> 0;
  cr_tcb : fresh_tcb (tasks s' p) (tasks s p) (next_task_id s);
  cr_other : forall q, q <> p -> tasks s' q = tasks s q;
  cr_next : next_task_id s' = next_task_id s +32 1
}.

Lemma fresh_tcb_ok n t t0 tid : fresh_tcb t t0 tid -> tcb_ok n t.
Proof. intros []. split; [by left|]. rewrite ft_cpu0. unfold MAX_CPUS. lia. Qed.

Lemma create_init_fresh s p h wrapper nm entry arg pr stack :
  let s' := upd p (task_create_init wrapper nm entry arg pr stack) (claim_slot p (with_heap h s)) in
  fresh_tcb (tasks s' p) (tasks s p) (next_task_id s) /\ stack_base (tasks s' p) = stack /\
  stack_top (tasks s' p) = stack +64 STACK_SIZE /\ (forall q, q <> p -> tasks s' q = tasks s q).
Proof.
  cbv zeta. unfold claim_slot. rewrite !tasks_upd_eq. split_and!; try done.
  intros q Hq. by rewrite !tasks_upd_ne by done.
Qed.

Lemma alloc_init_fresh s p nm pr :
  let s' := upd p (task_alloc_init nm pr) (claim_slot p s) in
  fresh_tcb (tasks s' p) (tasks s p) (next_task_id s) /\ stack_base (tasks s' p) = 0 /\
  (forall q, q <> p -> tasks s' q = tasks s q).
Proof.
  cbv zeta. unfold claim_slot. rewrite !tasks_upd_eq. split_and!; try done.
  intros q Hq. by rewrite !tasks_upd_ne by done.
Qed.

(** [task_alloc]: no stack yet. *)
Lemma task_alloc_spec nm pr s Q S C :
  core s Q S C -> next_task_id s <> 0 ->
  exists p s', task_alloc nm pr s = (p, s') /\ core s' Q S C /\ env s' = env s /\
    (p = 0 /\ s' = s /\ (forall q, in_table q -> id (tasks s q) <> 0) \/ filled s s' p /\ floating s' Q S C p).
Proof.
  intros K Hid. unfold task_alloc. cbv zeta. destruct (alloc_task_slot_spec s) as [[Hz Hfull]|(Ht & Hun & Hfst)].
  - rewrite Hz. exists 0, s. split_and!; auto.
  - set (p := alloc_task_slot s) in *. pose proof Ht as [? ?]. rewrite (proj2 (Z.eqb_neq p 0)) by lia.
    destruct (alloc_init_fresh s p nm (clamp_priority pr)) as (Hfr & Hb & Hoth). set (s' := upd p _ _) in *.
    destruct (core_fill s s' Q S C p (next_task_id s)) as [K' F']; try done.
    { destruct (k_stacks _ _ _ _ K) as [S0 S1 S2 S3 S4 S5 S6]. change (heap s') with (heap s).
      assert (Hnz : forall q, stack_base (tasks s' q) <> 0 -> q <> p) by (intros q Hq ->; done).
      constructor; try done.
      - intros q. destruct (decide (q = p)) as [->|]; [by eapply fresh_tcb_ok|by rewrite Hoth].
      - intros q Hq Hn. pose proof (Hnz q Hn). rewrite Hoth in * by done. auto.
      - intros q r x Hq Hr Hn Hm. pose proof (Hnz q Hn). pose proof (Hnz r Hm). rewrite !Hoth in * by done. by apply S3.
      - intros q o b x Hq Hn. pose proof (Hnz q Hn). rewrite Hoth in * by done. by apply S5. }
    exists p, s'. split_and!; try done. right. split; [by constructor|done].
Qed.

(** [task_create_with_priority]: the stack comes from the page allocator and goes back
    to it when the table is full. *)
Lemma task_create_table wrapper nm entry arg pr n s :
  stacks_ok n (heap s) (tasks s) ->
  exists p s', task_create_with_priority wrapper nm entry arg pr s = Some (p, s') /\ stacks_ok n (heap s') (tasks s') /\
    env s' = env s /\ parts s' = parts s /\ deques s' = deques s /\
    ((p = 0 /\ tasks s' = tasks s /\ (forall x, BuddyInv.is_free (heap s') x <-> BuddyInv.is_free (heap s) x) /\
       next_task_id s' = next_task_id s /\
       (BuddySpec.exhausted (heap s) STACK_ORDER \/ forall q, in_table q -> id (tasks s q) <> 0)) \/
     (filled s s' p /\ BuddySpec.allocated (heap s) (heap s') STACK_ORDER (stack_base (tasks s' p)) /\
       stack_top (tasks s' p) = stack_base (tasks s' p) +64 STACK_SIZE)).
Proof.
  intros Hss. pose proof (stk_inv _ _ _ Hss) as Hinv.
  destruct (PmmSpec.alloc_pages_spec (STACK_SIZE / 4096) (heap s) Hinv) as (a & h & Ea & Hinv' & Hcase); [done|].
  unfold task_create_with_priority. rewrite Ea. unfold mbind, option_bind. cbv beta iota zeta.
  rewrite stack_pages_order in Hcase. destruct Hcase as [(Ha & _ & Hal)|(-> & -> & Hex)].
  2:{ exists 0, (with_heap (heap s) s). split_and!; try done.
      left. split_and!; try done. left. destruct Hex as [Hex|]; [|done]. unfold STACK_ORDER, FreeList.MAX_ORDER in Hex. lia. }
  rewrite (proj2 (Z.eqb_neq a 0)) by done. set (s1 := with_heap h s).
  pose proof Hal as (Hal1 & Hal2 & Hal3 & Hal4 & Hal5 & Hal6 & Hal7 & _).
  destruct (alloc_task_slot_spec s1) as [[Hz Hfull]|(Ht & Hun & Hfst)].
  - rewrite Hz, Z.eqb_refl. change (heap s1) with h.
    destruct (PmmSpec.free_pages_spec a (STACK_SIZE / 4096) h Hinv') as (h2 & E2 & Hinv2 & Hrel & Hs2 & He2 & _).
    + done.
    + rewrite stack_pages_order. unfold STACK_ORDER, FreeList.MAX_ORDER. lia.
    + rewrite stack_pages_order. split_and!; [done|by rewrite Hal6|by rewrite Hal7|]. intros x Hx. rewrite Hal5. tauto.
    + rewrite E2. exists 0, (with_heap h2 s1). rewrite stack_pages_order in Hrel.
      assert (Hfree : forall x, BuddyInv.is_free h2 x <-> BuddyInv.is_free (heap s) x).
      { intros x. rewrite Hrel, Hal5. assert (BuddyInv.in_block a STACK_ORDER x \/ ~ BuddyInv.in_block a STACK_ORDER x)
          by (unfold BuddyInv.in_block; lia). specialize (Hal4 x). tauto. }
      split_and!; try done; [|by left; split_and!; auto].
      apply (stacks_heap _ (heap s) h2); [done|done|by intros x; apply Hfree|by rewrite Hs2|by rewrite He2].
  - set (p := alloc_task_slot s1) in *. pose proof Ht as [? ?]. rewrite (proj2 (Z.eqb_neq p 0)) by lia.
    destruct (create_init_fresh s p h wrapper nm entry arg (clamp_priority pr) a) as (Hfr & Hb & Htop & Hoth).
    fold s1 in Hfr, Hb, Htop, Hoth. set (s' := upd p _ _) in *.
    exists p, s'. split_and!; try done.
    { eapply (stacks_alloc _ (heap s) h a); try done. by eapply fresh_tcb_ok. }
    right. rewrite Hb. done.
Qed.

Lemma task_create_spec wrapper nm entry arg pr s Q S C :
  core s Q S C -> next_task_id s <> 0 ->
  exists p s', task_create_with_priority wrapper nm entry arg pr s = Some (p, s') /\ core s' Q S C /\ env s' = env s /\
    ((p = 0 /\ tasks s' = tasks s /\ (forall x, BuddyInv.is_free (heap s') x <-> BuddyInv.is_free (heap s) x) /\
       (BuddySpec.exhausted (heap s) STACK_ORDER \/ forall q, in_table q -> id (tasks s q) <> 0)) \/
     (filled s s' p /\ floating s' Q S C p /\
       BuddySpec.allocated (heap s) (heap s') STACK_ORDER (stack_base (tasks s' p)) /\
       stack_top (tasks s' p) = stack_base (tasks s' p) +64 STACK_SIZE)).
Proof.
  intros K Hid.
  destruct (task_create_table wrapper nm entry arg pr _ s (k_stacks _ _ _ _ K)) as (p & s' & E & Hss & He & Hp & Hd & H).
  exists p, s'. destruct H as [(-> & Ht & Hf & Hn & Hc)|(F & Hal & Htop)].
  - split_and!; try done; [|by left]. apply (core_ext (fun _ => False) s); try done; [by auto|by intros a _; rewrite Ht|].
    unfold deques_ok. rewrite Hd. apply K.
  - destruct (core_fill s s' Q S C p (next_task_id s)) as [K' F']; try done; try apply F. split_and!; try done. by right.
Qed.

(** ** Destruction *)

Lemma task_destroy_ok p s Q S C :
  core s Q S C -> (p <> 0 -> idle s p = false) ->
  (p <> 0 -> state (tasks s p) = TASK_TERMINATED -> floating s Q S C p) ->
  exists s', task_destroy p s = Some s' /\ core s' Q S C /\ env s' = env s.
Proof.
  intros K Hi HF. destruct (decide (p = 0)) as [->|Hp]; [by exists s|].
  destruct (decide (state (tasks s p) = TASK_TERMINATED)) as [Hst|Hst].
  - destruct (core_destroy _ _ _ _ _ K (HF Hp Hst) Hst) as (s' & ? & ? & _ & _ & _ & ?). eauto.
  - exists s. split_and!; try done. unfold task_destroy, deref. rewrite (proj2 (Z.eqb_neq p 0)) by done.
    specialize (Hi Hp). unfold idle in Hi. rewrite Hi, bool_decide_false by done. done.
Qed.

End held.

End TaskLife.
