(* ===== verification/SchedBoot.v ===== *)
(** Start-up of the scheduler: from a zero-initialised task table, [scheduler_init] on
    CPU 0 and then [scheduler_init_secondary] on the other CPUs, in any order, establish
    the scheduler's invariant with empty queues; the only way to fail is that the page
    allocator cannot provide the stack of an idle task. *)

From S2P Require Import Prelude FreeList Buddy BuddyInv BuddyStep BuddySpec Carve PmmInit PmmSpec.
From S2P Require Import StealDeque Task Sys Sched RunQueue SchedInv Dispatch TaskLife.

Open Scope Z_scope.
Open Scope slm_scope.

Module SchedBoot.
Import Task Sys Sched RunQueue SchedInv Dispatch TaskLife.

(** At start-up no task waits and no other component holds memory. *)
Definition nothing_held : Ghost := Ghosts [] [].
#[local] Existing Instance nothing_held.

(** The calls of the secondary CPUs, in the order in which they come up. *)
Fixpoint start_secondaries (wrapper idle_func : Z) (l : list nat) (s : sys) : option sys :=
  match l with
  | [] => Some s
  | c :: l =>
      s ← scheduler_init_secondary wrapper idle_func (Z.of_nat c) s;
      start_secondaries wrapper idle_func l s
  end.

Definition start_all (wrapper idle_func : Z) (l : list nat) (s : sys) : option sys :=
  s ← scheduler_init wrapper idle_func s;
  start_secondaries wrapper idle_func l s.

(** A slot of the zero-initialised [task_table]. *)
Definition task_zero : task :=
  Task 0 (replicate TASK_NAME_LEN 0) TASK_READY 0 (CpuContext 0 0 0 0 0) 0 0 0 0 0 0 0 0 0 0 0 0 0 0 0 0 0.

(** The static initial values: no task exists and no CPU runs one. *)
Record cold (s : sys) : Prop := {
  cold_cpus : 1 <= cpu_count s <= MAX_CPUS;
  cold_tasks : forall p, tasks s p = task_zero;
  cold_current : current_task s = replicate 8 0;
  cold_ids : next_task_id s = 1;
  cold_heap : BuddyInv.inv (heap s)
}.

(** Start-up in progress: the CPUs of [K] have their idle tasks, [n] pages of the heap
    have not been given to stacks. *)
Record booting (K : list nat) (n : Z) (s : sys) : Prop := {
  bt_rqs : length (rqs s) = 8%nat;
  bt_cpus : 1 <= cpu_count s <= MAX_CPUS;
  bt_empty : forall c, head (rq_of c s) = 0 /\ tail (rq_of c s) = 0 /\ ready_count (rq_of c s) = 0 /\ zombie (rq_of c s) = 0;
  bt_idle : forall c, c ∈ K -> in_table (idle_task (rq_of c s)) /\ idle s (idle_task (rq_of c s)) = true /\
    state (tasks s (idle_task (rq_of c s))) = TASK_READY;
  bt_inj : forall c d, c ∈ K -> d ∈ K -> idle_task (rq_of c s) = idle_task (rq_of d s) -> c = d;
  bt_used : forall p, in_table p -> id (tasks s p) <> 0 -> exists c, c ∈ K /\ p = idle_task (rq_of c s);
  bt_ids : forall p, idle s p = true -> id (tasks s p) <> 0;
  bt_next : next_task_id s = 1 + Z.of_nat (length K);
  bt_sleep : sleep_queue_head s = 0;
  bt_current : current_task s = replicate 8 0;
  bt_deques : deques_ok s;
  bt_stacks : stacks_ok (cpu_count s) (heap s) (tasks s);
  bt_pages : Buddy.free_pages (heap s) + 64 * Z.of_nat (length K) = n
}.

Lemma booting_done K n s :
  booting K n s -> (forall c, Z.of_nat c < cpu_count s -> c ∈ K) -> sched_inv s (fun _ => []) [].
Proof.
  intros [] Hall. assert (Hc0 : forall c, curs s c = 0).
  { intros c. unfold curs. rewrite bt_current0. do 8 (destruct c as [|c]; [done|]). by destruct c. }
  assert (Hno : forall p : Z, p ∉ @nil Z) by (intros p; apply not_elem_of_nil).
  constructor; [|by rewrite bt_current0|done].
  constructor; try done.
  - intros c Hc. destruct (bt_empty0 c) as (H1 & H2 & H3 & _). constructor; try done. by apply NoDup_nil.
  - intros c p _ Hp. by destruct (Hno p).
  - by apply NoDup_nil.
  - intros p Hp. by destruct (Hno p).
  - intros l Hl. by apply not_elem_of_nil in Hl.
  - intros p Hp. by destruct (Hno p).
  - by apply NoDup_nil.
  - intros c. by rewrite Hc0.
  - intros c d. by rewrite !Hc0.
  - intros c Hc. destruct (bt_idle0 c (Hall c Hc)) as (? & ? & ?). auto.
  - intros c d Hc. rewrite Hc0. intros E. destruct (bt_idle0 c (Hall c Hc)) as ([? ?] & _). lia.
  - intros c d Hc Hd. apply bt_inj0; auto.
  - intros c Hc Hz. by destruct (bt_empty0 c) as (_ & _ & _ & ?).
  - intros c d Hc Hd Hz. by destruct (bt_empty0 c) as (_ & _ & _ & ?).
  - intros p [(c & _ & Hp)|[Hp|[(c & Hp & Hnz)|[Hp|(c & _ & Hp & Hnz)]]]].
    + by destruct (Hno p).
    + by destruct (Hno p).
    + rewrite Hc0 in Hp. by subst.
    + auto.
    + destruct (bt_empty0 c) as (_ & _ & _ & E). congruence.
Qed.

(** Before the idle tasks take it, the table has a free slot. *)
Lemma booting_room K n s : booting K n s -> (length K < 64)%nat -> ~ (forall q, in_table q -> id (tasks s q) <> 0).
Proof.
  intros B Hk Hfull. assert (Hin : map (fun i => slot_ptr i) (seq 0 64) ⊆ map (fun c => idle_task (rq_of c s)) K).
  { intros p (i & -> & Hi)%list_elem_of_fmap. apply elem_of_seq in Hi.
    assert (Ht : in_table (slot_ptr i)) by (unfold in_table, slot_ptr, MAX_TASKS; lia).
    destruct (bt_used _ _ _ B _ Ht (Hfull _ Ht)) as (c & Hc & ->). apply list_elem_of_fmap. by exists c. }
  assert (Hnd : NoDup (map (fun i => slot_ptr i) (seq 0 64))).
  { apply NoDup_fmap; [|apply NoDup_seq]. intros i j. unfold slot_ptr. lia. }
  apply (NoDup_submseteq _ _ Hnd) in Hin. apply submseteq_length in Hin. rewrite !length_map, length_seq in Hin. lia.
Qed.

(** The stores that make the new task the idle task of CPU [c]. *)
Definition made_idle (c : Z) (t : task) : task :=
  set_flags (Z.lor (flags t) TASK_FLAG_IDLE) (set_assigned_cpu c (set_cpu_affinity c (set_state TASK_READY t))).

Lemma made_idle_spec c t : is_idle_task (Some (made_idle c t)) = true.
Proof.
  unfold is_idle_task, made_idle. cbn [flags set_flags]. apply negb_true_iff, Z.eqb_neq. intros E.
  apply (f_equal (fun x => Z.testbit x 0)) in E. by rewrite Z.land_spec, Z.lor_spec, orb_true_r, Z.bits_0 in E.
Qed.

(** Installing the idle task of CPU [c]. *)
Lemma install_idle K n s s1 c p :
  booting K n s -> filled s s1 p -> stacks_ok (cpu_count s) (heap s1) (tasks s1) -> env s1 = env s -> parts s1 = parts s ->
  deques s1 = deques s -> Buddy.free_pages (heap s1) = Buddy.free_pages (heap s) - 64 ->
  c ∉ K -> (c < 8)%nat -> Z.of_nat c < cpu_count s -> (length K < 8)%nat ->
  booting (c :: K) n (set_rq (Z.of_nat c) (with_idle_task p (rq_of c s1)) (upd p (made_idle (Z.of_nat c)) s1)).
Proof.
  intros B [Ht Hun _ Hf Hoth Hnx] Hss He Hp Hd Hfp Hc Hc8 Hlt Hk. set (s2 := upd p _ s1). set (s' := set_rq _ _ _).
  unfold env in He. unfold parts in Hp. assert (Hcc : cpu_count s1 = cpu_count s) by congruence.
  assert (Hrq1 : forall d, rq_of d s2 = rq_of d s) by (intros d; unfold rq_of, cpu_rq; simpl; congruence).
  assert (Hrq : forall d, rq_of d s' = if decide (d = c) then with_idle_task p (rq_of c s) else rq_of d s).
  { intros d. unfold s'. rewrite rq_of_set.
    - rewrite Hrq1. replace (rq_of c s1) with (rq_of c s) by (symmetry; apply Hrq1). done.
    - simpl. replace (rqs s1) with (rqs s) by congruence. by rewrite (bt_rqs _ _ _ B). }
  assert (Htp : tasks s' p = made_idle (Z.of_nat c) (tasks s1 p)) by apply tasks_upd_eq.
  assert (Hto : forall q, q <> p -> tasks s' q = tasks s q) by (intros q Hq; etransitivity; [by apply tasks_upd_ne|by apply Hoth]).
  assert (Hnp : forall d, d ∈ K -> idle_task (rq_of d s) <> p).
  { intros d Hdk <-. destruct (bt_idle _ _ _ B d Hdk) as (_ & Hi & _). by apply (bt_ids _ _ _ B _ Hi). }
  assert (Hip : idle s' p = true) by (unfold idle; rewrite Htp; apply made_idle_spec).
  assert (Hid : id (tasks s' p) = next_task_id s) by (rewrite Htp; apply Hf).
  assert (Hidx : next_task_id s = 1 + Z.of_nat (length K)) by apply B.
  constructor; try done.
  - simpl. rewrite length_insert. replace (rqs s1) with (rqs s) by congruence. apply B.
  - change (cpu_count s') with (cpu_count s1). rewrite Hcc. apply B.
  - intros d. rewrite Hrq. destruct (decide (d = c)) as [->|]; apply (bt_empty _ _ _ B).
  - intros d [->|Hdk]%elem_of_cons; rewrite Hrq.
    + rewrite decide_True by done. simpl idle_task. by rewrite Htp.
    + rewrite decide_False by congruence. unfold idle. rewrite Hto by auto. by apply (bt_idle _ _ _ B).
  - intros d e [->|Hdk]%elem_of_cons [->|Hek]%elem_of_cons; rewrite !Hrq; try done.
    + rewrite decide_True, decide_False by congruence. simpl idle_task. intros E. by destruct (Hnp e Hek).
    + rewrite decide_False, decide_True by congruence. simpl idle_task. intros E. by destruct (Hnp d Hdk).
    + rewrite !decide_False by congruence. by apply (bt_inj _ _ _ B).
  - intros q Hq Hnz. destruct (decide (q = p)) as [->|Hqp].
    + exists c. rewrite Hrq, decide_True by done. split; [apply elem_of_cons; auto|done].
    + rewrite Hto in Hnz by done. destruct (bt_used _ _ _ B q Hq Hnz) as (d & Hdk & ->). exists d.
      rewrite Hrq, decide_False by congruence. split; [apply elem_of_cons; auto|done].
  - intros q Hq. destruct (decide (q = p)) as [->|Hqp]; [rewrite Hid, Hidx; lia|].
    unfold idle in Hq. rewrite Hto in * by done. by apply (bt_ids _ _ _ B).
  - change (next_task_id s') with (next_task_id s1). rewrite Hnx, Hidx. unfold u32. cbn [length].
    rewrite Z.mod_small; lia.
  - change (sleep_queue_head s') with (sleep_queue_head s1). replace (sleep_queue_head s1) with (sleep_queue_head s) by congruence. apply B.
  - change (current_task s') with (current_task s1). replace (current_task s1) with (current_task s) by congruence. apply B.
  - unfold deques_ok. change (deques s') with (deques s1). rewrite Hd. apply B.
  - change (cpu_count s') with (cpu_count s1). change (heap s') with (heap s1). rewrite Hcc.
    eapply stacks_ext; [done|..]; intros q; (destruct (decide (q = p)) as [->|Hqp]; [rewrite Htp|rewrite Hto, <- Hoth by done]); try done.
    + split; simpl; [right|unfold MAX_CPUS]; lia.
    + apply Hss.
  - change (heap s') with (heap s1). rewrite Hfp. cbn [length]. pose proof (bt_pages _ _ _ B). lia.
Qed.

(** One CPU's idle task, from the heap of [s]. *)
Lemma create_idle K n s wrapper f c nm :
  booting K n s -> c ∉ K -> (c < 8)%nat -> Z.of_nat c < cpu_count s -> (length K < 8)%nat ->
  exists p s1, task_create wrapper nm f 0 s = Some (p, s1) /\ cpu_count s1 = cpu_count s /\
    ((p = 0 /\ BuddySpec.exhausted (heap s) STACK_ORDER) \/
     (p <> 0 /\ booting (c :: K) n (set_rq (Z.of_nat c) (with_idle_task p (rq_of c s1)) (upd p (made_idle (Z.of_nat c)) s1)))).
Proof.
  intros B Hc Hc8 Hlt Hk. unfold task_create.
  destruct (task_create_table wrapper nm f 0 TASK_PRIORITY_DEFAULT _ s (bt_stacks _ _ _ B))
    as (p & s1 & -> & Hss & He & Hp & Hd & H).
  exists p, s1. split; [done|]. split; [unfold env in He; congruence|].
  destruct H as [(-> & _ & _ & _ & [Hex|Hfull])|(F & Hal & _)].
  - by left.
  - exfalso. eapply booting_room; [done|lia|done].
  - right. split; [destruct (cr_table _ _ _ F); lia|]. eapply install_idle; try done.
    destruct Hal as (_ & _ & _ & _ & _ & _ & _ & ->). unfold STACK_ORDER. lia.
Qed.

(** [k] stacks were taken from a heap of [n] free pages, and no block is left for another. *)
Definition out_of_stacks (n : Z) : Prop :=
  exists h k, Buddy.free_pages h + 64 * Z.of_nat k = n /\ (k < 8)%nat /\ BuddySpec.exhausted h STACK_ORDER.

Lemma start_secondaries_spec wrapper f l K n s :
  booting K n s -> NoDup l -> (forall c, c ∈ l -> c ∉ K /\ c <> 0%nat /\ Z.of_nat c < cpu_count s) ->
  (length K + length l <= 8)%nat ->
  match start_secondaries wrapper f l s with
  | Some s' => booting (rev l ++ K) n s' /\ cpu_count s' = cpu_count s
  | None => out_of_stacks n
  end.
Proof.
  revert K s. induction l as [|c l IH]; intros K s B Hnd Hl Hk; [done|]. cbn [start_secondaries length] in *.
  apply NoDup_cons in Hnd as [Hcl Hnd]. destruct (Hl c) as (HcK & Hc0 & Hlt); [apply elem_of_cons; auto|].
  pose proof (bt_cpus _ _ _ B) as Hcc. unfold MAX_CPUS in Hcc. unfold scheduler_init_secondary.
  rewrite (proj2 (Z.eqb_neq _ _)), (proj2 (Z.leb_gt _ _)) by (unfold MAX_CPUS; lia). cbn [orb].
  destruct (create_idle K n s wrapper f c (Some [105; 100; 108; 101; 95; 48 + Z.of_nat c]) B) as (p & s1 & -> & Hc1 & H);
    [done|lia|done|lia|]. unfold mbind at 1 2, option_bind at 1 2. cbv beta iota.
  destruct H as [[-> Hex]|[Hp B1]].
  - exists (heap s), (length K). split_and!; [apply B|lia|done].
  - rewrite (proj2 (Z.eqb_neq p 0)) by done. unfold mbind, option_bind. set (s2 := set_rq _ _ _) in *.
    change (start_secondaries wrapper f l _) with (start_secondaries wrapper f l s2).
    change (cpu_count s1) with (cpu_count s2) in Hc1. specialize (IH (c :: K) s2 B1 Hnd).
    destruct (start_secondaries wrapper f l s2) as [s'|].
    + cbn [rev]. rewrite <- app_assoc. cbn [app]. destruct IH as [? E]; [|simpl; lia|by rewrite E].
      intros d Hd. destruct (Hl d) as (? & ? & ?); [apply elem_of_cons; auto|]. rewrite Hc1, not_elem_of_cons.
      split_and!; try done. congruence.
    + apply IH; [|simpl; lia]. intros d Hd. destruct (Hl d) as (? & ? & ?); [apply elem_of_cons; auto|].
      rewrite Hc1, not_elem_of_cons. split_and!; try done. congruence.
Qed.

Lemma in_rev_elem (l : list nat) c : c ∈ l <-> c ∈ rev l.
Proof. by rewrite !list_elem_of_In, <- in_rev. Qed.

(** The state [scheduler_init] works on once it has reset the queues. *)
Lemma cold_booting s :
  cold s ->
  booting [] (Buddy.free_pages (heap s))
    (with_deques (replicate (Z.to_nat MAX_CPUS) StealDeque.steal_deque_init)
      (with_rqs (replicate (Z.to_nat MAX_CPUS) sched_runqueue_clear)
        (with_sleep_queue_head 0
          (with_isolated_cores 0 (with_timer_ticks 0 (with_context_switches 0 (with_task_count 0 s))))))).
Proof.
  intros [Hcc Ht Hcur Hid Hinv]. set (s0 := with_deques _ _).
  assert (Hn : forall p, tasks s0 p = task_zero) by apply Ht.
  assert (Hrq : forall c, rq_of c s0 = sched_runqueue_clear).
  { intros c. unfold rq_of, cpu_rq. change (rqs s0) with (replicate 8 sched_runqueue_clear). rewrite Nat2Z.id.
    do 8 (destruct c as [|c]; [done|]). by destruct c. }
  assert (HK : forall c : nat, c ∉ @nil nat) by (intros; apply not_elem_of_nil).
  constructor; try done.
  - intros c. by rewrite Hrq.
  - intros c Hc. by destruct (HK c).
  - intros c d Hc. by destruct (HK c).
  - intros p _. by rewrite Hn.
  - intros p. unfold idle. by rewrite Hn.
  - split; [done|]. apply Forall_replicate. constructor; vm_compute; repeat constructor; congruence.
  - constructor; try done.
    + intros p. rewrite Hn. split; simpl; [right|unfold MAX_CPUS]; lia.
    + intros p _. by rewrite Hn.
    + intros p q x _ _. by rewrite Hn.
    + intros o a Ha. by apply not_elem_of_nil in Ha.
    + intros p o a x _. by rewrite Hn.
  - simpl. lia.
Qed.

Lemma start_all_spec (wrapper idle_func : Z) (l : list nat) (s : sys) :
  cold s -> NoDup l -> (forall c, c ∈ l <-> c <> 0%nat /\ Z.of_nat c < cpu_count s) ->
  match start_all wrapper idle_func l s with
  | Some s' => sched_inv s' (fun _ => []) [] /\ (forall c, curs s' c = 0)
  | None => out_of_stacks (Buddy.free_pages (heap s))
  end.
Proof.
  intros Hcold Hnd Hl. pose proof (cold_booting s Hcold) as B. destruct Hcold as [Hcc _ _ _ _].
  set (s0 := with_deques _ _) in B. unfold start_all, scheduler_init. cbv zeta. fold s0.
  destruct (create_idle [] _ s0 wrapper idle_func 0 (Some [105; 100; 108; 101]) B) as (p & s1 & -> & Hc1 & H);
    [apply not_elem_of_nil|lia|change (cpu_count s0) with (cpu_count s); lia|simpl; lia|].
  unfold mbind at 1 2, option_bind at 1 2. cbv beta iota. destruct H as [[-> Hex]|[Hp B1]].
  { exists (heap s), 0%nat. split_and!; [lia|lia|done]. }
  rewrite (proj2 (Z.eqb_neq p 0)) by done. unfold mbind, option_bind. set (s2 := set_rq _ _ (upd _ _ _)) in B1.
  change (start_secondaries wrapper idle_func l _) with (start_secondaries wrapper idle_func l s2).
  assert (Hcs : cpu_count s2 = cpu_count s) by done. unfold MAX_CPUS in Hcc.
  assert (Hlen : (length l <= 7)%nat).
  { pose proof (NoDup_range_length (Z.of_nat <$> l) 1 8) as Hr. rewrite length_fmap in Hr. cut (Z.of_nat (length l) <= 7); [lia|].
    apply Hr; [apply NoDup_fmap; [apply _|done]|]. intros a (c & -> & Hc)%list_elem_of_fmap. apply Hl in Hc. lia. }
  pose proof (start_secondaries_spec wrapper idle_func l [0%nat] _ s2 B1 Hnd) as Hss.
  destruct (start_secondaries wrapper idle_func l s2) as [s'|].
  - destruct Hss as [B' Hc']; [|simpl; lia|].
    + intros c Hc. apply Hl in Hc. rewrite list_elem_of_singleton, Hcs. tauto.
    + split.
      * eapply booting_done; [done|]. intros c. rewrite Hc', Hcs, elem_of_app, <- in_rev_elem, list_elem_of_singleton.
        intros Hc. destruct (decide (c = 0%nat)); [auto|]. left. by apply Hl.
      * intros c. unfold curs. rewrite (bt_current _ _ _ B'). do 8 (destruct c as [|c]; [done|]). by destruct c.
  - apply Hss; [|simpl; lia]. intros c Hc. apply Hl in Hc. rewrite list_elem_of_singleton, Hcs. tauto.
Qed.

(** A machine with 512 pages of RAM, two of them below the heap. *)
Definition boot_platform : PmmInit.platform := PmmInit.Platform 0x40000000 0x200000 0x40200000 PmmInit.one_region.

Definition boot_heap : Buddy.pmm :=
  default PmmSpec.pmm_zero (PmmInit.pmm_init boot_platform 0x40001234 [] [] PmmSpec.pmm_zero).

Lemma boot_heap_inv : BuddyInv.inv boot_heap.
Proof.
  destruct (PmmInit.init_spec boot_platform 0x40001234 [] [] PmmSpec.pmm_zero) as (s' & E & Hinv & _).
  - apply PmmInit.one_region_ok; try done; try (vm_compute; done). by exists 0x40200.
  - intros r. replace (PmmInit.split_rsv _ _) with (@nil Carve.memreserve) by (vm_compute; reflexivity).
    intros Hr. by apply not_elem_of_nil in Hr.
  - unfold boot_heap. by rewrite E.
Qed.

(** A two-CPU machine before start-up. *)
Definition cold_machine : sys :=
  Sys (fun _ => task_zero) [] [] (replicate 8 0) (replicate 8 1) 0 0 0 0 2 0 0 0 0 (fun _ => 0) 1 boot_heap [] 0 0 1000000.

Lemma cold_machine_cold : cold cold_machine.
Proof. constructor; try done. apply boot_heap_inv. Qed.

Definition machine : sys := default cold_machine (start_all 0x1000 0x2000 [1%nat] cold_machine).

Lemma machine_inv : sched_inv machine (fun _ => []) [].
Proof.
  pose proof (start_all_spec 0x1000 0x2000 [1%nat] cold_machine cold_machine_cold) as H.
  assert (Hs : is_Some (start_all 0x1000 0x2000 [1%nat] cold_machine)) by (vm_compute; eexists; reflexivity).
  unfold machine. destruct (start_all 0x1000 0x2000 [1%nat] cold_machine) as [s'|]; [|by destruct Hs].
  apply H; [apply NoDup_singleton|]. intros c. rewrite list_elem_of_singleton. change (cpu_count cold_machine) with 2. lia.
Qed.



End SchedBoot.
