(* ===== verification/SchedSpec.v ===== *)
(** What the scheduler guarantees: whole sessions of calls, the choice of the running
    task, placement, stealing, sleeping and creation, stated over the scheduler's calls.

    [queue_of] and [sleepers] read the contents of a run queue and of the sleep queue off
    the state, so that the invariant [inv] and the preconditions [allowed] of the calls
    are statements about the state alone. *)

From S2P Require Import Prelude FreeList Buddy BuddyInv BuddyStep BuddySpec PmmSpec.
From S2P Require Import StealDeque Task Sys Sched TaskSleep Heuristic RunQueue SchedInv Dispatch SchedCalls SchedSleep.
From S2P Require Import TaskLife SchedBoot.

Open Scope Z_scope.
Open Scope slm_scope.

Module SchedSpec.
Import Task Sys Sched TaskSleep RunQueue SchedInv Dispatch SchedCalls SchedSleep TaskLife.

Section held.
Context {G : Ghost}.

(** ** Reading the queues off the state *)

Fixpoint walk (fuel : nat) (nx : Z -> Z) (p : Z) : list Z :=
  match fuel with
  | O => []
  | S fuel => if p =? 0 then [] else p :: walk fuel nx (nx p)
  end.

Lemma chain_walk fuel nx p l : chain nx p l -> (length l < fuel)%nat -> walk fuel nx p = l.
Proof.
  revert p l. induction fuel as [|fuel IH]; intros p l Hc Hf; [lia|]. cbn [walk]. destruct l as [|a l].
  - by rewrite Hc.
  - destruct Hc as (-> & Ha & Hc). rewrite (proj2 (Z.eqb_neq a 0)) by done. f_equal. apply IH; [done|]. simpl in Hf. lia.
Qed.

Lemma walk_ext fuel nx nx' p : (forall a, nx a = nx' a) -> walk fuel nx p = walk fuel nx' p.
Proof.
  intros H. revert p. induction fuel as [|fuel IH]; intros p; cbn [walk]; [done|]. destruct (p =? 0); [done|]. by rewrite H, IH.
Qed.

Definition queue_of (s : sys) (c : nat) : list Z := walk QUEUE_FUEL (fun a => next (tasks s a)) (head (rq_of c s)).
Definition sleepers (s : sys) : list Z := walk QUEUE_FUEL (fun a => sleep_next (tasks s a)) (sleep_queue_head s).

Lemma sleepers_length s Q S C : core s Q S C -> (length S <= 64)%nat.
Proof.
  intros K. pose proof (k_snodup _ _ _ _ K) as Hnd. apply (NoDup_range_length S 1 65) in Hnd; [lia|].
  intros a Ha. destruct (k_asleep _ _ _ _ K a Ha) as ([? ?] & _). unfold MAX_TASKS in *. lia.
Qed.

Lemma queue_of_core s Q S C c : core s Q S C -> (c < 8)%nat -> queue_of s c = Q c.
Proof.
  intros K Hc. unfold queue_of. apply chain_walk.
  - apply (q_chain _ _ _ (k_queues _ _ _ _ K c Hc)).
  - pose proof (queue_length _ _ _ _ _ K Hc). unfold QUEUE_FUEL. lia.
Qed.

Lemma sleepers_core s Q S C : core s Q S C -> sleepers s = S.
Proof.
  intros K. unfold sleepers. apply chain_walk; [apply K|]. pose proof (sleepers_length _ _ _ _ K). unfold QUEUE_FUEL. lia.
Qed.

Lemma core_q_ext s Q Q' S C : core s Q S C -> (forall c, (c < 8)%nat -> Q' c = Q c) -> core s Q' S C.
Proof.
  intros [] H. constructor; try done.
  - intros c Hc. rewrite H by done. auto.
  - intros c p Hc. rewrite H by done. auto.
  - intros p Hp. apply k_ids0. destruct Hp as [(c & Hc & Hp)|?]; [left|by right]. exists c. by rewrite <- H.
Qed.

Definition inv (s : sys) : Prop := sched_inv s (queue_of s) (sleepers s).

Lemma inv_intro s Q S : sched_inv s Q S -> inv s.
Proof.
  intros [K Hl Ha]. unfold inv. rewrite (sleepers_core _ _ _ _ K). constructor; try done.
  eapply core_q_ext; [done|]. intros c Hc. by eapply queue_of_core.
Qed.

Lemma inv_elim s Q S : sched_inv s Q S -> (forall c, (c < 8)%nat -> queue_of s c = Q c) /\ sleepers s = S.
Proof. intros [K _ _]. split; [intros; by eapply queue_of_core|by eapply sleepers_core]. Qed.

(** A task in none of the scheduler's places, in its own slot. *)
Definition free_task (s : sys) (p : Z) : Prop := floating s (queue_of s) (sleepers s) (curs s) p.

(** ** Starting a CPU *)

Lemma scheduler_start_ok this s Q S :
  sched_inv s Q S -> Z.of_nat this < cpu_count s -> curs s this = 0 ->
  exists s' Q', scheduler_start (Z.of_nat this) s = Some s' /\ sched_inv s' Q' S /\ curs s' this = front s this (Q this).
Proof.
  intros [K Hlen Haw] Hlt Hcur. pose proof (k_cpus _ _ _ _ K) as Hcc. unfold MAX_CPUS in Hcc.
  assert (Ht : (this < 8)%nat) by lia. unfold scheduler_start.
  destruct (pick_next_spec this s Q S (curs s) K Ht) as (s0 & -> & Ht0 & Hq0 & He0 & K0).
  assert (Hcc0 : cpu_count s0 = cpu_count s /\ current_task s0 = current_task s) by (unfold env in He0; split; congruence).
  destruct Hcc0 as [Hcc0 Hct0].
  assert (Hfr : front s this (Q this) = front s0 this (Q this)) by (unfold front, rq_of, cpu_rq; by rewrite Hq0).
  destruct (dequeue_head_spec this s0 Q S (curs s) K0 Ht ltac:(lia)) as (M & Hnz & Hcase). rewrite Hfr.
  set (p := front s0 this (Q this)) in *. unfold mbind, option_bind. cbv beta iota. rewrite (proj2 (Z.eqb_neq p 0)) by done.
  set (s1 := if negb _ && _ then _ else s0). set (s' := set_preempt_disabled _ _ _).
  set (h := next (tasks s0 p)). set (s2 := upd p (set_next h) (dequeue_head (Z.of_nat this) p s0)).
  assert (Hs12 : parts s1 = parts s2 /\ (forall a, tasks s2 a = tasks s1 a) /\ deques s1 = deques s2 /\ heap s1 = heap s2 /\
    env s1 = env s0).
  { unfold s1, s2, dequeue_head. destruct (negb _ && _).
    - split_and!; try done. intros a. destruct (decide (a = p)) as [->|Ha].
      + rewrite tasks_upd_eq. simpl. rewrite fn_lookup_insert. unfold h. by destruct (tasks s0 p).
      + rewrite tasks_upd_ne by done. simpl. by rewrite fn_lookup_insert_ne.
    - split_and!; try done. intros a. destruct (decide (a = p)) as [->|Ha]; [|by rewrite tasks_upd_ne].
      rewrite tasks_upd_eq. unfold h. by destruct (tasks s0 p). }
  destruct Hs12 as (Hp1 & Ht1 & Hd1 & Hh1 & He1).
  assert (Hgo : forall Q', core s2 Q' S (curs s) ->
    (floating s2 Q' S (curs s) p \/ p = idle_task (rq_of this s2) /\ forall d, curs s d <> p) -> p ∉ S ++ waiters ->
    exists s'' Q'', Some s' = Some s'' /\ sched_inv s'' Q'' S /\ curs s'' this = p).
  { intros Q' K2 Hn HpS. exists s', Q'. split; [done|]. unfold env in He1. assert (Hc2 : cpu_count s2 = cpu_count s) by (unfold parts in Hp1; congruence).
    assert (Hct : current_task s' = <[this := p]> (current_task s)).
    { unfold s', set_preempt_disabled, task_set_current. simpl. rewrite Nat2Z.id. f_equal. congruence. }
    pose proof (curs_set s s' this p Hlen Ht Hct) as Hcs.
    assert (K3 : core (upd p resumed s2) Q' S (<[this := p]> (curs s))) by (apply core_dispatch; try done; lia).
    assert (K4 : core s' Q' S (<[this := p]> (curs s))).
    { assert (Hts : forall a, tasks s' a = tasks (upd p resumed s2) a).
      { intros a. change (tasks s' a) with (tasks (upd p resumed s1) a).
        destruct (decide (a = p)) as [->|]; [by rewrite !tasks_upd_eq, Ht1|by rewrite !tasks_upd_ne, Ht1 by done]. }
      eapply core_same; [done|done| |done|..]; try (intros a; by rewrite Hts).
      - unfold deques_ok. change (deques s') with (deques s1). rewrite Hd1. apply K2.
      - intros a. rewrite Hts. by eapply core_tcb. }
    split; [|rewrite Hcs; apply fn_lookup_insert]. constructor; [by eapply core_cur_ext|by rewrite Hct, length_insert|].
    intros c. rewrite Hcs. destruct (decide (c = this)) as [->|]; [by rewrite fn_lookup_insert|by rewrite fn_lookup_insert_ne]. }
  destruct Hcase as [(l & HQ & K1 & F1 & _)|(HQ & Hs & Hi)].
  - apply (Hgo (<[this := l]> Q)); [|left; by apply floating_upd; [|intros _; split; [apply F1|]]|by eapply floating_awake].
    apply core_upd_floating; try done. by eapply core_tcb.
  - assert (HC : forall d, curs s d <> p).
    { intros d Hd. rewrite Hi in Hd. apply (k_idle_cur _ _ _ _ K0) in Hd as Hd'; [|lia]. subst d. congruence. }
    assert (Hl : loose s0 Q S (curs s) p) by (rewrite Hi; apply idle_loose; try done; [lia|by rewrite <- Hi]).
    apply (Hgo Q); [|right; split; [|done]|eapply idle_awake; [exact K0|rewrite Hi; apply (k_idle _ _ _ _ K0); lia]].
    + unfold s2. rewrite Hs. apply core_upd_loose; try done; [by eapply core_tcb|]. intros _. rewrite Hi. apply (k_idle _ _ _ _ K0 this). lia.
    + unfold s2. rewrite Hs. exact Hi.
Qed.

(** ** Sessions of calls *)

Inductive call :=
  | CreateTask (nm : option (list Z)) (entry arg prio : Z)
  | AllocTask (nm : option (list Z)) (prio : Z)
  | DestroyTask (p : Z)
  | AddTask (p : Z)
  | AddTaskToCpu (p cpu : Z)
  | RemoveTask (p : Z)
  | TerminateTask (p : Z)
  | MigrateTask (p target : Z)
  | SetTaskAffinity (p cpu : Z)
  | RepositionTask (p : Z)
  | SetPriority (p v : Z)
  | SetDeadline (p v : Z)
  | StartCpu (this : nat)
  | Yield (this : nat) (sp : Z)
  | TimerTick (this : nat) (sp : Z)
  | SleepMs (this : nat) (sp ms : Z)
  | SleepWake (p : Z)
  | ExitTask (this : nat) (sp : Z)
  | IsolateCore (cpu : Z)
  | UnisolateCore (cpu : Z).

(** The state after a call, [None] if it panics; [wrapper] is the address of
    [task_entry_wrapper]. *)
Definition exec (pol : policy) (wrapper : Z) (c : call) (s : sys) : option sys :=
  match c with
  | CreateTask nm entry arg prio => snd <$> task_create_with_priority wrapper nm entry arg prio s
  | AllocTask nm prio => Some (task_alloc nm prio s).2
  | DestroyTask p => task_destroy p s
  | AddTask p => scheduler_add_task pol p s
  | AddTaskToCpu p cpu => scheduler_add_task_to_cpu p cpu s
  | RemoveTask p => scheduler_remove_task p s
  | TerminateTask p => scheduler_terminate_task p s
  | MigrateTask p target => snd <$> sched_migrate_task p target s
  | SetTaskAffinity p cpu => snd <$> sched_set_task_affinity pol p cpu s
  | RepositionTask p => sched_reposition_task p s
  | SetPriority p v => Some (if p =? 0 then s else upd p (task_set_priority v) s)
  | SetDeadline p v => Some (if p =? 0 then s else upd p (task_set_deadline v) s)
  | StartCpu this => scheduler_start (Z.of_nat this) s
  | Yield this sp => yield (Z.of_nat this) sp s
  | TimerTick this sp => scheduler_tick pol (Z.of_nat this) sp s
  | SleepMs this sp ms => task_sleep_ms (Z.of_nat this) sp ms s
  | SleepWake p => task_sleep_wake pol p s
  | ExitTask this sp => task_exit (Z.of_nat this) sp s
  | IsolateCore cpu => Some (sched_isolate_core cpu s).2
  | UnisolateCore cpu => Some (sched_unisolate_core cpu s).2
  end.

(** CPU [this] exists and the stack pointer is inside the stack of its running task. *)
Definition on_cpu (s : sys) (this : nat) (sp : Z) : Prop :=
  Z.of_nat this < cpu_count s /\ sp_ok (tasks s (curs s this)) sp.

(** The callers' obligations. *)
Definition allowed (s : sys) (c : call) : Prop :=
  match c with
  | CreateTask _ _ _ _ | AllocTask _ _ => next_task_id s <> 0
  | DestroyTask p => p <> 0 -> idle s p = false /\ (state (tasks s p) = TASK_TERMINATED -> free_task s p)
  | AddTask p => free_task s p /\ state (tasks s p) = TASK_READY
  | AddTaskToCpu p cpu => 0 <= cpu /\ (p <> 0 -> state (tasks s p) = TASK_READY -> free_task s p)
  | TerminateTask p => (p <> 0 -> idle s p = false) /\ p ∉ sleepers s ++ waiters
  | MigrateTask p cpu | SetTaskAffinity p cpu => 0 <= cpu /\ (p <> 0 -> idle s p = false)
  | StartCpu this => Z.of_nat this < cpu_count s /\ curs s this = 0
  | Yield this sp | TimerTick this sp => on_cpu s this sp
  | SleepMs this sp _ => on_cpu s this sp /\
      (curs s this <> 0 -> state (tasks s (curs s this)) = TASK_RUNNING /\ idle s (curs s this) = false)
  | ExitTask this sp => on_cpu s this sp /\ (curs s this <> 0 -> idle s (curs s this) = false)
  | RemoveTask _ | RepositionTask _ | SetPriority _ _ | SetDeadline _ _ | SleepWake _
  | IsolateCore _ | UnisolateCore _ => True
  end.

Lemma inv_by_core s s' Q' :
  inv s -> core s' Q' (sleepers s) (curs s) -> env s' = env s -> inv s'.
Proof. intros I K He. eapply inv_intro, sched_inv_env; [apply I|done|done]. Qed.

Lemma inv_same s s' :
  inv s -> parts s' = parts s -> deques s' = deques s -> heap s' = heap s -> current_task s' = current_task s ->
  (forall a, view (tasks s' a) = view (tasks s a) /\ stack_base (tasks s' a) = stack_base (tasks s a) /\
     cpu_affinity (tasks s' a) = cpu_affinity (tasks s a)) -> inv s'.
Proof.
  intros [K Hl Ha] Hp Hd Hh Hct Hv. assert (Hcs : forall c, curs s' c = curs s c) by (intros c; unfold curs; by rewrite Hct).
  apply (inv_intro s' (queue_of s) (sleepers s)). constructor; [|by rewrite Hct|by intros c; rewrite Hcs].
  eapply core_cur_ext; [|done]. eapply core_same; try done; [unfold deques_ok; rewrite Hd; apply K|apply Hv|apply Hv|].
  intros a. destruct (Hv a) as (E1 & _ & E2). destruct (view_fields _ _ E1) as (_ & _ & _ & E3 & _).
  unfold tcb_ok. rewrite E2, E3. by eapply core_tcb.
Qed.

Lemma upd_same s p f :
  inv s -> view (f (tasks s p)) = view (tasks s p) -> stack_base (f (tasks s p)) = stack_base (tasks s p) ->
  cpu_affinity (f (tasks s p)) = cpu_affinity (tasks s p) -> inv (upd p f s).
Proof.
  intros I H1 H2 H3. apply (inv_same s); try done. intros a.
  destruct (decide (a = p)) as [->|]; [by rewrite tasks_upd_eq|by rewrite tasks_upd_ne].
Qed.

Lemma exec_step pol wrapper `{!PolicyOk pol} c s :
  inv s -> allowed s c -> exists s', exec pol wrapper c s = Some s' /\ inv s'.
Proof.
  intros I A. pose proof I as [K Hl Haw]. destruct c; simpl in A |- *.
  - destruct (task_create_spec wrapper nm entry arg prio s _ _ _ K A) as (p & s' & -> & K' & He & _).
    exists s'. split; [done|]. by eapply inv_by_core.
  - destruct (task_alloc_spec nm prio s _ _ _ K A) as (p & s' & -> & K' & He & _).
    exists s'. split; [done|]. by eapply inv_by_core.
  - destruct (task_destroy_ok p s _ _ _ K) as (s' & ? & K' & He); [by apply A..|].
    exists s'. split; [done|]. by eapply inv_by_core.
  - destruct A as [F Hst]. destruct (add_task_spec pol s _ _ _ p K F Hst) as (s' & c & Q' & ? & K' & P).
    exists s'. split; [done|]. eapply inv_by_core; [done|done|apply P].
  - destruct A as [H0 F]. destruct (add_to_cpu_ok s _ _ _ p cpu K H0 F) as (s' & Q' & ? & K' & He & _).
    exists s'. split; [done|]. by eapply inv_by_core.
  - destruct (remove_task_ok s _ _ _ p K) as (s' & Q' & ? & K' & He). exists s'. split; [done|]. by eapply inv_by_core.
  - destruct A as [Hi Hs]. destruct (terminate_ok s _ _ _ p K Hi Hs) as (s' & Q' & ? & K' & He & _).
    exists s'. split; [done|]. by eapply inv_by_core.
  - destruct A as [Hi Hs]. destruct (migrate_ok s _ _ _ p target K Hi Hs) as (rc & s' & Q' & -> & K' & He).
    exists s'. split; [done|]. by eapply inv_by_core.
  - destruct A as [Hi Hs]. destruct (set_affinity_ok pol s _ _ _ p cpu K Hi Hs) as (rc & s' & Q' & -> & K' & He).
    exists s'. split; [done|]. by eapply inv_by_core.
  - destruct (reposition_ok s _ _ _ p K) as (s' & Q' & ? & K' & He & _). exists s'. split; [done|]. by eapply inv_by_core.
  - eexists. split; [done|]. destruct (p =? 0); [done|].
    apply upd_same; [done|..]; unfold task_set_priority; cbv zeta; by destruct (_ <? _).
  - eexists. split; [done|]. destruct (p =? 0); [done|]. by apply upd_same.
  - destruct A as [Hlt H0]. destruct (scheduler_start_ok this s _ _ I Hlt H0) as (s' & Q' & ? & I' & _).
    exists s'. split; [done|]. by eapply inv_intro.
  - destruct A as [Hlt Hsp]. destruct (schedule_ok this sp s _ _ (at_schedule_of _ _ _ _ _ I Hlt Hsp)) as (s' & Q' & ? & I').
    exists s'. split; [done|]. by eapply inv_intro.
  - destruct A as [Hlt Hsp]. destruct (tick_spec pol this sp s _ _ I Hlt Hsp) as (s' & Q' & ? & I').
    exists s'. split; [done|]. by eapply inv_intro.
  - destruct A as [[Hlt Hsp] Hr]. destruct (task_sleep_ms_ok this sp ms s _ _ I Hlt Hsp Hr) as (s' & Q' & S' & ? & I').
    exists s'. split; [done|]. by eapply inv_intro.
  - destruct (sleep_wake_spec pol p s _ _ I) as (s' & Q' & S' & ? & I' & _). exists s'. split; [done|]. by eapply inv_intro.
  - destruct A as [[Hlt Hsp] Hr]. destruct (task_exit_ok this sp s _ _ I Hlt Hsp Hr) as (s' & Q' & ? & I').
    exists s'. split; [done|]. by eapply inv_intro.
  - eexists. split; [done|]. unfold sched_isolate_core. destruct (_ <=? _); [done|]. destruct (_ =? _); [done|]. by apply (inv_same s).
  - eexists. split; [done|]. unfold sched_unisolate_core. destruct (_ <=? _); [done|]. by apply (inv_same s).
Qed.

Fixpoint run (pol : policy) (wrapper : Z) (cs : list call) (s : sys) : option sys :=
  match cs with
  | [] => Some s
  | c :: cs => s ← exec pol wrapper c s; run pol wrapper cs s
  end.

(** Every call of the session meets its obligations in the state it is made in. *)
Fixpoint permitted (pol : policy) (wrapper : Z) (cs : list call) (s : sys) : Prop :=
  match cs with
  | [] => True
  | c :: cs => allowed s c /\ forall s', exec pol wrapper c s = Some s' -> permitted pol wrapper cs s'
  end.

(** Where tasks are: in one queue, or asleep, or blocked, or running on one CPU. *)
Definition one_place (s : sys) : Prop :=
  forall p, p <> 0 ->
    (forall c d, (c < 8)%nat -> (d < 8)%nat -> p ∈ queue_of s c -> p ∈ queue_of s d -> c = d) /\
    (forall c d, curs s c = p -> curs s d = p -> c = d) /\
    (forall c, (c < 8)%nat -> p ∈ queue_of s c ->
       state (tasks s p) = TASK_READY /\ p ∉ sleepers s ++ waiters /\ forall d, curs s d <> p) /\
    (p ∈ sleepers s ++ waiters -> state (tasks s p) = TASK_BLOCKED /\ forall d, curs s d <> p) /\
    (p ∈ waiters -> p ∉ sleepers s).

Lemma inv_one_place s : inv s -> one_place s.
Proof.
  intros [K _ Haw] p Hp. split_and!.
  - intros c d Hc Hd H1 H2. destruct (k_queued _ _ _ _ K c p Hc H1) as (_ & _ & E1 & _).
    destruct (k_queued _ _ _ _ K d p Hd H2) as (_ & _ & E2 & _). lia.
  - intros c d H1 H2. apply (k_cur_inj _ _ _ _ K); congruence.
  - intros c Hc Hq. destruct (k_queued _ _ _ _ K c p Hc Hq) as (_ & Hst & _ & _). split_and!; [done| |].
    + rewrite elem_of_app. intros [Hs|Hs].
      * destruct (k_asleep _ _ _ _ K p Hs) as (_ & E & _). congruence.
      * destruct (k_waiting _ _ _ _ K p Hs) as (_ & E & _). congruence.
    + intros d Hd. destruct (k_cur _ _ _ _ K d) as (_ & E & _); [congruence|]. congruence.
  - intros Hs. split; [|intros d <-; by apply (Haw d)]. apply elem_of_app in Hs as [Hs|Hs].
    + by destruct (k_asleep _ _ _ _ K p Hs) as (_ & E & _).
    + by destruct (k_waiting _ _ _ _ K p Hs) as (_ & E & _).
  - intros Hs. by destruct (k_waiting _ _ _ _ K p Hs) as (_ & _ & _ & E).
Qed.

Lemma run_ok pol `{!PolicyOk pol} wrapper cs s :
  inv s -> permitted pol wrapper cs s -> exists s', run pol wrapper cs s = Some s' /\ inv s'.
Proof.
  revert s. induction cs as [|c cs IH]; intros s I P; simpl in *; [by exists s|].
  destruct P as [A P]. destruct (exec_step pol wrapper c s I A) as (s1 & E & I1). rewrite E. simpl. apply IH; auto.
Qed.

(** C2. Any sequence of scheduler calls - creation, destruction, adding, removing,
    terminating, migrating and pinning tasks, changes of priority and deadline, starting
    CPUs, yielding, timer ticks, sleeping, early wake-ups, exiting, isolating cores - in
    which every call meets its documented obligations, under any policy that meets
    [PolicyOk], from any state that satisfies the invariant, runs to its end: no panic,
    no runaway queue walk.  The invariant holds at the end; in particular every task is in
    one queue only, or asleep, or waiting for another component, or running on one CPU;
    what other components hold, waiting tasks and pages, stays as it is. *)
Theorem sched_sessions_safe (pol : policy) `{!PolicyOk pol} (wrapper : Z) (cs : list call) (s : sys) :
  inv s -> permitted pol wrapper cs s ->
  exists s', run pol wrapper cs s = Some s' /\ inv s' /\ one_place s'.
Proof.
  intros I P. destruct (run_ok pol wrapper cs s I P) as (s' & ? & ?). exists s'. split_and!; try done. by apply inv_one_place.
Qed.

(** ** Checking obligations by computation *)

Definition free_taskb (s : sys) (p : Z) : bool :=
  (1 <=? p) && (p <=? MAX_TASKS) && negb (idle s p) && negb (id (tasks s p) =? 0) &&
  forallb (fun c => bool_decide (p ∉ queue_of s c) && negb (zombie (rq_of c s) =? p)) (seq 0 8) &&
  bool_decide (p ∉ sleepers s ++ waiters) && forallb (fun q => negb (q =? p)) (current_task s).

Lemma free_taskb_sound s p : free_taskb s p = true -> free_task s p.
Proof.
  unfold free_taskb. rewrite !andb_true_iff, !forallb_forall. intros [[[[[[H1 H2] H3] H4] H5] H6] H7].
  assert (H5' : forall c, (c < 8)%nat -> p ∉ queue_of s c /\ zombie (rq_of c s) <> p).
  { intros c Hc. specialize (H5 c ltac:(apply in_seq; lia)). apply andb_true_iff in H5 as [E1 E2].
    split; [by apply bool_decide_eq_true in E1|]. by apply negb_true_iff, Z.eqb_neq in E2. }
  constructor.
  - unfold in_table. lia.
  - by apply negb_true_iff.
  - by apply negb_true_iff, Z.eqb_neq in H4.
  - intros c Hc. by apply H5'.
  - by apply bool_decide_eq_true, awake_asleep in H6.
  - by apply bool_decide_eq_true, awake_waiting in H6.
  - intros c Hc. unfold curs in Hc. destruct (nth_in_or_default c (current_task s) 0) as [Hin|E]; [|lia].
    specialize (H7 _ Hin). rewrite Hc, Z.eqb_refl in H7. done.
  - intros c Hc. by apply H5'.
Qed.

Definition sp_okb (t : task) (sp : Z) : bool :=
  (stack_base t =? 0) || (stack_top t =? 0) || ((stack_base t <=? sp) && (sp <=? stack_top t)).

Definition on_cpub (s : sys) (this : nat) (sp : Z) : bool :=
  (Z.of_nat this <? cpu_count s) && sp_okb (tasks s (curs s this)) sp.

Lemma on_cpub_sound s this sp : on_cpub s this sp = true -> on_cpu s this sp.
Proof.
  unfold on_cpub, sp_okb. rewrite andb_true_iff, Z.ltb_lt. intros [H1 H2]. split; [done|]. intros Hb Ht.
  rewrite (proj2 (Z.eqb_neq _ _) Hb), (proj2 (Z.eqb_neq _ _) Ht) in H2. simpl in H2. lia.
Qed.

Definition not_idleb (s : sys) (p : Z) : bool := (p =? 0) || negb (idle s p).

Lemma not_idleb_sound s p : not_idleb s p = true -> p <> 0 -> idle s p = false.
Proof. unfold not_idleb. intros H Hp. rewrite (proj2 (Z.eqb_neq p 0) Hp) in H. by apply negb_true_iff. Qed.

Definition allowedb (s : sys) (c : call) : bool :=
  match c with
  | CreateTask _ _ _ _ | AllocTask _ _ => negb (next_task_id s =? 0)
  | DestroyTask p => not_idleb s p && (bool_decide (state (tasks s p) <> TASK_TERMINATED) || free_taskb s p)
  | AddTask p => free_taskb s p && bool_decide (state (tasks s p) = TASK_READY)
  | AddTaskToCpu p cpu => (0 <=? cpu) && (bool_decide (state (tasks s p) <> TASK_READY) || free_taskb s p)
  | TerminateTask p => not_idleb s p && bool_decide (p ∉ sleepers s ++ waiters)
  | MigrateTask p cpu | SetTaskAffinity p cpu => (0 <=? cpu) && not_idleb s p
  | StartCpu this => (Z.of_nat this <? cpu_count s) && (curs s this =? 0)
  | Yield this sp | TimerTick this sp => on_cpub s this sp
  | SleepMs this sp _ => on_cpub s this sp && bool_decide (state (tasks s (curs s this)) = TASK_RUNNING) &&
                         not_idleb s (curs s this)
  | ExitTask this sp => on_cpub s this sp && not_idleb s (curs s this)
  | RemoveTask _ | RepositionTask _ | SetPriority _ _ | SetDeadline _ _ | SleepWake _
  | IsolateCore _ | UnisolateCore _ => true
  end.

Lemma allowedb_sound s c : allowedb s c = true -> allowed s c.
Proof.
  pose proof (free_taskb_sound s) as HF. pose proof (not_idleb_sound s) as HI. pose proof (on_cpub_sound s) as HC.
  destruct c; simpl; rewrite ?andb_true_iff, ?orb_true_iff, ?bool_decide_eq_true; try done; intros H; try by auto.
  - by apply negb_true_iff, Z.eqb_neq in H.
  - by apply negb_true_iff, Z.eqb_neq in H.
  - destruct H as [Hi H]. intros Hp. split; [by apply HI|]. intros Hst. destruct H as [?|?]; auto.
  - destruct H; auto.
  - destruct H as [? H]. split; [lia|]. intros Hp Hst. destruct H; auto.
  - destruct H. auto.
  - destruct H as [? H]. split; [lia|auto].
  - destruct H as [? H]. split; [lia|auto].
  - destruct H as [? H]. split; [lia|]. by apply Z.eqb_eq.
  - destruct H as [[? ?] ?]. split; auto.
  - destruct H as [? ?]. split; auto.
Qed.

(** The session run along with the checks. *)
Fixpoint permittedb (pol : policy) (wrapper : Z) (cs : list call) (s : sys) : bool :=
  match cs with
  | [] => true
  | c :: cs => allowedb s c && match exec pol wrapper c s with Some s' => permittedb pol wrapper cs s' | None => true end
  end.

Lemma permittedb_sound pol wrapper cs s : permittedb pol wrapper cs s = true -> permitted pol wrapper cs s.
Proof.
  revert s. induction cs as [|c cs IH]; intros s; simpl; [done|]. rewrite andb_true_iff. intros [H1 H2].
  split; [by apply allowedb_sound|]. intros s' E. rewrite E in H2. by apply IH.
Qed.

End held.

(** ** A machine for the examples *)

#[local] Existing Instance SchedBoot.nothing_held.

(** A session on the two-CPU machine: both CPUs start, CPU 0 creates and runs a
    task, which sleeps, is woken early, exits and is reaped; its slot is used again. *)
Definition demo_session : list call :=
  [StartCpu 0; StartCpu 1; CreateTask None 0x3000 0 4; AddTask 3; Yield 0 0x40050000; SetPriority 3 6; IsolateCore 1;
   CreateTask None 0x4000 0 4; AddTask 4; SleepMs 0 0x400d0000 5; SleepWake 3; TimerTick 0 0x40110000;
   ExitTask 0 0x400d0000; Yield 0 0x40110000; CreateTask None 0x5000 0 4].

(** The two-CPU machine after a session. *)
Definition after (cs : list call) : sys :=
  default SchedBoot.machine (run Heuristic.sched_policy_heuristic 0x1000 cs SchedBoot.machine).

Lemma demo_session_permitted : permitted Heuristic.sched_policy_heuristic 0x1000 demo_session SchedBoot.machine.
Proof. apply permittedb_sound. vm_compute. reflexivity. Qed.

Lemma machine_start : inv SchedBoot.machine.
Proof. eapply inv_intro, SchedBoot.machine_inv. Qed.

Lemma after_inv cs :
  permittedb Heuristic.sched_policy_heuristic 0x1000 cs SchedBoot.machine = true -> inv (after cs).
Proof.
  intros H. destruct (run_ok Heuristic.sched_policy_heuristic 0x1000 cs _ machine_start (permittedb_sound _ _ _ _ H)) as (s' & E & I).
  unfold after. by rewrite E.
Qed.

(** Witness of C2: the session on the two-CPU machine. *)
Lemma sched_sessions_safe_witness :
  exists s', run Heuristic.sched_policy_heuristic 0x1000 demo_session SchedBoot.machine = Some s' /\ inv s' /\ one_place s'.
Proof.
  apply (sched_sessions_safe Heuristic.sched_policy_heuristic 0x1000 demo_session SchedBoot.machine machine_start).
  exact demo_session_permitted.
Defined.

End SchedSpec.
