(* ===== verification/SchedPick.v ===== *)
(** Which task [schedule] runs: the highest effective priority of the CPU's queue and the
    outgoing task, the longest waiting one among equals; round-robin rotation, so that a
    queued task of the running task's priority gets the CPU within as many yields as its
    position; work stealing when the queue is empty. *)

From Stdlib Require Import Sorting.Sorted.
From S2P Require Import Prelude FreeList Buddy BuddyInv BuddyStep BuddySpec PmmSpec.
From S2P Require Import StealDeque Task Sys Sched TaskSleep Heuristic RunQueue SchedInv Dispatch SchedCalls SchedSleep.
From S2P Require Import TaskLife SchedBoot SchedSpec.

Open Scope Z_scope.
Open Scope slm_scope.

Module SchedPick.
Import Task Sys Sched TaskSleep RunQueue SchedInv Dispatch SchedCalls SchedSleep TaskLife SchedSpec.

Section held.
Context {G : Ghost}.

(** The outgoing task competes if it is still RUNNING and not the idle task. *)
Definition competes (s : sys) (this : nat) : bool :=
  let cur := curs s this in
  negb (cur =? 0) && bool_decide (state (tasks s cur) = TASK_RUNNING) && negb (cur =? idle_task (rq_of this s)).

Definition candidates (s : sys) (this : nat) : list Z :=
  queue_of s this ++ (if competes s this then [curs s this] else []).

(** The priorities compared: the outgoing task's is recomputed from its deadline. *)
Definition rank (s : sys) (this : nat) (a : Z) : Z :=
  if a =? curs s this then effective_priority (enqueued s (Z.of_nat this) a) else effective_priority (tasks s a).

Definition by_priority (s : sys) (l : list Z) : Prop :=
  StronglySorted (fun a b => effective_priority (tasks s b) <= effective_priority (tasks s a)) l.

Lemma competes_spec s this :
  competes s this = true <->
  curs s this <> 0 /\ state (tasks s (curs s this)) = TASK_RUNNING /\ curs s this <> idle_task (rq_of this s).
Proof. unfold competes. rewrite !andb_true_iff, !negb_true_iff, !Z.eqb_neq, bool_decide_eq_true. tauto. Qed.

(** What [schedule] does on a non-empty queue, in terms of the state alone. *)
Lemma schedule_nonempty this sp s :
  inv s -> on_cpu s this sp -> queue_of s this <> [] ->
  exists s' Q', schedule (Z.of_nat this) sp s = Some s' /\ sched_inv s' Q' (sleepers s) /\
    (exists l1 l2, queue_of s this = l1 ++ l2 /\
       (if competes s this then l1 ++ curs s this :: l2 else queue_of s this) = curs s' this :: queue_of s' this /\
       Forall (fun a => rank s this (curs s this) <= effective_priority (tasks s a)) l1 /\
       (forall a, hd_error l2 = Some a -> competes s this = true ->
          effective_priority (tasks s a) < rank s this (curs s this))) /\
    (forall d, (d < 8)%nat -> d <> this -> queue_of s' d = queue_of s d) /\
    (forall c, c <> this -> curs s' c = curs s c) /\
    (forall a, state (tasks s a) <> TASK_TERMINATED \/ (exists c, curs s c = a) -> carried (tasks s a) (tasks s' a)) /\
    state (tasks s' (curs s' this)) = TASK_RUNNING /\ cpu_count s' = cpu_count s.
Proof.
  intros I [Hlt Hsp] Hne. pose proof I as [K _ _]. pose proof (k_cpus _ _ _ _ K) as Hcc. unfold MAX_CPUS in Hcc.
  destruct (schedule_spec this sp s _ _ (at_schedule_of _ _ _ _ _ I Hlt Hsp))
    as (s' & s1 & Q1 & Q' & E & I' & Hst & Hch & Hoth & Hcar & Hrun & Hc' & _).
  destruct Hst as [[-> Hs1]|(p & Hs & _)]; [|done]. rewrite (Hs1 Hne) in Hch. clear Hs1 s1.
  destruct (inv_elim _ _ _ I') as [HQ' _]. exists s', Q'. do 2 (split; [done|]).
  destruct Hch as (Q1 & Hr & Hd & Hnx). change (idle_task (rq_of this (bump _ _ s))) with (idle_task (rq_of this s)) in *.
  rewrite !HQ' by lia. unfold requeued in Hr. cbv zeta in Hr.
  change (tasks (bump DiagSchedule (Z.of_nat this) s)) with (tasks s) in Hr.
  change (rq_of this (bump DiagSchedule (Z.of_nat this) s)) with (rq_of this s) in Hr.
  change (enqueued (bump DiagSchedule (Z.of_nat this) s)) with (enqueued s) in Hr.
  split; [|split; [|done]]; destruct (decide _) as [Hc|Hc] in Hr.
  - destruct Hr as (l1 & l2 & HQ & -> & H1 & H2). rewrite fn_lookup_insert in Hnx.
    rewrite (proj2 (competes_spec s this)) by done. unfold rank. rewrite Z.eqb_refl. exists l1, l2. split_and!; try done; [|by auto].
    destruct Hnx as [?|(? & _)]; [done|]. by destruct l1.
  - subst Q1. assert (competes s this = false) as ->.
    { apply not_true_iff_false. by rewrite competes_spec. }
    exists [], (queue_of s this). split_and!; try done. by destruct Hnx as [?|(? & _)].
  - intros d Hd8 Hne'. rewrite HQ', Hd by done. destruct Hr as (l1 & l2 & HQ & -> & _). by rewrite fn_lookup_insert_ne.
  - intros d Hd8 Hne'. rewrite HQ', Hd by done. by subst.
Qed.

Lemma queue_rank s this a : inv s -> Z.of_nat this < cpu_count s -> a ∈ queue_of s this ->
  rank s this a = effective_priority (tasks s a).
Proof.
  intros I Hlt Ha. pose proof I as [K _ _]. pose proof (k_cpus _ _ _ _ K) as Hcc. unfold MAX_CPUS in Hcc.
  unfold rank. destruct (Z.eqb_spec a (curs s this)) as [->|]; [|done].
  destruct (k_queued _ _ _ _ K this _ ltac:(lia) Ha) as ([? ?] & _).
  destruct (inv_one_place s I (curs s this)) as (_ & _ & Hq & _); [lia|].
  destruct (Hq this ltac:(lia) Ha) as (_ & _ & Hd). by destruct (Hd this).
Qed.

Lemma head_highest s h l a :
  by_priority s (h :: l) -> a ∈ h :: l -> effective_priority (tasks s a) <= effective_priority (tasks s h).
Proof.
  unfold by_priority. intros [_ Hf]%StronglySorted_inv Ha. rewrite Forall_forall in Hf.
  apply elem_of_cons in Ha as [->|Ha]; [lia|by apply Hf].
Qed.

(** The winner is the head of the queue, or the outgoing task ranks above the head. *)
Lemma winner_cases s this l1 l2 nxt rest :
  queue_of s this = l1 ++ l2 ->
  (if competes s this then l1 ++ curs s this :: l2 else queue_of s this) = nxt :: rest ->
  Forall (fun a => rank s this (curs s this) <= effective_priority (tasks s a)) l1 ->
  (forall a, hd_error l2 = Some a -> competes s this = true -> effective_priority (tasks s a) < rank s this (curs s this)) ->
  (exists l, queue_of s this = nxt :: l /\
     (competes s this = true -> rank s this (curs s this) <= effective_priority (tasks s nxt))) \/
  (competes s this = true /\ nxt = curs s this /\
     forall h l, queue_of s this = h :: l -> effective_priority (tasks s h) < rank s this (curs s this)).
Proof.
  intros Hl Hnew H1 H2. destruct (competes s this).
  - destruct l1 as [|b l1]; simpl in Hnew; injection Hnew as Hb Hrest.
    + right. split_and!; [done|by symmetry|]. intros h l Hq. apply H2; [|done]. simpl in Hl. by rewrite <- Hl, Hq.
    + left. subst b. exists (l1 ++ l2). split; [done|]. intros _. by inversion H1.
  - left. rewrite Hnew. by eexists.
Qed.

(** C18. When the queue of a CPU is not empty and ordered by priority, [schedule] succeeds,
    keeps the invariant and hands the CPU to a candidate - a queued task or the outgoing
    task, if that can go on - of the highest priority among the candidates.  The head of
    the queue wins over the outgoing task unless that ranks strictly higher.  The other
    candidates are the new queue; no other CPU is affected. *)
Theorem schedule_runs_highest_priority (this : nat) (sp : Z) (s : sys) :
  inv s -> on_cpu s this sp -> queue_of s this <> [] -> by_priority s (queue_of s this) ->
  exists s', schedule (Z.of_nat this) sp s = Some s' /\ inv s' /\
    curs s' this ∈ candidates s this /\
    (forall a, a ∈ candidates s this -> rank s this a <= rank s this (curs s' this)) /\
    (forall h l, queue_of s this = h :: l ->
       (competes s this = true -> rank s this (curs s this) <= rank s this h) -> curs s' this = h) /\
    curs s' this :: queue_of s' this ≡ₚ candidates s this /\
    (forall d, (d < 8)%nat -> d <> this -> queue_of s' d = queue_of s d /\ curs s' d = curs s d).
Proof.
  intros I Hon Hne Hso. destruct (schedule_nonempty this sp s I Hon Hne) as (s' & Q' & E & I' & Hq & Hoth & Hcur & _).
  exists s'. split; [done|]. split; [by eapply inv_intro|]. destruct Hon as [Hlt _].
  pose proof (fun a => queue_rank s this a I Hlt) as Hrk. destruct Hq as (l1 & l2 & Hl & Hnew & H1 & H2).
  assert (Hperm : curs s' this :: queue_of s' this ≡ₚ candidates s this).
  { rewrite <- Hnew. unfold candidates. destruct (competes s this); [|by rewrite app_nil_r].
    rewrite Hl, <- Permutation_middle. symmetry. apply Permutation_app_comm. }
  assert (Hmax : (forall a, a ∈ candidates s this -> rank s this a <= rank s this (curs s' this)) /\
    (forall h l, queue_of s this = h :: l ->
       (competes s this = true -> rank s this (curs s this) <= rank s this h) -> curs s' this = h)).
  { destruct (winner_cases s this l1 l2 _ _ Hl Hnew H1 H2) as [(l & Hq & Hc)|(Hc & Hcs & Hc2)].
    - rewrite (Hrk (curs s' this)) by (rewrite Hq; apply elem_of_cons; auto). split.
      + intros a. unfold candidates. rewrite elem_of_app. intros [Ha|Ha].
        * rewrite Hrk by done. rewrite Hq in Ha, Hso. by eapply head_highest.
        * destruct (competes s this); [|by apply not_elem_of_nil in Ha]. apply list_elem_of_singleton in Ha as ->. auto.
      + intros h l' Hq' _. congruence.
    - rewrite Hcs. split.
      + intros a. unfold candidates. rewrite Hc, elem_of_app, list_elem_of_singleton. intros [Ha| ->]; [|lia].
        rewrite Hrk by done. destruct (queue_of s this) as [|h l] eqn:Hq; [done|]. specialize (Hc2 h l eq_refl).
        pose proof (head_highest s h l a Hso Ha). lia.
      + intros h l Hq Hle. specialize (Hle Hc). specialize (Hc2 h l Hq).
        rewrite (Hrk h) in Hle by (rewrite Hq; apply elem_of_cons; auto). lia. }
  split_and!; try apply Hmax; [|done|auto]. rewrite <- Hperm. apply elem_of_cons. auto.
Qed.

(** ** Stealing *)

(** The running task of a CPU and its queue. *)
Definition ring (s : sys) (this : nat) : list Z := curs s this :: queue_of s this.

(** C29. With an empty queue, [schedule] either steals one task or leaves all queues alone.
    It steals only when the CPU is not isolated, and then a task without affinity from the
    queue of another CPU, which keeps the order of its other tasks.  The CPU then runs the
    stolen task or goes on with the outgoing one, the other of the two staying in its
    queue; with nothing to steal it goes on with the outgoing task, or idles if that
    cannot go on. *)
Theorem schedule_steals_or_idles (this : nat) (sp : Z) (s : sys) :
  inv s -> on_cpu s this sp -> queue_of s this = [] ->
  exists s', schedule (Z.of_nat this) sp s = Some s' /\ inv s' /\
    ((curs s' this = (if competes s this then curs s this else idle_task (rq_of this s)) /\
      (forall d, (d < 8)%nat -> queue_of s' d = queue_of s d)) \/
     (exists p v l1 l2, is_isolated (Z.of_nat this) s = false /\ cpu_affinity (tasks s p) = CPU_AFFINITY_ANY /\
        (v < 8)%nat /\ v <> this /\ queue_of s v = l1 ++ p :: l2 /\ queue_of s' v = l1 ++ l2 /\
        (forall d, (d < 8)%nat -> d <> this -> d <> v -> queue_of s' d = queue_of s d) /\
        ring s' this ≡ₚ p :: if competes s this then [curs s this] else [])).
Proof.
  intros I [Hlt Hsp] Hempty. pose proof I as [K _ _]. pose proof (k_cpus _ _ _ _ K) as Hcc. unfold MAX_CPUS in Hcc.
  destruct (schedule_spec this sp s _ _ (at_schedule_of _ _ _ _ _ I Hlt Hsp))
    as (s' & s1 & Q1 & Q' & E & I' & Hst & Hch & _ & _ & _ & _ & T1 & R1 & _).
  destruct (inv_elim _ _ _ I') as [HQ' _]. exists s'. split; [done|]. split; [by eapply inv_intro|].
  destruct Hch as (Q2 & Hr & Hd & Hnx). rewrite R1 in Hnx.
  assert (Hr' : if competes s this then exists l1 l2, Q1 this = l1 ++ l2 /\ Q2 = <[this := l1 ++ curs s this :: l2]> Q1 else Q2 = Q1).
  { unfold requeued in Hr. rewrite R1 in Hr. destruct (T1 (curs s this)) as (_ & Es & _). rewrite Es in Hr.
    destruct (decide _) as [Hc|Hc] in Hr.
    - rewrite (proj2 (competes_spec s this)) by done. destruct Hr as (l1 & l2 & ? & ? & _). eauto.
    - replace (competes s this) with false; [done|]. symmetry. apply not_true_iff_false. by rewrite competes_spec. }
  destruct Hst as [[-> _]|(p & _ & Hiso & Hp & Haff & v & l1 & l2 & Hv & Hne & HQv & ->)].
  - left. rewrite Hempty in Hr'. destruct (competes s this).
    + destruct Hr' as (l1 & l2 & Hl & ->). symmetry in Hl. apply app_nil in Hl as [-> ->]. rewrite fn_lookup_insert in Hnx.
      destruct Hnx as [Hnx|(? & _)]; [|done]. injection Hnx as Hc Hq. split; [done|]. intros d Hd8. rewrite HQ' by done.
      destruct (decide (d = this)) as [->|Hdt]; [by rewrite <- Hq, Hempty|]. by rewrite Hd, fn_lookup_insert_ne.
    + subst Q2. rewrite Hempty in Hnx. destruct Hnx as [?|(_ & Hq & Hi)]; [done|]. split; [done|]. intros d Hd8. rewrite HQ' by done.
      destruct (decide (d = this)) as [->|Hdt]; [by rewrite Hq, Hempty|]. by apply Hd.
  - right. exists p, v, l1, l2. rewrite fn_lookup_insert in Hr'.
    assert (Hoth : forall d, d <> this -> Q' d = (<[v := l1 ++ l2]> (queue_of s) : nat -> list Z) d).
    { intros d Hdt. rewrite Hd by done. destruct (competes s this); [destruct Hr' as (? & ? & _ & ->)|subst Q2];
        by rewrite ?fn_lookup_insert_ne by done. }
    split_and!; try done.
    + rewrite HQ', Hoth by done. apply fn_lookup_insert.
    + intros d Hd8 Hdt Hdv. rewrite HQ', Hoth by done. by apply fn_lookup_insert_ne.
    + unfold ring. rewrite HQ' by lia. destruct (competes s this).
      * destruct Hr' as (k1 & k2 & Hk & ->). rewrite fn_lookup_insert in Hnx.
        destruct Hnx as [<-|(Hn & _)]; [|by destruct k1]. rewrite <- Permutation_middle, <- Hk. apply Permutation_swap.
      * subst Q2. rewrite fn_lookup_insert in Hnx. by destruct Hnx as [<-|(? & _)].
Qed.

(** ** Round robin *)

(** A task without deadline whose priority, inheritance included, is [P]. *)
Definition peer (P : Z) (t : task) : Prop :=
  deadline_ns t = 0 /\ (if priority t <? pi_priority t then pi_priority t else priority t) = P /\ effective_priority t = P.

Lemma peer_boost P now t : peer P t -> effective_priority (deadline_boost now t) = P.
Proof.
  intros (Hd & Hp & _). unfold deadline_boost. rewrite Hd. simpl. unfold effective_base_priority. done.
Qed.

Lemma peer_carried P t t' : peer P t -> carried t t' -> peer P t'.
Proof.
  intros Hp [[(H1 & H2 & H3) (_ & _ & He)] _]. pose proof Hp as (P1 & P2 & P3). unfold peer. rewrite H1, H2, H3. split_and!; try done.
  destruct He as [->|[_ [now ->]]]; [done|]. by apply peer_boost.
Qed.

Lemma peer_rank P s this : peer P (tasks s (curs s this)) -> rank s this (curs s this) = P.
Proof.
  intros Hp. unfold rank. rewrite Z.eqb_refl. unfold enqueued. apply peer_boost. by destruct Hp as (? & ? & ?).
Qed.

Lemma Forall2_impl' {A B} (R R' : A -> B -> Prop) l k :
  Forall2 R l k -> (forall x y, x ∈ l -> R x y -> R' x y) -> Forall2 R' l k.
Proof.
  induction 1 as [|x y l k Hxy Hl IH]; intros H; constructor.
  - apply H; [apply elem_of_cons; auto|done].
  - apply IH. intros a b Ha. apply H, elem_of_cons. auto.
Qed.

(** One yield among peers moves the running task to the end of the ring. *)
Lemma yield_rotates P this sp s b l :
  inv s -> on_cpu s this sp -> competes s this = true -> Forall (fun p => peer P (tasks s p)) (ring s this) ->
  queue_of s this = b :: l ->
  exists s', yield (Z.of_nat this) sp s = Some s' /\ inv s' /\ ring s' this = (b :: l) ++ [curs s this] /\
    cpu_count s' = cpu_count s /\ competes s' this = true /\
    (forall p, p ∈ ring s this -> carried (tasks s p) (tasks s' p)).
Proof.
  intros I Hon Hc Hp Hq. destruct (schedule_nonempty this sp s I Hon) as (s' & Q' & E & I' & Hx & _ & _ & Hcar & Hrun & Hcc);
    [by rewrite Hq|]. destruct Hx as (l1 & l2 & Hl & Hnew & H1 & H2). rewrite Hc in Hnew.
  assert (Hpq : forall p, p ∈ queue_of s this -> effective_priority (tasks s p) = P).
  { intros p Hin. rewrite Forall_forall in Hp. by destruct (Hp p) as (_ & _ & ?); [apply elem_of_cons; auto|]. }
  assert (Hrk : rank s this (curs s this) = P) by (apply peer_rank; rewrite Forall_forall in Hp; apply Hp, elem_of_cons; auto).
  assert (l2 = []) as ->.
  { destruct l2 as [|x l2]; [done|]. specialize (H2 x eq_refl Hc). rewrite Hrk, Hpq in H2; [lia|].
    rewrite Hl, elem_of_app, elem_of_cons. auto. }
  rewrite app_nil_r in Hl. rewrite <- Hl, Hq in Hnew. pose proof I as [K _ _]. destruct Hon as [Hlt _].
  pose proof (k_cpus _ _ _ _ K) as Hcpus. unfold MAX_CPUS in Hcpus.
  assert (Hcs : curs s' this = b) by (by injection Hnew). pose proof (inv_intro _ _ _ I') as Iv'.
  assert (Hcar' : forall p, p ∈ ring s this -> carried (tasks s p) (tasks s' p)).
  { intros p [->|Hin]%elem_of_cons; apply Hcar; [right; by eauto|left].
    destruct (k_queued _ _ _ _ K this p ltac:(lia) Hin) as (_ & -> & _). done. }
  exists s'. split_and!; try done.
  apply competes_spec. rewrite Hcs in *. assert (Hb : b ∈ queue_of s this) by (rewrite Hq; apply elem_of_cons; auto).
  destruct (k_queued _ _ _ _ K this b ltac:(lia) Hb) as ([? ?] & _ & _ & Hi). split_and!; [lia|done|].
  intros Eb. destruct Iv' as [K' _ _]. destruct (k_idle _ _ _ _ K' this ltac:(lia)) as (_ & Hi' & _). rewrite <- Eb in Hi'.
  destruct (Hcar' b ltac:(apply elem_of_cons; auto)) as (_ & Hf & _). unfold idle, is_idle_task in *. congruence.
Qed.

Fixpoint yields (this : nat) (sps : list Z) (s : sys) : option sys :=
  match sps with
  | [] => Some s
  | sp :: sps => s ← yield (Z.of_nat this) sp s; yields this sps s
  end.

(** C23. No task starves among its peers: when the running task and the tasks in the queue
    of its CPU have the same priority and no deadlines, [k] yields, each with a stack
    pointer inside the stack of the task then running, rotate the ring of those tasks by
    [k], for every [k] up to the length of the queue; so the task at position [k] of the
    queue runs after exactly [k] yields. *)
Theorem yield_round_robin (P : Z) (this : nat) (sps : list Z) (s : sys) :
  inv s -> Z.of_nat this < cpu_count s -> competes s this = true ->
  Forall (fun p => peer P (tasks s p)) (ring s this) -> (length sps <= length (queue_of s this))%nat ->
  Forall2 (fun p sp => sp_ok (tasks s p) sp) (take (length sps) (ring s this)) sps ->
  exists s', yields this sps s = Some s' /\ inv s' /\
    ring s' this = drop (length sps) (ring s this) ++ take (length sps) (ring s this) /\
    Some (curs s' this) = ring s this !! length sps.
Proof.
  intros I Hlt Hc Hp Hlen Hsp. cut (exists s', yields this sps s = Some s' /\ inv s' /\
    ring s' this = drop (length sps) (ring s this) ++ take (length sps) (ring s this)).
  { intros (s' & E & I' & Hr). exists s'. split_and!; try done.
    destruct (lookup_lt_is_Some_2 (ring s this) (length sps)) as [x Hx]; [unfold ring; simpl; lia|].
    rewrite Hx. rewrite (drop_S _ _ _ Hx) in Hr. by injection Hr as -> _. }
  revert s I Hlt Hc Hp Hlen Hsp. induction sps as [|sp sps IH]; intros s I Hlt Hc Hp Hlen Hsp.
  { exists s. split_and!; try done. simpl. by rewrite app_nil_r. }
  cbn [length] in *. destruct (queue_of s this) as [|b l] eqn:Hq; [simpl in Hlen; lia|].
  assert (Hring : ring s this = curs s this :: b :: l) by (unfold ring; by rewrite Hq). rewrite Hring in Hsp.
  cbn [take] in Hsp. apply Forall2_cons in Hsp as [Hsp0 Hsp].
  destruct (yield_rotates P this sp s b l I (conj Hlt Hsp0) Hc Hp Hq) as (s1 & E1 & I1 & Hr1 & Hcc & Hc1 & Hcar).
  rewrite Hring in *. assert (Hq1 : queue_of s1 this = l ++ [curs s this]) by (by injection Hr1).
  destruct (IH s1) as (s' & E' & I' & Hr'); try done.
  - by rewrite Hcc.
  - rewrite Hr1. apply Forall_forall. intros p Hin. rewrite Forall_forall in Hp.
    assert (p ∈ curs s this :: b :: l) by (rewrite elem_of_app, list_elem_of_singleton in Hin; rewrite elem_of_cons; tauto).
    eapply peer_carried; [by apply Hp|by apply Hcar].
  - rewrite Hq1, length_app. simpl in *. lia.
  - rewrite Hr1, take_app_le by (simpl in *; lia). eapply Forall2_impl'; [done|].
    intros p q Hin Hs. destruct (Hcar p) as (_ & _ & Eb & Et); [rewrite elem_of_cons; right|].
    + eapply elem_of_take in Hin as (i & Hi & _). by eapply list_elem_of_lookup_2.
    + unfold sp_ok. rewrite Eb, Et. exact Hs.
  - exists s'. cbn [yields]. rewrite E1. split_and!; try done. rewrite Hr', Hr1. cbn [drop take].
    rewrite drop_app_le, take_app_le, <- app_assoc by (simpl in *; lia). done.
Qed.

End held.

(** ** Examples *)

#[local] Existing Instance SchedBoot.nothing_held.

(** Three tasks of the same priority on CPU 0, the first running; CPU 1 idles. *)
Definition busy_session : list call :=
  [StartCpu 0; StartCpu 1; CreateTask None 0x3000 0 4; CreateTask None 0x3000 0 4; CreateTask None 0x3000 0 4;
   AddTaskToCpu 3 0; AddTaskToCpu 4 0; AddTaskToCpu 5 0; Yield 0 0x40050000].

Lemma busy_inv : inv (after busy_session).
Proof. apply after_inv. vm_compute. reflexivity. Qed.

Lemma busy_facts :
  queue_of (after busy_session) 0 = [4; 5] /\ curs (after busy_session) 0 = 3 /\ queue_of (after busy_session) 1 = [] /\
  on_cpub (after busy_session) 0 0x400d0000 = true /\ on_cpub (after busy_session) 1 0x40090000 = true /\
  effective_priority (tasks (after busy_session) 4) = 4 /\ effective_priority (tasks (after busy_session) 5) = 4.
Proof. vm_compute. repeat split. Qed.

#[local] Opaque after.

(** Witness of C18: the three tasks of CPU 0. *)
Lemma schedule_runs_highest_priority_witness :
  exists s', schedule 0 0x400d0000 (after busy_session) = Some s' /\ inv s'.
Proof.
  destruct busy_facts as (H1 & H2 & H3 & H4 & H5 & E4 & E5).
  destruct (schedule_runs_highest_priority 0 0x400d0000 (after busy_session) busy_inv) as (s' & E & I & _).
  - apply on_cpub_sound. exact H4.
  - rewrite H1. discriminate.
  - rewrite H1. unfold by_priority. repeat constructor; rewrite E4, E5; lia.
  - exists s'. split; assumption.
Defined.

(** Witness of C29: CPU 1 of the same machine. *)
Lemma schedule_steals_or_idles_witness :
  exists s', schedule 1 0x40090000 (after busy_session) = Some s' /\ inv s'.
Proof.
  destruct busy_facts as (H1 & H2 & H3 & H4 & H5 & _).
  destruct (schedule_steals_or_idles 1 0x40090000 (after busy_session) busy_inv) as (s' & E & I & _).
  - apply on_cpub_sound. exact H5.
  - exact H3.
  - exists s'. split; assumption.
Defined.

Definition peerb (P : Z) (t : task) : bool :=
  (deadline_ns t =? 0) && ((if priority t <? pi_priority t then pi_priority t else priority t) =? P) &&
  (effective_priority t =? P).

Lemma peerb_sound P t : peerb P t = true -> peer P t.
Proof. unfold peerb, peer. rewrite !andb_true_iff, !Z.eqb_eq. tauto. Qed.

(** Witness of C23: two yields give the CPU to task 5. *)
Lemma yield_round_robin_witness :
  exists s', yields 0 [0x400d0000; 0x40110000] (after busy_session) = Some s' /\ inv s' /\ Some (curs s' 0) = Some 5.
Proof.
  destruct busy_facts as (H1 & H2 & _). assert (Hr : ring (after busy_session) 0 = [3; 4; 5]) by (unfold ring; rewrite H1, H2; reflexivity).
  destruct (yield_round_robin 4 0 [0x400d0000; 0x40110000] (after busy_session) busy_inv) as (s' & E & I & _ & Hc).
  - vm_compute. reflexivity.
  - vm_compute. reflexivity.
  - rewrite Hr. apply Forall_cons_2; [|apply Forall_cons_2; [|apply Forall_cons_2; [|apply Forall_nil_2]]];
      apply peerb_sound; vm_compute; reflexivity.
  - rewrite H1. reflexivity.
  - rewrite Hr. apply Forall2_cons_2; [|apply Forall2_cons_2; [|apply Forall2_nil_2]];
      intros _ _; vm_compute; split; discriminate.
  - exists s'. rewrite Hr in Hc. split; [assumption|split; assumption].
Defined.

End SchedPick.
