(* ===== verification/SchedPlace.v ===== *)
(** Where tasks go: creation, placement on run queues, sleeping and waking. *)

From Stdlib Require Import Sorting.Sorted.
From S2P Require Import Prelude FreeList Buddy BuddyInv BuddyStep BuddySpec PmmSpec.
From S2P Require Import StealDeque Task Sys Sched TaskSleep Heuristic RunQueue SchedInv Dispatch SchedCalls SchedSleep.
From S2P Require Import TaskLife SchedBoot SchedSpec SchedPick.

Open Scope Z_scope.
Open Scope slm_scope.

Module SchedPlace.
Import Task Sys Sched TaskSleep RunQueue SchedInv Dispatch SchedCalls SchedSleep TaskLife SchedSpec SchedPick.

Section held.
Context {G : Ghost}.

#[local] Opaque after.

(** ** Placement *)

Lemma sorted_before s l1 l2 a b : by_priority s (l1 ++ l2) -> a ∈ l1 -> b ∈ l2 ->
  effective_priority (tasks s b) <= effective_priority (tasks s a).
Proof.
  unfold by_priority. induction l1 as [|x l1 IH]; intros H Ha Hb; [by apply not_elem_of_nil in Ha|].
  simpl in H. apply StronglySorted_inv in H as [H Hf]. apply elem_of_cons in Ha as [->|Ha]; [|by apply IH].
  rewrite Forall_forall in Hf. apply Hf, elem_of_app. auto.
Qed.

(** Inserting behind the tasks of at least the same priority keeps a queue ordered. *)
Lemma insert_sorted s s' p l1 l2 :
  by_priority s (l1 ++ l2) -> p ∉ l1 ++ l2 -> (forall a, a <> p -> effective_priority (tasks s' a) = effective_priority (tasks s a)) ->
  Forall (fun a => effective_priority (tasks s' p) <= effective_priority (tasks s a)) l1 ->
  (forall a, hd_error l2 = Some a -> effective_priority (tasks s a) < effective_priority (tasks s' p)) ->
  by_priority s' (l1 ++ p :: l2) /\ Forall (fun a => effective_priority (tasks s a) < effective_priority (tasks s' p)) l2.
Proof.
  intros Hs Hp Heq H1 H2. assert (Hlt : Forall (fun a => effective_priority (tasks s a) < effective_priority (tasks s' p)) l2).
  { apply Forall_forall. intros a Ha. destruct l2 as [|b l2]; [by apply not_elem_of_nil in Ha|]. specialize (H2 b eq_refl).
    apply elem_of_cons in Ha as [->|Ha]; [done|]. replace (l1 ++ b :: l2) with ((l1 ++ [b]) ++ l2) in Hs by (by rewrite <- app_assoc).
    pose proof (sorted_before s (l1 ++ [b]) l2 b a Hs ltac:(rewrite elem_of_app, list_elem_of_singleton; auto) Ha). lia. }
  split; [|done]. assert (Hne : forall a, a ∈ l1 \/ a ∈ l2 -> a <> p) by (intros a Ha ->; apply Hp, elem_of_app; tauto).
  clear H2. unfold by_priority in *. induction l1 as [|x l1 IH]; simpl in *.
  - constructor.
    + clear -Hs Heq Hne. induction Hs as [|b l H IH Hf]; constructor.
      * apply IH. intros a Ha. apply Hne. rewrite elem_of_cons. tauto.
      * apply Forall_forall. intros a Ha. rewrite Forall_forall in Hf. rewrite !Heq by (apply Hne; rewrite elem_of_cons; auto). auto.
    + rewrite Forall_forall in Hlt |- *. intros a Ha. rewrite Heq by (apply Hne; auto). specialize (Hlt a Ha). lia.
  - apply StronglySorted_inv in Hs as [Hs Hf]. apply Forall_cons in H1 as [Hx H1]. rewrite not_elem_of_cons in Hp. destruct Hp as [Hxp Hp].
    constructor.
    + apply IH; try done. intros a Ha. apply Hne. rewrite elem_of_cons. tauto.
    + assert (Ex : effective_priority (tasks s' x) = effective_priority (tasks s x)) by (apply Heq; congruence). rewrite Ex.
      rewrite Forall_forall in Hf |- *. intros a. rewrite elem_of_app, elem_of_cons. intros [Ha|[->|Ha]].
      * rewrite Heq by (apply Hne; rewrite elem_of_cons; auto). apply Hf, elem_of_app. auto.
      * done.
      * rewrite Heq by (apply Hne; auto). apply Hf, elem_of_app. auto.
Qed.

Lemma sbn_eff t t' : same_but_next t t' -> effective_priority t = effective_priority t'.
Proof. intros H. by apply (f_equal effective_priority) in H. Qed.

(** C25. [scheduler_add_task] puts a READY task that is in no place into the queue of an
    existing CPU: its own CPU if it is pinned, otherwise one that is not isolated (CPU 0
    never is, [sched_isolate_core] refuses it).  In that queue it goes behind all tasks
    of at least its priority and before all others, so an ordered queue stays ordered.
    All other queues, the sleepers and the running tasks are as before. *)
Theorem scheduler_add_task_places (pol : policy) `{!PolicyOk pol} (p : Z) (s : sys) :
  inv s -> free_task s p -> state (tasks s p) = TASK_READY ->
  exists s' c l1 l2, scheduler_add_task pol p s = Some s' /\ inv s' /\ Z.of_nat c < cpu_count s /\
    (cpu_affinity (tasks s p) <> CPU_AFFINITY_ANY -> Z.of_nat c = cpu_affinity (tasks s p)) /\
    (cpu_affinity (tasks s p) = CPU_AFFINITY_ANY -> is_isolated 0 s = false -> is_isolated (Z.of_nat c) s = false) /\
    queue_of s c = l1 ++ l2 /\ queue_of s' c = l1 ++ p :: l2 /\
    Forall (fun a => effective_priority (tasks s' p) <= effective_priority (tasks s a)) l1 /\
    (by_priority s (queue_of s c) -> by_priority s' (queue_of s' c) /\
       Forall (fun a => effective_priority (tasks s a) < effective_priority (tasks s' p)) l2) /\
    (forall d, (d < 8)%nat -> d <> c -> queue_of s' d = queue_of s d) /\
    sleepers s' = sleepers s /\ (forall d, curs s' d = curs s d).
Proof.
  intros I F Hst. pose proof I as [K _ _]. destruct (add_task_spec pol s _ _ _ p K F Hst) as (s' & c & Q' & E & K' & P).
  destruct (pl_queue _ _ _ _ _ _ P) as (l1 & l2 & Hl & HQ & H1 & H2). pose proof (pl_env _ _ _ _ _ _ P) as He.
  pose proof (pl_cpu _ _ _ _ _ _ P) as Hc. pose proof (k_cpus _ _ _ _ K) as Hcc. unfold MAX_CPUS in Hcc.
  assert (Hct : current_task s' = current_task s) by (unfold env in He; congruence).
  pose proof (sbn_eff _ _ (pl_self _ _ _ _ _ _ P)) as Hp. rewrite <- Hp in H1, H2.
  exists s', c, l1, l2. rewrite (queue_of_core _ _ _ _ c K' ltac:(lia)), HQ, fn_lookup_insert.
  split; [done|]. split; [by eapply inv_by_core|]. split_and!; try done; try apply P.
  - intros Hso. rewrite Hl in Hso. apply (insert_sorted s); try done.
    + rewrite <- Hl. apply F. lia.
    + intros a Ha. apply sbn_eff, P, Ha.
  - intros d Hd Hne. rewrite (queue_of_core _ _ _ _ d K') by done. by rewrite HQ, fn_lookup_insert_ne.
  - by eapply sleepers_core.
  - intros d. unfold curs. by rewrite Hct.
Qed.

(** ** Creation *)

(** [task_create_with_priority] fills the first unused slot of the table, gives it the
    next id and a stack that was free and is now allocated, disjoint from the stacks of
    all other tasks, and leaves the task READY, unpinned, in no queue.  If the table is full or no 256 KiB block is free it returns NULL and gives the
    block back; then no task and no free page has changed.  No other TCB changes. *)
Theorem task_create_correct (wrapper : Z) (nm : option (list Z)) (entry arg prio : Z) (s : sys) :
  inv s -> next_task_id s <> 0 ->
  exists p s', task_create_with_priority wrapper nm entry arg prio s = Some (p, s') /\ inv s' /\
    (forall q, q <> p -> tasks s' q = tasks s q) /\
    (if p =? 0 then
       (BuddySpec.exhausted (heap s) STACK_ORDER \/ (forall q, in_table q -> id (tasks s q) <> 0)) /\
       (forall x, BuddyInv.is_free (heap s') x <-> BuddyInv.is_free (heap s) x)
     else
       in_table p /\ id (tasks s p) = 0 /\ (forall q, 1 <= q < p -> id (tasks s q) <> 0) /\
       free_task s' p /\ id (tasks s' p) = next_task_id s /\ state (tasks s' p) = TASK_READY /\
       cpu_affinity (tasks s' p) = CPU_AFFINITY_ANY /\
       BuddySpec.allocated (heap s) (heap s') STACK_ORDER (stack_base (tasks s' p)) /\
       (forall q x, in_table q -> q <> p -> stack_base (tasks s' q) <> 0 ->
          BuddyInv.in_block (stack_base (tasks s' p)) STACK_ORDER x ->
          ~ BuddyInv.in_block (stack_base (tasks s' q)) STACK_ORDER x)).
Proof.
  intros I Hid. pose proof I as [K _ _].
  destruct (task_create_spec wrapper nm entry arg prio s _ _ _ K Hid) as (p & s' & E & K' & He & H).
  assert (I' : inv s') by (by eapply inv_by_core). exists p, s'. split; [done|]. split; [done|].
  destruct H as [(-> & Ht & Hf & Hx)|(F & Fl & Hal & _)]; [split; [by intros q _; rewrite Ht|done]|].
  destruct F as [Htab Hun Hfst [Fid Fst _ Faff _ _] Hoth _]. pose proof Htab as [? ?]. split; [done|].
  rewrite (proj2 (Z.eqb_neq p 0)) by lia. split_and!; try done.
  - assert (Hct : current_task s' = current_task s) by (unfold env in He; congruence). destruct Fl. constructor; try done.
    + intros c Hc. rewrite (queue_of_core _ _ _ _ c K') by done. auto.
    + by rewrite (sleepers_core _ _ _ _ K').
    + intros c. unfold curs. rewrite Hct. apply fl_cur0.
  - intros q x Hq Hne Hb Hx Hx'. apply Hne. symmetry.
    destruct Hal as (_ & Hal & _). pose proof (k_stacks _ _ _ _ K) as Hss. pose proof (stk_inv _ _ _ Hss) as Hinv.
    eapply (stk_disj _ _ _ (k_stacks _ _ _ _ K')); try done. intros E0.
    destruct (BuddySpec.inv_binv _ Hinv) as [L Hi]. pose proof (BuddyInv.g_pos _ (BuddyInv.b_geom _ _ _ Hi)). lia.
Qed.

(** ** Sleeping *)

(** C26. [task_wake_sleepers] takes exactly the sleepers whose wake-up time has come off the
    sleep queue; the others stay asleep, in the same order.  Every woken task is in the
    queue of an existing CPU with its wake-up time cleared; no queue gains or loses any
    other task, and the running tasks stay the same. *)
Theorem wake_sleepers_exact (pol : policy) `{!PolicyOk pol} (s : sys) :
  inv s ->
  exists s', task_wake_sleepers pol s = Some s' /\ inv s' /\
    sleepers s' = filter (fun a => timer_count s < wake_time_ns (tasks s a)) (sleepers s) /\
    (forall a, a ∈ sleepers s -> wake_time_ns (tasks s a) <= timer_count s ->
       wake_time_ns (tasks s' a) = 0 /\ exists c, Z.of_nat c < cpu_count s /\ a ∈ queue_of s' c) /\
    (forall c a, (c < 8)%nat -> ~ (a ∈ sleepers s /\ wake_time_ns (tasks s a) <= timer_count s) ->
       a ∈ queue_of s' c <-> a ∈ queue_of s c) /\
    (forall c, curs s' c = curs s c).
Proof.
  intros I. destruct (wake_sleepers_spec pol s _ _ I) as (s1 & s' & Q' & E & I' & Hsb & He1 & [He Hin Hrest Htime _]).
  destruct (inv_elim _ _ _ I') as [HQ HS]. exists s'. split; [done|]. split; [by eapply inv_intro|].
  assert (Hcc : cpu_count s1 = cpu_count s /\ current_task s' = current_task s) by (unfold env in *; split; congruence).
  destruct Hcc as [Hcc Hct]. pose proof I as [K _ _]. pose proof (k_cpus _ _ _ _ K) as Hcpus. unfold MAX_CPUS in Hcpus.
  assert (HW : forall a, a ∈ reverse (filter (fun a => expired s (timer_count s) a = true) (sleepers s)) <->
    a ∈ sleepers s /\ wake_time_ns (tasks s a) <= timer_count s).
  { intros a. rewrite elem_of_reverse, list_elem_of_filter. unfold expired. rewrite Z.leb_le. tauto. }
  split_and!.
  - rewrite HS. apply list_filter_iff. intros a. unfold expired. by rewrite Z.leb_gt.
  - intros a Ha Hw. split; [apply Htime; by apply HW|]. destruct (Hin a) as (c & Hc & Hq); [by apply HW|].
    exists c. rewrite Hcc in Hc. split; [done|]. rewrite HQ; [done|lia].
  - intros c a Hc Ha. rewrite HQ by done. apply Hrest; [done|]. by rewrite HW.
  - intros c. unfold curs. by rewrite Hct.
Qed.

(** No early wake-up is lost: [task_sleep_wake] on a task that runs, and so is not yet
    in the sleep queue, makes its next [task_sleep_ms] return at once with the task still
    running, and consumes the wake-up. *)
Theorem early_wakeup_not_lost (pol : policy) `{!PolicyOk pol} (this : nat) (sp ms : Z) (s : sys) :
  inv s -> Z.of_nat this < cpu_count s -> curs s this <> 0 -> state (tasks s (curs s this)) = TASK_RUNNING ->
  0 < ms -> 0 < timer_freq s ->
  exists s1 s2, task_sleep_wake pol (curs s this) s = Some s1 /\ task_sleep_ms (Z.of_nat this) sp ms s1 = Some s2 /\
    curs s2 this = curs s this /\ state (tasks s2 (curs s this)) = TASK_RUNNING /\ sleepers s2 = sleepers s /\
    Z.testbit (flags (tasks s2 (curs s this))) 1 = false.
Proof.
  intros I Hlt Hc Hrun Hms Hfr. pose proof I as [K Hl Haw]. set (p := curs s this) in *.
  pose proof (k_cpus _ _ _ _ K) as Hcc. unfold MAX_CPUS in Hcc. unfold task_sleep_wake.
  rewrite (proj2 (Z.eqb_neq p 0)) by done. rewrite (chain_head _ _ _ (k_chain _ _ _ _ K)).
  pose proof (sleepers_length _ _ _ _ K) as Hlen.
  destruct (unlink_sleeper_spec QUEUE_FUEL p s (queue_of s) [] (sleepers s) (curs s) K (not_elem_of_nil _))
    as [[Hn E]|(R1 & R2 & HR & E)]; [unfold QUEUE_FUEL; lia| |].
  2:{ destruct (awake_asleep _ _ (Haw this)). fold p. simpl in HR. rewrite HR, elem_of_app, elem_of_cons. auto. }
  change (default 0 (last [])) with 0 in E. rewrite E. unfold mbind, option_bind.
  set (s1 := upd p _ s). assert (Hf1 : tasks s1 p = set_flags (Z.lor (flags (tasks s p)) TASK_FLAG_WAKEUP_PENDING) (tasks s p))
    by (unfold s1; by rewrite tasks_upd_eq).
  set (s2 := upd p (fun t => set_flags (Z.ldiff (flags t) TASK_FLAG_WAKEUP_PENDING) t) s1).
  assert (Hf2 : tasks s2 p = set_flags (Z.ldiff (flags (tasks s1 p)) TASK_FLAG_WAKEUP_PENDING) (tasks s1 p))
    by (unfold s2; by rewrite tasks_upd_eq).
  exists s1, s2. split; [done|]. split.
  - unfold task_sleep_ms, sleep_enqueue. rewrite current_curs by lia. change (curs s1 this) with p.
    change (timer_freq s1) with (timer_freq s). rewrite !(proj2 (Z.eqb_neq _ 0)) by lia.
    rewrite Hf1. cbn [flags set_flags]. assert (Hb : Z.testbit (Z.land (Z.lor (flags (tasks s p)) 2) 2) 1 = true)
      by (rewrite Z.land_spec, Z.lor_spec; by rewrite orb_true_r).
    change TASK_FLAG_WAKEUP_PENDING with 2. rewrite (proj2 (Z.eqb_neq _ 0)); [done|]. intros E0. by rewrite E0 in Hb.
  - split_and!; try done.
    + by rewrite Hf2, Hf1.
    + unfold sleepers. change (sleep_queue_head s2) with (sleep_queue_head s).
      apply walk_ext. intros a. unfold s2, s1. destruct (decide (a = p)) as [->|].
      * by rewrite !tasks_upd_eq.
      * by rewrite !tasks_upd_ne by done.
    + rewrite Hf2. cbn [flags set_flags]. rewrite Z.ldiff_spec. apply andb_false_r.
Qed.

End held.

(** ** Examples *)

#[local] Existing Instance SchedBoot.nothing_held.

(** A machine with a created task that has not been added yet, CPU 1 isolated. *)
Definition new_session : list call :=
  [StartCpu 0; StartCpu 1; IsolateCore 1; CreateTask None 0x3000 0 4; CreateTask None 0x3000 0 4; AddTaskToCpu 4 0].

(** Witness of C25: the new task of the two-CPU machine. *)
Lemma scheduler_add_task_places_witness :
  exists s', scheduler_add_task Heuristic.sched_policy_heuristic 3 (after new_session) = Some s' /\ inv s'.
Proof.
  destruct (scheduler_add_task_places Heuristic.sched_policy_heuristic 3 (after new_session)) as (s' & c & l1 & l2 & E & I & _).
  - apply after_inv. vm_compute. reflexivity.
  - apply free_taskb_sound. vm_compute. reflexivity.
  - vm_compute. reflexivity.
  - exists s'. split; assumption.
Defined.

(** An instance: a third task on the two-CPU machine. *)
Lemma task_create_correct_witness :
  exists p s', task_create_with_priority 0x1000 None 0x3000 0 4 SchedBoot.machine = Some (p, s') /\ inv s'.
Proof.
  destruct (task_create_correct 0x1000 None 0x3000 0 4 SchedBoot.machine machine_start) as (p & s' & E & I & _).
  - vm_compute. discriminate.
  - exists p, s'. split; assumption.
Defined.

(** A task of CPU 0 sleeps for a second on a machine whose timer stands still. *)
Definition asleep_session : list call :=
  [StartCpu 0; StartCpu 1; CreateTask None 0x3000 0 4; AddTaskToCpu 3 0; Yield 0 0x40050000; SleepMs 0 0x400d0000 1000].

(** Witness of C26: the sleeping task of the two-CPU machine. *)
Lemma wake_sleepers_exact_witness :
  exists s', task_wake_sleepers Heuristic.sched_policy_heuristic (after asleep_session) = Some s' /\ inv s' /\
    sleepers (after asleep_session) = [3].
Proof.
  destruct (wake_sleepers_exact Heuristic.sched_policy_heuristic (after asleep_session)) as (s' & E & I & _).
  - apply after_inv. vm_compute. reflexivity.
  - exists s'. split; [assumption|]. split; [assumption|]. vm_compute. reflexivity.
Defined.

(** An instance: the running task of CPU 0. *)
Lemma early_wakeup_not_lost_witness :
  exists s1 s2, task_sleep_wake Heuristic.sched_policy_heuristic 3 (after busy_session) = Some s1 /\
    task_sleep_ms 0 0x400d0000 5 s1 = Some s2.
Proof.
  assert (Hc : curs (after busy_session) 0 = 3) by (vm_compute; reflexivity).
  destruct (early_wakeup_not_lost Heuristic.sched_policy_heuristic 0 0x400d0000 5 (after busy_session) busy_inv)
    as (s1 & s2 & E1 & E2 & _).
  - vm_compute. reflexivity.
  - rewrite Hc. discriminate.
  - vm_compute. reflexivity.
  - reflexivity.
  - vm_compute. reflexivity.
  - exists s1, s2. rewrite Hc in E1. split; assumption.
Defined.

End SchedPlace.
