(* ===== verification/TaskKill.v ===== *)
(** Killing tasks from the shell and from Lua ([cmd_kill] of [shell_exec.c], [l_task_kill]
    of [lua_slm.c]).

    Killing a task that waits in a run queue is sound.  The other theorems are executions
    on the two-CPU machine that show what happens outside of that case: a sleeping task is
    resurrected by the next timer tick, the Lua call does not free anything and can panic
    the kernel, and the periodic rebalancing does not respect isolated cores. *)

From S2P Require Import Prelude FreeList Buddy BuddyInv BuddyStep BuddySpec PmmSpec.
From S2P Require Import StealDeque Task Sys Sched TaskSleep Heuristic RunQueue SchedInv Dispatch SchedCalls SchedSleep.
From S2P Require Import TaskLife SchedBoot SchedSpec SchedPick SchedPlace.

Open Scope Z_scope.
Open Scope slm_scope.

Module TaskKill.
Import Task Sys Sched TaskSleep RunQueue SchedInv Dispatch SchedCalls SchedSleep TaskLife SchedSpec SchedPick SchedPlace.

Section held.
Context {G : Ghost}.

(** [cmd_kill] on CPU [this] once the argument has been parsed: the exit code. *)
Definition cmd_kill (this pid : Z) (s : sys) : option (Z * sys) :=
  let target := task_get pid s in
  if target =? 0 then Some (-1, s)
  else if target =? task_current_on_cpu this s then Some (-1, s)
  else if is_idle_task (Some (tasks s target)) then Some (-1, s)
  else if bool_decide (state (tasks s target) = TASK_TERMINATED) then Some (0, s)
  else
    let s := upd target (set_state TASK_TERMINATED) s in
    s ← scheduler_remove_task target s;
    s ← task_destroy target s;
    Some (0, s).

(** [l_task_kill]: the boolean handed back to Lua. *)
Definition l_task_kill (this task_id : Z) (s : sys) : option (bool * sys) :=
  if task_id <=? 0 then Some (false, s)
  else
    let t := task_get (u32 task_id) s in
    if (t =? 0) || bool_decide (state (tasks s t) = TASK_TERMINATED) then Some (false, s)
    else if t =? task_current_on_cpu this s then Some (false, s)
    else
      s ← scheduler_remove_task t s;
      s ← task_destroy t s;
      Some (true, s).

(** [kill] on a task that waits in the run queue of a CPU succeeds: the task leaves
    the queue, whose other tasks keep their order, its slot is free for reuse, and the
    scheduler's invariant holds. *)
Theorem kill_queued_task (this pid : Z) (c : nat) (s : sys) :
  inv s -> Z.of_nat c < cpu_count s -> 0 <= this < MAX_CPUS -> task_get pid s ∈ queue_of s c ->
  exists s' l1 l2, cmd_kill this pid s = Some (0, s') /\ inv s' /\
    queue_of s c = l1 ++ task_get pid s :: l2 /\ queue_of s' c = l1 ++ l2 /\
    (forall d, (d < 8)%nat -> d <> c -> queue_of s' d = queue_of s d) /\
    id (tasks s' (task_get pid s)) = 0 /\ stack_base (tasks s' (task_get pid s)) = 0 /\
    (forall q, q <> task_get pid s -> stack_base (tasks s' q) = stack_base (tasks s q)).
Proof.
  intros I Hlt Hth Hin. set (p := task_get pid s) in *. pose proof I as [K Hl Haw].
  pose proof (k_cpus _ _ _ _ K) as Hcc. unfold MAX_CPUS in *. assert (Hc : (c < 8)%nat) by lia.
  destruct (k_queued _ _ _ _ K c p Hc Hin) as ([? ?] & Hst & Has & Hi).
  destruct (inv_one_place s I p ltac:(lia)) as (_ & _ & H3 & _). destruct (H3 c Hc Hin) as (_ & Hns & Hnc).
  unfold cmd_kill. fold p. rewrite (proj2 (Z.eqb_neq p 0)) by lia.
  replace this with (Z.of_nat (Z.to_nat this)) by lia. rewrite current_curs by lia.
  rewrite (proj2 (Z.eqb_neq p _)) by (intros E; by apply (Hnc (Z.to_nat this))).
  unfold idle in Hi. rewrite Hi. fold (idle s p) in Hi. rewrite bool_decide_false by congruence. cbv zeta.
  destruct (queued_where _ _ _ _ _ _ K Hc Hin) as (l1 & l2 & HQ & _).
  destruct (link_out_terminate _ _ _ _ _ _ _ _ K Hc HQ (awake_asleep _ _ Hns) Hi) as (s1 & Hrem & K1 & He1 & Hsk & F1 & Hst1).
  unfold scheduler_remove_task, deref. rewrite (proj2 (Z.eqb_neq p 0)), tasks_upd_eq by lia.
  change (assigned_cpu (set_state TASK_TERMINATED (tasks s p))) with (assigned_cpu (tasks s p)). rewrite Has.
  rewrite (proj2 (Z.leb_gt _ _)) by done. rewrite Hrem. unfold mbind at 1 3, option_bind at 1 3. cbv beta iota.
  unfold mbind at 1, option_bind at 1. set (s2 := with_task_count _ s1).
  assert (K2 : core s2 (<[c := l1 ++ l2]> (queue_of s)) (sleepers s) (curs s)) by (by apply core_count).
  assert (F2 : floating s2 (<[c := l1 ++ l2]> (queue_of s)) (sleepers s) (curs s) p).
  { by eapply floating_ext; [exact F1|done|apply F1|]. }
  destruct (core_destroy _ _ _ _ _ K2 F2 Hst1) as (s3 & -> & K3 & Hoth & Hp & _ & He3).
  exists s3, l1, l2. unfold mbind, option_bind. split; [done|]. split; [eapply inv_by_core; [done|done|by rewrite He3]|].
  rewrite (queue_of_core _ _ _ _ c K3) by done. rewrite fn_lookup_insert, Hp. split_and!; try done.
  - intros d Hd Hne. rewrite (queue_of_core _ _ _ _ d K3) by done. by apply fn_lookup_insert_ne.
  - intros q Hq. rewrite Hoth by done. apply Hsk.
Qed.

End held.

#[local] Existing Instance SchedBoot.nothing_held.

(** An instance: task 5 waits behind task 4 on CPU 0. *)
Lemma kill_queued_task_witness :
  exists s', cmd_kill 0 5 (after busy_session) = Some (0, s') /\ inv s'.
Proof.
  destruct (kill_queued_task 0 5 0 (after busy_session) busy_inv) as (s' & l1 & l2 & E & I & _).
  - vm_compute. reflexivity.
  - unfold MAX_CPUS. lia.
  - destruct busy_facts as (-> & _). replace (task_get 5 (after busy_session)) with 5 by (vm_compute; reflexivity).
    rewrite !elem_of_cons. auto.
  - exists s'. split; assumption.
Defined.

(** ** Executions outside of that case *)

Definition at_time (now : Z) (s : sys) : sys :=
  Sys (tasks s) (rqs s) (deques s) (current_task s) (preempt_disabled s) (task_count s) (context_switches s) (timer_ticks s)
    (isolated_cores s) (cpu_count s) (sleep_queue_head s) (rr_next s) (rebalance_tick_counter s) (rebalance_migrations s)
    (diag s) (next_task_id s) (heap s) (cleanups s) (now_ns s) now (timer_freq s).

(** [kill] on a sleeping task frees its slot and its stack but leaves it in the sleep
    queue: when its time comes, the wake-up makes the freed slot READY again and puts it
    into a run queue, without an id and without a stack. *)
Theorem killed_sleeper_resurrected :
  match cmd_kill 0 3 (after asleep_session) with
  | Some (r, s1) =>
      r = 0 /\ id (tasks s1 3) = 0 /\ stack_base (tasks s1 3) = 0 /\ sleepers s1 = [3] /\
      match task_wake_sleepers Heuristic.sched_policy_heuristic (at_time 2000000 s1) with
      | Some s2 => state (tasks s2 3) = TASK_READY /\ queue_of s2 0 ++ queue_of s2 1 = [3] /\ id (tasks s2 3) = 0
      | None => False
      end
  | None => False
  end.
Proof. vm_compute. repeat split. Qed.

(** The Lua call [slm.task_kill] does not mark the task TERMINATED, so [task_destroy]
    refuses: the call reports success, but the task keeps its slot and its stack, READY
    and in no queue, where nothing will ever run or reclaim it.  On the id of an idle
    task, which is not 0, it panics. *)
Theorem lua_kill_leaks_and_panics :
  match l_task_kill 0 5 (after busy_session) with
  | Some (r, s1) =>
      r = true /\ id (tasks s1 5) = 5 /\ stack_base (tasks s1 5) = stack_base (tasks (after busy_session) 5) /\
      state (tasks s1 5) = TASK_READY /\ queue_of s1 0 = [4] /\ queue_of s1 1 = [] /\ sleepers s1 = []
  | None => False
  end /\
  l_task_kill 0 (id (tasks (after busy_session) (idle_task (rq_of 1 (after busy_session))))) (after busy_session) = None.
Proof. vm_compute. repeat split. Qed.

Fixpoint rebalance_ticks (n : nat) (s : sys) : option sys :=
  match n with
  | O => Some s
  | S n => s ← sched_rebalance_tick 0 s; rebalance_ticks n s
  end.

(** Three unpinned tasks on CPU 0, CPU 1 isolated. *)
Definition isolated_session : list call := busy_session ++ [IsolateCore 1].

(** The periodic rebalancing moves an unpinned task to an isolated core. *)
Theorem rebalance_ignores_isolation :
  match rebalance_ticks 100 (after isolated_session) with
  | Some s1 =>
      is_isolated 1 s1 = true /\ queue_of s1 1 = [4] /\ cpu_affinity (tasks s1 4) = CPU_AFFINITY_ANY
  | None => False
  end.
Proof. vm_compute. repeat split. Qed.

End TaskKill.
