(* ===== verification/WaitQueue.v ===== *)
(** Tasks that wait for something other than the CPU or the clock.

    A waiting task is BLOCKED and linked through [next] into the wait queue of a mutex or
    a message queue.  The scheduler's invariant carries these queues as ghost state
    ([waits] of [Ghost]); the lemmas here move a running task into a wait queue and a
    waiting task out of it, where it floats and may be made ready. *)

From S2P Require Import Prelude FreeList Buddy BuddyInv BuddyStep BuddySpec PmmSpec.
From S2P Require Import StealDeque Task Sys Sched TaskSleep RunQueue SchedInv Dispatch SchedCalls SchedSleep SchedSpec.

Open Scope Z_scope.
Open Scope slm_scope.

Module WaitQueue.
Import Task Sys Sched RunQueue SchedInv Dispatch SchedCalls SchedSleep SchedSpec.

(** ** Running tasks *)

Lemma in_table_nonzero p : in_table p -> p <> 0.
Proof. unfold in_table. lia. Qed.

(** A running task that is not the idle task. *)
Definition runs (s : sys) (this : nat) (p : Z) : Prop :=
  Z.of_nat this < cpu_count s /\ curs s this = p /\ p <> 0 /\ state (tasks s p) = TASK_RUNNING /\ idle s p = false.

Definition runsb (s : sys) (this : nat) : bool :=
  (Z.of_nat this <? cpu_count s) && negb (curs s this =? 0) && bool_decide (state (tasks s (curs s this)) = TASK_RUNNING) &&
  negb (idle s (curs s this)).

Lemma runsb_sound s this : runsb s this = true -> runs s this (curs s this).
Proof.
  unfold runsb, runs. rewrite !andb_true_iff, !negb_true_iff, Z.eqb_neq, Z.ltb_lt, bool_decide_eq_true. tauto.
Qed.

Lemma sp_okb_sound t sp : sp_okb t sp = true -> sp_ok t sp.
Proof.
  unfold sp_okb. intros H Hb Ht. rewrite (proj2 (Z.eqb_neq _ _) Hb), (proj2 (Z.eqb_neq _ _) Ht) in H. simpl in H. lia.
Qed.

Lemma placed_kept s s' p c Q Q' :
  placed s s' p c Q Q' -> state (tasks s p) = TASK_READY -> forall a, kept (tasks s a) (tasks s' a).
Proof.
  intros P Hst a. destruct (decide (a = p)) as [->|Hne].
  - eapply kept_trans; [apply (enqueued_kept s (Z.of_nat c)); congruence|]. apply sbn_kept, (pl_self _ _ _ _ _ _ P).
  - apply sbn_kept. by apply (pl_other _ _ _ _ _ _ P).
Qed.

(** ** Joining and leaving *)

(** The fields the invariant reads other than [next]. *)
Definition view_unlinked (t : task) : Z * task_state * Z * bool * Z * Z * Z :=
  (sleep_next t, state t, assigned_cpu t, is_idle_task (Some t), stack_base t, cpu_affinity t, id t).

(** Replacing the wait queues, where [p] is the only task that joins or leaves one and the
    other waiting tasks change in their links only. *)
Lemma core_rewait (G G' : Ghost) s s' Q S C p :
  core (G := G) s Q S C -> blocks (Ghost := G') = blocks (Ghost := G) ->
  parts s' = parts s -> deques s' = deques s -> heap s' = heap s ->
  (forall a, a <> p -> view_unlinked (tasks s' a) = view_unlinked (tasks s a)) ->
  (forall a, a <> p -> a ∉ waiters (G := G) -> next (tasks s' a) = next (tasks s a)) ->
  (forall l, l ∈ waits (Ghost := G') -> chain (fun a => next (tasks s' a)) (default 0 (hd_error l)) l) ->
  NoDup (waiters (G := G')) -> (forall a, a ∈ waiters (G := G') -> a <> p -> a ∈ waiters (G := G)) ->
  in_table p -> idle s p = false -> id (tasks s p) <> 0 -> p ∉ S -> (forall c, (c < 8)%nat -> p ∉ Q c /\ zombie (rq_of c s) <> p) ->
  stack_base (tasks s' p) = stack_base (tasks s p) -> flags (tasks s' p) = flags (tasks s p) ->
  id (tasks s' p) = id (tasks s p) -> tcb_ok (cpu_count s) (tasks s' p) ->
  (p ∈ waiters (G := G') -> state (tasks s' p) = TASK_BLOCKED) ->
  (forall c, C c = p -> state (tasks s' p) <> TASK_READY /\ state (tasks s' p) <> TASK_DESTROYED) ->
  core (G := G') s' Q S C.
Proof.
  intros K Hbl Hpt Hd Hh Hv Hnx Hch Hnd Hsub Htab Hpi Hpid HpS Hpl Hsp Hfl Hid Htc HpW HpC.
  unfold parts in Hpt. injection Hpt as Hq Hc Hsl.
  assert (Hrq : forall c, rq_of c s' = rq_of c s) by (intros c; unfold rq_of, cpu_rq; by rewrite Hq).
  assert (Hf : forall a, a <> p -> sleep_next (tasks s' a) = sleep_next (tasks s a) /\ state (tasks s' a) = state (tasks s a) /\
    assigned_cpu (tasks s' a) = assigned_cpu (tasks s a) /\ idle s' a = idle s a /\
    stack_base (tasks s' a) = stack_base (tasks s a) /\ cpu_affinity (tasks s' a) = cpu_affinity (tasks s a) /\
    id (tasks s' a) = id (tasks s a)).
  { intros a Ha. specialize (Hv a Ha). unfold view_unlinked in Hv. by injection Hv as ? ? ? ? ? ? ?. }
  assert (Hi' : forall a, idle s' a = idle s a).
  { intros a. destruct (decide (a = p)) as [->|Ha]; [|by apply Hf]. unfold idle, is_idle_task. by rewrite Hfl. }
  assert (Hi : idle s' p = false) by (by rewrite Hi').
  assert (Hqw : forall c a, (c < 8)%nat -> a ∈ Q c -> a <> p /\ a ∉ waiters (G := G)).
  { intros c a Hc8 Ha. split; [intros ->; by destruct (Hpl c Hc8)|]. intros Hw.
    destruct (k_queued _ _ _ _ K c a Hc8 Ha) as (_ & E1 & _). destruct (k_waiting _ _ _ _ K a Hw) as (_ & E2 & _). congruence. }
  pose proof (core_tcb _ _ _ _ K) as Htcb.
  destruct K. constructor; unfold deques_ok; rewrite ?Hq, ?Hd, ?Hc, ?Hh, ?Hsl; try done.
  - intros c Hc8. eapply rq_repr_frame; [by apply k_queues0|apply Hrq|]. intros a Ha. by apply Hnx; apply (Hqw c a Hc8).
  - intros c a Hc8 Ha. destruct (Hf a) as (_ & -> & -> & -> & _); [by apply (Hqw c a Hc8)|by apply k_queued0].
  - eapply chain_frame; [done|]. intros a Ha. apply Hf. congruence.
  - intros a Ha. destruct (Hf a) as (_ & -> & _ & -> & _); [congruence|by apply k_asleep0].
  - intros a Ha. destruct (decide (a = p)) as [->|Hne]; [split_and!; auto|].
    destruct (Hf a Hne) as (_ & -> & _ & -> & _). by apply k_waiting0, Hsub.
  - intros c Hc0. rewrite Hrq, Hi'. destruct (decide (C c = p)) as [E|Hne].
    + destruct (HpC c E) as (? & ?). destruct (k_cur0 c Hc0) as (? & _ & _ & ?). rewrite E in *. done.
    + destruct (Hf _ Hne) as (_ & -> & _). by apply k_cur0.
  - intros c Hlt. rewrite Hrq, Hi'. destruct (k_idle0 c Hlt) as (? & Hic & ?).
    destruct (Hf (idle_task (rq_of c s))) as (_ & -> & _); [congruence|]. done.
  - intros c d. rewrite Hrq. apply k_idle_cur0.
  - intros c d. rewrite !Hrq. apply k_idle_inj0.
  - intros c Hc8. rewrite Hrq, Hi'. intros Hz. destruct (Hf (zombie (rq_of c s))) as (_ & -> & _); [by apply Hpl|by apply k_zombie0].
  - intros c d. rewrite !Hrq. apply k_zombie_inj0.
  - intros a Ha. destruct (decide (a = p)) as [->|Hne]; [by rewrite Hid|]. destruct (Hf a Hne) as (_ & _ & _ & _ & _ & _ & ->).
    apply k_ids0. unfold homed in *. rewrite Hi' in Ha. setoid_rewrite Hrq in Ha.
    destruct Ha as [?|[Ha|?]]; auto. right. left. rewrite elem_of_app in *. destruct Ha; auto.
  - assert (Hsb : forall a, stack_base (tasks s' a) = stack_base (tasks s a)).
    { intros a. destruct (decide (a = p)) as [->|Ha]; [done|by apply Hf]. }
    assert (Hta : forall a, tcb_ok (cpu_count s) (tasks s' a)).
    { intros a. destruct (decide (a = p)) as [->|Ha]; [done|]. unfold tcb_ok. destruct (Hf a Ha) as (_ & _ & -> & _ & _ & -> & _). apply Htcb. }
    pose proof (stacks_ext _ _ _ _ k_stacks0 Hsb Hta) as [H0 H1 H2 H3 H4 H5 H6]. constructor; try done; by rewrite Hbl.
Qed.

(** ** One wait queue among all *)

Lemma concat_split (W : list (list Z)) i l :
  W !! i = Some l -> exists A B, concat W = A ++ l ++ B /\ forall l', concat (<[i := l']> W) = A ++ l' ++ B.
Proof.
  intros Hi. exists (concat (take i W)), (concat (drop (S i) W)).
  rewrite <- (take_drop_middle W i l Hi) at 1. rewrite concat_app. split; [done|].
  intros l'. rewrite insert_take_drop by (by eapply lookup_lt_Some). by rewrite concat_app.
Qed.

Lemma concat_disjoint (W : list (list Z)) i j l k a :
  NoDup (concat W) -> W !! i = Some l -> W !! j = Some k -> a ∈ l -> a ∈ k -> i = j.
Proof.
  revert i j. induction W as [|w W IH]; intros i j Hnd Hi Hj Hl Hk; [done|].
  simpl in Hnd. apply NoDup_app in Hnd as (_ & Hdis & Hnd).
  assert (Hin : forall n m, W !! n = Some m -> a ∈ m -> a ∈ concat W).
  { intros n m Hn Ha. apply list_elem_of_In, in_concat. exists m. split; [|by apply list_elem_of_In].
    by apply list_elem_of_In, (list_elem_of_lookup_2 _ n). }
  destruct i as [|i], j as [|j]; simpl in Hi, Hj; simplify_eq; try done.
  - destruct (Hdis a Hl). eauto.
  - destruct (Hdis a Hk). eauto.
  - f_equal. eauto.
Qed.

Lemma default_head_app (h : Z) (l1 l2 : list Z) :
  h = default 0 (hd_error (l1 ++ l2)) -> forall p, (if decide (l1 = []) then p else h) = default 0 (hd_error (l1 ++ p :: l2)).
Proof. intros -> p. destruct (decide (l1 = [])) as [->|]; [done|]. by destruct l1. Qed.

Lemma wait_queue_facts (G : Ghost) s Q S C i w :
  core s Q S C -> waits !! i = Some w ->
  chain (fun a => next (tasks s a)) (default 0 (hd_error w)) w /\ NoDup w /\ (length w < QUEUE_FUEL)%nat /\
  forall a, a ∈ w -> a ∈ waiters /\ in_table a /\ state (tasks s a) = TASK_BLOCKED.
Proof.
  intros K Hi. assert (Hin : w ∈ waits) by (by eapply list_elem_of_lookup_2).
  assert (Ha : forall a, a ∈ w -> a ∈ waiters /\ in_table a /\ state (tasks s a) = TASK_BLOCKED).
  { intros a Ha. pose proof (waiters_in w a Hin Ha) as Hw. split; [done|].
    by destruct (k_waiting _ _ _ _ K a Hw) as (? & ? & _). }
  assert (Hnd : NoDup w).
  { pose proof (k_wnodup _ _ _ _ K) as Hnd. unfold waiters in Hnd. destruct (concat_split _ _ _ Hi) as (A & D & HW & _).
    rewrite HW in Hnd. apply NoDup_app in Hnd as (_ & _ & Hnd). by apply NoDup_app in Hnd as (? & _). }
  split_and!; [by apply (k_waits _ _ _ _ K)|done| |done].
  pose proof Hnd as Hl. apply (NoDup_range_length w 1 65) in Hl; [unfold QUEUE_FUEL; lia|].
  intros a Haw. destruct (Ha a Haw) as (_ & [? ?] & _). unfold MAX_TASKS in *. lia.
Qed.

(** New wait queues start out empty. *)
Lemma core_new_waits (G G' : Ghost) s Q S C :
  core (G := G) s Q S C -> waiters (G := G') = waiters (G := G) -> blocks (Ghost := G') = blocks (Ghost := G) ->
  (forall l, l ∈ waits (Ghost := G') -> l ∈ waits (Ghost := G) \/ l = []) -> core (G := G') s Q S C.
Proof.
  intros K Hw Hb Hl. destruct K. constructor; try done.
  - intros l Hin. destruct (Hl l Hin) as [Hin'| ->]; [by apply k_waits0|done].
  - by rewrite Hw.
  - by rewrite Hw.
  - intros p. unfold homed. rewrite Hw. apply k_ids0.
  - destruct k_stacks0. constructor; try done; by rewrite Hb.
Qed.

(** A running task joins a wait queue between [l1] and [l2]. *)
Lemma core_wait (G : Ghost) i l1 l2 s s' Q S C c p :
  core s Q S C -> waits !! i = Some (l1 ++ l2) ->
  C c = p -> p <> 0 -> state (tasks s p) = TASK_RUNNING -> idle s p = false -> p ∉ S ++ waiters ->
  parts s' = parts s -> deques s' = deques s -> heap s' = heap s ->
  (forall a, a <> p -> view_unlinked (tasks s' a) = view_unlinked (tasks s a)) ->
  (forall a, a <> p -> next (tasks s' a) = if decide (last l1 = Some a) then p else next (tasks s a)) ->
  next (tasks s' p) = default 0 (hd_error l2) -> state (tasks s' p) = TASK_BLOCKED ->
  stack_base (tasks s' p) = stack_base (tasks s p) -> flags (tasks s' p) = flags (tasks s p) ->
  id (tasks s' p) = id (tasks s p) -> tcb_ok (cpu_count s) (tasks s' p) ->
  core (G := Ghosts (<[i := l1 ++ p :: l2]> waits) blocks) s' Q S C.
Proof.
  intros K Hi Hcp Hp0 Hrun Hidle Hpn Hpt Hd Hh Hv Hnx Hpx Hst Hsp Hfl Hid Htc.
  pose proof (awake_asleep _ _ Hpn) as HpS. pose proof (awake_waiting _ _ Hpn) as HpW.
  destruct (concat_split _ _ _ Hi) as (A & B & HW & HW'). pose proof (k_wnodup _ _ _ _ K) as Hnd.
  assert (Hperm : concat (<[i := l1 ++ p :: l2]> waits) ≡ₚ p :: waiters).
  { unfold waiters. rewrite HW', HW. solve_Permutation. }
  assert (Hl : forall a, a ∈ l1 ++ l2 -> a ∈ waiters).
  { intros a Ha. eapply waiters_in; [|exact Ha]. by eapply list_elem_of_lookup_2. }
  destruct (k_cur _ _ _ _ K c) as (Htab & _); [congruence|]. rewrite Hcp in Htab.
  eapply (core_rewait G _ s s' Q S C p); try done.
  - intros a Ha Haw. rewrite Hnx by done. rewrite decide_False; [done|]. intros Hla. apply Haw, Hl, elem_of_app. left. by apply last_Some_elem_of.
  - intros w Hw. apply list_elem_of_lookup in Hw as [j Hj]. cbn [waits] in Hj. destruct (decide (j = i)) as [->|Hne].
    + rewrite list_lookup_insert_eq in Hj by (by eapply lookup_lt_Some). injection Hj as <-.
      pose proof (k_waits _ _ _ _ K _ (list_elem_of_lookup_2 _ _ _ Hi)) as Hch.
      rewrite <- (default_head_app _ l1 l2 eq_refl p). eapply chain_insert; try done.
      * unfold waiters in Hnd. rewrite HW in Hnd. apply NoDup_app in Hnd as (_ & _ & Hnd). by apply NoDup_app in Hnd as (? & _).
      * intros Hin. by apply HpW, Hl.
      * intros a Ha. apply Hnx. intros ->. by apply HpW, Hl.
    + rewrite list_lookup_insert_ne in Hj by done. eapply chain_frame; [apply (k_waits _ _ _ _ K); by eapply list_elem_of_lookup_2|].
      intros a Ha. assert (Haw : a ∈ waiters) by (eapply waiters_in; [by eapply list_elem_of_lookup_2|done]).
      cbn beta. rewrite Hnx by congruence. rewrite decide_False; [done|]. intros Hla. apply Hne.
      eapply (concat_disjoint waits j i); try done. apply elem_of_app. left. by apply last_Some_elem_of.
  - unfold waiters at 1. cbn [waits]. rewrite Hperm. apply NoDup_cons. by split.
  - intros a. unfold waiters at 1. cbn [waits]. rewrite Hperm, elem_of_cons. tauto.
  - apply (k_ids _ _ _ _ K). do 2 right. left. exists c. by rewrite Hcp.
  - intros d Hd8. split; [intros Hin|intros Hz].
    + destruct (k_queued _ _ _ _ K d p Hd8 Hin) as (_ & E & _). congruence.
    + destruct (k_zombie _ _ _ _ K d Hd8) as (_ & E & _); [congruence|]. congruence.
  - intros d _. rewrite Hst. done.
Qed.

(** A waiting task leaves its queue and floats. *)
Lemma core_unwait (G : Ghost) i l1 l2 s s' Q S C p :
  core s Q S C -> waits !! i = Some (l1 ++ p :: l2) -> (forall c, C c <> p) ->
  parts s' = parts s -> deques s' = deques s -> heap s' = heap s ->
  (forall a, a <> p -> view_unlinked (tasks s' a) = view_unlinked (tasks s a)) ->
  (forall a, a <> p -> next (tasks s' a) = if decide (last l1 = Some a) then next (tasks s p) else next (tasks s a)) ->
  stack_base (tasks s' p) = stack_base (tasks s p) -> flags (tasks s' p) = flags (tasks s p) ->
  id (tasks s' p) = id (tasks s p) -> tcb_ok (cpu_count s) (tasks s' p) ->
  let G' := Ghosts (<[i := l1 ++ l2]> waits) blocks in
  core (G := G') s' Q S C /\ floating (G := G') s' Q S C p.
Proof.
  intros K Hi HpC Hpt Hd Hh Hv Hnx Hsp Hfl Hid Htc G'.
  destruct (concat_split _ _ _ Hi) as (A & B & HW & HW'). pose proof (k_wnodup _ _ _ _ K) as Hnd.
  assert (Hperm : waiters (G := G) ≡ₚ p :: waiters (G := G')).
  { unfold waiters. cbn [waits G']. rewrite HW', HW. solve_Permutation. }
  assert (Hnd' : NoDup (p :: waiters (G := G'))) by (by rewrite <- Hperm). apply NoDup_cons in Hnd' as [HpW' Hnd'].
  assert (Hl : forall a, a ∈ l1 ++ p :: l2 -> a ∈ waiters (G := G)).
  { intros a Ha. eapply waiters_in; [|exact Ha]. by eapply list_elem_of_lookup_2. }
  assert (HpW : p ∈ waiters (G := G)) by (apply Hl; rewrite elem_of_app, elem_of_cons; auto).
  destruct (k_waiting _ _ _ _ K p HpW) as (Htab & Hst & Hidle & HpS). pose proof Htab as [? ?].
  assert (Hpl : forall c, (c < 8)%nat -> p ∉ Q c /\ zombie (rq_of c s) <> p).
  { intros d Hd8. split; [intros Hin|intros Hz].
    - destruct (k_queued _ _ _ _ K d p Hd8 Hin) as (_ & E & _). congruence.
    - destruct (k_zombie _ _ _ _ K d Hd8) as (_ & E & _); [lia|]. congruence. }
  assert (Hpid : id (tasks s p) <> 0) by (apply (k_ids _ _ _ _ K); right; left; apply elem_of_app; auto).
  split.
  - eapply (core_rewait G _ s s' Q S C p); try done.
    + intros a Ha Haw. rewrite Hnx by done. rewrite decide_False; [done|]. intros Hla. apply Haw, Hl, elem_of_app. left. by apply last_Some_elem_of.
    + intros w Hw. apply list_elem_of_lookup in Hw as [j Hj]. cbn [waits G'] in Hj. destruct (decide (j = i)) as [->|Hne].
      * rewrite list_lookup_insert_eq in Hj by (by eapply lookup_lt_Some). injection Hj as <-.
        pose proof (k_waits _ _ _ _ K _ (list_elem_of_lookup_2 _ _ _ Hi)) as Hch.
        assert (Hnl : NoDup (l1 ++ p :: l2)).
        { unfold waiters in Hnd. rewrite HW in Hnd. apply NoDup_app in Hnd as (_ & _ & Hnd). by apply NoDup_app in Hnd as (? & _). }
        destruct (chain_remove _ (fun a => next (tasks s' a)) _ l1 p l2 Hch Hnl) as [Hc' Hnp].
        { intros a Ha. apply Hnx. intros ->. rewrite <- Permutation_middle in Hnl. by apply NoDup_cons in Hnl as [? _]. }
        by rewrite (chain_head _ _ _ Hc') in Hc'.
      * rewrite list_lookup_insert_ne in Hj by done. eapply chain_frame; [apply (k_waits _ _ _ _ K); by eapply list_elem_of_lookup_2|].
        intros a Ha. assert (Hap : a <> p).
        { intros ->. apply Hne. eapply (concat_disjoint (waits (Ghost := G)) j i); try done. rewrite elem_of_app, elem_of_cons. auto. }
        cbn beta. rewrite Hnx by done. rewrite decide_False; [done|]. intros Hla. apply Hne.
        eapply (concat_disjoint (waits (Ghost := G)) j i); try done. apply elem_of_app. left. by apply last_Some_elem_of.
    + intros a Ha _. rewrite Hperm, elem_of_cons. auto.
    + intros c E. by destruct (HpC c).
  - assert (Hr : rqs s' = rqs s) by (unfold parts in Hpt; congruence). constructor; try done.
    + unfold idle, is_idle_task. rewrite Hfl. exact Hidle.
    + by rewrite Hid.
    + intros c Hc8. by apply Hpl.
    + intros c Hc8. replace (rq_of c s') with (rq_of c s) by (unfold rq_of, cpu_rq; by rewrite Hr). by apply Hpl.
Qed.

End WaitQueue.
