(* ===== verification/PiMutex.v ===== *)
(** The priority-inheriting mutexes of [kernel/ipc/pi_mutex.c].

    A mutex names its owner and a FIFO of blocked tasks, linked through [next].  Locking a
    held mutex raises the owner's inherited priority to the caller's and blocks the
    caller; unlocking hands the mutex to the highest-priority waiter.  [None] is a NULL
    dereference, or a walk that outruns the task table. *)

From S2P Require Import Prelude FreeList Buddy StealDeque Task Sys Sched.

Open Scope Z_scope.
Open Scope slm_scope.

Module PiMutex.
Import Task Sys Sched.

(** [pi_mutex_t]; the guard makes each critical section one step. *)
Record pi_mutex := MkMutex { owner : Z; wait_head : Z; wait_tail : Z; locked : Z }.

Definition PI_MUTEX_INIT : pi_mutex := MkMutex 0 0 0 0.

(** The mutexes of the kernel on top of the scheduler, with the inversion statistics. *)
Record pim := Pim {
  base : sys;
  mutexes : list pi_mutex;
  total_inversions : Z;
  last_inversion_flag : Z
}.

Definition with_base (s : sys) (st : pim) : pim := Pim s (mutexes st) (total_inversions st) (last_inversion_flag st).

Definition mutex (i : nat) (st : pim) : pi_mutex := nth i (mutexes st) PI_MUTEX_INIT.

Definition set_mutex (i : nat) (m : pi_mutex) (st : pim) : pim :=
  Pim (base st) (<[i := m]> (mutexes st)) (total_inversions st) (last_inversion_flag st).

Definition pi_mutex_init (i : nat) (st : pim) : pim := set_mutex i PI_MUTEX_INIT st.

(** ** Inheritance *)

Definition note_mutex_acquired (p : Z) (s : sys) : option sys :=
  if p =? 0 then None else Some (upd p (fun t => set_pi_mutexes_held (u8 (pi_mutexes_held t + 1)) t) s).

(** Whether the inherited priority was raised. *)
Definition raise_inherited_priority (p prio : Z) (s : sys) : bool * sys :=
  if pi_priority (tasks s p) <? prio then (true, upd p (set_pi_priority prio) s) else (false, s).

(** Whether the owner's floor or effective priority changed. *)
Definition try_boost_owner (i : nat) (caller : Z) (st : pim) : bool * pim :=
  let o := owner (mutex i st) in
  if (o =? 0) || (caller =? 0) then (false, st)
  else
    let '(changed, s) := raise_inherited_priority o (effective_priority (tasks (base st) caller)) (base st) in
    if effective_priority (tasks s o) <? effective_priority (tasks s caller) then
      (true, Pim (upd o (set_effective_priority (effective_priority (tasks s caller))) s) (mutexes st)
               (total_inversions st +32 1) 1)
    else (changed, with_base s st).

(** ** Locking *)

(** Appending the caller to the wait queue and marking it BLOCKED. *)
Definition wait_enqueue (i : nat) (self : Z) (st : pim) : pim :=
  let m := mutex i st in
  let s := upd self (set_next 0) (base st) in
  let s := if wait_tail m =? 0 then s else upd (wait_tail m) (set_next self) s in
  let h := if wait_tail m =? 0 then self else wait_head m in
  set_mutex i (MkMutex (owner m) h self (locked m)) (with_base (upd self (set_state TASK_BLOCKED) s) st).

(** [pi_mutex_lock] under the guard: whether the caller has to block. *)
Definition lock_guarded (i : nat) (this : Z) (st : pim) : option (bool * pim) :=
  let self := task_current_on_cpu this (base st) in
  let st := Pim (base st) (mutexes st) (total_inversions st) 0 in
  let m := mutex i st in
  if locked m =? 0 then
    s ← note_mutex_acquired self (base st);
    Some (false, set_mutex i (MkMutex self (wait_head m) (wait_tail m) 1) (with_base s st))
  else
    let '(changed, st) := try_boost_owner i self st in
    s ← (if (changed : bool) then sched_reposition_task (owner m) (base st) else Some (base st));
    if self =? 0 then None else Some (true, wait_enqueue i self (with_base s st)).

Definition pi_mutex_lock (i : nat) (this live_sp : Z) (st : pim) : option pim :=
  '(blocked, st) ← lock_guarded i this st;
  if (blocked : bool) then s ← schedule this live_sp (base st); Some (with_base s st) else Some st.

Definition pi_mutex_trylock (i : nat) (this : Z) (st : pim) : option (Z * pim) :=
  let self := task_current_on_cpu this (base st) in
  let m := mutex i st in
  if locked m =? 0 then
    s ← note_mutex_acquired self (base st);
    Some (1, set_mutex i (MkMutex self (wait_head m) (wait_tail m) 1) (with_base s st))
  else Some (0, st).

Definition pi_mutex_held_by_self (i : nat) (this : Z) (st : pim) : bool :=
  negb (locked (mutex i st) =? 0) && (owner (mutex i st) =? task_current_on_cpu this (base st)).

(** ** Unlocking *)

(** What the owner gives up. *)
Definition drop_owner (o : Z) (s : sys) : sys :=
  if o =? 0 then s
  else
    let s := if 0 <? pi_mutexes_held (tasks s o)
             then upd o (fun t => set_pi_mutexes_held (pi_mutexes_held t - 1) t) s else s in
    if (pi_mutexes_held (tasks s o) =? 0) && negb (pi_priority (tasks s o) =? 0)
    then sched_refresh_effective_priority o (upd o (set_pi_priority 0) s) else s.

(** The search for the best waiter: it and the task before it, 0 for the head. *)
Fixpoint best_walk (fuel : nat) (ts : Z -> task) (best best_prev prev cur : Z) : option (Z * Z) :=
  match fuel with
  | O => None
  | S fuel =>
      if cur =? 0 then Some (best, best_prev)
      else if (best =? 0) || (effective_priority (ts best) <? effective_priority (ts cur))
      then best_walk fuel ts cur prev cur (next (ts cur))
      else best_walk fuel ts best best_prev cur (next (ts cur))
  end.

(** The recomputation of the tail. *)
Fixpoint tail_walk (fuel : nat) (ts : Z -> task) (tl t : Z) : option Z :=
  match fuel with
  | O => None
  | S fuel => if t =? 0 then Some tl else tail_walk fuel ts t (next (ts t))
  end.

(** The remaining waiters set the new owner's floor. *)
Fixpoint floor_walk (fuel : nat) (best t : Z) (s : sys) : option sys :=
  match fuel with
  | O => None
  | S fuel =>
      if t =? 0 then Some s
      else
        let s := (raise_inherited_priority best (effective_priority (tasks s t)) s).2 in
        floor_walk fuel best (next (tasks s t)) s
  end.

(** Unlinking [best] and handing it the mutex. *)
Definition hand_off (i : nat) (best prev : Z) (st : pim) : option pim :=
  let m := mutex i st in
  let s := base st in
  let nx := next (tasks s best) in
  let h := if prev =? 0 then nx else wait_head m in
  let s := if prev =? 0 then s else upd prev (set_next nx) s in
  tl ← (if wait_tail m =? best then tail_walk QUEUE_FUEL (tasks s) 0 h else Some (wait_tail m));
  let s := upd best (set_next 0) s in
  s ← note_mutex_acquired best s;
  s ← floor_walk QUEUE_FUEL best h s;
  let s := upd best (set_state TASK_READY) s in
  s ← scheduler_add_task_to_cpu best (assigned_cpu (tasks s best)) s;
  Some (set_mutex i (MkMutex best h tl (locked m)) (with_base s st)).

Definition pi_mutex_unlock (i : nat) (st : pim) : option pim :=
  let m := mutex i st in
  let s := drop_owner (owner m) (base st) in
  let st := with_base s st in
  '(best, prev) ← best_walk QUEUE_FUEL (tasks s) 0 0 0 (wait_head m);
  if best =? 0 then Some (set_mutex i (MkMutex 0 (wait_head m) (wait_tail m) 0) st)
  else hand_off i best prev st.

Definition pi_mutex_inversion_detected (st : pim) : Z := last_inversion_flag st.
Definition pi_mutex_inversion_count (st : pim) : Z := total_inversions st.

End PiMutex.
