(* ===== verification/PiSpec.v ===== *)
(** Correctness of the priority-inheriting mutexes.

    [books] is the mutexes' own invariant: wait queues are well formed, the counters of
    held mutexes are exact, and every holder's inherited priority is at least the priority
    of the tasks waiting for it.  [pi_inv] adds the scheduler's invariant with the wait
    queues as ghost state.  Every call keeps [pi_inv]; the functional theorems say what
    locking and unlocking do to the queues and priorities. *)

From S2P Require Import Prelude FreeList Buddy BuddyInv BuddyStep BuddySpec PmmSpec.
From S2P Require Import StealDeque Task Sys Sched TaskSleep Heuristic RunQueue SchedInv Dispatch SchedCalls SchedSleep.
From S2P Require Import TaskLife SchedBoot SchedSpec WaitQueue PiMutex.

Open Scope Z_scope.
Open Scope slm_scope.

Module PiSpec.
Import Task Sys Sched RunQueue SchedInv Dispatch SchedCalls SchedSleep SchedSpec WaitQueue PiMutex.

(** ** Bookkeeping *)

Definition held_by (M : list pi_mutex) (p : Z) : nat := length (filter (fun m => owner m = p) M).

(** A mutex whose waiters are [w], in order of arrival. *)
Definition mutex_ok (m : pi_mutex) (w : list Z) : Prop :=
  wait_head m = default 0 (hd_error w) /\ wait_tail m = default 0 (last w) /\
  (locked m = 0 /\ owner m = 0 /\ w = [] \/ locked m = 1 /\ in_table (owner m) /\ owner m ∉ w).

Record books (ts : Z -> task) (M : list pi_mutex) (W : list (list Z)) : Prop := {
  bk_len : length M = length W /\ (length M < 256)%nat;
  bk_mutex : forall i m w, M !! i = Some m -> W !! i = Some w -> mutex_ok m w;
  bk_count : forall p, in_table p -> pi_mutexes_held (ts p) = Z.of_nat (held_by M p);
  bk_dom : forall p, in_table p -> pi_priority (ts p) <= effective_priority (ts p);
  bk_floor : forall i m w p, M !! i = Some m -> W !! i = Some w -> p ∈ w -> pi_mutexes_held (ts p) = 0 ->
    effective_priority (ts p) <= pi_priority (ts (owner m))
}.

Lemma held_by_insert M i m m' p :
  M !! i = Some m ->
  (held_by (<[i := m']> M) p + (if decide (owner m = p) then 1 else 0) =
   held_by M p + (if decide (owner m' = p) then 1 else 0))%nat.
Proof.
  intros Hi. unfold held_by. rewrite insert_take_drop by (by eapply lookup_lt_Some).
  rewrite <- (take_drop_middle M i m Hi) at 3. rewrite !filter_app, !filter_cons, !length_app.
  destruct (decide (owner m' = p)), (decide (owner m = p)); simpl; lia.
Qed.

Lemma held_by_le M p : (held_by M p <= length M)%nat.
Proof. apply length_filter. Qed.

Lemma held_by_owner M i m : M !! i = Some m -> (1 <= held_by M (owner m))%nat.
Proof.
  intros Hi. unfold held_by. rewrite <- (take_drop_middle M i m Hi), filter_app, filter_cons, decide_True by done.
  rewrite length_app. simpl. lia.
Qed.

Lemma boost_floor now t : pi_priority t <= effective_priority (deadline_boost now t).
Proof.
  unfold deadline_boost, store_effective_priority. cbv zeta.
  destruct (deadline_ns t =? 0); cbn [effective_priority set_effective_priority];
    match goal with |- _ <= (if ?x <? ?y then _ else _) => destruct (Z.ltb_spec x y) end; lia.
Qed.

(** Steps that leave the inherited priorities and counters alone. *)
Lemma books_frame ts ts' M W :
  books ts M W -> (forall w a, w ∈ W -> a ∈ w -> state (ts a) = TASK_BLOCKED) ->
  (forall a, prio_kept (ts a) (ts' a)) -> books ts' M W.
Proof.
  intros [H1 H2 H3 H4 H5] Hb Hk. constructor; try done.
  - intros p Hp. destruct (Hk p) as (_ & -> & _). auto.
  - intros p Hp. destruct (Hk p) as ((_ & _ & ->) & _ & _ & [->|[_ [now ->]]]); [auto|apply boost_floor].
  - intros i m w p Hm Hw Hp. destruct (Hk p) as (_ & -> & _ & He). destruct (Hk (owner m)) as ((_ & _ & ->) & _).
    destruct He as [->|[Hn _]]; [by eapply H5|]. destruct Hn. eapply Hb; [|done]. by eapply list_elem_of_lookup_2.
Qed.

Lemma lookup_insert_cases {A} (l : list A) i j x y :
  <[i := x]> l !! j = Some y -> (j = i /\ y = x) \/ (j <> i /\ l !! j = Some y).
Proof.
  intros H. destruct (decide (j = i)) as [->|Hne]; [|rewrite list_lookup_insert_ne in H by done; auto].
  left. split; [done|]. pose proof (lookup_lt_Some _ _ _ H) as Hl. rewrite length_insert in Hl.
  rewrite list_lookup_insert_eq in H by done. congruence.
Qed.

Definition acquired (t : task) : task := set_pi_mutexes_held (u8 (pi_mutexes_held t + 1)) t.

(** The counter of one more mutex does not wrap. *)
Lemma acquired_count M i m m' p :
  (length M < 256)%nat -> M !! i = Some m -> owner m <> p -> owner m' = p ->
  u8 (Z.of_nat (held_by M p) + 1) = Z.of_nat (held_by (<[i := m']> M) p).
Proof.
  intros Hl Hi Ho Ho'. pose proof (held_by_insert M i m m' p Hi) as E. rewrite decide_False, decide_True in E by done.
  pose proof (held_by_le (<[i := m']> M) p) as Hle. rewrite length_insert in Hle.
  unfold u8. rewrite Z.mod_small; lia.
Qed.

Lemma held_by_other M i m m' p :
  M !! i = Some m -> owner m <> p -> owner m' <> p -> held_by (<[i := m']> M) p = held_by M p.
Proof. intros Hi H1 H2. pose proof (held_by_insert M i m m' p Hi) as E. rewrite !decide_False in E by done. lia. Qed.

(** Taking a free mutex. *)
Lemma books_acquire ts M W i m p :
  books ts M W -> M !! i = Some m -> locked m = 0 -> in_table p -> (forall w, w ∈ W -> p ∉ w) ->
  books (<[p := acquired (ts p)]> ts) (<[i := MkMutex p (wait_head m) (wait_tail m) 1]> M) W.
Proof.
  intros [H1 H2 H3 H4 H5] Hi Hlk Hp Hpw. destruct H1 as [Hl1 Hl2].
  destruct (lookup_lt_is_Some_2 W i) as [w Hw]; [rewrite <- Hl1; by eapply lookup_lt_Some|].
  destruct (H2 i m w Hi Hw) as (Hh & Ht & [(_ & Ho & ->)|(E & _)]); [|congruence].
  assert (Heff : forall a, effective_priority (<[p := acquired (ts p)]> ts a) = effective_priority (ts a) /\
    pi_priority (<[p := acquired (ts p)]> ts a) = pi_priority (ts a)).
  { intros a. destruct (decide (a = p)) as [->|]; [by rewrite fn_lookup_insert|by rewrite fn_lookup_insert_ne]. }
  constructor.
  - by rewrite length_insert.
  - intros j m' w' Hm' Hw'. apply lookup_insert_cases in Hm' as [[-> ->]|[Hne Hm']]; [|by eapply H2].
    rewrite Hw in Hw'. injection Hw' as <-. split_and!; try done. right. split_and!; try done. by apply not_elem_of_nil.
  - intros q Hq. destruct (decide (q = p)) as [->|Hne].
    + rewrite fn_lookup_insert. simpl. rewrite H3 by done. eapply acquired_count; try done. rewrite Ho. by apply not_eq_sym, in_table_nonzero.
    + rewrite fn_lookup_insert_ne by done. rewrite H3 by done. f_equal. symmetry. eapply held_by_other; try done. rewrite Ho. by apply not_eq_sym, in_table_nonzero.
  - intros q Hq. destruct (Heff q) as [-> ->]. auto.
  - intros j m' w' q Hm' Hw' Hq. destruct (Heff q) as [-> _]. destruct (Heff (owner m')) as [_ ->].
    assert (Hqp : q <> p) by (intros ->; eapply Hpw; [|done]; by eapply list_elem_of_lookup_2).
    rewrite fn_lookup_insert_ne by done. intros Hz. apply lookup_insert_cases in Hm' as [[-> ->]|[Hne Hm']].
    + rewrite Hw in Hw'. injection Hw' as <-. by apply not_elem_of_nil in Hq.
    + by eapply H5.
Qed.

(** A holder at or above [e], now and after the next recomputation. *)
Definition boosted (e : Z) (t : task) : task :=
  set_effective_priority (Z.max (effective_priority t) e) (set_pi_priority (Z.max (pi_priority t) e) t).

Lemma try_boost_spec i p st m :
  mutexes st !! i = Some m -> owner m <> 0 -> p <> 0 -> owner m <> p ->
  exists b st', try_boost_owner i p st = (b, st') /\ mutexes st' = mutexes st /\
    base st' = with_tasks (tasks (base st')) (base st) /\
    (forall a, tasks (base st') a =
       <[owner m := boosted (effective_priority (tasks (base st) p)) (tasks (base st) (owner m))]> (tasks (base st)) a) /\
    total_inversions st' = (if effective_priority (tasks (base st) (owner m)) <? effective_priority (tasks (base st) p)
                            then total_inversions st +32 1 else total_inversions st).
Proof.
  intros Hi Ho Hp Hop. unfold try_boost_owner, mutex. rewrite (nth_lookup_Some _ _ _ _ Hi).
  rewrite !(proj2 (Z.eqb_neq _ 0)) by done. cbn [orb]. set (s := base st). set (o := owner m) in *.
  set (e := effective_priority (tasks s p)). unfold raise_inherited_priority.
  set (s1 := upd o (set_pi_priority e) s).
  assert (Hs1 : tasks s1 p = tasks s p /\ tasks s1 o = set_pi_priority e (tasks s o))
    by (unfold s1; by rewrite tasks_upd_eq, tasks_upd_ne). destruct Hs1 as [Hs1p Hs1o].
  assert (Hfin : forall s', tasks s' o = boosted e (tasks s o) -> (forall a, a <> o -> tasks s' a = tasks s a) ->
    forall a, tasks s' a = <[o := boosted e (tasks s o)]> (tasks s) a).
  { intros s' H1 H2 a. destruct (decide (a = o)) as [->|]; [by rewrite fn_lookup_insert|rewrite fn_lookup_insert_ne by done; auto]. }
  assert (Hid : forall t, boosted e t = set_effective_priority (Z.max (effective_priority t) e) (set_pi_priority (Z.max (pi_priority t) e) t))
    by done.
  destruct (Z.ltb_spec (pi_priority (tasks s o)) e) as [H1|H1]; cbv beta iota.
  - rewrite Hs1p, Hs1o. cbn [effective_priority set_pi_priority]. fold e.
    destruct (Z.ltb_spec (effective_priority (tasks s o)) e) as [H2|H2].
    + eexists true, _. split; [done|]. split_and!; try done. cbn [base]. apply Hfin.
      * rewrite tasks_upd_eq, Hs1o, Hid. rewrite !Z.max_r by lia. done.
      * intros a Ha. unfold s1. by rewrite !tasks_upd_ne.
    + eexists true, _. split; [done|]. split_and!; try done. cbn [base with_base]. apply Hfin.
      * rewrite Hs1o, Hid, Z.max_l, Z.max_r by lia. by destruct (tasks s o).
      * intros a Ha. unfold s1. by rewrite !tasks_upd_ne.
  - fold e. destruct (Z.ltb_spec (effective_priority (tasks s o)) e) as [H2|H2].
    + eexists true, _. split; [done|]. split_and!; try done. cbn [base]. apply Hfin.
      * rewrite tasks_upd_eq, Hid, Z.max_r, Z.max_l by lia. by destruct (tasks s o).
      * intros a Ha. by rewrite !tasks_upd_ne.
    + eexists false, _. split; [done|]. split_and!; try done; [cbn [base with_base]; by destruct s|]. apply Hfin.
      * cbn [base with_base]. rewrite Hid, !Z.max_l by lia. by destruct (tasks s o).
      * done.
Qed.

(** Raising the floor of the owner of a mutex. *)
Lemma books_boost ts ts' M W i m e :
  books ts M W -> M !! i = Some m -> in_table (owner m) ->
  (forall a, ts' a = <[owner m := boosted e (ts (owner m))]> ts a) -> books ts' M W.
Proof.
  intros [H1 H2 H3 H4 H5] Hi Ho Hts. set (o := owner m) in *.
  assert (Hself : ts' o = boosted e (ts o)) by (by rewrite Hts, fn_lookup_insert).
  assert (Hoth : forall a, a <> o -> ts' a = ts a) by (intros a Ha; by rewrite Hts, fn_lookup_insert_ne).
  assert (Hpi : forall a, pi_priority (ts a) <= pi_priority (ts' a)).
  { intros a. destruct (decide (a = o)) as [->|]; [rewrite Hself; simpl; lia|by rewrite Hoth]. }
  assert (Hh : forall a, pi_mutexes_held (ts' a) = pi_mutexes_held (ts a)).
  { intros a. destruct (decide (a = o)) as [->|]; [by rewrite Hself|by rewrite Hoth]. }
  constructor; try done.
  - intros p Hp. rewrite Hh. auto.
  - intros p Hp. destruct (decide (p = o)) as [->|]; [|rewrite Hoth by done; auto].
    rewrite Hself. simpl. specialize (H4 o Hp). lia.
  - intros j m' w p Hm' Hw Hp. rewrite Hh. intros Hz. etransitivity; [|apply Hpi]. rewrite Hoth; [by eapply H5|].
    intros ->. rewrite H3 in Hz by done. pose proof (held_by_owner M i m Hi). unfold o in Hz. lia.
Qed.

(** Steps that only change priorities and the counter of held mutexes. *)
Definition same_but_prio (t t' : task) : Prop :=
  set_pi_mutexes_held 0 (set_pi_priority 0 (set_effective_priority 0 t)) =
  set_pi_mutexes_held 0 (set_pi_priority 0 (set_effective_priority 0 t')).

#[local] Instance same_but_prio_equiv : Equivalence same_but_prio.
Proof. unfold same_but_prio. split; [done|congruence|congruence]. Qed.

Lemma sbp_fields t t' : same_but_prio t t' ->
  view t = view t' /\ stack_base t = stack_base t' /\ stack_top t = stack_top t' /\ cpu_affinity t = cpu_affinity t' /\
  assigned_cpu t = assigned_cpu t' /\ state t = state t' /\ view_unlinked t = view_unlinked t' /\ next t = next t'.
Proof.
  intros H. pose proof (f_equal view H) as H1. pose proof (f_equal view_unlinked H) as H2.
  split_and!; [done|by apply (f_equal stack_base) in H|by apply (f_equal stack_top) in H|by apply (f_equal cpu_affinity) in H|
    by apply (f_equal assigned_cpu) in H|by apply (f_equal state) in H|done|by apply (f_equal next) in H].
Qed.

Lemma core_prio {G : Ghost} s s' Q S C :
  core s Q S C -> parts s' = parts s -> deques s' = deques s -> heap s' = heap s ->
  (forall a, same_but_prio (tasks s' a) (tasks s a)) -> core s' Q S C.
Proof.
  intros K Hp Hd Hh Hs. eapply core_same; try done; [unfold deques_ok; rewrite Hd; apply K|..]; intros a;
    destruct (sbp_fields _ _ (Hs a)) as (? & ? & _ & E1 & E2 & _); try done.
  unfold tcb_ok. rewrite E1, E2. by eapply core_tcb.
Qed.

(** ** The walks over a wait queue *)

(** [b] is the first task of highest priority. *)
Definition best_of (ts : Z -> task) (l1 : list Z) (b : Z) (l2 : list Z) : Prop :=
  Forall (fun a => effective_priority (ts a) < effective_priority (ts b)) l1 /\
  Forall (fun a => effective_priority (ts a) <= effective_priority (ts b)) l2.

Lemma best_walk_loop fuel ts l r best bprev cur :
  chain (fun a => next (ts a)) cur r -> (length r < fuel)%nat ->
  (best = 0 /\ l = [] /\ bprev = 0 \/
   best <> 0 /\ exists l1 l2, l = l1 ++ best :: l2 /\ bprev = default 0 (last l1) /\ best_of ts l1 best l2) ->
  exists b prev, best_walk fuel ts best bprev (default 0 (last l)) cur = Some (b, prev) /\
    (b = 0 /\ l ++ r = [] \/
     b <> 0 /\ exists l1 l2, l ++ r = l1 ++ b :: l2 /\ prev = default 0 (last l1) /\ best_of ts l1 b l2).
Proof.
  revert l r best bprev cur. induction fuel as [|fuel IH]; intros l r best bprev cur Hch Hf Hb; [lia|]. cbn [best_walk].
  destruct r as [|c r]; simpl in Hch.
  { subst cur. simpl. rewrite app_nil_r. exists best, bprev. split; [done|]. tauto. }
  destruct Hch as (-> & Hc & Hch). rewrite (proj2 (Z.eqb_neq c 0)) by done.
  replace (l ++ c :: r) with ((l ++ [c]) ++ r) by (by rewrite <- app_assoc).
  simpl in Hf. pose proof (fun best bprev => IH (l ++ [c]) r best bprev (next (ts c)) Hch ltac:(lia)) as IHc.
  rewrite last_snoc in IHc. simpl in IHc.
  destruct (Z.eqb_spec best 0) as [Hz|Hz]; simpl.
  - apply IHc. destruct Hb as [(_ & -> & _)|[? _]]; [|done]. right. split; [done|].
    exists [], []. done.
  - destruct Hb as [[? _]|(_ & l1 & l2 & -> & -> & [H1 H2])]; [done|].
    destruct (Z.ltb_spec (effective_priority (ts best)) (effective_priority (ts c))) as [Hlt|Hge].
    + apply IHc. right. split; [done|].
      eexists (l1 ++ best :: l2), []. split_and!; try done. split; [|constructor].
      apply Forall_app. split; [|constructor; [done|]]; eapply Forall_impl; try done; intros a Ha; simpl in *; lia.
    + apply IHc. right. split; [done|]. exists l1, (l2 ++ [c]).
      split_and!; try done; [by rewrite <- app_assoc|]. split; [done|]. apply Forall_app. auto.
Qed.

Lemma best_walk_spec ts w :
  chain (fun a => next (ts a)) (default 0 (hd_error w)) w -> (length w < QUEUE_FUEL)%nat ->
  exists b prev, best_walk QUEUE_FUEL ts 0 0 0 (default 0 (hd_error w)) = Some (b, prev) /\
    (b = 0 /\ w = [] \/ b <> 0 /\ exists l1 l2, w = l1 ++ b :: l2 /\ prev = default 0 (last l1) /\ best_of ts l1 b l2).
Proof. intros Hch Hf. apply (best_walk_loop QUEUE_FUEL ts [] w 0 0 _ Hch Hf). auto. Qed.

Lemma tail_walk_spec fuel ts tl t l :
  chain (fun a => next (ts a)) t l -> (length l < fuel)%nat -> tail_walk fuel ts tl t = Some (default tl (last l)).
Proof.
  revert tl t l. induction fuel as [|fuel IH]; intros tl t l Hch Hf; [lia|]. cbn [tail_walk].
  destruct l as [|a l]; simpl in Hch; [by subst|]. destruct Hch as (-> & Ha & Hch). rewrite (proj2 (Z.eqb_neq a 0)) by done.
  simpl in Hf. rewrite (IH a _ l Hch) by lia. destruct l; [done|]. by rewrite last_cons_cons, (last_cons z l); destruct (last l).
Qed.

Lemma floor_walk_spec fuel b t l s :
  chain (fun a => next (tasks s a)) t l -> (length l < fuel)%nat -> b ∉ l ->
  exists s' q, floor_walk fuel b t s = Some s' /\ s' = with_tasks (tasks s') s /\ (forall a, a <> b -> tasks s' a = tasks s a) /\
    tasks s' b = set_pi_priority q (tasks s b) /\ pi_priority (tasks s b) <= q /\
    Forall (fun a => effective_priority (tasks s a) <= q) l /\
    (q = pi_priority (tasks s b) \/ exists a, a ∈ l /\ q = effective_priority (tasks s a)).
Proof.
  revert t l s. induction fuel as [|fuel IH]; intros t l s Hch Hf Hb; [lia|]. cbn [floor_walk].
  destruct l as [|a l]; simpl in Hch.
  { subst t. exists s, (pi_priority (tasks s b)). simpl. split_and!; try done; [by destruct s|by destruct (tasks s b)|by left]. }
  destruct Hch as (-> & Ha & Hch). rewrite (proj2 (Z.eqb_neq a 0)) by done. apply not_elem_of_cons in Hb as [Hba Hb].
  unfold raise_inherited_priority. set (e := effective_priority (tasks s a)). cbv zeta.
  set (s1 := snd _).
  assert (H1 : s1 = with_tasks (tasks s1) s /\ (forall c, c <> b -> tasks s1 c = tasks s c) /\
    tasks s1 b = set_pi_priority (Z.max (pi_priority (tasks s b)) e) (tasks s b)).
  { unfold s1. destruct (Z.ltb_spec (pi_priority (tasks s b)) e); simpl; split_and!; try done.
    - intros c Hc. by rewrite fn_lookup_insert_ne.
    - rewrite fn_lookup_insert, Z.max_r by lia. done.
    - by destruct s.
    - rewrite Z.max_l by lia. by destruct (tasks s b). }
  destruct H1 as (Hs1 & Ho1 & Hb1). simpl in Hf. rewrite (Ho1 a) by done.
  destruct (IH (next (tasks s a)) l s1) as (s' & q & E & Hs' & Ho & Hb' & Hq1 & Hq2 & Hq3); [|lia|done|].
  - eapply chain_frame; [done|]. intros c Hc. rewrite Ho1; [done|congruence].
  - exists s', q. rewrite Hb1 in Hb', Hq1, Hq3. simpl in Hq1, Hq3. split_and!; try done.
    + rewrite Hs', Hs1. done.
    + intros c Hc. rewrite Ho by done. by apply Ho1.
    + lia.
    + constructor; [fold e; lia|]. eapply Forall_impl; [exact Hq2|]. intros c. simpl. destruct (decide (c = b)) as [->|]; [|by rewrite Ho1].
      rewrite Hb1. done.
    + destruct Hq3 as [->|(c & Hc & ->)].
      * destruct (Z.max_spec (pi_priority (tasks s b)) e) as [[_ ->]|[_ ->]]; [|by left]. right. exists a. split; [apply elem_of_cons; auto|done].
      * right. exists c. split; [apply elem_of_cons; auto|]. rewrite Ho1; [done|congruence].
Qed.

(** ** Giving up a mutex *)

(** The outgoing owner's counter drops; its inherited priority stays while it holds another. *)
Definition gave_up (t t' : task) : Prop :=
  pi_mutexes_held t' = pi_mutexes_held t - 1 /\ pi_priority t' <= effective_priority t' /\
  (pi_mutexes_held t' = 0 -> pi_priority t' = 0) /\
  (pi_mutexes_held t' <> 0 -> pi_priority t' = pi_priority t /\ effective_priority t' = effective_priority t).

Lemma drop_owner_spec o s :
  o <> 0 -> 0 < pi_mutexes_held (tasks s o) -> pi_priority (tasks s o) <= effective_priority (tasks s o) ->
  let s' := drop_owner o s in
  s' = with_tasks (tasks s') s /\ (forall a, a <> o -> tasks s' a = tasks s a) /\
  same_but_prio (tasks s' o) (tasks s o) /\ gave_up (tasks s o) (tasks s' o).
Proof.
  intros Ho Hh Hdom s'. unfold s', drop_owner. rewrite (proj2 (Z.eqb_neq o 0)), (proj2 (Z.ltb_lt _ _)) by done. cbv zeta.
  set (s1 := upd o _ s). assert (H1 : tasks s1 o = set_pi_mutexes_held (pi_mutexes_held (tasks s o) - 1) (tasks s o))
    by (unfold s1; by rewrite tasks_upd_eq).
  assert (Ho1 : forall a, a <> o -> tasks s1 a = tasks s a) by (intros a Ha; by apply tasks_upd_ne).
  rewrite !H1. cbn [pi_mutexes_held pi_priority set_pi_mutexes_held].
  destruct (Z.eqb_spec (pi_mutexes_held (tasks s o) - 1) 0) as [E1|E1]; cbn [andb].
  2:{ rewrite H1. unfold gave_up. simpl. split_and!; try done; lia. }
  destruct (Z.eqb_spec (pi_priority (tasks s o)) 0) as [E2|E2]; cbn [negb].
  { rewrite H1. unfold gave_up. simpl. split_and!; try done; lia. }
  unfold sched_refresh_effective_priority, update_deadline_boost. rewrite (proj2 (Z.eqb_neq o 0)) by done.
  set (s2 := upd o (set_pi_priority 0) s1). assert (H2 : tasks s2 o = set_pi_priority 0 (tasks s1 o)) by apply tasks_upd_eq.
  set (s3 := upd o _ s2). assert (H3 : tasks s3 o = deadline_boost (now_ns s2) (tasks s2 o)) by apply tasks_upd_eq.
  split_and!.
  - done.
  - intros a Ha. unfold s3, s2. rewrite !tasks_upd_ne by done. by apply Ho1.
  - rewrite H3, deadline_boost_only, H2, H1. done.
  - pose proof (boost_floor (now_ns s2) (tasks s2 o)) as Hfl. rewrite <- H3 in Hfl.
    assert (E : pi_priority (tasks s3 o) = 0 /\ pi_mutexes_held (tasks s3 o) = pi_mutexes_held (tasks s o) - 1).
    { rewrite H3, deadline_boost_only, H2, H1. done. }
    destruct E as [E3 E4]. unfold gave_up. rewrite E3, E4. rewrite H2 in Hfl. simpl in Hfl. split_and!; try done; lia.
Qed.

(** The fields the bookkeeping reads. *)
Definition ranks (t : task) : Z * Z * Z := (pi_priority t, effective_priority t, pi_mutexes_held t).

Lemma ranks_fields t t' : ranks t = ranks t' ->
  pi_priority t = pi_priority t' /\ effective_priority t = effective_priority t' /\ pi_mutexes_held t = pi_mutexes_held t'.
Proof. unfold ranks. intros E. by injection E as ? ? ?. Qed.

(** Releasing a mutex nobody waits for. *)
Lemma books_release ts ts' M W i m :
  books ts M W -> M !! i = Some m -> W !! i = Some [] -> locked m = 1 -> (forall w, w ∈ W -> owner m ∉ w) ->
  gave_up (ts (owner m)) (ts' (owner m)) -> (forall a, a <> owner m -> ranks (ts' a) = ranks (ts a)) ->
  books ts' (<[i := MkMutex 0 (wait_head m) (wait_tail m) 0]> M) W.
Proof.
  intros [H1 H2 H3 H4 H5] Hi Hw Hlk How (G1 & G2 & G3 & G4) Hoth. set (o := owner m) in *. set (m' := MkMutex _ _ _ _).
  destruct (H2 i m [] Hi Hw) as (Hhd & Htl & [(E & _)|(_ & Ho & _)]); [congruence|].
  pose proof (held_by_insert M i m m' o Hi) as Hcnt. rewrite decide_True, decide_False in Hcnt by (done || by apply not_eq_sym, in_table_nonzero).
  constructor.
  - by rewrite length_insert.
  - intros j k v Hk Hv. apply lookup_insert_cases in Hk as [[-> ->]|[Hne Hk]]; [|by eapply H2].
    rewrite Hw in Hv. injection Hv as <-. split_and!; try done. by left.
  - intros q Hq. destruct (decide (q = o)) as [->|Hne].
    + rewrite G1, H3 by done. lia.
    + destruct (ranks_fields _ _ (Hoth q Hne)) as (_ & _ & ->). rewrite H3 by done. f_equal. symmetry. apply (held_by_other M i m); try done; by apply not_eq_sym, in_table_nonzero || by apply not_eq_sym.
  - intros q Hq. destruct (decide (q = o)) as [->|Hne]; [done|].
    destruct (ranks_fields _ _ (Hoth q Hne)) as (-> & -> & _). auto.
  - intros j k v q Hk Hv Hq. assert (Hqo : q <> o) by (intros ->; eapply How; [|done]; by eapply list_elem_of_lookup_2).
    destruct (ranks_fields _ _ (Hoth q Hqo)) as (_ & -> & ->). intros Hz.
    apply lookup_insert_cases in Hk as [[-> ->]|[Hne Hk]].
    { rewrite Hw in Hv. injection Hv as <-. by apply not_elem_of_nil in Hq. }
    destruct (decide (owner k = o)) as [E|E].
    + rewrite E. destruct G4 as [-> _]; [|rewrite <- E; by eapply H5]. rewrite G1, H3 by done.
      pose proof (held_by_owner (<[i := m']> M) j k) as Hj. rewrite list_lookup_insert_ne, E in Hj by done. specialize (Hj Hk). lia.
    + destruct (ranks_fields _ _ (Hoth _ E)) as (-> & _ & _). by eapply H5.
Qed.

(** Handing a mutex to the waiter [b], whose floor becomes [q]. *)
Lemma books_handoff ts ts' M W i m b l1 l2 :
  books ts M W -> M !! i = Some m -> W !! i = Some (l1 ++ b :: l2) -> locked m = 1 -> (forall w, w ∈ W -> owner m ∉ w) ->
  (forall j w, W !! j = Some w -> b ∈ w -> j = i) -> NoDup (l1 ++ b :: l2) -> in_table b ->
  gave_up (ts (owner m)) (ts' (owner m)) -> (forall a, a <> owner m -> a <> b -> ranks (ts' a) = ranks (ts a)) ->
  pi_mutexes_held (ts' b) = u8 (pi_mutexes_held (ts b) + 1) -> effective_priority (ts' b) = effective_priority (ts b) ->
  pi_priority (ts b) <= pi_priority (ts' b) <= effective_priority (ts' b) ->
  Forall (fun a => effective_priority (ts a) <= pi_priority (ts' b)) (l1 ++ l2) ->
  books ts' (<[i := MkMutex b (default 0 (hd_error (l1 ++ l2))) (default 0 (last (l1 ++ l2))) 1]> M) (<[i := l1 ++ l2]> W).
Proof.
  intros [H1 H2 H3 H4 H5] Hi Hw Hlk How Hbw Hnd Hb (G1 & G2 & G3 & G4) Hoth B1 B2 B3 B4. set (o := owner m) in *.
  set (m' := MkMutex _ _ _ _). destruct (H2 i m _ Hi Hw) as (Hhd & Htl & [(E & _)|(_ & Ho & Hno)]); [congruence|]. fold o in Hno, Ho.
  assert (Hbo : b <> o) by (intros ->; apply Hno; rewrite elem_of_app, elem_of_cons; auto).
  pose proof (held_by_insert M i m m' o Hi) as Hcnt. rewrite decide_True, decide_False in Hcnt by done.
  rewrite <- Permutation_middle in Hnd. apply NoDup_cons in Hnd as [Hbl _].
  constructor.
  - by rewrite !length_insert.
  - intros j k v Hk Hv. apply lookup_insert_cases in Hk as [[-> ->]|[Hne Hk]].
    + apply lookup_insert_cases in Hv as [[_ ->]|[? _]]; [|done]. split_and!; try done. right. by split_and!.
    + rewrite list_lookup_insert_ne in Hv by done. by eapply H2.
  - intros q Hq. destruct (decide (q = o)) as [->|Hne]; [rewrite G1, H3 by done; lia|].
    destruct (decide (q = b)) as [->|Hqb].
    + rewrite B1, H3 by done. apply (acquired_count M i m); try done. apply H1.
    + destruct (ranks_fields _ _ (Hoth q Hne Hqb)) as (_ & _ & ->). rewrite H3 by done. f_equal. symmetry.
      by apply (held_by_other M i m); try apply not_eq_sym.
  - intros q Hq. destruct (decide (q = o)) as [->|Hne]; [done|]. destruct (decide (q = b)) as [->|Hqb]; [lia|].
    destruct (ranks_fields _ _ (Hoth q Hne Hqb)) as (-> & -> & _). auto.
  - intros j k v q Hk Hv Hq.
    assert (Hqo : q <> o /\ q <> b).
    { apply lookup_insert_cases in Hv as [[-> ->]|[Hne Hv]].
      - split; [|by intros ->]. intros ->. apply Hno. rewrite elem_of_app, elem_of_cons. apply elem_of_app in Hq. tauto.
      - split; [intros ->; eapply How; [|done]; by eapply list_elem_of_lookup_2|]. intros ->. by apply Hne, (Hbw j v). }
    destruct Hqo as [Hqo Hqb]. destruct (ranks_fields _ _ (Hoth q Hqo Hqb)) as (_ & -> & ->). intros Hz.
    apply lookup_insert_cases in Hk as [[-> ->]|[Hne Hk]].
    { apply lookup_insert_cases in Hv as [[_ ->]|[? _]]; [|done]. simpl. rewrite Forall_forall in B4. by apply B4. }
    rewrite list_lookup_insert_ne in Hv by done. pose proof (H5 j k v q Hk Hv Hq Hz) as Hle.
    destruct (decide (owner k = b)) as [E|E]; [rewrite E in Hle |- *; lia|].
    destruct (decide (owner k = o)) as [E'|E'].
    + rewrite E'. destruct G4 as [-> _]; [|by rewrite <- E']. rewrite G1, H3 by done.
      pose proof (held_by_owner (<[i := m']> M) j k) as Hj. rewrite list_lookup_insert_ne, E' in Hj by done. specialize (Hj Hk). lia.
    + by destruct (ranks_fields _ _ (Hoth _ E' E)) as (-> & _ & _).
Qed.

Section held.
Context (R : list (list Z)) (B : list (nat * Z)).

(** The scheduler's ghost state when the mutexes have the wait queues [W]; others have [R]. *)
Definition held (W : list (list Z)) : Ghost := Ghosts (W ++ R) B.

Definition wait_list (s : sys) (m : pi_mutex) : list Z := walk QUEUE_FUEL (fun a => next (tasks s a)) (wait_head m).

Definition wait_lists (st : pim) : list (list Z) := wait_list (base st) <$> mutexes st.

Definition pi_inv (st : pim) : Prop :=
  inv (G := held (wait_lists st)) (base st) /\ books (tasks (base st)) (mutexes st) (wait_lists st).

Lemma wait_lists_eq st W Q S C :
  core (G := held W) (base st) Q S C -> books (tasks (base st)) (mutexes st) W -> wait_lists st = W.
Proof.
  intros K Bk. apply list_eq. intros i. unfold wait_lists. rewrite list_lookup_fmap.
  destruct (bk_len _ _ _ Bk) as [Hl _]. destruct (mutexes st !! i) as [m|] eqn:Hm; simpl.
  2:{ symmetry. apply lookup_ge_None_2. apply lookup_ge_None_1 in Hm. lia. }
  destruct (lookup_lt_is_Some_2 W i) as [w Hw]; [rewrite <- Hl; by eapply lookup_lt_Some|]. rewrite Hw. f_equal.
  destruct (bk_mutex _ _ _ Bk i m w Hm Hw) as (Hh & _). unfold wait_list. rewrite Hh.
  destruct (wait_queue_facts (held W) _ _ _ _ i w K) as (Hch & _ & Hlen & _); [by apply lookup_app_l_Some|].
  by apply chain_walk.
Qed.

Lemma pi_intro st W Q S :
  sched_inv (G := held W) (base st) Q S -> books (tasks (base st)) (mutexes st) W -> pi_inv st.
Proof.
  intros I Bk. pose proof I as [K _ _]. pose proof (wait_lists_eq st W Q S _ K Bk) as E. unfold pi_inv. rewrite E.
  split; [|done]. by eapply inv_intro.
Qed.

(** Waiting tasks are BLOCKED, and not current. *)
Lemma waits_blocked W s Q S C w a :
  core (G := held W) s Q S C -> w ∈ W -> a ∈ w -> state (tasks s a) = TASK_BLOCKED.
Proof.
  intros K Hw Ha. apply (k_waiting (G := held W) _ _ _ _ K). eapply (waiters_in (G := held W)); [|done].
  apply elem_of_app. auto.
Qed.

(** ** Locking *)

Lemma lock_free_spec i this st W Q S m p :
  sched_inv (G := held W) (base st) Q S -> books (tasks (base st)) (mutexes st) W -> mutexes st !! i = Some m ->
  locked m = 0 -> runs (base st) this p ->
  exists s', note_mutex_acquired p (base st) = Some s' /\ sched_inv (G := held W) s' Q S /\
    books (tasks s') (<[i := MkMutex p (wait_head m) (wait_tail m) 1]> (mutexes st)) W.
Proof.
  intros I Bk Hi Hlk (Hlt & Hc & Hp & Hrun & Hidle). pose proof I as [K Hlen Haw].
  unfold note_mutex_acquired. rewrite (proj2 (Z.eqb_neq p 0)) by done. eexists. split; [done|]. split.
  - eapply (sched_inv_env (G := held W)); [done| |done]. eapply core_prio; try done. intros a.
    destruct (decide (a = p)) as [->|]; [by rewrite tasks_upd_eq|by rewrite tasks_upd_ne].
  - destruct (k_cur _ _ _ _ K this) as (Htab & _); [congruence|]. rewrite Hc in Htab.
    apply books_acquire; try done. intros w Hw Hpw. apply (awake_waiting (G := held W) _ _ (Haw this)). rewrite Hc.
    eapply (waiters_in (G := held W)); [|done]. apply elem_of_app. auto.
Qed.

(** A waiter joins a mutex whose owner's floor covers it. *)
Lemma books_wait ts ts' M W i m w p :
  books ts M W -> M !! i = Some m -> W !! i = Some w -> locked m = 1 -> owner m <> p ->
  effective_priority (ts p) <= pi_priority (ts (owner m)) ->
  (forall a, pi_priority (ts' a) = pi_priority (ts a) /\ effective_priority (ts' a) = effective_priority (ts a) /\
     pi_mutexes_held (ts' a) = pi_mutexes_held (ts a)) ->
  books ts' (<[i := MkMutex (owner m) (default 0 (hd_error (w ++ [p]))) p (locked m)]> M) (<[i := w ++ [p]]> W).
Proof.
  intros [H1 H2 H3 H4 H5] Hi Hw Hlk Hop Hfl Hts. set (m' := MkMutex _ _ _ _).
  destruct (H2 i m w Hi Hw) as (_ & _ & [(E & _)|(_ & Ho & How)]); [congruence|]. constructor.
  - by rewrite !length_insert.
  - intros j k v Hk Hv. apply lookup_insert_cases in Hk as [[-> ->]|[Hne Hk]].
    + apply lookup_insert_cases in Hv as [[_ ->]|[? _]]; [|done]. unfold m'. split_and!; simpl.
      * done.
      * by rewrite last_snoc.
      * right. rewrite elem_of_app, list_elem_of_singleton. tauto.
    + rewrite list_lookup_insert_ne in Hv by done. by eapply H2.
  - intros q Hq. destruct (Hts q) as (_ & _ & ->). rewrite H3 by done. f_equal.
    pose proof (held_by_insert M i m m' q Hi) as E. simpl in E. lia.
  - intros q Hq. destruct (Hts q) as (-> & -> & _). auto.
  - intros j k v q Hk Hv Hq. destruct (Hts q) as (_ & -> & ->). destruct (Hts (owner k)) as (-> & _ & _). intros Hz.
    apply lookup_insert_cases in Hk as [[-> ->]|[Hne Hk]].
    + apply lookup_insert_cases in Hv as [[_ ->]|[? _]]; [|done]. cbn [owner m'].
      apply elem_of_app in Hq as [Hq|Hq]; [by eapply (H5 i)|]. apply list_elem_of_singleton in Hq as ->. done.
    + rewrite list_lookup_insert_ne in Hv by done. by eapply H5.
Qed.

Lemma held_insert W i w : (i < length W)%nat -> Ghosts (<[i := w]> (waits (Ghost := held W))) (blocks (Ghost := held W)) = held (<[i := w]> W).
Proof. intros Hi. unfold held. cbn [waits blocks]. by rewrite insert_app_l. Qed.

Lemma enqueue_tasks i p st m :
  mutexes st !! i = Some m -> wait_tail m <> p -> forall a,
  tasks (base (wait_enqueue i p st)) a =
    if decide (a = p) then set_state TASK_BLOCKED (set_next 0 (tasks (base st) p))
    else if decide (a = wait_tail m /\ wait_tail m <> 0) then set_next p (tasks (base st) a) else tasks (base st) a.
Proof.
  intros Hi Hne a. unfold wait_enqueue, mutex. rewrite (nth_lookup_Some _ _ _ _ Hi). cbn [base set_mutex with_base].
  destruct (decide (a = p)) as [->|Ha].
  - rewrite tasks_upd_eq. destruct (Z.eqb_spec (wait_tail m) 0); [by rewrite tasks_upd_eq|].
    by rewrite tasks_upd_ne, tasks_upd_eq.
  - rewrite tasks_upd_ne by done. destruct (Z.eqb_spec (wait_tail m) 0) as [Hz|Hz].
    + rewrite tasks_upd_ne, decide_False by (congruence || tauto). done.
    + destruct (decide (a = wait_tail m)) as [->|Hat].
      * rewrite tasks_upd_eq, tasks_upd_ne, decide_True by (done || congruence). done.
      * rewrite !tasks_upd_ne, decide_False by (done || congruence || tauto). done.
Qed.

(** The state after the caller has joined the wait queue. *)
Record enqueued_as (st st' : pim) (i : nat) (m : pi_mutex) (w : list Z) (p : Z) : Prop := {
  eq_mutexes : mutexes st' = <[i := MkMutex (owner m) (default 0 (hd_error (w ++ [p]))) p (locked m)]> (mutexes st);
  eq_parts : parts (base st') = parts (base st) /\ deques (base st') = deques (base st) /\ heap (base st') = heap (base st) /\
    env (base st') = env (base st);
  eq_self : tasks (base st') p = set_state TASK_BLOCKED (set_next 0 (tasks (base st) p));
  eq_next : forall a, a <> p -> tasks (base st') a =
    if decide (last w = Some a) then set_next p (tasks (base st) a) else tasks (base st) a
}.

Lemma enqueue_as i st m w p nx :
  mutexes st !! i = Some m -> wait_head m = default 0 (hd_error w) -> wait_tail m = default 0 (last w) ->
  chain nx (default 0 (hd_error w)) w -> p ∉ w -> p <> 0 -> enqueued_as st (wait_enqueue i p st) i m w p.
Proof.
  intros Hi Hhd Htl Hch Hpw Hp0.
  assert (Hlast : wait_tail m = 0 /\ w = [] \/ wait_tail m <> 0 /\ last w = Some (wait_tail m) /\ w <> []).
  { rewrite Htl. eapply (last_cases _ _ w []). rewrite app_nil_r. exact Hch. }
  assert (Htp : wait_tail m <> p).
  { destruct Hlast as [[-> _]|(_ & Hl & _)]; [congruence|]. intros E. apply Hpw. rewrite E in Hl. by apply last_Some_elem_of. }
  pose proof (enqueue_tasks i p st m Hi Htp) as Hts. constructor.
  - unfold wait_enqueue, mutex. rewrite (nth_lookup_Some _ _ _ _ Hi). cbn [mutexes set_mutex with_base]. do 2 f_equal.
    destruct Hlast as [[Hz ->]|(Hz & _ & Hne)]; [by rewrite Hz|]. rewrite (proj2 (Z.eqb_neq _ 0)) by done. rewrite Hhd. by destruct w.
  - unfold wait_enqueue; simpl; by destruct (_ =? 0).
  - by rewrite Hts, decide_True.
  - intros a Ha. rewrite Hts, decide_False by done. destruct Hlast as [[Hz ->]|(Hz & Hl & _)].
    + rewrite decide_False by tauto. done.
    + rewrite Hl. destruct (decide (a = wait_tail m /\ wait_tail m <> 0)) as [[-> _]|Hn].
      * by rewrite decide_True.
      * rewrite decide_False; [done|]. intros [= E]. by apply Hn.
Qed.

(** A task that does not wait does not wait after another one has joined. *)
Lemma still_awake W i w p a :
  W !! i = Some w -> a ∉ waiters (G := held W) -> a <> p -> a ∉ waiters (G := held (<[i := w ++ [p]]> W)).
Proof.
  intros Hw Ha Hne. unfold waiters in *. cbn [waits held] in *. pose proof (lookup_lt_Some _ _ _ Hw) as HiW.
  destruct (concat_split (W ++ R) i w) as (A & D & HW & HW'); [by apply lookup_app_l_Some|].
  rewrite <- insert_app_l, HW', !elem_of_app, list_elem_of_singleton by done. rewrite HW, !elem_of_app in Ha. tauto.
Qed.

Lemma enqueue_spec i this sp st W w Q S m p :
  sched_inv (G := held W) (base st) Q S -> books (tasks (base st)) (mutexes st) W -> mutexes st !! i = Some m ->
  W !! i = Some w -> locked m = 1 -> owner m <> p -> runs (base st) this p -> sp_ok (tasks (base st) p) sp ->
  effective_priority (tasks (base st) p) <= pi_priority (tasks (base st) (owner m)) ->
  let st' := wait_enqueue i p st in
  at_schedule (G := held (<[i := w ++ [p]]> W)) (base st') Q S this sp /\
  books (tasks (base st')) (mutexes st') (<[i := w ++ [p]]> W) /\ enqueued_as st st' i m w p.
Proof.
  intros I Bk Hi Hw Hlk Hop (Hlt & Hc & Hp & Hrun & Hidle) Hsp Hfl st'. pose proof I as [K Hlen Haw].
  assert (Hwr : waits (Ghost := held W) !! i = Some w) by (by apply lookup_app_l_Some).
  destruct (wait_queue_facts (held W) _ _ _ _ i w K Hwr) as (Hch & _ & _ & Hin).
  destruct (bk_mutex _ _ _ Bk i m w Hi Hw) as (Hhd & Htl & _).
  assert (Hpw : p ∉ waiters (G := held W)) by (rewrite <- Hc; by apply (awake_waiting (G := held W) S)).
  assert (Eq : enqueued_as st st' i m w p) by (eapply enqueue_as; try done; intros E; by apply Hpw, Hin).
  pose proof Eq as [Hm' (Hpt & Hdq & Hhp & He) Hpe Hnx].
  assert (Hct : current_task (base st') = current_task (base st) /\ cpu_count (base st') = cpu_count (base st))
    by (unfold env in He; split; congruence). destruct Hct as [Hct Hcc].
  assert (Hcs : forall c, curs (base st') c = curs (base st) c) by (intros c; unfold curs; by rewrite Hct).
  assert (Hoth : forall a, a <> p -> same_but_next (tasks (base st') a) (tasks (base st) a)).
  { intros a Ha. rewrite Hnx by done. by destruct (decide _). }
  split; [constructor|split; [|done]].
  - rewrite <- held_insert by (by eapply lookup_lt_Some).
    eapply (core_cur_ext (G := Ghosts _ _)); [|exact Hcs].
    eapply (core_wait (held W) i w [] (base st) (base st') Q S _ this p); try done; try (rewrite Hpe; done).
    + by rewrite app_nil_r.
    + rewrite <- Hc. apply Haw.
    + intros a Ha. specialize (Hoth a Ha). by apply (f_equal view_unlinked) in Hoth.
    + intros a Ha. rewrite Hnx by done. by destruct (decide _).
    + rewrite Hpe. apply (core_tcb _ _ _ _ K p).
  - by rewrite Hct.
  - intros c Hne. rewrite Hcs, not_elem_of_app. split; [by apply (awake_asleep (G := held W)), Haw|].
    apply still_awake; [done|by apply (awake_waiting (G := held W) S), Haw|].
    rewrite <- Hc. intros E. apply Hne. symmetry. apply (k_cur_inj _ _ _ _ K); congruence.
  - by rewrite Hcc.
  - rewrite Hcs, Hc, Hpe. exact Hsp.
  - rewrite Hm'. eapply (books_wait (tasks (base st))); try done.
    intros a. destruct (decide (a = p)) as [->|Ha]; [by rewrite Hpe|]. specialize (Hoth a Ha).
    by split_and!; [apply (f_equal pi_priority) in Hoth|apply (f_equal effective_priority) in Hoth|apply (f_equal pi_mutexes_held) in Hoth].
Qed.

(** Boosting the owner and moving it in its run queue. *)
Lemma boost_spec i st W Q S m p :
  sched_inv (G := held W) (base st) Q S -> books (tasks (base st)) (mutexes st) W -> mutexes st !! i = Some m ->
  in_table (owner m) -> p <> 0 -> owner m <> p ->
  exists b st1 s2 Q2, try_boost_owner i p st = (b, st1) /\
    (if (b : bool) then sched_reposition_task (owner m) (base st1) else Some (base st1)) = Some s2 /\
    sched_inv (G := held W) s2 Q2 S /\ books (tasks s2) (mutexes st) W /\ mutexes st1 = mutexes st /\ env s2 = env (base st) /\
    (forall a, a <> owner m -> same_but_next (tasks s2 a) (tasks (base st) a)) /\
    pi_priority (tasks s2 (owner m)) = Z.max (pi_priority (tasks (base st) (owner m))) (effective_priority (tasks (base st) p)).
Proof.
  intros I Bk Hi Ho Hp Hop. destruct (try_boost_spec i p st m Hi (in_table_nonzero _ Ho) Hp Hop) as (b & st1 & E & HM & Hbase & Hts & _).
  set (o := owner m) in *. exists b, st1.
  assert (Hself : tasks (base st1) o = boosted (effective_priority (tasks (base st) p)) (tasks (base st) o))
    by (by rewrite Hts, fn_lookup_insert).
  assert (Hoth : forall a, a <> o -> tasks (base st1) a = tasks (base st) a) by (intros a Ha; by rewrite Hts, fn_lookup_insert_ne).
  assert (Hsame : parts (base st1) = parts (base st) /\ deques (base st1) = deques (base st) /\ heap (base st1) = heap (base st) /\
    env (base st1) = env (base st)) by (by rewrite Hbase). destruct Hsame as (Hpt & Hdq & Hhp & He).
  assert (I1 : sched_inv (G := held W) (base st1) Q S).
  { eapply (sched_inv_env (G := held W)); [done| |done]. pose proof I as [K _ _]. eapply core_prio; try done.
    intros a. destruct (decide (a = o)) as [->|]; [by rewrite Hself|by rewrite Hoth]. }
  assert (B1 : books (tasks (base st1)) (mutexes st) W) by (by eapply (books_boost (tasks (base st)))).
  assert (Hrep : exists s2 Q2, (if b then sched_reposition_task o (base st1) else Some (base st1)) = Some s2 /\
    core (G := held W) s2 Q2 S (curs (base st1)) /\ env s2 = env (base st1) /\ (forall a, kept (tasks (base st1) a) (tasks s2 a)) /\
    (forall a, a <> o -> same_but_next (tasks s2 a) (tasks (base st1) a))).
  { pose proof I1 as [K1 _ _]. destruct b; [|exists (base st1), Q; by split_and!].
    destruct (reposition_ok (G := held W) _ _ _ _ o K1) as (s2 & Q2 & ? & ? & ? & ? & _ & ?). by exists s2, Q2. }
  destruct Hrep as (s2 & Q2 & Es & K2 & He2 & Hk & Hsb). exists s2, Q2. split_and!; try done.
  - by eapply (sched_inv_env (G := held W)).
  - eapply (books_frame (tasks (base st1))); try done; [|intros a; apply Hk].
    intros w a Hw Ha. pose proof I1 as [K1 _ _]. by eapply waits_blocked.
  - by rewrite He2.
  - intros a Ha. rewrite <- (Hoth a) by done. by apply Hsb.
  - destruct (Hk o) as (_ & _ & _ & _ & _ & _ & _ & (_ & _ & ->) & _). by rewrite Hself.
Qed.

Lemma lock_wait_spec i this sp st W w Q S m p :
  sched_inv (G := held W) (base st) Q S -> books (tasks (base st)) (mutexes st) W -> mutexes st !! i = Some m ->
  W !! i = Some w -> locked m = 1 -> owner m <> p -> runs (base st) this p -> sp_ok (tasks (base st) p) sp ->
  exists st' Q', lock_guarded i (Z.of_nat this) st = Some (true, st') /\
    at_schedule (G := held (<[i := w ++ [p]]> W)) (base st') Q' S this sp /\
    books (tasks (base st')) (mutexes st') (<[i := w ++ [p]]> W) /\ curs (base st') this = p /\
    mutexes st' = <[i := MkMutex (owner m) (default 0 (hd_error (w ++ [p]))) p (locked m)]> (mutexes st) /\
    state (tasks (base st') p) = TASK_BLOCKED /\
    effective_priority (tasks (base st') p) = effective_priority (tasks (base st) p) /\
    pi_priority (tasks (base st') (owner m)) =
      Z.max (pi_priority (tasks (base st) (owner m))) (effective_priority (tasks (base st) p)).
Proof.
  intros I Bk Hi Hw Hlk Hop Hr Hsp. pose proof Hr as (Hlt & Hc & Hp & Hrun & Hidle). pose proof I as [K _ _].
  pose proof (k_cpus _ _ _ _ K) as Hcc. unfold MAX_CPUS in Hcc.
  destruct (bk_mutex _ _ _ Bk i m w Hi Hw) as (_ & _ & [(E & _)|(_ & Ho & _)]); [congruence|].
  unfold lock_guarded. rewrite current_curs, Hc by lia. set (st0 := Pim _ _ _ 0).
  destruct (boost_spec i st0 W Q S m p I Bk Hi Ho Hp Hop) as (b & st1 & s2 & Q2 & Eb & Es & I2 & B2 & HM & He & Hsb & Hpi).
  unfold mutex at 1. rewrite (nth_lookup_Some _ _ _ _ Hi), Hlk. cbn [Z.eqb]. rewrite Eb. unfold mutex.
  rewrite (nth_lookup_Some _ _ _ _ Hi), Es. unfold mbind, option_bind. rewrite (proj2 (Z.eqb_neq p 0)) by done.
  pose proof (Hsb p (not_eq_sym Hop)) as Hsp2. set (st2 := with_base s2 st1).
  assert (Hr2 : runs s2 this p).
  { unfold env in He. unfold runs, curs. replace (cpu_count s2) with (cpu_count (base st)) by (cbn in He; congruence).
    replace (current_task s2) with (current_task (base st)) by (cbn in He; congruence). split_and!; try done.
    - by rewrite (sbn_state _ _ Hsp2).
    - unfold idle, is_idle_task. by rewrite (sbn_flags _ _ Hsp2). }
  destruct (enqueue_spec i this sp st2 W w Q2 S m p) as (A & B3 & Eq); try done.
  - cbn [mutexes st2 with_base]. by rewrite HM.
  - cbn [mutexes st2 with_base]. by rewrite HM.
  - cbn [base st2 with_base]. pose proof (f_equal stack_base Hsp2) as E1. pose proof (f_equal stack_top Hsp2) as E2.
    simpl in E1, E2. unfold sp_ok. by rewrite E1, E2.
  - cbn [base st2 with_base]. rewrite Hpi. apply (f_equal effective_priority) in Hsp2. simpl in Hsp2. rewrite Hsp2. cbn [base st0]. lia.
  - eexists _, Q2. split; [done|]. destruct Eq as [Em (_ & _ & _ & Ee) Es' En]. cbn [mutexes st2 with_base base] in *.
    split_and!; try done.
    + unfold runs in Hr2. destruct Hr2 as (_ & Hc2 & _). unfold curs in *. unfold env in Ee. congruence.
    + rewrite Em, HM, Hlk. done.
    + by rewrite Es'.
    + rewrite Es'. by apply (f_equal effective_priority) in Hsp2.
    + rewrite En by done. destruct (decide _); exact Hpi.
Qed.

(** ** Unlocking *)

Lemma last_unlinked (l1 l2 : list Z) b :
  NoDup (l1 ++ b :: l2) -> default 0 (last (l1 ++ b :: l2)) <> b -> default 0 (last (l1 ++ b :: l2)) = default 0 (last (l1 ++ l2)).
Proof.
  intros Hnd. destruct l2 as [|x l2 _] using rev_ind; [by rewrite last_snoc|]. intros _.
  rewrite app_comm_cons, !app_assoc, !last_snoc. done.
Qed.

(** Steps that change TCBs only. *)
Definition tasks_only (s s' : sys) : Prop := s' = with_tasks (tasks s') s.

Lemma tasks_only_trans s1 s2 s3 : tasks_only s1 s2 -> tasks_only s2 s3 -> tasks_only s1 s3.
Proof. unfold tasks_only. intros H1 H2. rewrite H1 in H2. exact H2. Qed.

Lemma tasks_only_upd s p f : tasks_only s (upd p f s).
Proof. done. Qed.

(** The TCBs when the waiter [b] has been given the mutex and is READY. *)
Record handed (s se : sys) (l1 : list Z) (b : Z) (l2 : list Z) (q : Z) : Prop := {
  ho_rest : tasks_only s se;
  ho_self : tasks se b = set_state TASK_READY (set_pi_priority q (acquired (set_next 0 (tasks s b))));
  ho_other : forall a, a <> b ->
    tasks se a = if decide (last l1 = Some a) then set_next (next (tasks s b)) (tasks s a) else tasks s a;
  ho_floor : pi_priority (tasks s b) <= q /\ Forall (fun a => effective_priority (tasks s a) <= q) (l1 ++ l2);
  ho_least : q = pi_priority (tasks s b) \/ exists a, a ∈ l1 ++ l2 /\ q = effective_priority (tasks s a)
}.

Lemma hand_off_eq i b prev st m tl sd :
  let s := base st in let h := if prev =? 0 then next (tasks s b) else wait_head m in
  let sa := relink prev (next (tasks s b)) s in
  mutexes st !! i = Some m -> b <> 0 ->
  (if wait_tail m =? b then tail_walk QUEUE_FUEL (tasks sa) 0 h else Some (wait_tail m)) = Some tl ->
  floor_walk QUEUE_FUEL b h (upd b acquired (upd b (set_next 0) sa)) = Some sd ->
  hand_off i b prev st =
    (let se := upd b (set_state TASK_READY) sd in
     s3 ← scheduler_add_task_to_cpu b (assigned_cpu (tasks se b)) se;
     Some (set_mutex i (MkMutex b h tl (locked m)) (with_base s3 st))).
Proof.
  intros s h sa Hi Hb Ht Hf. unfold hand_off, mutex. rewrite (nth_lookup_Some _ _ _ _ Hi).
  unfold relink in sa. fold s h sa. rewrite Ht. unfold note_mutex_acquired. rewrite (proj2 (Z.eqb_neq b 0)) by done.
  unfold mbind, option_bind. fold acquired. rewrite Hf. reflexivity.
Qed.

Lemma hand_off_tasks i st m l1 b l2 :
  let s := base st in let w := l1 ++ b :: l2 in
  mutexes st !! i = Some m -> chain (fun a => next (tasks s a)) (default 0 (hd_error w)) w -> NoDup w -> (length w < QUEUE_FUEL)%nat ->
  wait_head m = default 0 (hd_error w) -> wait_tail m = default 0 (last w) ->
  exists se q, handed s se l1 b l2 q /\ hand_off i b (default 0 (last l1)) st =
    (s3 ← scheduler_add_task_to_cpu b (assigned_cpu (tasks se b)) se;
     Some (set_mutex i (MkMutex b (default 0 (hd_error (l1 ++ l2))) (default 0 (last (l1 ++ l2))) (locked m)) (with_base s3 st))).
Proof.
  intros s w Hi Hch Hnd Hlw Hhd Htl.
  assert (Hbw : b ∈ w) by (unfold w; rewrite elem_of_app, elem_of_cons; auto). pose proof (chain_nonzero _ _ _ _ Hch Hbw) as Hb0.
  assert (Hbl : b ∉ l1 ++ l2) by (unfold w in Hnd; rewrite <- Permutation_middle in Hnd; by apply NoDup_cons in Hnd as [? _]).
  destruct (relink_spec s _ l1 (b :: l2) (next (tasks s b)) Hch) as [Hsa Hat]. set (sa := relink _ _ s) in *.
  assert (Hab : tasks sa b = tasks s b).
  { rewrite Hat, decide_False; [done|]. intros Hl. apply Hbl, elem_of_app. left. by apply last_Some_elem_of. }
  destruct (chain_remove _ (fun a => next (tasks sa a)) _ l1 b l2 Hch Hnd) as [Hcha Hnb].
  { intros a _. rewrite Hat. by destruct (decide _). }
  set (h := if default 0 (last l1) =? 0 then next (tasks s b) else wait_head m).
  assert (Hh : h = default 0 (hd_error (l1 ++ l2))).
  { unfold h. rewrite Hhd. unfold w. destruct (last_cases _ _ _ _ Hch) as [[Hz ->]|(Hz & _ & Hne)]; [exact Hnb|].
    rewrite (proj2 (Z.eqb_neq _ 0)) by done. by destruct l1. }
  rewrite (chain_head _ _ _ Hcha), <- Hh in Hcha.
  assert (Hll : (length (l1 ++ l2) < QUEUE_FUEL)%nat) by (unfold w in Hlw; rewrite !length_app in *; simpl in Hlw; lia).
  set (sc := upd b acquired (upd b (set_next 0) sa)).
  assert (Hcb : tasks sc b = acquired (set_next 0 (tasks s b))) by (unfold sc; by rewrite !tasks_upd_eq, Hab).
  assert (Hco : forall a, a <> b -> tasks sc a = tasks sa a) by (intros a Ha; unfold sc; by rewrite !tasks_upd_ne).
  destruct (floor_walk_spec QUEUE_FUEL b h (l1 ++ l2) sc) as (sd & q & Ed & Hsd & Hdo & Hdb & Hq1 & Hq2 & Hq3); [|done|done|].
  { eapply chain_frame; [exact Hcha|]. intros a Ha. rewrite Hco; [done|congruence]. }
  assert (Heff : forall a, effective_priority (tasks sc a) = effective_priority (tasks s a)).
  { intros a. destruct (decide (a = b)) as [->|Ha]; [by rewrite Hcb|]. rewrite Hco, Hat by done. by destruct (decide _). }
  rewrite Hcb in Hq1, Hq3. exists (upd b (set_state TASK_READY) sd), q. split; [constructor|].
  - apply (tasks_only_trans _ sd); [|apply tasks_only_upd]. apply (tasks_only_trans _ sc); [|exact Hsd].
    apply (tasks_only_trans _ sa); [exact Hsa|]. eapply tasks_only_trans; apply tasks_only_upd.
  - by rewrite tasks_upd_eq, Hdb, Hcb.
  - intros a Ha. by rewrite tasks_upd_ne, Hdo, Hco, Hat.
  - split; [done|]. eapply Forall_impl; [exact Hq2|]. intros a. cbv beta. by rewrite Heff.
  - destruct Hq3 as [?|(a & ? & ->)]; [by left|right]. exists a. by rewrite Heff.
  - rewrite <- Hh. apply hand_off_eq; try done.
    destruct (Z.eqb_spec (wait_tail m) b) as [|Hne]; [by apply tail_walk_spec|]. rewrite Htl in Hne |- *. by rewrite <- (last_unlinked l1 l2 b).
Qed.

Lemma hand_off_spec i st W Q S m l1 b l2 :
  sched_inv (G := held W) (base st) Q S -> mutexes st !! i = Some m -> W !! i = Some (l1 ++ b :: l2) ->
  wait_head m = default 0 (hd_error (l1 ++ b :: l2)) -> wait_tail m = default 0 (last (l1 ++ b :: l2)) ->
  exists se s3 Q3 q, handed (base st) se l1 b l2 q /\
    hand_off i b (default 0 (last l1)) st =
      Some (set_mutex i (MkMutex b (default 0 (hd_error (l1 ++ l2))) (default 0 (last (l1 ++ l2))) (locked m)) (with_base s3 st)) /\
    sched_inv (G := held (<[i := l1 ++ l2]> W)) s3 Q3 S /\ env s3 = env (base st) /\ (forall a, kept (tasks se a) (tasks s3 a)) /\
    (forall w a, w ∈ <[i := l1 ++ l2]> W -> a ∈ w -> state (tasks se a) = TASK_BLOCKED) /\
    (assigned_cpu (tasks (base st) b) < cpu_count (base st) -> exists c, Z.of_nat c = assigned_cpu (tasks (base st) b) /\ b ∈ Q3 c).
Proof.
  intros I Hi Hw Hhd Htl. pose proof I as [K Hlen Haw]. set (s := base st) in *. set (w := l1 ++ b :: l2) in *.
  assert (Hwr : waits (Ghost := held W) !! i = Some w) by (by apply lookup_app_l_Some).
  destruct (wait_queue_facts (held W) _ _ _ _ i w K Hwr) as (Hch & Hnd & Hlw & Hin).
  destruct (hand_off_tasks i st m l1 b l2 Hi Hch Hnd Hlw Hhd Htl) as (se & q & Ho & ->). pose proof Ho as [Hse Heb Heo _ _].
  assert (Hbw : b ∈ w) by (unfold w; rewrite elem_of_app, elem_of_cons; auto). destruct (Hin b Hbw) as (Hbwt & Htab & _).
  assert (Hcur : forall c, curs s c <> b) by (intros c E; apply (awake_waiting (G := held W) _ _ (Haw c)); by rewrite E).
  destruct (core_unwait (held W) i l1 l2 s se Q S (curs s) b) as [K' F']; try done; try (by rewrite Hse); try (by rewrite Heb).
  - intros a Ha. rewrite Heo by done. by destruct (decide _).
  - intros a Ha. rewrite Heo by done. by destruct (decide _).
  - rewrite Heb. apply (core_tcb _ _ _ _ K b).
  - rewrite held_insert in K', F' by (by eapply lookup_lt_Some). set (W' := <[i := l1 ++ l2]> W) in *.
    destruct (core_tcb _ _ _ _ K' b) as [_ [Hcpu _]].
    destruct (add_to_cpu_ok (G := held W') se Q S (curs s) b (assigned_cpu (tasks se b)) K' Hcpu (fun _ _ => F')) as (s3 & Q3 & -> & K3 & He3 & Hk3 & Hq3).
    assert (He : env s3 = env s) by (rewrite He3, Hse; done).
    exists se, s3, Q3, q. unfold mbind, option_bind. split_and!; try done; [|intros v a; by eapply waits_blocked|].
    2:{ intros Hlt. exists (Z.to_nat (assigned_cpu (tasks se b))). assert (Ha : assigned_cpu (tasks se b) = assigned_cpu (tasks s b)) by (by rewrite Heb).
        rewrite Z2Nat.id by done. split; [done|]. apply Hq3; [destruct Htab; lia|by rewrite Heb|]. rewrite Ha, Hse. exact Hlt. }
    assert (Hct : current_task s3 = current_task s) by (unfold env in He; congruence).
    assert (Hcs : forall c, curs s3 c = curs s c) by (intros c; unfold curs; by rewrite Hct). constructor.
    + by eapply (core_cur_ext (G := held W')).
    + by rewrite Hct.
    + intros c. rewrite Hcs. specialize (Haw c). rewrite elem_of_app in *. intros [?|Hc]; [tauto|]. apply Haw. right.
      unfold waiters in *. cbn [waits held] in *. destruct (concat_split (W ++ R) i w Hwr) as (A & D & HW & HW').
      unfold W' in Hc. rewrite <- insert_app_l, HW' in Hc by (by eapply lookup_lt_Some). rewrite HW. unfold w.
      rewrite !elem_of_app in *. rewrite elem_of_cons. tauto.
Qed.

End held.

End PiSpec.
