(* ===== verification/PiSessions.v ===== *)
(** What the priority-inheriting mutexes promise.

    Any sequence of lock, trylock, unlock and yield calls from any CPUs keeps the
    invariant of [PiSpec]; in particular no holder ever ranks below a task that waits for
    it.  The functional theorems give the effect of a contended lock and of an unlock. *)

From S2P Require Import Prelude FreeList Buddy BuddyInv BuddyStep BuddySpec PmmSpec.
From S2P Require Import StealDeque Task Sys Sched TaskSleep Heuristic RunQueue SchedInv Dispatch SchedCalls SchedSleep.
From S2P Require Import TaskLife SchedBoot SchedSpec SchedPick WaitQueue PiMutex PiSpec.

Open Scope Z_scope.
Open Scope slm_scope.

Module PiSessions.
Import Task Sys Sched RunQueue SchedInv Dispatch SchedCalls SchedSleep SchedSpec WaitQueue PiMutex PiSpec.

Section pi.
Context (R : list (list Z)) (B : list (nat * Z)).

#[local] Notation held := (PiSpec.held R B).
#[local] Notation pi_inv := (PiSpec.pi_inv R B).

(** ** Unlocking *)

(** The state after the owner has given up the mutex. *)
Lemma drop_spec i this st W Q S m :
  sched_inv (G := held W) (base st) Q S -> books (tasks (base st)) (mutexes st) W -> mutexes st !! i = Some m ->
  runs (base st) this (owner m) ->
  let s := drop_owner (owner m) (base st) in
  sched_inv (G := held W) s Q S /\ env s = env (base st) /\ (forall a, a <> owner m -> tasks s a = tasks (base st) a) /\
  gave_up (tasks (base st) (owner m)) (tasks s (owner m)) /\ (forall w, w ∈ W -> owner m ∉ w).
Proof.
  intros I Bk Hi (Hlt & Hc & Ho & Hrun & Hidle) s. pose proof I as [K Hlen Haw].
  destruct (k_cur _ _ _ _ K this) as (Htab & _); [congruence|]. rewrite Hc in Htab.
  destruct (drop_owner_spec (owner m) (base st) Ho) as (Hs & Hoth & Hself & Hg).
  - rewrite (bk_count _ _ _ Bk) by done. pose proof (held_by_owner _ _ _ Hi). lia.
  - by apply (bk_dom _ _ _ Bk).
  - fold s in Hs, Hoth, Hself, Hg. assert (He : env s = env (base st)) by (by rewrite Hs). split_and!; try done.
    + eapply (sched_inv_env (G := held W)); [done| |done]. eapply core_prio; [done|by rewrite Hs..|].
      intros a. destruct (decide (a = owner m)) as [->|]; [done|by rewrite Hoth].
    + intros w Hw Hin. apply (awake_waiting (G := held W) _ _ (Haw this)). rewrite Hc.
      eapply (waiters_in (G := held W)); [|done]. apply elem_of_app. auto.
Qed.

Lemma unlock_free_spec i this st W Q S m :
  sched_inv (G := held W) (base st) Q S -> books (tasks (base st)) (mutexes st) W -> mutexes st !! i = Some m ->
  W !! i = Some [] -> locked m = 1 -> runs (base st) this (owner m) ->
  exists s', pi_mutex_unlock i st = Some (set_mutex i (MkMutex 0 0 0 0) (with_base s' st)) /\
    sched_inv (G := held W) s' Q S /\ books (tasks s') (<[i := MkMutex 0 0 0 0]> (mutexes st)) W /\ env s' = env (base st) /\
    gave_up (tasks (base st) (owner m)) (tasks s' (owner m)).
Proof.
  intros I Bk Hi Hw Hlk Hr. destruct (drop_spec i this st W Q S m I Bk Hi Hr) as (I' & He & Hoth & Hg & Hnw).
  destruct (bk_mutex _ _ _ Bk i m [] Hi Hw) as (Hhd & Htl & _). simpl in Hhd, Htl.
  exists (drop_owner (owner m) (base st)). split_and!; try done.
  - unfold pi_mutex_unlock, mutex. rewrite (nth_lookup_Some _ _ _ _ Hi), Hhd, Htl. done.
  - pose proof (books_release (tasks (base st)) (tasks (drop_owner (owner m) (base st))) _ W i m Bk Hi Hw Hlk Hnw Hg) as H.
    rewrite Hhd, Htl in H. apply H. intros a Ha. by rewrite Hoth.
Qed.

Lemma unlock_handoff_spec i this st W Q S m w :
  sched_inv (G := held W) (base st) Q S -> books (tasks (base st)) (mutexes st) W -> mutexes st !! i = Some m ->
  W !! i = Some w -> w <> [] -> locked m = 1 -> runs (base st) this (owner m) ->
  exists l1 b l2 s' Q', w = l1 ++ b :: l2 /\ best_of (tasks (base st)) l1 b l2 /\
    let m' := MkMutex b (default 0 (hd_error (l1 ++ l2))) (default 0 (last (l1 ++ l2))) 1 in
    pi_mutex_unlock i st = Some (set_mutex i m' (with_base s' st)) /\
    sched_inv (G := held (<[i := l1 ++ l2]> W)) s' Q' S /\
    books (tasks s') (<[i := m']> (mutexes st)) (<[i := l1 ++ l2]> W) /\ env s' = env (base st) /\
    state (tasks s' b) = TASK_READY /\
    (assigned_cpu (tasks (base st) b) < cpu_count (base st) -> exists c, Z.of_nat c = assigned_cpu (tasks (base st) b) /\ b ∈ Q' c) /\
    pi_mutexes_held (tasks s' (owner m)) = pi_mutexes_held (tasks (base st) (owner m)) - 1 /\
    (pi_mutexes_held (tasks s' (owner m)) = 0 -> pi_priority (tasks s' (owner m)) = 0).
Proof.
  intros I Bk Hi Hw Hne Hlk Hr. destruct (drop_spec i this st W Q S m I Bk Hi Hr) as (I1 & He & Hoth & Hg & Hnw).
  destruct (bk_mutex _ _ _ Bk i m w Hi Hw) as (Hhd & Htl & _). set (s1 := drop_owner (owner m) (base st)) in *.
  assert (Hwr : waits (Ghost := held W) !! i = Some w) by (by apply lookup_app_l_Some).
  pose proof I1 as [K1 _ _]. destruct (wait_queue_facts (held W) _ _ _ _ i w K1 Hwr) as (Hch & Hnd & Hlw & Hin).
  destruct (best_walk_spec (tasks s1) w Hch Hlw) as (b & prev & Ebw & [[_ ?]|(Hb & l1 & l2 & -> & -> & Hbest)]); [done|].
  assert (How : owner m ∉ l1 ++ b :: l2) by (apply Hnw; by eapply list_elem_of_lookup_2).
  assert (Hsm : forall a, a ∈ l1 ++ b :: l2 -> tasks s1 a = tasks (base st) a) by (intros a Ha; apply Hoth; congruence).
  assert (Hbb : tasks s1 b = tasks (base st) b) by (apply Hsm; rewrite elem_of_app, elem_of_cons; auto).
  assert (Htb : in_table b) by (apply Hin; rewrite elem_of_app, elem_of_cons; auto).
  assert (Hbo : b <> owner m) by (intros ->; apply How; rewrite elem_of_app, elem_of_cons; auto).
  destruct (hand_off_spec R B i (with_base s1 st) W Q S m l1 b l2 I1 Hi Hw Hhd Htl)
    as (se & s3 & Q3 & q & [Hse Heb Heo [Hq1 Hq2] Hq3] & Eho & I3 & He3 & Hk & Hbk & Hq). cbn [base with_base] in *.
  assert (Hbest' : best_of (tasks (base st)) l1 b l2).
  { destruct Hbest as [H1 H2]. unfold best_of. rewrite !Forall_forall in *. split; intros a Ha; rewrite <- Hbb, <- Hsm;
      try (by apply H1 || by apply H2); rewrite elem_of_app, elem_of_cons; auto. }
  assert (Hmax : forall a, a ∈ l1 ++ l2 -> effective_priority (tasks s1 a) <= effective_priority (tasks s1 b)).
  { destruct Hbest as [H1 H2]. rewrite !Forall_forall in *. intros a [Ha|Ha]%elem_of_app; [specialize (H1 a Ha); lia|by apply H2]. }
  exists l1, b, l2, s3, Q3. split; [done|]. split; [done|]. cbv zeta.
  assert (Bse : books (tasks se) (<[i := MkMutex b (default 0 (hd_error (l1 ++ l2))) (default 0 (last (l1 ++ l2))) 1]> (mutexes st)) (<[i := l1 ++ l2]> W)).
  { eapply (books_handoff (tasks (base st))); try done.
    - intros j v Hv Hbv. eapply (concat_disjoint (W ++ R) j i v (l1 ++ b :: l2)); try done.
      + apply (k_wnodup (G := held W) _ _ _ _ K1).
      + by apply lookup_app_l_Some.
      + rewrite elem_of_app, elem_of_cons. auto.
    - rewrite Heo by (by apply not_eq_sym). destruct (decide _); exact Hg.
    - intros a Ha Hab. rewrite Heo, (Hoth a) by done. by destruct (decide _).
    - by rewrite Heb, Hbb.
    - by rewrite Heb, Hbb.
    - rewrite Heb. cbn. rewrite Hbb in *. split; [done|]. destruct Hq3 as [->|(a & Ha & ->)]; [by apply (bk_dom _ _ _ Bk)|]. by apply Hmax.
    - rewrite Heb. cbn. rewrite Forall_forall in *. intros a Ha. rewrite <- Hsm; [by apply Hq2|].
      rewrite elem_of_app, elem_of_cons. apply elem_of_app in Ha. tauto. }
  assert (Hold : pi_mutexes_held (tasks s3 (owner m)) = pi_mutexes_held (tasks s1 (owner m)) /\ pi_priority (tasks s3 (owner m)) = pi_priority (tasks s1 (owner m))).
  { destruct (Hk (owner m)) as (_ & _ & _ & _ & _ & _ & _ & (_ & _ & ->) & -> & _). rewrite Heo by (by apply not_eq_sym). by destruct (decide _). }
  destruct Hold as [Hold1 Hold2]. destruct Hg as (G1 & _ & G3 & _). rewrite Hold1, Hold2.
  split_and!; try done.
  - unfold pi_mutex_unlock, mutex. rewrite (nth_lookup_Some _ _ _ _ Hi). fold s1. rewrite Hhd, Ebw. unfold mbind, option_bind.
    rewrite (proj2 (Z.eqb_neq b 0)) by done. rewrite Eho, Hlk. done.
  - eapply (books_frame (tasks se)); try done. intros a. apply Hk.
  - by rewrite He3.
  - destruct (Hk b) as (_ & -> & _). by rewrite Heb.
  - rewrite Hbb in Hq. unfold env in He. replace (cpu_count s1) with (cpu_count (base st)) in Hq by congruence. exact Hq.
Qed.

(** ** Sessions *)

Inductive pi_call :=
  | Lock (i this : nat) (sp : Z)
  | Trylock (i this : nat)
  | Unlock (i this : nat)
  | Reschedule (this : nat) (sp : Z).

Definition pi_exec (c : pi_call) (st : pim) : option pim :=
  match c with
  | Lock i this sp => pi_mutex_lock i (Z.of_nat this) sp st
  | Trylock i this => snd <$> pi_mutex_trylock i (Z.of_nat this) st
  | Unlock i _ => pi_mutex_unlock i st
  | Reschedule this sp => s ← schedule (Z.of_nat this) sp (base st); Some (with_base s st)
  end.

(** The callers' obligations: a task does not lock a mutex it holds, and only the running
    owner unlocks. *)
Definition pi_allowed (st : pim) (c : pi_call) : Prop :=
  let s := base st in
  match c with
  | Lock i this sp => (i < length (mutexes st))%nat /\ runs s this (curs s this) /\ owner (mutex i st) <> curs s this /\
      sp_ok (tasks s (curs s this)) sp
  | Trylock i this => (i < length (mutexes st))%nat /\ runs s this (curs s this)
  | Unlock i this => (i < length (mutexes st))%nat /\ runs s this (curs s this) /\ owner (mutex i st) = curs s this
  | Reschedule this sp => Z.of_nat this < cpu_count s /\ sp_ok (tasks s (curs s this)) sp
  end.

Lemma mutex_lookup st i : (i < length (mutexes st))%nat -> mutexes st !! i = Some (mutex i st).
Proof. intros Hi. destruct (lookup_lt_is_Some_2 _ _ Hi) as [m Hm]. unfold mutex. by rewrite (nth_lookup_Some _ _ _ _ Hm). Qed.

(** A mutex that is not locked is free, one that is has an owner. *)
Lemma books_lookup st W i :
  books (tasks (base st)) (mutexes st) W -> (i < length (mutexes st))%nat ->
  exists w, W !! i = Some w /\ mutexes st !! i = Some (mutex i st) /\ mutex_ok (mutex i st) w.
Proof.
  intros Bk Hi. pose proof (mutex_lookup st i Hi) as Hm. destruct (lookup_lt_is_Some_2 W i) as [w Hw].
  { by rewrite <- (proj1 (bk_len _ _ _ Bk)). }
  exists w. split_and!; try done. by eapply bk_mutex.
Qed.

(** [schedule] keeps the books. *)
Lemma schedule_books this sp s M W Q S :
  at_schedule (G := held W) s Q S this sp -> books (tasks s) M W ->
  exists s' Q', schedule (Z.of_nat this) sp s = Some s' /\ sched_inv (G := held W) s' Q' S /\ books (tasks s') M W /\
    (forall a, prio_kept (tasks s a) (tasks s' a)).
Proof.
  intros A Bk. destruct (schedule_spec (G := held W) this sp s Q S A) as (s' & _ & _ & Q' & E & I' & _ & _ & _ & _ & _ & _ & _ & _ & Hk).
  exists s', Q'. split_and!; try done. eapply books_frame; try done. intros w a Hw Ha. destruct A as [K _ _ _ _]. by eapply waits_blocked.
Qed.

Lemma lock_contended_spec i this sp st W w Q S m p :
  sched_inv (G := held W) (base st) Q S -> books (tasks (base st)) (mutexes st) W -> mutexes st !! i = Some m ->
  W !! i = Some w -> locked m = 1 -> owner m <> p -> runs (base st) this p -> sp_ok (tasks (base st) p) sp ->
  exists st' Q', pi_mutex_lock i (Z.of_nat this) sp st = Some st' /\
    sched_inv (G := held (<[i := w ++ [p]]> W)) (base st') Q' S /\
    books (tasks (base st')) (mutexes st') (<[i := w ++ [p]]> W) /\
    mutexes st' = <[i := MkMutex (owner m) (default 0 (hd_error (w ++ [p]))) p 1]> (mutexes st) /\
    state (tasks (base st') p) = TASK_BLOCKED /\ (forall c, curs (base st') c <> p) /\
    effective_priority (tasks (base st') p) = effective_priority (tasks (base st) p) /\
    pi_priority (tasks (base st') (owner m)) =
      Z.max (pi_priority (tasks (base st) (owner m))) (effective_priority (tasks (base st) p)).
Proof.
  intros I Bk Hi Hw Hlk Hop Hr Hsp.
  destruct (lock_wait_spec R B i this sp st W w Q S m p I Bk Hi Hw Hlk Hop Hr Hsp) as (st1 & Q1 & E & A & B1 & Hc1 & HM & Hst & Heff & Hpi).
  destruct (schedule_books this sp _ _ _ _ _ A B1) as (s2 & Q2 & E2 & I2 & B2 & Hk).
  unfold pi_mutex_lock. rewrite E. unfold mbind, option_bind. rewrite E2. exists (with_base s2 st1), Q2. rewrite Hlk in HM.
  assert (Hst2 : state (tasks s2 p) = TASK_BLOCKED).
  { destruct (Hk p) as (_ & _ & Hs & _). rewrite Hst in Hs. by destruct (state (tasks s2 p)). }
  split_and!; try done; cbn [base with_base].
  - intros c Hc. destruct I2 as [_ _ Haw]. apply (awake_waiting (G := held (<[i := w ++ [p]]> W)) _ _ (Haw c)). rewrite Hc.
    eapply (waiters_in (G := held (<[i := w ++ [p]]> W)) (w ++ [p])); [|rewrite elem_of_app, list_elem_of_singleton; auto].
    apply elem_of_app. left. apply (list_elem_of_lookup_2 _ i), list_lookup_insert_eq. by eapply lookup_lt_Some.
  - destruct (Hk p) as (_ & _ & _ & [->|[Hn _]]); [done|]. by destruct Hn.
  - destruct (Hk (owner m)) as ((_ & _ & ->) & _). done.
Qed.

Lemma pi_step c st : pi_inv st -> pi_allowed st c -> exists st', pi_exec c st = Some st' /\ pi_inv st'.
Proof.
  intros [I Bk] A. set (W := wait_lists st) in *. pose proof I as [K _ _]. pose proof (k_cpus _ _ _ _ K) as Hcc. unfold MAX_CPUS in Hcc.
  destruct c as [i this sp|i this|i this|this sp]; cbn [pi_allowed pi_exec] in *.
  - destruct A as (Hi & Hr & Hop & Hsp). destruct (books_lookup st W i Bk Hi) as (w & Hw & Hm & Hok).
    destruct Hok as (_ & _ & [(Hlk & _)|(Hlk & _ & _)]).
    + destruct (lock_free_spec R B i this (Pim (base st) (mutexes st) (total_inversions st) 0) W _ _ _ _ I Bk Hm Hlk Hr) as (s' & E & I' & B').
      cbn [base] in E. unfold pi_mutex_lock, lock_guarded, mutex. destruct Hr as (Hlt & _). rewrite current_curs by lia. cbn [mutexes base].
      fold (mutex i st). rewrite Hlk, E. eexists. split; [done|]. by eapply (pi_intro _ _ _ W).
    + destruct (lock_contended_spec i this sp st W w _ _ _ _ I Bk Hm Hw Hlk Hop Hr Hsp) as (st' & Q' & E & I' & B' & _).
      exists st'. split; [done|]. by eapply pi_intro.
  - destruct A as (Hi & Hr). destruct (books_lookup st W i Bk Hi) as (w & Hw & Hm & Hok). unfold pi_mutex_trylock.
    rewrite current_curs by (destruct Hr; lia). destruct Hok as (_ & _ & [(Hlk & _)|(Hlk & _ & _)]); rewrite Hlk; cbn [Z.eqb].
    + destruct (lock_free_spec R B i this st W _ _ _ _ I Bk Hm Hlk Hr) as (s' & E & I' & B').
      rewrite E. eexists. split; [done|]. by eapply (pi_intro _ _ _ W).
    + exists st. by split.
  - destruct A as (Hi & Hr & Ho). destruct (books_lookup st W i Bk Hi) as (w & Hw & Hm & Hok). rewrite <- Ho in Hr.
    destruct Hok as (_ & _ & [(_ & Hz & _)|(Hlk & _ & _)]); [destruct Hr as (_ & _ & Hnz & _); congruence|].
    destruct (decide (w = [])) as [->|Hne].
    + destruct (unlock_free_spec i this st W _ _ _ I Bk Hm Hw Hlk Hr) as (s' & E & I' & B' & _).
      eexists. split; [done|]. by eapply (pi_intro _ _ _ W).
    + destruct (unlock_handoff_spec i this st W _ _ _ w I Bk Hm Hw Hne Hlk Hr) as (l1 & b & l2 & s' & Q' & _ & _ & E & I' & B' & _).
      eexists. split; [done|]. by eapply (pi_intro _ _ (set_mutex i _ (with_base s' st))).
  - destruct A as [Hlt Hsp]. destruct (schedule_books this sp (base st) (mutexes st) W _ _ (at_schedule_of (G := held W) _ _ _ _ _ I Hlt Hsp) Bk)
      as (s' & Q' & E & I' & B' & _). rewrite E. eexists. split; [done|]. by eapply pi_intro.
Qed.

Fixpoint pi_run (cs : list pi_call) (st : pim) : option pim :=
  match cs with
  | [] => Some st
  | c :: cs => st ← pi_exec c st; pi_run cs st
  end.

Fixpoint pi_permitted (cs : list pi_call) (st : pim) : Prop :=
  match cs with
  | [] => True
  | c :: cs => pi_allowed st c /\ forall st', pi_exec c st = Some st' -> pi_permitted cs st'
  end.

(** A waiting task that holds no mutex itself does not outrank the holder, who is not
    among the waiters. *)
Definition no_inversion (st : pim) : Prop :=
  forall i m p, mutexes st !! i = Some m -> p ∈ wait_list (base st) m ->
    in_table (owner m) /\ owner m ∉ wait_list (base st) m /\ state (tasks (base st) p) = TASK_BLOCKED /\
    (pi_mutexes_held (tasks (base st) p) = 0 ->
     effective_priority (tasks (base st) p) <= effective_priority (tasks (base st) (owner m))).

Lemma pi_no_inversion st : pi_inv st -> no_inversion st.
Proof.
  intros [I Bk] i m p Hm Hp. set (W := wait_lists st) in *. pose proof I as [K _ _].
  assert (Hw : W !! i = Some (wait_list (base st) m)) by (unfold W, wait_lists; by rewrite list_lookup_fmap, Hm).
  destruct (bk_mutex _ _ _ Bk i m _ Hm Hw) as (_ & _ & [(_ & _ & E)|(_ & Ho & How)]).
  - rewrite E in Hp. by apply not_elem_of_nil in Hp.
  - split_and!; try done; [eapply waits_blocked; [done|by eapply list_elem_of_lookup_2|done]|]. intros Hz.
    etransitivity; [by eapply (bk_floor _ _ _ Bk)|by apply (bk_dom _ _ _ Bk)].
Qed.

(** C6. Any sequence of lock, trylock, unlock and yield calls, from any CPUs, in which no
    task locks a mutex it already holds and only owners unlock, runs to its end without a
    NULL dereference, a panic or a runaway list walk.  At the end the scheduler's invariant
    holds, every task's count of held mutexes is exact, every waiting task is BLOCKED, and
    none that holds no mutex itself ranks above the holder it waits for. *)
Theorem pi_sessions_safe (cs : list pi_call) (st : pim) :
  pi_inv st -> pi_permitted cs st ->
  exists st', pi_run cs st = Some st' /\ pi_inv st' /\ no_inversion st' /\
    (forall p, in_table p -> pi_mutexes_held (tasks (base st') p) = Z.of_nat (held_by (mutexes st') p)).
Proof.
  intros I P. assert (H : exists st', pi_run cs st = Some st' /\ pi_inv st').
  { revert st I P. induction cs as [|c cs IH]; intros st I P; simpl in *; [by exists st|].
    destruct P as [A P]. destruct (pi_step c st I A) as (st1 & E & I1). rewrite E. apply IH; auto. }
  destruct H as (st' & ? & I'). exists st'. split_and!; try done; [by apply pi_no_inversion|]. apply I'.
Qed.

(** Reading the wait queues off a state in which one mutex has changed. *)
Lemma lists_after st st' i m' w' Q S C :
  core (G := held (<[i := w']> (wait_lists st))) (base st') Q S C ->
  books (tasks (base st')) (mutexes st') (<[i := w']> (wait_lists st)) ->
  mutexes st' = <[i := m']> (mutexes st) -> (i < length (mutexes st))%nat ->
  mutex i st' = m' /\ wait_list (base st') m' = w' /\
  (forall j, j <> i -> (j < length (mutexes st))%nat ->
     wait_list (base st') (mutex j st') = wait_list (base st) (mutex j st) /\ mutex j st' = mutex j st).
Proof.
  intros K' B' HM Hi. pose proof (wait_lists_eq R B st' _ _ _ _ K' B') as HW.
  assert (Hlen : length (mutexes st') = length (mutexes st)) by (rewrite HM; apply length_insert).
  assert (Hlist : forall j, (j < length (mutexes st))%nat -> wait_lists st' !! j = Some (wait_list (base st') (mutex j st')) /\
    wait_lists st !! j = Some (wait_list (base st) (mutex j st))).
  { intros j Hj. unfold wait_lists. rewrite !list_lookup_fmap, !mutex_lookup by (rewrite ?Hlen; done). done. }
  assert (Hmi : mutex i st' = m').
  { unfold mutex. rewrite HM. apply nth_lookup_Some. by apply list_lookup_insert_eq. }
  split; [done|]. split.
  - destruct (Hlist i Hi) as [H1 H2]. rewrite HW, list_lookup_insert_eq in H1 by (by eapply lookup_lt_Some). congruence.
  - intros j Hj Hjl. destruct (Hlist j Hjl) as [H1 H2]. rewrite HW, list_lookup_insert_ne in H1 by done. split; [congruence|].
    unfold mutex. rewrite HM. apply nth_lookup_Some. rewrite list_lookup_insert_ne by done. by rewrite mutex_lookup.
Qed.

(** C27. Locking a mutex another task holds puts the caller at the end of its wait queue,
    BLOCKED and on no CPU.  The holder keeps the mutex; its inherited priority is the
    maximum of the old one and the caller's priority, and its effective priority is no
    less. *)
Theorem lock_contended (i this : nat) (sp : Z) (st : pim) :
  let s := base st in let p := curs s this in let m := mutex i st in
  pi_inv st -> pi_allowed st (Lock i this sp) -> locked m <> 0 ->
  exists st', pi_mutex_lock i (Z.of_nat this) sp st = Some st' /\ pi_inv st' /\
    owner (mutex i st') = owner m /\ wait_list (base st') (mutex i st') = wait_list s m ++ [p] /\
    (forall j, j <> i -> (j < length (mutexes st))%nat ->
       wait_list (base st') (mutex j st') = wait_list s (mutex j st) /\ mutex j st' = mutex j st) /\
    state (tasks (base st') p) = TASK_BLOCKED /\ (forall c, curs (base st') c <> p) /\
    pi_priority (tasks (base st') (owner m)) = Z.max (pi_priority (tasks s (owner m))) (effective_priority (tasks s p)) /\
    pi_priority (tasks (base st') (owner m)) <= effective_priority (tasks (base st') (owner m)).
Proof.
  intros s p m [I Bk] (Hi & Hr & Hop & Hsp) Hlk. set (W := wait_lists st) in *.
  destruct (books_lookup st W i Bk Hi) as (w & Hw & Hm & (_ & _ & [(E & _)|(Hl & Ho & _)])); [done|].
  destruct (lock_contended_spec i this sp st W w _ _ m p I Bk Hm Hw Hl Hop Hr Hsp) as (st' & Q' & E & I' & B' & HM & Hst & Hnc & _ & Hpi).
  pose proof I' as [K' _ _]. destruct (lists_after st st' i _ _ _ _ _ K' B' HM Hi) as (Hmi & Hwi & Hj).
  assert (Hws : wait_list s m = w).
  { unfold W, wait_lists in Hw. rewrite list_lookup_fmap, Hm in Hw. by injection Hw. }
  exists st'. split; [done|]. split; [by eapply pi_intro|]. rewrite Hmi, Hws. split_and!; try done. by apply (bk_dom _ _ _ B').
Qed.


End pi.

(** ** Examples *)

Definition pi_allowedb (st : pim) (c : pi_call) : bool :=
  let s := base st in
  match c with
  | Lock i this sp => (i <? length (mutexes st))%nat && runsb s this && negb (owner (mutex i st) =? curs s this) &&
      sp_okb (tasks s (curs s this)) sp
  | Trylock i this => (i <? length (mutexes st))%nat && runsb s this
  | Unlock i this => (i <? length (mutexes st))%nat && runsb s this && (owner (mutex i st) =? curs s this)
  | Reschedule this sp => on_cpub s this sp
  end.

Lemma pi_allowedb_sound st c : pi_allowedb st c = true -> pi_allowed st c.
Proof.
  pose proof (runsb_sound (base st)) as HR. destruct c; simpl; rewrite ?andb_true_iff, ?Nat.ltb_lt, ?negb_true_iff, ?Z.eqb_neq, ?Z.eqb_eq.
  - intros [[[? ?] ?] ?]. split_and!; auto. by apply sp_okb_sound.
  - intros [? ?]. auto.
  - intros [[? ?] ?]. auto.
  - intros H. by destruct (on_cpub_sound _ _ _ H).
Qed.

Fixpoint pi_permittedb (cs : list pi_call) (st : pim) : bool :=
  match cs with
  | [] => true
  | c :: cs => pi_allowedb st c && match pi_exec c st with Some st' => pi_permittedb cs st' | None => true end
  end.

Lemma pi_permittedb_sound cs st : pi_permittedb cs st = true -> pi_permitted cs st.
Proof.
  revert st. induction cs as [|c cs IH]; intros st; simpl; [done|]. rewrite andb_true_iff. intros [H1 H2].
  split; [by apply pi_allowedb_sound|]. intros st' E. rewrite E in H2. by apply IH.
Qed.

(** Fresh mutexes on a machine whose tasks hold and inherit nothing. *)
Lemma pi_fresh n s :
  inv (G := SchedBoot.nothing_held) s -> (n < 256)%nat ->
  forallb (fun p => (pi_mutexes_held (tasks s p) =? 0) && (pi_priority (tasks s p) <=? effective_priority (tasks s p)))
    (Z.of_nat <$> seq 1 64) = true ->
  pi_inv [] [] (Pim s (replicate n PI_MUTEX_INIT) 0 0).
Proof.
  intros [K Hlen Haw] Hn Hb. rewrite forallb_forall in Hb.
  assert (Hp : forall p, in_table p -> pi_mutexes_held (tasks s p) = 0 /\ pi_priority (tasks s p) <= effective_priority (tasks s p)).
  { intros p [? ?]. unfold MAX_TASKS in *. specialize (Hb p). rewrite andb_true_iff, Z.eqb_eq, Z.leb_le in Hb. apply Hb.
    apply list_elem_of_In, list_elem_of_fmap. exists (Z.to_nat p). split; [lia|]. apply elem_of_seq. lia. }
  assert (Hw : waiters (G := PiSpec.held [] [] (replicate n [])) = []).
  { unfold waiters, PiSpec.held. cbn [waits]. rewrite app_nil_r. clear Hn. induction n; [done|]. exact IHn. }
  eapply (pi_intro [] [] _ (replicate n [])); cbn [base mutexes].
  - constructor; [|done|].
    + eapply (core_new_waits SchedBoot.nothing_held); [done|exact Hw|done|]. intros l Hl. right.
      unfold PiSpec.held in Hl. cbn [waits] in Hl. rewrite app_nil_r in Hl. by apply elem_of_replicate in Hl as [-> _].
    + intros c. rewrite Hw. apply (Haw c).
  - assert (Hh : forall p, in_table p -> held_by (replicate n PI_MUTEX_INIT) p = 0%nat).
    { intros p Hin. unfold held_by. clear Hn Hw. induction n; [done|]. simpl. rewrite filter_cons, decide_False; [done|].
      simpl. by apply not_eq_sym, in_table_nonzero. }
    constructor.
    + by rewrite !length_replicate.
    + intros i m w [-> _]%lookup_replicate [-> _]%lookup_replicate. split_and!; try done. by left.
    + intros p Hin. rewrite Hh by done. by apply Hp.
    + intros p Hin. by apply Hp.
    + intros i m w p _ [-> _]%lookup_replicate Hin. by apply not_elem_of_nil in Hin.
Qed.

(** Task 3 of CPU 0 holds mutex 0; then task 4 runs and wants it. *)
Definition pi_machine : pim := Pim (after SchedPick.busy_session) (replicate 2 PI_MUTEX_INIT) 0 0.

Definition contended_session : list pi_call := [Lock 0 0 0x400d0000; Reschedule 0 0x400d0000].

(** ... then task 4 waits, and task 3 runs again. *)
Definition handoff_session : list pi_call :=
  contended_session ++ [Lock 0 0 0x40110000; Reschedule 0 0x40150000].

Lemma pi_machine_inv : pi_inv [] [] pi_machine.
Proof. apply pi_fresh; [exact SchedPick.busy_inv|lia|]. vm_compute. reflexivity. Qed.

Lemma pi_run_inv cs st : pi_inv [] [] pi_machine -> pi_permittedb cs pi_machine = true -> pi_run cs pi_machine = Some st -> pi_inv [] [] st.
Proof.
  intros I P. apply pi_permittedb_sound in P. generalize pi_machine I P. clear I P. intros m. revert m.
  induction cs as [|c cs IH]; simpl; intros m I P E; [by injection E as <-|].
  destruct P as [A P]. destruct (pi_step [] [] c m I A) as (m1 & E1 & I1). rewrite E1 in E. simpl in E. by apply (IH m1); auto.
Qed.

Definition pi_after (cs : list pi_call) : pim := default pi_machine (pi_run cs pi_machine).

Lemma pi_after_inv cs : pi_permittedb cs pi_machine = true -> pi_inv [] [] (pi_after cs).
Proof.
  intros P. unfold pi_after. destruct (pi_run cs pi_machine) as [st|] eqn:E; [|apply pi_machine_inv].
  by eapply pi_run_inv; [apply pi_machine_inv| |].
Qed.

#[local] Opaque pi_after pi_machine.

(** Witness of C6: the session in which task 4 has to wait for task 3 and gets the mutex. *)
Lemma pi_sessions_safe_witness :
  exists st, pi_run (handoff_session ++ [Unlock 0 0]) pi_machine = Some st /\ no_inversion st.
Proof.
  destruct (pi_sessions_safe [] [] (handoff_session ++ [Unlock 0 0]) pi_machine pi_machine_inv) as (st & E & _ & H & _).
  - apply pi_permittedb_sound. vm_compute. reflexivity.
  - exists st. split; assumption.
Defined.

(** Witness of C27: task 4 locks the mutex task 3 holds. *)
Lemma lock_contended_witness :
  exists st, pi_mutex_lock 0 0 0x40110000 (pi_after contended_session) = Some st /\ pi_inv [] [] st.
Proof.
  destruct (lock_contended [] [] 0 0 0x40110000 (pi_after contended_session)) as (st & E & I & _).
  - apply pi_after_inv. vm_compute. reflexivity.
  - apply pi_allowedb_sound. vm_compute. reflexivity.
  - vm_compute. discriminate.
  - exists st. split; assumption.
Defined.


(** ** The window between leaving the guard and switching away *)

(** Task 3 runs on CPU 1, task 4 on CPU 0. *)
Definition two_session : list call :=
  [StartCpu 0; StartCpu 1; CreateTask None 0x3000 0 4; CreateTask None 0x3000 0 4; AddTaskToCpu 3 1; AddTaskToCpu 4 0;
   Yield 0 0x40050000; Yield 1 0x40090000].

Definition two_machine : pim := Pim (after two_session) (replicate 1 PI_MUTEX_INIT) 0 0.

(** [pi_mutex_lock] drops the guard before it calls [schedule].  If the holder on another
    CPU unlocks in between and then reschedules, it steals the task it has just woken and
    runs it, while the first CPU is still executing it: task 4 is current on both CPUs. *)
Theorem handoff_before_switch_runs_twice :
  match (st ← pi_mutex_lock 0 1 0x400d0000 two_machine;
         '(blocked, st) ← lock_guarded 0 0 st;
         st ← pi_mutex_unlock 0 st;
         s ← schedule 1 0x400d0000 (base st);
         Some (blocked, s)) with
  | Some (blocked, s) => blocked = true /\ curs s 0 = 4 /\ curs s 1 = 4 /\ state (tasks s 4) = TASK_RUNNING
  | None => False
  end.
Proof. vm_compute. repeat split. Qed.

End PiSessions.
