(* ===== verification/HeapBlocks.v ===== *)
(** Memory that kernel objects other than stacks hold.

    The scheduler's invariant carries the blocks of the page allocator that other
    components own as ghost state ([blocks] of [Ghost]); the lemmas here add a block that
    has just been allocated and take one away that is freed. *)

From S2P Require Import Prelude FreeList Buddy BuddyInv BuddyStep BuddySpec PmmSpec.
From S2P Require Import StealDeque Task Sys Sched RunQueue SchedInv.

Open Scope Z_scope.
Open Scope slm_scope.

Module HeapBlocks.
Import Task Sys Sched RunQueue SchedInv.

(** Only the task table sees the heap. *)
Lemma core_heap (G G' : Ghost) s h Q S C :
  core (G := G) s Q S C -> waits (Ghost := G') = waits (Ghost := G) ->
  (stacks_ok (G := G) (cpu_count s) (heap s) (tasks s) -> stacks_ok (G := G') (cpu_count s) h (tasks s)) ->
  core (G := G') (with_heap h s) Q S C.
Proof.
  intros K Hw Hst. assert (Hws : waiters (G := G') = waiters (G := G)) by (unfold waiters; by rewrite Hw).
  destruct K. constructor; rewrite ?Hw, ?Hws; try done.
  - intros c Hc. by eapply rq_repr_frame; [apply k_queues0| |].
  - intros p. unfold homed. rewrite Hws. apply k_ids0.
  - by apply Hst.
Qed.

Lemma stacks_perm (G G' : Ghost) n h ts :
  blocks (Ghost := G') ≡ₚ blocks (Ghost := G) -> stacks_ok (G := G) n h ts -> stacks_ok (G := G') n h ts.
Proof.
  intros Hp [H0 H1 H2 H3 H4 H5 H6]. constructor; try done.
  - intros o a Hin. apply H4. by rewrite <- Hp.
  - intros p o a x Hpt Hb Hin. apply H5; try done. by rewrite <- Hp.
  - intros i j b c x Hi Hj Hb Hc. apply Permutation_inj in Hp as [_ (f & Hf & Hl)].
    apply Hf. rewrite Hl in Hi. rewrite Hl in Hj. by eapply H6.
Qed.

Lemma core_blocks_perm (G G' : Ghost) s Q S C :
  core (G := G) s Q S C -> waits (Ghost := G') = waits (Ghost := G) -> blocks (Ghost := G') ≡ₚ blocks (Ghost := G) ->
  core (G := G') s Q S C.
Proof.
  intros K Hw Hb. replace s with (with_heap (heap s) s) by (by destruct s).
  eapply (core_heap G); [done|done|]. by apply stacks_perm.
Qed.

(** A block that has just been handed out. *)
Lemma stacks_take (G : Ghost) n h h' o a ts :
  stacks_ok n h ts -> BuddyInv.inv h' -> BuddySpec.allocated h h' o a ->
  stacks_ok (G := Ghosts waits ((o, a) :: blocks)) n h' ts.
Proof.
  intros [H0 _ Hheld Hdisj Hbl Hcl Hsp] Hinv (Ha & Hlo & Hhi & Hfr & Hf & Hs & He & _).
  assert (Hsep : forall o' b x, BuddySpec.is_allocated h o' b -> BuddyInv.in_block b o' x -> ~ BuddyInv.in_block a o x).
  { intros o' b x (_ & _ & _ & Hnf) Hx Hax. by apply (Hnf x), Hfr. }
  assert (Hstay : forall o' b, BuddySpec.is_allocated h o' b -> BuddySpec.is_allocated h' o' b).
  { intros o' b Hob. eapply alloc_frame; [done|done|done|]. intros x _. rewrite Hf. tauto. }
  constructor; cbn [blocks]; try done.
  - auto.
  - intros o' b [[= -> ->]|Hin]%elem_of_cons; [|auto]. split_and!; [done|by rewrite Hs|by rewrite He|]. intros x Hx. rewrite Hf. tauto.
  - intros p o' b x Hp Hb [[= -> ->]|Hin]%elem_of_cons Hx; [by eapply Hsep; eauto|by eapply Hcl].
  - intros [|i] [|j] b c x Hi Hj Hb Hc; simpl in Hi, Hj; simplify_eq; try done; cbn in *.
    + destruct (Hsep c.1 c.2 x); [|done|done]. apply Hbl. rewrite <- surjective_pairing. by eapply list_elem_of_lookup_2.
    + destruct (Hsep b.1 b.2 x); [|done|done]. apply Hbl. rewrite <- surjective_pairing. by eapply list_elem_of_lookup_2.
    + f_equal. by eapply Hsp.
Qed.

Lemma core_take (G : Ghost) s h' o a Q S C :
  core s Q S C -> BuddyInv.inv h' -> BuddySpec.allocated (heap s) h' o a ->
  core (G := Ghosts waits ((o, a) :: blocks)) (with_heap h' s) Q S C.
Proof. intros K Hi Ha. eapply (core_heap G); [done|done|]. intros Hst. by eapply stacks_take. Qed.

(** A block that is given back. *)
Lemma stacks_give (G : Ghost) n h ts a pages B :
  stacks_ok n h ts -> blocks = (BuddySpec.order_for pages, a) :: B ->
  0 < pages <= 2 ^ 63 -> (BuddySpec.order_for pages <= FreeList.MAX_ORDER)%nat ->
  exists h', Buddy.pmm_free_pages a pages h = Some h' /\ stacks_ok (G := Ghosts waits B) n h' ts /\
    Buddy.heap_start h' = Buddy.heap_start h /\ Buddy.heap_end h' = Buddy.heap_end h.
Proof.
  intros [H0 Hinv Hheld Hdisj Hbl Hcl Hsp] HB Hpg Ho. set (o := BuddySpec.order_for pages) in *.
  destruct (PmmSpec.free_pages_spec a pages h) as (h' & Hf & Hinv' & Hrel & Hs & He & _); try done.
  { apply Hbl. rewrite HB. by left. }
  fold o in Hrel. exists h'. split; [done|]. split; [|done]. rewrite HB in *.
  constructor; cbn [blocks]; try done.
  - intros p Hp Hb. eapply alloc_frame; [by apply Hheld|done|done|]. intros x Hx. rewrite Hrel. intros [Hfr|Hx']; [done|].
    exfalso. eapply (Hcl p o a x); try done. by left.
  - intros o' b Hin. eapply alloc_frame; [apply Hbl; by right|done|done|]. intros x Hx. rewrite Hrel. intros [Hfr|Hx']; [done|].
    exfalso. apply list_elem_of_lookup in Hin as [i Hi]. assert (E : S i = 0%nat) by (by apply (Hsp (S i) 0%nat (o', b) (o, a) x)). done.
  - intros p o' b x Hp Hb Hin. apply Hcl; try done. by right.
  - intros i j b c x Hi Hj Hb Hc. assert (E : S i = S j) by (by apply (Hsp (S i) (S j) b c x)). by injection E.
Qed.

Lemma core_give (G : Ghost) s a pages B Q S C :
  core s Q S C -> blocks ≡ₚ (BuddySpec.order_for pages, a) :: B ->
  0 < pages <= 2 ^ 63 -> (BuddySpec.order_for pages <= FreeList.MAX_ORDER)%nat ->
  exists h', Buddy.pmm_free_pages a pages (heap s) = Some h' /\ core (G := Ghosts waits B) (with_heap h' s) Q S C.
Proof.
  intros K HB Hpg Ho. set (G1 := Ghosts waits ((BuddySpec.order_for pages, a) :: B)).
  assert (K1 : core (G := G1) s Q S C) by (eapply (core_blocks_perm G); [done|done|by symmetry]).
  destruct (stacks_give G1 _ _ _ a pages B (k_stacks _ _ _ _ K1) eq_refl Hpg Ho) as (h' & E & Hst & _).
  exists h'. split; [done|]. eapply (core_heap G1); [done|done|]. intros _. exact Hst.
Qed.

End HeapBlocks.
