(* ===== verification/MsgRing.v ===== *)
(** The ring buffers of a message queue ([kernel/ipc/ipc.c], [struct msg_queue]).

    A queue keeps one ring of [capacity] slots per priority level in one buffer.  The
    definitions here are the parts of [msg_send_priority] and [msg_recv] that run once a
    slot or a message is there, with the memory they copy from and to; waiting and waking
    are in [MsgQueue].  The refinement says that the rings are bounded FIFO lists. *)

From S2P Require Import Prelude.

Open Scope Z_scope.
Open Scope slm_scope.

Module MsgRing.

(** ** Memory *)

(** Byte-addressed memory. *)
Notation memory := (Z -> Z).

Fixpoint ipc_memcpy (n : nat) (d s : Z) (m : memory) : memory :=
  match n with O => m | S n => ipc_memcpy n (d +64 1) (s +64 1) (<[d := m s]> m) end.

Fixpoint ipc_memset (n : nat) (d c : Z) (m : memory) : memory :=
  match n with O => m | S n => ipc_memset n (d +64 1) c (<[d := u8 c]> m) end.

(** ** Queues *)

Definition MSG_PRIO_LOW : Z := 0.
Definition MSG_PRIO_NORMAL : Z := 1.
Definition MSG_PRIO_HIGH : Z := 2.
Definition MSG_PRIO_URGENT : Z := 3.
Definition MSG_PRIO_COUNT : Z := 4.
Definition MSG_STARVATION_THRESHOLD : Z := 8.

Record prio_buffer := PrioBuffer { head : Z; tail : Z; count : Z }.

(** [struct msg_queue]; the lock makes each critical section one step. *)
Record msg_queue := MkQueue {
  id : Z; msg_size : Z; capacity : Z; total_capacity : Z; total_count : Z; buffer : Z;
  send_waiters : Z; recv_waiters : Z;
  prio : list prio_buffer;
  high_prio_recv_count : Z;
  msgs_sent : Z; msgs_recv : Z; high_water : Z; prio_msgs_sent : list Z
}.

Definition level (p : Z) (q : msg_queue) : prio_buffer := nth (Z.to_nat p) (prio q) (PrioBuffer 0 0 0).

Definition with_level (p : Z) (b : prio_buffer) (q : msg_queue) : msg_queue :=
  MkQueue (id q) (msg_size q) (capacity q) (total_capacity q) (total_count q) (buffer q)
    (send_waiters q) (recv_waiters q) (<[Z.to_nat p := b]> (prio q)) (high_prio_recv_count q)
    (msgs_sent q) (msgs_recv q) (high_water q) (prio_msgs_sent q).

Definition with_streak (v : Z) (q : msg_queue) : msg_queue :=
  MkQueue (id q) (msg_size q) (capacity q) (total_capacity q) (total_count q) (buffer q)
    (send_waiters q) (recv_waiters q) (prio q) v
    (msgs_sent q) (msgs_recv q) (high_water q) (prio_msgs_sent q).

Definition with_counts (total sent recvd water : Z) (psent : list Z) (q : msg_queue) : msg_queue :=
  MkQueue (id q) (msg_size q) (capacity q) (total_capacity q) total (buffer q)
    (send_waiters q) (recv_waiters q) (prio q) (high_prio_recv_count q) sent recvd water psent.

(** The address of a slot: [size_t] arithmetic wraps. *)
Definition prio_slot (q : msg_queue) (p idx : Z) : Z :=
  let base_offset := u64 (u64 (p * capacity q) * msg_size q) in
  let slot_offset := u64 (idx * msg_size q) in
  buffer q +64 base_offset +64 slot_offset.

(** ** Sending *)

Definition clamp_msg_priority (p : Z) : Z :=
  let p := if p <? MSG_PRIO_LOW then MSG_PRIO_LOW else p in
  if MSG_PRIO_URGENT <? p then MSG_PRIO_URGENT else p.

Definition level_full (p : Z) (q : msg_queue) : bool := capacity q <=? count (level p q).

(** Copying the message in and advancing the head. *)
Definition send_message (p msg : Z) (q : msg_queue) (m : memory) : msg_queue * memory :=
  let pb := level p q in
  let m := ipc_memcpy (Z.to_nat (msg_size q)) (prio_slot q p (head pb)) msg m in
  let q := with_level p (PrioBuffer ((head pb +64 1) mod capacity q) (tail pb) (count pb +64 1)) q in
  let total := total_count q +64 1 in
  let sent := prio_msgs_sent q in
  let water := if high_water q <? total then total else high_water q in
  (with_counts total (msgs_sent q +64 1) (msgs_recv q) water
     (<[Z.to_nat p := nth (Z.to_nat p) sent 0 +64 1]> sent) q, m).

(** ** Receiving *)

(** The relief scan, from the lowest level up. *)
Fixpoint lowest_level (n : nat) (p : Z) (q : msg_queue) : option Z :=
  match n with
  | O => None
  | S n => if 0 <? count (level p q) then Some p else lowest_level n (p + 1) q
  end.

(** The normal scan, from the highest level down. *)
Fixpoint highest_level (n : nat) (p : Z) (q : msg_queue) : option Z :=
  match n with
  | O => None
  | S n => if 0 <? count (level p q) then Some p else highest_level n (p - 1) q
  end.

Definition select_recv_priority (q : msg_queue) : Z * msg_queue :=
  let relief := if MSG_STARVATION_THRESHOLD <=? high_prio_recv_count q
                then lowest_level (Z.to_nat MSG_PRIO_COUNT) MSG_PRIO_LOW q else None in
  match relief with
  | Some p => (p, with_streak 0 q)
  | None =>
      match highest_level (Z.to_nat MSG_PRIO_COUNT) MSG_PRIO_URGENT q with
      | Some p => (p, with_streak (if MSG_PRIO_LOW <? p then high_prio_recv_count q +32 1 else 0) q)
      | None => (-1, q)
      end
  end.

(** Selecting a level, copying the message out and advancing the tail; the level is
    negative when every level is empty. *)
Definition recv_message (msg : Z) (q : msg_queue) (m : memory) : Z * msg_queue * memory :=
  let '(p, q) := select_recv_priority q in
  if p <? 0 then (p, q, m)
  else
    let pb := level p q in
    let m := ipc_memcpy (Z.to_nat (msg_size q)) msg (prio_slot q p (tail pb)) m in
    let q := with_level p (PrioBuffer (head pb) ((tail pb +64 1) mod capacity q) (count pb -64 1)) q in
    (p, with_counts (total_count q -64 1) (msgs_sent q) (msgs_recv q +64 1) (high_water q) (prio_msgs_sent q) q, m).

(** ** Copies *)

(** The [n] bytes at [a]. *)
Definition bytes (m : memory) (a n : Z) : list Z := (fun i => m (a + i)) <$> seqZ 0 n.

(** A region of the address space. *)
Definition region (a n : Z) : Prop := 0 <= a /\ 0 <= n /\ a + n <= 2 ^ 64.

Definition apart (a n b k : Z) : Prop := a + n <= b \/ b + k <= a.

Lemma bytes_ext m m' a a' n : (forall i, 0 <= i < n -> m' (a' + i) = m (a + i)) -> bytes m' a' n = bytes m a n.
Proof. intros H. unfold bytes. apply list_fmap_ext. intros j x Hx. apply lookup_seqZ in Hx as [-> ?]. apply H. lia. Qed.

Lemma length_bytes m a n : length (bytes m a n) = Z.to_nat n.
Proof. unfold bytes. by rewrite length_fmap, length_seqZ. Qed.

Lemma memcpy_at n d s m a :
  region d (Z.of_nat n) -> region s (Z.of_nat n) -> apart d (Z.of_nat n) s (Z.of_nat n) ->
  ipc_memcpy n d s m a = if decide (d <= a < d + Z.of_nat n) then m (s + (a - d)) else m a.
Proof.
  unfold region, apart. revert d s m. induction n as [|n IH]; intros d s m Hd Hs Hap; [rewrite decide_False by lia; done|].
  destruct n as [|n].
  - cbn [ipc_memcpy]. rewrite fn_lookup_insert_Z. case_decide as E1; case_decide as E2; try lia. subst. f_equal. lia.
  - change (ipc_memcpy (S (S n)) d s m) with (ipc_memcpy (S n) (d +64 1) (s +64 1) (<[d := m s]> m)). rewrite !(u64_small (_ + 1)) by (unfold is_u64; lia). rewrite IH by lia.
    rewrite !fn_lookup_insert_Z.
    destruct (decide (d + 1 <= a < d + 1 + Z.of_nat (S n))), (decide (d <= a < d + Z.of_nat (S (S n)))); try lia.
    + rewrite decide_False by lia. f_equal. lia.
    + assert (a = d) as -> by lia. rewrite decide_True by done. f_equal. lia.
    + rewrite decide_False by lia. done.
Qed.

Lemma memset_at n d c m a :
  region d (Z.of_nat n) -> ipc_memset n d c m a = if decide (d <= a < d + Z.of_nat n) then u8 c else m a.
Proof.
  unfold region. revert d m. induction n as [|n IH]; intros d m Hd; [rewrite decide_False by lia; done|].
  destruct n as [|n].
  - cbn [ipc_memset]. rewrite fn_lookup_insert_Z. case_decide; case_decide; done || lia.
  - change (ipc_memset (S (S n)) d c m) with (ipc_memset (S n) (d +64 1) c (<[d := u8 c]> m)). rewrite (u64_small (_ + 1)) by (unfold is_u64; lia). rewrite IH by lia.
    rewrite fn_lookup_insert_Z.
    destruct (decide (d + 1 <= a < d + 1 + Z.of_nat (S n))), (decide (d <= a < d + Z.of_nat (S (S n)))); try lia; try done.
    + rewrite decide_True by lia. done.
    + rewrite decide_False by lia. done.
Qed.

(** What a copy between separate regions does. *)
Lemma memcpy_spec n d s m :
  region d n -> region s n -> apart d n s n ->
  bytes (ipc_memcpy (Z.to_nat n) d s m) d n = bytes m s n /\
  forall a, ~ (d <= a < d + n) -> ipc_memcpy (Z.to_nat n) d s m a = m a.
Proof.
  intros Hd Hs Hap. assert (Hn : Z.of_nat (Z.to_nat n) = n) by (unfold region in *; lia). split.
  - apply bytes_ext. intros i Hi. rewrite memcpy_at by (by rewrite Hn). rewrite Hn, decide_True by lia. f_equal. lia.
  - intros a Ha. rewrite memcpy_at by (by rewrite Hn). rewrite Hn. by rewrite decide_False.
Qed.

(** ** Rings as lists *)

(** What moving messages does not change. *)
Definition shape (q : msg_queue) : Z * Z * Z * Z * Z * Z * Z :=
  (id q, msg_size q, capacity q, total_capacity q, buffer q, send_waiters q, recv_waiters q).

(** The messages of each level, oldest first. *)
Notation messages := (Z -> list (list Z)).

Definition level_of (p : Z) : Prop := MSG_PRIO_LOW <= p <= MSG_PRIO_URGENT.

Lemma level_lit k : (k < 4)%nat -> level_of (Z.of_nat k).
Proof. unfold level_of, MSG_PRIO_LOW, MSG_PRIO_URGENT. lia. Qed.

Definition slot (q : msg_queue) (p i : Z) : Z := buffer q + (p * capacity q + i) * msg_size q.

Definition buffer_size (q : msg_queue) : Z := MSG_PRIO_COUNT * capacity q * msg_size q.

(** The slots from the tail on hold the messages in order. *)
Record level_ok (q : msg_queue) (m : memory) (p : Z) (l : list (list Z)) : Prop := {
  l_tail : 0 <= tail (level p q) < capacity q;
  l_count : count (level p q) = Z.of_nat (length l);
  l_room : Z.of_nat (length l) <= capacity q;
  l_head : head (level p q) = (tail (level p q) + count (level p q)) mod capacity q;
  l_slots : forall i x, l !! i = Some x ->
    bytes m (slot q p ((tail (level p q) + Z.of_nat i) mod capacity q)) (msg_size q) = x
}.

Definition depth (L : messages) : Z :=
  Z.of_nat (length (L 0) + length (L 1) + length (L 2) + length (L 3)).

Record ring_ok (q : msg_queue) (m : memory) (L : messages) : Prop := {
  r_cap : 0 < capacity q <= 65536;
  r_total_cap : total_capacity q = MSG_PRIO_COUNT * capacity q;
  r_size : 0 < msg_size q;
  r_buffer : region (buffer q) (buffer_size q);
  r_prio : length (prio q) = 4%nat;
  r_levels : forall p, level_of p -> level_ok q m p (L p);
  r_total : total_count q = depth L;
  r_streak : 0 <= high_prio_recv_count q <= MSG_STARVATION_THRESHOLD;
  r_water : total_count q <= high_water q <= total_capacity q;
  r_stats : u64 (msgs_sent q - msgs_recv q) = total_count q
}.

Lemma level_with p p' b q :
  length (prio q) = 4%nat -> level_of p -> level_of p' ->
  level p' (with_level p b q) = if decide (p' = p) then b else level p' q.
Proof.
  unfold level_of, MSG_PRIO_LOW, MSG_PRIO_URGENT, level. intros Hl Hp Hp'. cbn [prio with_level].
  rewrite !nth_lookup. case_decide as E.
  - subst. by rewrite list_lookup_insert_eq by lia.
  - by rewrite list_lookup_insert_ne by lia.
Qed.

(** A slot lies in the buffer; distinct slots are apart. *)
Lemma slot_bounds q p i :
  0 < capacity q -> 0 < msg_size q -> level_of p -> 0 <= i < capacity q ->
  buffer q <= slot q p i /\ slot q p i + msg_size q <= buffer q + buffer_size q.
Proof.
  unfold level_of, MSG_PRIO_LOW, MSG_PRIO_URGENT, slot, buffer_size, MSG_PRIO_COUNT. intros Hc Hs Hp Hi.
  assert (0 <= p * capacity q + i <= 4 * capacity q - 1) by nia. split; [nia|].
  assert ((p * capacity q + i + 1) * msg_size q <= 4 * capacity q * msg_size q); [|nia].
  apply Z.mul_le_mono_nonneg_r; lia.
Qed.

Lemma slot_apart q p i p' i' :
  0 < msg_size q -> 0 <= i < capacity q -> 0 <= i' < capacity q -> (p, i) <> (p', i') ->
  apart (slot q p i) (msg_size q) (slot q p' i') (msg_size q).
Proof.
  unfold slot, apart. intros Hs Hi Hi' Hne.
  assert (p * capacity q + i <> p' * capacity q + i').
  { intros E. apply Hne. assert (p = p') by nia. subst. f_equal. lia. }
  destruct (decide (p * capacity q + i < p' * capacity q + i')); [left|right]; nia.
Qed.

(** The address the code computes does not wrap. *)
Lemma prio_slot_exact q m L p i : ring_ok q m L -> level_of p -> 0 <= i < capacity q -> prio_slot q p i = slot q p i.
Proof.
  intros R Hp Hi. destruct (slot_bounds q p i) as [H1 H2]; [apply R|apply R|done|done|].
  pose proof (r_cap _ _ _ R). pose proof (r_size _ _ _ R). pose proof (r_buffer _ _ _ R) as (? & ? & ?).
  unfold level_of, MSG_PRIO_LOW, MSG_PRIO_URGENT in Hp. unfold slot in *. unfold prio_slot.
  assert (0 <= p * capacity q < 2 ^ 64) by nia.
  assert (0 <= p * capacity q * msg_size q) by nia. assert (0 <= i * msg_size q) by nia.
  rewrite (u64_small (p * _)) by done. rewrite (u64_small (p * _ * _)) by (unfold is_u64; nia).
  rewrite (u64_small (i * _)) by (unfold is_u64; nia). rewrite (u64_small (buffer q + _)) by (unfold is_u64; nia).
  rewrite u64_small by (unfold is_u64; nia). nia.
Qed.

Lemma ring_index_inj t i j c : 0 < c -> 0 <= i < c -> 0 <= j < c -> (t + i) mod c = (t + j) mod c -> i = j.
Proof.
  intros Hc Hi Hj E. pose proof (Z.div_mod (t + i) c ltac:(lia)). pose proof (Z.div_mod (t + j) c ltac:(lia)).
  assert ((t + i) / c = (t + j) / c) by nia. nia.
Qed.

Lemma ring_index_bound t c : 0 < c -> 0 <= t mod c < c.
Proof. intros. by apply Z.mod_pos_bound. Qed.

(** A level keeps its messages when the slots that hold them are not written. *)
Lemma level_ok_ext q q' m m' p l :
  buffer q' = buffer q -> capacity q' = capacity q -> msg_size q' = msg_size q -> level p q' = level p q ->
  (forall i a, (i < length l)%nat -> let s := slot q p ((tail (level p q) + Z.of_nat i) mod capacity q) in
     s <= a < s + msg_size q -> m' a = m a) ->
  level_ok q m p l -> level_ok q' m' p l.
Proof.
  intros Hb Hc Hs Hl Hm [Ht Hct Hr Hh Hsl]. constructor; rewrite ?Hl, ?Hc; try done.
  intros i x Hx. unfold slot in *. rewrite Hb, Hc, Hs. rewrite <- (Hsl i x Hx). apply bytes_ext.
  intros k Hk. apply (Hm i); [by eapply lookup_lt_Some|lia].
Qed.

(** Only the buffer matters. *)
Lemma ring_frame q m m' L :
  (forall a, buffer q <= a < buffer q + buffer_size q -> m' a = m a) -> ring_ok q m L -> ring_ok q m' L.
Proof.
  intros Hm R. pose proof (r_cap _ _ _ R) as [Hc _]. pose proof (r_size _ _ _ R) as Hs.
  constructor; try apply R. intros p Hp. eapply level_ok_ext; [..|by apply R]; try done.
  intros i a Hi s Ha. subst s. apply Hm.
  destruct (slot_bounds q p ((tail (level p q) + Z.of_nat i) mod capacity q)) as [H1 H2]; [done|done|done|by apply ring_index_bound|]. lia.
Qed.

(** *** Sending *)

Definition queue_message (p : Z) (x : list Z) (L : messages) : messages := <[p := L p ++ [x]]> L.

Lemma depth_queue p x L : level_of p -> depth (queue_message p x L) = depth L + 1.
Proof.
  unfold level_of, MSG_PRIO_LOW, MSG_PRIO_URGENT, depth, queue_message. intros Hp.
  assert (p = 0 \/ p = 1 \/ p = 2 \/ p = 3) as [-> | [-> | [-> | ->]]] by lia;
    rewrite !fn_lookup_insert_Z; simpl; rewrite length_app; simpl; lia.
Qed.

Lemma depth_bound q m L : ring_ok q m L -> 0 <= depth L <= total_capacity q /\ total_capacity q < 2 ^ 32.
Proof.
  intros R. pose proof (r_cap _ _ _ R). rewrite (r_total_cap _ _ _ R). unfold depth, MSG_PRIO_COUNT.
  pose proof (fun p Hp => l_room _ _ _ _ (r_levels _ _ _ R p Hp)) as Hr. unfold level_of, MSG_PRIO_LOW, MSG_PRIO_URGENT in Hr.
  pose proof (Hr 0 ltac:(lia)). pose proof (Hr 1 ltac:(lia)). pose proof (Hr 2 ltac:(lia)). pose proof (Hr 3 ltac:(lia)). lia.
Qed.

Lemma depth_room q m L p :
  ring_ok q m L -> level_of p -> Z.of_nat (length (L p)) < capacity q -> depth L < total_capacity q.
Proof.
  intros R Hp Hr. rewrite (r_total_cap _ _ _ R). unfold depth, MSG_PRIO_COUNT.
  pose proof (fun p Hp => l_room _ _ _ _ (r_levels _ _ _ R p Hp)) as Hl. unfold level_of, MSG_PRIO_LOW, MSG_PRIO_URGENT in *.
  pose proof (Hl 0 ltac:(lia)). pose proof (Hl 1 ltac:(lia)). pose proof (Hl 2 ltac:(lia)). pose proof (Hl 3 ltac:(lia)).
  assert (p = 0 \/ p = 1 \/ p = 2 \/ p = 3) as [-> | [-> | [-> | ->]]] by lia; lia.
Qed.

(** The message counters differ by the depth, modulo 2^64. *)
Lemma u64_diff x y d k : u64 x = d -> is_u64 (d + k) -> u64 y = u64 (x + k) -> u64 y = d + k.
Proof. intros Hx Hd ->. rewrite <- (u64_small (d + k)) by done. subst d. unfold u64. by rewrite Zplus_mod_idemp_l. Qed.

(** One more message at the head. *)
Lemma level_push q q' m p l x :
  buffer q' = buffer q -> capacity q' = capacity q -> msg_size q' = msg_size q ->
  let b := level p q in
  level p q' = PrioBuffer ((head b + 1) mod capacity q) (tail b) (count b + 1) ->
  0 < capacity q -> Z.of_nat (length l) < capacity q ->
  bytes m (slot q p (head b)) (msg_size q) = x -> level_ok q m p l -> level_ok q' m p (l ++ [x]).
Proof.
  intros Hb Hc Hs b Hl Hc0 Hr Hx [Ht Hct _ Hh Hsl]. fold b in Ht, Hct, Hh, Hsl.
  constructor; rewrite ?Hl, ?Hc; cbn [tail head count]; rewrite ?length_app; simpl; try lia.
  - rewrite Hh. rewrite Zplus_mod_idemp_l. f_equal. lia.
  - intros i y Hi. unfold slot. rewrite Hb, Hc, Hs. change (bytes m (slot q p ((tail b + Z.of_nat i) mod capacity q)) (msg_size q) = y).
    apply lookup_app_Some in Hi as [Hi|[Hle Hi]]; [by apply Hsl|].
    apply list_lookup_singleton_Some in Hi as [Hi <-].
    rewrite <- Hx. f_equal. rewrite Hh, Hct. do 3 f_equal. lia.
Qed.

(** A copy into a slot that holds no message. *)
Lemma level_write q m m' L p :
  ring_ok q m L -> level_of p -> Z.of_nat (length (L p)) < capacity q ->
  (forall a, ~ (slot q p (head (level p q)) <= a < slot q p (head (level p q)) + msg_size q) -> m' a = m a) ->
  forall p', level_of p' -> level_ok q m' p' (L p').
Proof.
  intros R Hp Hr Hm p' Hp'. pose proof (r_cap _ _ _ R) as Hc. pose proof (r_size _ _ _ R) as Hs.
  pose proof (r_levels _ _ _ R p Hp) as [Ht Hct _ Hh _].
  eapply level_ok_ext; [..|by apply R]; try done. intros i a Hi s Ha. apply Hm. subst s.
  pose proof (ring_index_bound (tail (level p' q) + Z.of_nat i) (capacity q) ltac:(lia)) as Hb.
  assert (Hhb : 0 <= head (level p q) < capacity q) by (rewrite Hh; apply ring_index_bound; lia).
  destruct (slot_apart q p' ((tail (level p' q) + Z.of_nat i) mod capacity q) p (head (level p q))) as [?|?]; [done..| |lia|lia].
  intros [= -> E]. rewrite Hh, Hct in E. apply ring_index_inj in E; lia.
Qed.

(** Sending appends the bytes at [msg] to the level; the rest of memory keeps its value. *)
Lemma send_spec q m L p msg :
  ring_ok q m L -> level_of p -> level_full p q = false ->
  region msg (msg_size q) -> apart msg (msg_size q) (buffer q) (buffer_size q) ->
  let '(q', m') := send_message p msg q m in
  ring_ok q' m' (queue_message p (bytes m msg (msg_size q)) L) /\ shape q' = shape q /\
  (forall a, ~ (buffer q <= a < buffer q + buffer_size q) -> m' a = m a).
Proof.
  intros R Hp Hf Hmsg Hap. unfold level_full in Hf. apply Z.leb_gt in Hf. unfold send_message.
  pose proof (r_cap _ _ _ R) as Hc. pose proof (r_size _ _ _ R) as Hs. pose proof (r_levels _ _ _ R p Hp) as [Ht Hct Hr Hh Hsl].
  set (h := head (level p q)) in *. assert (Hhb : 0 <= h < capacity q) by (rewrite Hh; apply ring_index_bound; lia).
  rewrite (prio_slot_exact q m L) by done. pose proof (depth_bound _ _ _ R) as [Hd Hd'].
  destruct (slot_bounds q p h) as [B1 B2]; [lia|done|done|done|]. pose proof (r_buffer _ _ _ R) as (? & ? & ?).
  destruct (memcpy_spec (msg_size q) (slot q p h) msg m) as [M1 M2]; [unfold region in *; lia|done|unfold apart in *; lia|].
  set (m' := ipc_memcpy _ _ _ m) in *. split; [|split; [done|intros a Ha; apply M2; lia]].
  rewrite (u64_small (h + 1)), (u64_small (count _ + 1)) by (unfold is_u64; lia).
  rewrite (u64_small (total_count _ + 1)) by (cbn; rewrite (r_total _ _ _ R); unfold is_u64; lia).
  set (q1 := with_level p _ q). pose proof (level_write q m m' L p R Hp ltac:(lia) M2) as Hlv.
  constructor; try apply R; cbn [total_count high_water msgs_sent msgs_recv prio with_counts q1 with_level].
  - rewrite length_insert. apply R.
  - intros p' Hp'. unfold queue_message. rewrite fn_lookup_insert_Z.
    assert (E : level p' q1 = if decide (p' = p) then PrioBuffer ((h + 1) mod capacity q) (tail (level p q)) (count (level p q) + 1) else level p' q)
      by (apply level_with; [apply R|done|done]).
    destruct (decide (p' = p)) as [->|Hne]; [eapply level_push; [..|by apply Hlv]; try done; lia|].
    eapply level_ok_ext; [..|by apply Hlv]; done.
  - rewrite depth_queue by done. by rewrite (r_total _ _ _ R).
  - pose proof (r_water _ _ _ R). pose proof (depth_room q m L p R Hp ltac:(lia)). rewrite (r_total _ _ _ R) in *.
    destruct (high_water q <? depth L + 1) eqn:E; [apply Z.ltb_lt in E|apply Z.ltb_ge in E]; cbn [total_capacity with_counts q1 with_level]; lia.
  - apply (u64_diff (msgs_sent q - msgs_recv q)); [apply R|rewrite (r_total _ _ _ R); unfold is_u64; lia|].
    unfold u64. rewrite Zminus_mod_idemp_l. f_equal. lia.
Qed.

(** *** Receiving *)

Lemma lowest_level_spec n p q :
  match lowest_level n p q with
  | Some r => p <= r < p + Z.of_nat n /\ 0 < count (level r q) /\ forall x, p <= x < r -> count (level x q) <= 0
  | None => forall x, p <= x < p + Z.of_nat n -> count (level x q) <= 0
  end.
Proof.
  revert p. induction n as [|n IH]; intros p; cbn [lowest_level]; [intros; lia|].
  destruct (0 <? count (level p q)) eqn:E; [apply Z.ltb_lt in E; split_and!; [lia|lia|done|intros; lia]|apply Z.ltb_ge in E].
  specialize (IH (p + 1)). destruct (lowest_level n (p + 1) q) as [r|].
  - destruct IH as (? & ? & IH). split_and!; [lia|lia|done|]. intros x Hx. destruct (decide (x = p)) as [->|]; [done|apply IH; lia].
  - intros x Hx. destruct (decide (x = p)) as [->|]; [done|apply IH; lia].
Qed.

Lemma highest_level_spec n p q :
  match highest_level n p q with
  | Some r => p - Z.of_nat n < r <= p /\ 0 < count (level r q) /\ forall x, r < x <= p -> count (level x q) <= 0
  | None => forall x, p - Z.of_nat n < x <= p -> count (level x q) <= 0
  end.
Proof.
  revert p. induction n as [|n IH]; intros p; cbn [highest_level]; [intros; lia|].
  destruct (0 <? count (level p q)) eqn:E; [apply Z.ltb_lt in E; split_and!; [lia|lia|done|intros; lia]|apply Z.ltb_ge in E].
  specialize (IH (p - 1)). destruct (highest_level n (p - 1) q) as [r|].
  - destruct IH as (? & ? & IH). split_and!; [lia|lia|done|]. intros x Hx. destruct (decide (x = p)) as [->|]; [done|apply IH; lia].
  - intros x Hx. destruct (decide (x = p)) as [->|]; [done|apply IH; lia].
Qed.

(** Which level a receive takes from: the highest with a message, or the lowest after
    [MSG_STARVATION_THRESHOLD] receives in a row from above [MSG_PRIO_LOW]. *)
Definition served (streak : Z) (L : messages) (p : Z) : Prop :=
  level_of p /\ L p <> [] /\
  forall p', level_of p' -> (if MSG_STARVATION_THRESHOLD <=? streak then p' < p else p < p') -> L p' = [].

Definition next_streak (streak p : Z) : Z :=
  if MSG_STARVATION_THRESHOLD <=? streak then 0 else if MSG_PRIO_LOW <? p then streak + 1 else 0.

Lemma level_empty q m L p : ring_ok q m L -> level_of p -> count (level p q) <= 0 <-> L p = [].
Proof.
  intros R Hp. rewrite (l_count _ _ _ _ (r_levels _ _ _ R p Hp)). split; [|intros ->; done].
  intros H. apply length_zero_iff_nil. lia.
Qed.

Lemma some_level L : depth L <> 0 -> exists p, level_of p /\ L p <> [].
Proof.
  unfold depth, level_of, MSG_PRIO_LOW, MSG_PRIO_URGENT. intros Hd.
  destruct (L 0) eqn:E0; [|exists 0; rewrite E0; split; [lia|done]].
  destruct (L 1) eqn:E1; [|exists 1; rewrite E1; split; [lia|done]].
  destruct (L 2) eqn:E2; [|exists 2; rewrite E2; split; [lia|done]].
  destruct (L 3) eqn:E3; [|exists 3; rewrite E3; split; [lia|done]]. done.
Qed.

Lemma select_spec q m L :
  ring_ok q m L -> depth L <> 0 ->
  exists p, served (high_prio_recv_count q) L p /\
    select_recv_priority q = (p, with_streak (next_streak (high_prio_recv_count q) p) q).
Proof.
  intros R Hd. destruct (some_level L Hd) as (p0 & Hp0 & Hne). pose proof (level_empty q m L) as He.
  rewrite <- (He p0) in Hne by done.
  pose proof (lowest_level_spec (Z.to_nat MSG_PRIO_COUNT) MSG_PRIO_LOW q) as Hlo.
  pose proof (highest_level_spec (Z.to_nat MSG_PRIO_COUNT) MSG_PRIO_URGENT q) as Hhi.
  pose proof (r_streak _ _ _ R) as Hs. unfold select_recv_priority, next_streak, served.
  unfold level_of in *. unfold MSG_PRIO_COUNT, MSG_PRIO_LOW, MSG_PRIO_URGENT, MSG_STARVATION_THRESHOLD in *.
  change (Z.of_nat (Z.to_nat 4)) with 4 in *. destruct (8 <=? high_prio_recv_count q) eqn:E.
  - destruct (lowest_level _ 0 q) as [r|]; [|destruct Hne; apply Hlo; lia]. destruct Hlo as (? & ? & Hlo).
    exists r. split_and!; [lia|lia| |intros p' ? ?; apply He; [done|lia|apply Hlo; lia]|done].
    rewrite <- He; [lia|done|lia].
  - apply Z.leb_gt in E. destruct (highest_level _ 3 q) as [r|]; [|destruct Hne; apply Hhi; lia]. destruct Hhi as (? & ? & Hhi).
    exists r. split_and!; [lia|lia| |intros p' ? ?; apply He; [done|lia|apply Hhi; lia]|].
    + rewrite <- He; [lia|done|lia].
    + by rewrite u32_small by (unfold is_u32; lia).
Qed.

(** One message less at the tail. *)
Lemma level_pop q q' m p x l :
  buffer q' = buffer q -> capacity q' = capacity q -> msg_size q' = msg_size q ->
  let b := level p q in
  level p q' = PrioBuffer (head b) ((tail b + 1) mod capacity q) (count b - 1) ->
  0 < capacity q -> level_ok q m p (x :: l) ->
  level_ok q' m p l /\ bytes m (slot q p (tail b)) (msg_size q) = x.
Proof.
  intros Hb Hc Hs b Hl Hc0 [Ht Hct Hr Hh Hsl]. fold b in Ht, Hct, Hh, Hsl. simpl in Hct, Hr. split.
  - constructor; rewrite ?Hl, ?Hc; cbn [tail head count]; try lia.
    + by apply ring_index_bound.
    + rewrite Hh, Zplus_mod_idemp_l. f_equal. lia.
    + intros i y Hi. unfold slot. rewrite Hb, Hc, Hs, Zplus_mod_idemp_l. rewrite <- (Hsl (S i) y Hi).
      unfold slot. do 5 f_equal. lia.
  - rewrite <- (Hsl 0%nat x eq_refl). do 2 f_equal. rewrite Z.add_0_r. by rewrite Z.mod_small.
Qed.

Definition take_message (p : Z) (L : messages) : messages := <[p := list.tail (L p)]> L.

Lemma depth_take p x l L : level_of p -> L p = x :: l -> depth (take_message p L) = depth L - 1.
Proof.
  unfold level_of, MSG_PRIO_LOW, MSG_PRIO_URGENT, depth, take_message. intros Hp Hl. rewrite Hl.
  assert (p = 0 \/ p = 1 \/ p = 2 \/ p = 3) as [-> | [-> | [-> | ->]]] by lia;
    rewrite !fn_lookup_insert_Z, Hl; simpl; lia.
Qed.

(** Receiving takes the oldest message of the level served and copies it to [msg]. *)
Lemma recv_spec q m L msg :
  ring_ok q m L -> depth L <> 0 ->
  region msg (msg_size q) -> apart msg (msg_size q) (buffer q) (buffer_size q) ->
  exists p x l q' m',
    recv_message msg q m = (p, q', m') /\
    served (high_prio_recv_count q) L p /\ L p = x :: l /\
    ring_ok q' m' (take_message p L) /\ bytes m' msg (msg_size q) = x /\
    high_prio_recv_count q' = next_streak (high_prio_recv_count q) p /\ shape q' = shape q /\
    (forall a, ~ (msg <= a < msg + msg_size q) -> m' a = m a).
Proof.
  intros R Hd Hmsg Hap. destruct (select_spec q m L R Hd) as (p & Hsv & Hsel). pose proof Hsv as (Hp & Hne & _).
  destruct (L p) as [|x l] eqn:El; [done|]. unfold recv_message. rewrite Hsel.
  assert (Hp0 : p <? 0 = false) by (apply Z.ltb_ge; unfold level_of, MSG_PRIO_LOW in Hp; lia). rewrite Hp0.
  cbn [msg_size with_streak]. set (qs := with_streak _ q). change (level p qs) with (level p q). change (prio_slot qs) with (prio_slot q).
  pose proof (r_cap _ _ _ R) as Hc. pose proof (r_size _ _ _ R) as Hs. pose proof (r_levels _ _ _ R p Hp) as Hlev.
  rewrite El in Hlev. pose proof Hlev as [Ht Hct Hr _ _]. simpl in Hct, Hr.
  rewrite (prio_slot_exact q m L) by done. pose proof (depth_bound _ _ _ R) as [Hdb Hdb'].
  destruct (slot_bounds q p (tail (level p q))) as [B1 B2]; [lia|done|done|done|]. pose proof (r_buffer _ _ _ R) as (? & ? & ?).
  destruct (memcpy_spec (msg_size q) msg (slot q p (tail (level p q))) m) as [M1 M2]; [done|unfold region in *; lia|unfold apart in *; lia|].
  set (m' := ipc_memcpy _ _ _ m) in *.
  rewrite (u64_small (tail _ + 1)), (u64_small (count _ - 1)) by (unfold is_u64; lia).
  rewrite (u64_small (total_count _ - 1)) by (cbn; rewrite (r_total _ _ _ R); unfold is_u64; lia).
  eexists p, x, l, _, m'. split; [reflexivity|].
  assert (R' : ring_ok q m' L) by (eapply ring_frame; [|exact R]; intros a Ha; apply M2; unfold apart in Hap; lia).
  set (q1 := with_counts _ _ _ _ _ _).
  assert (E : forall p', level_of p' -> level p' q1 = if decide (p' = p) then PrioBuffer (head (level p q)) ((tail (level p q) + 1) mod capacity q) (count (level p q) - 1) else level p' q)
    by (intros p' Hp'; exact (level_with p p' _ qs (r_prio _ _ _ R) Hp Hp')).
  pose proof (r_levels _ _ _ R') as Hlv'.
  assert (Ep := E p Hp). rewrite decide_True in Ep by done.
  destruct (level_pop q q1 m' p x l) as [P1 _]; [done..|lia|rewrite <- El; by apply Hlv'|].
  destruct (level_pop q q1 m p x l) as [_ P2]; [done..|lia|done|].
  split_and!; try done.
  - constructor; try apply R; cbn [total_count high_water msgs_sent msgs_recv prio high_prio_recv_count q1 with_counts qs with_level with_streak].
    + rewrite length_insert. apply R.
    + intros p' Hp'. unfold take_message. rewrite fn_lookup_insert_Z, El. destruct (decide (p' = p)) as [->|Hne']; [done|].
      eapply level_ok_ext; [..|by apply Hlv']; try done. change (level p' q1 = level p' q). rewrite E by done. by rewrite decide_False.
    + erewrite depth_take by done. by rewrite (r_total _ _ _ R).
    + pose proof (r_streak _ _ _ R). unfold next_streak, MSG_STARVATION_THRESHOLD, MSG_PRIO_LOW in *.
      destruct (8 <=? high_prio_recv_count q) eqn:?; [lia|]. destruct (0 <? p); lia.
    + pose proof (r_water _ _ _ R). cbn. lia.
    + apply (u64_diff (msgs_sent q - msgs_recv q) _ _ (-1)); [apply R|rewrite (r_total _ _ _ R); unfold is_u64; lia|].
      unfold u64. rewrite Zminus_mod_idemp_r. f_equal. lia.
  - rewrite M1. done.
Qed.

(** ** Runs of a queue that never waits *)

Inductive ring_op := Put (p msg : Z) | Get (msg : Z).

Inductive event := Sent (p : Z) (x : list Z) | Rejected | Got (p : Z) (x : list Z) | Nothing.

(** A send or a receive with [MSG_NO_WAIT], the bytes moved in the event. *)
Definition ring_step (o : ring_op) (q : msg_queue) (m : memory) : event * msg_queue * memory :=
  match o with
  | Put p msg =>
      let p := clamp_msg_priority p in
      if level_full p q then (Rejected, q, m)
      else let '(q', m') := send_message p msg q m in (Sent p (bytes m msg (msg_size q)), q', m')
  | Get msg =>
      if total_count q =? 0 then (Nothing, q, m)
      else let '(p, q', m') := recv_message msg q m in (Got p (bytes m' msg (msg_size q)), q', m')
  end.

Fixpoint ring_run (os : list ring_op) (q : msg_queue) (m : memory) : list event * msg_queue * memory :=
  match os with
  | [] => ([], q, m)
  | o :: os =>
      let '(e, q, m) := ring_step o q m in
      let '(es, q, m) := ring_run os q m in (e :: es, q, m)
  end.

Definition op_ptr (o : ring_op) : Z := match o with Put _ msg => msg | Get msg => msg end.

(** The caller's buffer is not part of the queue's. *)
Definition op_valid (q : msg_queue) (o : ring_op) : Prop :=
  region (op_ptr o) (msg_size q) /\ apart (op_ptr o) (msg_size q) (buffer q) (buffer_size q).

Definition is_get (o : ring_op) : option unit := match o with Get _ => Some tt | Put _ _ => None end.

Definition gets (os : list ring_op) : Z := Z.of_nat (length (omap is_get os)).

(** What a run put into and took out of level [p]. *)
Definition sent_at (p : Z) (e : event) : option (list Z) :=
  match e with Sent p' x => if p' =? p then Some x else None | _ => None end.

Definition got_at (p : Z) (e : event) : option (list Z) :=
  match e with Got p' x => if p' =? p then Some x else None | _ => None end.

Definition got_any (e : event) : option Z := match e with Got p _ => Some p | _ => None end.

Lemma valid_shape q q' o : shape q' = shape q -> op_valid q o -> op_valid q' o.
Proof. unfold shape, op_valid, buffer_size. intros [= ? -> -> ? -> ? ?]. done. Qed.

Lemma clamp_level p : level_of (clamp_msg_priority p).
Proof.
  unfold level_of, clamp_msg_priority, MSG_PRIO_LOW, MSG_PRIO_URGENT.
  destruct (p <? 0) eqn:E1, (3 <? _) eqn:E2; rewrite ?Z.ltb_lt, ?Z.ltb_ge in *; lia.
Qed.

(** What one operation does to the lists, and to the count of receives in a row. *)
Definition stepped (o : ring_op) (e : event) (q : msg_queue) (L : messages) (q' : msg_queue) (L' : messages) : Prop :=
  match o with
  | Put p _ =>
      let p := clamp_msg_priority p in
      high_prio_recv_count q' = high_prio_recv_count q /\
      (e = Rejected /\ L' = L /\ Z.of_nat (length (L p)) = capacity q \/
       exists x, e = Sent p x /\ L' = queue_message p x L /\ Z.of_nat (length (L p)) < capacity q)
  | Get _ =>
      e = Nothing /\ L' = L /\ depth L = 0 /\ q' = q \/
      exists p x l, e = Got p x /\ served (high_prio_recv_count q) L p /\ L p = x :: l /\ L' = take_message p L /\
        high_prio_recv_count q' = next_streak (high_prio_recv_count q) p
  end.

Lemma ring_step_spec o q m L e q' m' :
  ring_ok q m L -> op_valid q o -> ring_step o q m = (e, q', m') ->
  exists L', ring_ok q' m' L' /\ shape q' = shape q /\ stepped o e q L q' L'.
Proof.
  intros R [Hv Ha] Hstep. destruct o as [p msg|msg]; cbn [ring_step op_ptr stepped] in *.
  - pose proof (clamp_level p) as Hp. set (p' := clamp_msg_priority p) in *.
    pose proof (l_count _ _ _ _ (r_levels _ _ _ R p' Hp)) as Hc. pose proof (l_room _ _ _ _ (r_levels _ _ _ R p' Hp)) as Hr.
    destruct (level_full p' q) eqn:Hf.
    + injection Hstep as <- <- <-. exists L. split_and!; try done. left. split_and!; try done.
      apply Z.leb_le in Hf. lia.
    + pose proof (send_spec q m L p' msg R Hp Hf Hv Ha) as Hs. destruct (send_message p' msg q m) as [q1 m1] eqn:E.
      injection Hstep as <- <- <-. destruct Hs as [R' _]. unfold send_message in E. injection E as <- <-.
      eexists. split; [exact R'|]. split; [done|]. split; [done|]. right. eexists. split_and!; [done|done|].
      apply Z.leb_gt in Hf. lia.
  - rewrite (r_total _ _ _ R) in Hstep. destruct (depth L =? 0) eqn:Hd.
    + injection Hstep as <- <- <-. apply Z.eqb_eq in Hd. exists L. split_and!; try done. by left.
    + apply Z.eqb_neq in Hd. destruct (recv_spec q m L msg R Hd Hv Ha) as (p & x & l & q1 & m1 & E & Hsv & Hl & R' & Hx & Hst & Hsh & _).
      rewrite E in Hstep. injection Hstep as <- <- <-. exists (take_message p L). split; [done|]. split; [done|].
      right. exists p, x, l. rewrite Hx. done.
Qed.

(** The state [msg_queue_create] gives a new queue. *)
Definition init_queue (qid size cap total buf : Z) : msg_queue :=
  MkQueue qid size cap total 0 buf 0 0 (replicate (Z.to_nat MSG_PRIO_COUNT) (PrioBuffer 0 0 0)) 0
    0 0 0 (replicate (Z.to_nat MSG_PRIO_COUNT) 0).

Lemma init_ring qid size cap buf m :
  0 < cap <= 65536 -> 0 < size -> region buf (MSG_PRIO_COUNT * cap * size) ->
  ring_ok (init_queue qid size cap (MSG_PRIO_COUNT * cap) buf) m (fun _ => []).
Proof.
  intros Hc Hs Hb. constructor; try done; cbn -[Z.mul].
  - intros p Hp. unfold level_of, MSG_PRIO_LOW, MSG_PRIO_URGENT in Hp.
    assert (E : level p (init_queue qid size cap (MSG_PRIO_COUNT * cap) buf) = PrioBuffer 0 0 0).
    { assert (p = 0 \/ p = 1 \/ p = 2 \/ p = 3) as [-> | [-> | [-> | ->]]] by lia; done. }
    constructor; rewrite ?E; cbn; try lia; done.
  - unfold MSG_PRIO_COUNT. lia.
Qed.

Lemma ring_run_spec os q m L es q' m' :
  ring_ok q m L -> Forall (op_valid q) os -> ring_run os q m = (es, q', m') ->
  exists L', ring_ok q' m' L' /\ shape q' = shape q /\
    forall p, level_of p -> L p ++ omap (sent_at p) es = omap (got_at p) es ++ L' p.
Proof.
  revert q m L es. induction os as [|o os IH]; intros q m L es R Hv Hrun; cbn [ring_run] in Hrun.
  { injection Hrun as <- <- <-. exists L. split_and!; try done. intros p _. by rewrite app_nil_r. }
  destruct (ring_step o q m) as [[e q1] m1] eqn:Es. destruct (ring_run os q1 m1) as [[es1 q2] m2] eqn:Er.
  injection Hrun as <- <- <-. apply Forall_cons in Hv as [Hv Hvs].
  destruct (ring_step_spec _ _ _ _ _ _ _ R Hv Es) as (L1 & R1 & Hs1 & Hst).
  destruct (IH _ _ _ _ R1 (Forall_impl _ _ _ Hvs (fun o => valid_shape q q1 o Hs1)) Er) as (L2 & R2 & Hs2 & Hf).
  exists L2. split; [done|]. split; [congruence|]. intros p Hp. specialize (Hf p Hp).
  assert (Hone : L p ++ omap (sent_at p) [e] = omap (got_at p) [e] ++ L1 p).
  { destruct o as [p' msg|msg]; cbn [stepped] in Hst.
    - destruct Hst as [_ [(-> & -> & _)|(x & -> & -> & _)]]; cbn; [by rewrite app_nil_r|].
      unfold queue_message. rewrite fn_lookup_insert_Z. destruct (Z.eqb_spec (clamp_msg_priority p') p); case_decide; subst; try done. by rewrite app_nil_r.
    - destruct Hst as [(-> & -> & _)|(p' & x & l & -> & _ & Hl & -> & _)]; cbn; rewrite app_nil_r; [done|].
      unfold take_message. rewrite fn_lookup_insert_Z. destruct (Z.eqb_spec p' p); case_decide; subst; try done. by rewrite Hl. }
  change (e :: es1) with ([e] ++ es1). rewrite !omap_app, (assoc (++)), Hone, <- !(assoc (++)). by rewrite Hf.
Qed.

(** Receives still to come before [j] more messages leave the lowest level. *)
Lemma low_progress os q m L es q' m' j :
  ring_ok q m L -> Forall (op_valid q) os -> ring_run os q m = (es, q', m') ->
  0 <= j <= Z.of_nat (length (L MSG_PRIO_LOW)) ->
  9 * j - high_prio_recv_count q <= gets os -> j <= Z.of_nat (length (omap (got_at MSG_PRIO_LOW) es)).
Proof.
  revert q m L es j. induction os as [|o os IH]; intros q m L es j R Hv Hrun Hj Hg; cbn [ring_run] in Hrun.
  { pose proof (r_streak _ _ _ R). unfold gets, MSG_STARVATION_THRESHOLD in *. cbn in Hg. lia. }
  destruct (ring_step o q m) as [[e q1] m1] eqn:Es. destruct (ring_run os q1 m1) as [[es1 q2] m2] eqn:Er.
  injection Hrun as <- <- <-. apply Forall_cons in Hv as [Hv Hvs]. pose proof (r_streak _ _ _ R) as Hs.
  destruct (ring_step_spec _ _ _ _ _ _ _ R Hv Es) as (L1 & R1 & Hs1 & Hst).
  pose proof (Forall_impl _ _ _ Hvs (fun o => valid_shape q q1 o Hs1)) as Hvs'.
  change (e :: es1) with ([e] ++ es1). rewrite omap_app, length_app. destruct o as [p' msg|msg]; cbn [stepped] in Hst.
  - assert (Hlen : (length (L MSG_PRIO_LOW) <= length (L1 MSG_PRIO_LOW))%nat).
    { destruct Hst as [_ [(_ & -> & _)|(x & _ & -> & _)]]; [done|]. unfold queue_message. rewrite fn_lookup_insert_Z.
      case_decide as E; [|done]. rewrite length_app, E. lia. }
    destruct Hst as [Hst _]. specialize (IH q1 m1 L1 es1 j R1 Hvs' Er). unfold gets in *. cbn in Hg. lia.
  - assert (Hg' : gets (Get msg :: os) = gets os + 1) by (unfold gets; cbn; lia). rewrite Hg' in Hg.
    destruct Hst as [(-> & -> & Hd & ->)|(p & x & l & -> & (Hp & _ & Hmin) & Hl & -> & Hst)].
    { unfold depth, MSG_PRIO_LOW in *. assert (j = 0) as -> by lia. lia. }
    destruct (decide (j = 0)) as [->|Hj0]; [lia|]. unfold next_streak, MSG_STARVATION_THRESHOLD in *.
    assert (Hlow : L MSG_PRIO_LOW <> []) by (intros E; rewrite E in Hj; simpl in Hj; lia).
    assert (Hl0 : level_of MSG_PRIO_LOW) by done. destruct (decide (p = MSG_PRIO_LOW)) as [->|Hne].
    + specialize (IH q1 m1 _ es1 (j - 1) R1 Hvs' Er). unfold take_message in IH. rewrite fn_lookup_insert, Hl in IH.
      rewrite Hl in Hj. cbn in *. destruct (8 <=? _); lia.
    + specialize (IH q1 m1 _ es1 j R1 Hvs' Er). unfold take_message in IH. rewrite fn_lookup_insert_ne in IH by done.
      assert (Hpos : MSG_PRIO_LOW < p) by (unfold level_of in Hp; lia). pose proof (proj2 (Z.ltb_lt _ _) Hpos) as E. rewrite E in Hst.
      destruct (8 <=? high_prio_recv_count q) eqn:E8; [|lia]. destruct Hlow. by apply Hmin.
Qed.

(** Two slots of four bytes per level; every byte of memory starts as its address. *)
Definition sample : msg_queue := init_queue 1 4 2 8 0x10000.

Definition sample_memory : memory := u8.

Definition sample_ops : list ring_op :=
  [Put 0 0x20000; Put 3 0x20004; Put 0 0x20008; Put 0 0x2000c; Get 0x20010; Get 0x20014; Get 0x20018; Get 0x2001c].

Lemma sample_ring : ring_ok sample sample_memory (fun _ => []).
Proof. apply init_ring; unfold region, MSG_PRIO_COUNT; lia. Qed.

Definition op_validb (q : msg_queue) (o : ring_op) : bool :=
  (0 <=? op_ptr o) && (0 <=? msg_size q) && (op_ptr o + msg_size q <=? 2 ^ 64) &&
  ((op_ptr o + msg_size q <=? buffer q) || (buffer q + buffer_size q <=? op_ptr o)).

Lemma op_validb_spec q os : forallb (op_validb q) os = true -> Forall (op_valid q) os.
Proof.
  intros H. apply Forall_forall. intros o Ho. rewrite forallb_forall in H.
  specialize (H o (proj1 (list_elem_of_In _ _) Ho)). unfold op_validb in H.
  rewrite !andb_true_iff, orb_true_iff, !Z.leb_le in H. unfold op_valid, region, apart. lia.
Qed.

(** C16.  Per priority level a queue is a FIFO: in any run of sends and receives, what was
    in the level followed by the messages accepted for it, byte for byte, is what the
    receives took from it followed by what is left; the ring stays well-formed. *)
Theorem ring_fifo (os : list ring_op) (q q' : msg_queue) (m m' : memory) (L : messages) (es : list event) :
  ring_ok q m L -> Forall (op_valid q) os -> ring_run os q m = (es, q', m') ->
  exists L', ring_ok q' m' L' /\ shape q' = shape q /\
    forall p, level_of p -> L p ++ omap (sent_at p) es = omap (got_at p) es ++ L' p.
Proof. intros R Hv Hr. by apply (ring_run_spec os q m L). Qed.

(** Witness of C16: the third message for the lowest level is rejected, the urgent one comes first. *)
Lemma ring_fifo_witness :
  let '(es, q', m') := ring_run sample_ops sample sample_memory in
  es = [Sent 0 [0; 1; 2; 3]; Sent 3 [4; 5; 6; 7]; Sent 0 [8; 9; 10; 11]; Rejected;
        Got 3 [4; 5; 6; 7]; Got 0 [0; 1; 2; 3]; Got 0 [8; 9; 10; 11]; Nothing] /\
  exists L', ring_ok q' m' L' /\ shape q' = shape sample /\
    forall p, level_of p -> [] ++ omap (sent_at p) es = omap (got_at p) es ++ L' p.
Proof.
  destruct (ring_run sample_ops sample sample_memory) as [[es q'] m'] eqn:E. split.
  - assert (Hes : es = (ring_run sample_ops sample sample_memory).1.1) by (by rewrite E). rewrite Hes. vm_compute. reflexivity.
  - apply (ring_fifo sample_ops sample q' sample_memory m' (fun _ => []) es sample_ring); [|exact E].
    apply op_validb_spec. vm_compute. reflexivity.
Defined.

(** C28.  The lowest level is not starved: whatever is sent meanwhile, the message with
    [k] others before it in the lowest level is received within [9 * (k + 1)] receives. *)
Theorem lowest_level_served (os : list ring_op) (q q' : msg_queue) (m m' : memory) (L : messages) (es : list event) (k : nat) (x : list Z) :
  ring_ok q m L -> Forall (op_valid q) os -> ring_run os q m = (es, q', m') ->
  L MSG_PRIO_LOW !! k = Some x -> 9 * (Z.of_nat k + 1) <= gets os ->
  omap (got_at MSG_PRIO_LOW) es !! k = Some x.
Proof.
  intros R Hv Hr Hk Hg. pose proof (lookup_lt_Some _ _ _ Hk). pose proof (r_streak _ _ _ R).
  assert (Hp := low_progress os q m L es q' m' (Z.of_nat k + 1) R Hv Hr ltac:(lia) ltac:(lia)).
  destruct (ring_run_spec os q m L es q' m' R Hv Hr) as (L' & _ & _ & Hf). specialize (Hf MSG_PRIO_LOW ltac:(done)).
  rewrite <- (lookup_app_l _ (L' MSG_PRIO_LOW)) by lia. rewrite <- Hf. by apply lookup_app_l_Some.
Qed.

(** The urgent level is refilled before each receive. *)
Definition urgent_rounds (n : nat) : list ring_op := concat (replicate n [Put 3 0x20004; Get 0x20010]).

(** The state of the sample queue after a run, and the messages in it. *)
Lemma sample_after os :
  forallb (op_validb sample) os = true ->
  let '(es, q, m) := ring_run os sample sample_memory in
  exists L, ring_ok q m L /\ shape q = shape sample /\ forall p, level_of p -> omap (sent_at p) es = omap (got_at p) es ++ L p.
Proof.
  intros Hv. destruct (ring_run os sample sample_memory) as [[es q] m] eqn:E.
  by apply (ring_run_spec os sample sample_memory _ es q m sample_ring (op_validb_spec _ _ Hv)).
Qed.

(** Witness of C28: nine receives while the urgent level is never empty. *)
Lemma lowest_level_served_witness :
  let '(_, q, m) := ring_run [Put 0 0x20000] sample sample_memory in
  let '(es, _, _) := ring_run (urgent_rounds 9) q m in
  omap (got_at MSG_PRIO_LOW) es !! 0%nat = Some [0; 1; 2; 3].
Proof.
  pose proof (sample_after [Put 0 0x20000] eq_refl) as H.
  destruct (ring_run [Put 0 0x20000] sample sample_memory) as [[es0 q] m] eqn:E0. destruct H as (L & R & Hs & Hf).
  destruct (ring_run (urgent_rounds 9) q m) as [[es q'] m'] eqn:E.
  apply (lowest_level_served (urgent_rounds 9) q q' m m' L es 0 [0; 1; 2; 3] R).
  - eapply Forall_impl; [|intros o; apply valid_shape, Hs]. apply op_validb_spec. vm_compute. reflexivity.
  - exact E.
  - specialize (Hf 0 ltac:(done)). assert (Hes : es0 = (ring_run [Put 0 0x20000] sample sample_memory).1.1) by (by rewrite E0).
    vm_compute in Hes. subst es0. cbn in Hf. unfold MSG_PRIO_LOW. by rewrite <- Hf.
  - vm_compute. discriminate.
Defined.

Lemma starving_round b q m L :
  ring_ok q m L -> op_valid q (Get b) -> L MSG_PRIO_LOW <> [] -> L MSG_PRIO_URGENT <> [] ->
  exists p x y q' m' L', ring_run [Get b; Put p b] q m = ([Got p x; Sent p y], q', m') /\
    p <> MSG_PRIO_NORMAL /\ ring_ok q' m' L' /\ shape q' = shape q /\ L' MSG_PRIO_LOW <> [] /\ L' MSG_PRIO_URGENT <> [].
Proof.
  intros R Hv H0 H3. cbn [ring_run]. destruct (ring_step (Get b) q m) as [[e1 q1] m1] eqn:E1.
  destruct (ring_step_spec _ _ _ _ _ _ _ R Hv E1) as (L1 & R1 & Hs1 & Hst). cbn [stepped] in Hst.
  destruct Hst as [(_ & _ & Hd & _)|(p & x & l & -> & (Hp & _ & Hmin) & Hl & -> & _)].
  { destruct H0. unfold depth, MSG_PRIO_LOW in *. apply length_zero_iff_nil. lia. }
  assert (Hp03 : p = MSG_PRIO_LOW \/ p = MSG_PRIO_URGENT).
  { unfold level_of in Hp. destruct (MSG_STARVATION_THRESHOLD <=? high_prio_recv_count q).
    - destruct (decide (p = MSG_PRIO_LOW)) as [|Hne]; [by left|]. destruct H0. apply Hmin; [done|lia].
    - destruct (decide (p = MSG_PRIO_URGENT)) as [|Hne]; [by right|]. destruct H3. apply Hmin; [done|lia]. }
  assert (Hv1 : op_valid q1 (Put p b)) by (exact (valid_shape q q1 (Get b) Hs1 Hv)).
  assert (Hcl : clamp_msg_priority p = p) by (by destruct Hp03 as [-> | ->]).
  destruct (ring_step (Put p b) q1 m1) as [[e2 q2] m2] eqn:E2.
  destruct (ring_step_spec _ _ _ _ _ _ _ R1 Hv1 E2) as (L2 & R2 & Hs2 & Hst2). cbn [stepped] in Hst2. rewrite Hcl in Hst2.
  assert (Hlen : Z.of_nat (length (take_message p L p)) < capacity q1).
  { unfold take_message. rewrite fn_lookup_insert, Hl. pose proof (l_room _ _ _ _ (r_levels _ _ _ R p Hp)) as Hr. rewrite Hl in Hr.
    unfold shape in Hs1. injection Hs1 as _ _ -> _ _ _ _. simpl in Hr |- *. lia. }
  destruct Hst2 as [_ [(_ & _ & E)|(y & -> & -> & _)]]; [lia|].
  exists p, x, y, q2, m2, (queue_message p y (take_message p L)). split; [by rewrite E2|]. split; [by destruct Hp03 as [-> | ->]|].
  split; [done|]. split; [congruence|]. unfold queue_message, take_message. rewrite !fn_lookup_insert_Z.
  split; case_decide; try done; apply not_eq_sym, app_cons_not_nil.
Qed.

(**  The levels between the lowest and the highest have no such bound: as long as
    both ends have messages, any number of receives can pass without one of a waiting
    message of normal priority. *)
Theorem normal_level_starves (n : nat) (b : Z) (q : msg_queue) (m : memory) (L : messages) :
  ring_ok q m L -> op_valid q (Get b) ->
  L MSG_PRIO_LOW <> [] -> L MSG_PRIO_NORMAL <> [] -> L MSG_PRIO_URGENT <> [] ->
  exists os es q' m', Forall (op_valid q) os /\ ring_run os q m = (es, q', m') /\
    length (omap got_any es) = n /\ MSG_PRIO_NORMAL ∉ omap got_any es.
Proof.
  intros R Hv H0 _ H3. revert q m L R Hv H0 H3. induction n as [|n IH]; intros q m L R Hv H0 H3.
  { exists [], [], q, m. split_and!; try done. apply not_elem_of_nil. }
  destruct (starving_round b q m L R Hv H0 H3) as (p & x & y & q1 & m1 & L1 & Hrun & Hp & R1 & Hs & H0' & H3').
  destruct (IH q1 m1 L1 R1 (valid_shape q q1 _ Hs Hv) H0' H3') as (os & es & q2 & m2 & Hvs & Hrun2 & Hn & Hno).
  exists (Get b :: Put p b :: os), (Got p x :: Sent p y :: es), q2, m2. split_and!.
  - constructor; [done|]. constructor; [done|]. eapply Forall_impl; [exact Hvs|]. intros o. by apply valid_shape.
  - cbn [ring_run] in Hrun |- *. destruct (ring_step (Get b) q m) as [[e1 q'] m']. destruct (ring_step (Put p b) q' m') as [[e2 q''] m''].
    injection Hrun as -> -> -> ->. by rewrite Hrun2.
  - cbn. by rewrite Hn.
  - cbn. rewrite not_elem_of_cons. done.
Qed.

(** An instance: one message each of low, normal and urgent priority, a thousand receives. *)
Lemma normal_level_starves_witness :
  let '(_, q, m) := ring_run [Put 0 0x20000; Put 1 0x20004; Put 3 0x20008] sample sample_memory in
  exists os es q' m', Forall (op_valid q) os /\ ring_run os q m = (es, q', m') /\
    length (omap got_any es) = 1000%nat /\ MSG_PRIO_NORMAL ∉ omap got_any es.
Proof.
  pose proof (sample_after [Put 0 0x20000; Put 1 0x20004; Put 3 0x20008] eq_refl) as H.
  destruct (ring_run _ sample sample_memory) as [[es0 q] m] eqn:E0. destruct H as (L & R & Hs & Hf).
  assert (Hes : es0 = (ring_run [Put 0 0x20000; Put 1 0x20004; Put 3 0x20008] sample sample_memory).1.1) by (by rewrite E0).
  vm_compute in Hes. subst es0.
  apply (normal_level_starves 1000 0x20010 q m L R).
  - eapply valid_shape; [exact Hs|]. apply (Forall_inv (P := op_valid sample) (l := [])), op_validb_spec. reflexivity.
  - change (L 0 <> []). pose proof (Hf 0 (level_lit 0 ltac:(lia))) as E. cbn in E. by rewrite <- E.
  - change (L 1 <> []). pose proof (Hf 1 (level_lit 1 ltac:(lia))) as E. cbn in E. by rewrite <- E.
  - change (L 3 <> []). pose proof (Hf 3 (level_lit 3 ltac:(lia))) as E. cbn in E. by rewrite <- E.
Defined.

End MsgRing.
