(* ===== verification/MsgQueue.v ===== *)
(** The message queues of [kernel/ipc/ipc.c] on top of the scheduler and the page allocator.

    [MsgRing] moves the messages; here are creation and destruction, waiting for a slot or
    a message, and waking.  A call that has to wait gives up the CPU in the middle of its
    loop: it returns what it is still to do, and [send_pass] or [recv_pass] is the next
    round of the loop.  [None] is a NULL dereference or a panic. *)

From S2P Require Import Prelude FreeList Buddy StealDeque Task Sys Sched MsgRing.

Open Scope Z_scope.
Open Scope slm_scope.

Module MsgQueue.
Import MsgRing Task Sys Sched.

Definition IPC_OK : Z := 0.
Definition IPC_ERR_FULL : Z := -2.
Definition IPC_ERR_EMPTY : Z := -3.
Definition IPC_ERR_TIMEOUT : Z := -4.
Definition IPC_ERR_INVALID : Z := -5.
Definition IPC_ERR_BUSY : Z := -6.

Definition MSG_NO_WAIT : Z := 0.
Definition MSG_QUEUE_MAX : nat := 32.
Definition MSG_QUEUE_MAX_CAPACITY : Z := 65536.
Definition MSG_SIZE_DEFAULT : Z := 64.
Definition SIZE_MAX : Z := 2 ^ 64 - 1.

(** [ipc_state] and what its pointers lead to. *)
Record ipc := Ipc {
  base : sys;
  mem : memory;
  queue_at : Z -> msg_queue;
  queues : list Z;
  next_queue_id : Z
}.

Definition with_base (s : sys) (st : ipc) : ipc := Ipc s (mem st) (queue_at st) (queues st) (next_queue_id st).
Definition with_mem (m : memory) (st : ipc) : ipc := Ipc (base st) m (queue_at st) (queues st) (next_queue_id st).
Definition set_queue (qa : Z) (q : msg_queue) (st : ipc) : ipc :=
  Ipc (base st) (mem st) (<[qa := q]> (queue_at st)) (queues st) (next_queue_id st).
Definition with_table (l : list Z) (n : Z) (st : ipc) : ipc := Ipc (base st) (mem st) (queue_at st) l n.
Definition with_pages (h : Buddy.pmm) (st : ipc) : ipc := with_base (with_heap h (base st)) st.

(** The part of [ipc_init] for queues. *)
Definition ipc_init (st : ipc) : ipc := with_table (replicate MSG_QUEUE_MAX 0) 1 st.

(** ** Time *)

Definition ms_to_ticks (ms : Z) (s : sys) : Z := u64 (ms * timer_freq s) / 1000.

Definition timeout_expired (start_time timeout_ticks : Z) (s : sys) : bool :=
  timeout_ticks <=? (timer_count s -64 start_time).

(** ** Waiting and waking *)

(** The two wait queues of a message queue. *)
Inductive side := Senders | Receivers.

#[export] Instance side_eq_dec : EqDecision side.
Proof. solve_decision. Defined.

Definition wait_queue (d : side) (q : msg_queue) : Z :=
  match d with Senders => send_waiters q | Receivers => recv_waiters q end.

Definition set_wait_queue (d : side) (v : Z) (q : msg_queue) : msg_queue :=
  MkQueue (MsgRing.id q) (msg_size q) (capacity q) (total_capacity q) (total_count q) (buffer q)
    (match d with Senders => v | Receivers => send_waiters q end)
    (match d with Senders => recv_waiters q | Receivers => v end)
    (prio q) (high_prio_recv_count q) (msgs_sent q) (msgs_recv q) (high_water q) (prio_msgs_sent q).

(** [block_on_queue] up to the release of the lock. *)
Definition block_enqueue (d : side) (qa this : Z) (st : ipc) : option ipc :=
  let current := task_current_on_cpu this (base st) in
  if current =? 0 then None
  else
    let q := queue_at st qa in
    let s := upd current (set_next (wait_queue d q)) (base st) in
    Some (set_queue qa (set_wait_queue d current q) (with_base (upd current (set_state TASK_BLOCKED) s) st)).

Definition block_on_queue (d : side) (qa this live_sp : Z) (st : ipc) : option ipc :=
  st ← block_enqueue d qa this st;
  s ← yield this live_sp (base st);
  Some (with_base s st).

Definition wake_one (pol : policy) (d : side) (qa : Z) (st : ipc) : option (Z * ipc) :=
  let q := queue_at st qa in
  let t := wait_queue d q in
  if t =? 0 then Some (0, st)
  else
    let st := set_queue qa (set_wait_queue d (next (tasks (base st) t)) q) st in
    let s := upd t (set_next 0) (base st) in
    let s := upd t (set_state TASK_READY) s in
    s ← scheduler_add_task pol t s;
    Some (t, with_base s st).

(** ** Creation and destruction *)

(** The first empty slot of the table. *)
Fixpoint free_slot (n i : nat) (l : list Z) : option nat :=
  match n with
  | O => None
  | S n => if nth i l 0 =? 0 then Some i else free_slot n (S i) l
  end.

Definition pages_for (buffer_size : Z) : Z := (buffer_size +64 Buddy.PAGE_SIZE -64 1) / Buddy.PAGE_SIZE.

(** Registration under the lock of the table: the new queue or 0. *)
Definition register_queue (qa pages_needed : Z) (st : ipc) : option (Z * ipc) :=
  let q := queue_at st qa in
  match free_slot MSG_QUEUE_MAX 0 (queues st) with
  | Some i =>
      let st := set_queue qa (init_queue (next_queue_id st) (msg_size q) (capacity q) (total_capacity q) (buffer q)) st in
      Some (qa, with_table (<[i := qa]> (queues st)) (next_queue_id st +32 1) st)
  | None =>
      h ← Buddy.pmm_free_pages (buffer q) pages_needed (heap (base st));
      h ← Buddy.pmm_free_page qa h;
      Some (0, with_pages h st)
  end.

Definition msg_queue_create (cap size : Z) (st : ipc) : option (Z * ipc) :=
  if (cap =? 0) || (MSG_QUEUE_MAX_CAPACITY <? cap) then Some (0, st)
  else
    let size := if size =? 0 then MSG_SIZE_DEFAULT else size in
    let total := u64 (cap * MSG_PRIO_COUNT) in
    if SIZE_MAX / total <? size then Some (0, st)
    else
      let pages_needed := pages_for (u64 (total * size)) in
      '(qa, h) ← Buddy.pmm_alloc_page (heap (base st));
      let st := with_pages h st in
      if qa =? 0 then Some (0, st)
      else
        '(buf, h) ← Buddy.pmm_alloc_pages pages_needed (heap (base st));
        let st := with_pages h st in
        if buf =? 0 then
          h ← Buddy.pmm_free_page qa (heap (base st));
          Some (0, with_pages h st)
        else
          let st := with_mem (ipc_memset (Z.to_nat (u64 (pages_needed * Buddy.PAGE_SIZE))) buf 0 (mem st)) st in
          register_queue qa pages_needed (set_queue qa (init_queue 0 size cap total buf) st).

(** Removal from the table. *)
Fixpoint remove_queue (n i : nat) (qa : Z) (l : list Z) : list Z :=
  match n with
  | O => l
  | S n => if nth i l 0 =? qa then <[i := 0]> l else remove_queue n (S i) qa l
  end.

Definition msg_queue_destroy (qa : Z) (st : ipc) : option (Z * ipc) :=
  if qa =? 0 then Some (IPC_ERR_INVALID, st)
  else
    let q := queue_at st qa in
    if negb (send_waiters q =? 0) || negb (recv_waiters q =? 0) then Some (IPC_ERR_BUSY, st)
    else
      let st := with_table (remove_queue MSG_QUEUE_MAX 0 qa (queues st)) (next_queue_id st) st in
      h ← Buddy.pmm_free_pages (buffer q) (pages_for (u64 (total_capacity q * msg_size q))) (heap (base st));
      h ← Buddy.pmm_free_page qa h;
      Some (IPC_OK, with_pages h st).

(** ** Sending and receiving *)

(** A call in progress: its arguments, the start time and the timeout in ticks. *)
Inductive pending :=
  | Sending (qa msg priority timeout_ms start_time timeout_ticks : Z)
  | Receiving (qa msg timeout_ms start_time timeout_ticks : Z).

Inductive outcome := Returned (rc : Z) | Waits.

(** The body of the waiting loops; [err] is the code of a call that may not wait. *)
Definition wait_pass (d : side) (err qa timeout_ms start_time timeout_ticks this live_sp : Z) (st : ipc) : option (outcome * ipc) :=
  if timeout_ms =? MSG_NO_WAIT then Some (Returned err, st)
  else if (0 <? timeout_ms) && timeout_expired start_time timeout_ticks (base st) then Some (Returned IPC_ERR_TIMEOUT, st)
  else if timeout_ms <? 0 then
    st ← block_on_queue d qa this live_sp st;
    Some (Waits, st)
  else
    s ← yield this live_sp (base st);
    Some (Waits, with_base s st).

(** [msg_send_priority] from the test of the loop on. *)
Definition send_pass (pol : policy) (qa msg priority timeout_ms start_time timeout_ticks this live_sp : Z) (st : ipc)
  : option (outcome * ipc) :=
  if level_full priority (queue_at st qa) then
    wait_pass Senders IPC_ERR_FULL qa timeout_ms start_time timeout_ticks this live_sp st
  else
    let '(q, m) := send_message priority msg (queue_at st qa) (mem st) in
    '(_, st) ← wake_one pol Receivers qa (set_queue qa q (with_mem m st));
    Some (Returned IPC_OK, st).

(** [msg_recv] from the test of the loop on. *)
Definition recv_pass (pol : policy) (qa msg timeout_ms start_time timeout_ticks this live_sp : Z) (st : ipc)
  : option (outcome * ipc) :=
  if total_count (queue_at st qa) =? 0 then
    wait_pass Receivers IPC_ERR_EMPTY qa timeout_ms start_time timeout_ticks this live_sp st
  else
    let '(p, q, m) := recv_message msg (queue_at st qa) (mem st) in
    let st := set_queue qa q (with_mem m st) in
    if p <? 0 then Some (Returned IPC_ERR_EMPTY, st)
    else
      '(_, st) ← wake_one pol Senders qa st;
      Some (Returned IPC_OK, st).

(** One more round of a call. *)
Definition resume (pol : policy) (k : pending) (this live_sp : Z) (st : ipc) : option (outcome * ipc) :=
  match k with
  | Sending qa msg priority t start ticks => send_pass pol qa msg priority t start ticks this live_sp st
  | Receiving qa msg t start ticks => recv_pass pol qa msg t start ticks this live_sp st
  end.

(** The start time and the timeout of a call. *)
Definition deadline (timeout_ms : Z) (s : sys) : Z * Z :=
  if 0 <? timeout_ms then (timer_count s, ms_to_ticks (u32 timeout_ms) s) else (0, 0).

(** A call returns, or is left waiting with the rest of its work. *)
Definition begin (pol : policy) (k : pending) (this live_sp : Z) (st : ipc) : option (option pending * Z * ipc) :=
  '(o, st) ← resume pol k this live_sp st;
  Some (match o with Returned rc => (None, rc, st) | Waits => (Some k, 0, st) end).

Definition msg_send_priority (pol : policy) (qa msg priority timeout_ms this live_sp : Z) (st : ipc)
  : option (option pending * Z * ipc) :=
  if (qa =? 0) || (msg =? 0) then Some (None, IPC_ERR_INVALID, st)
  else
    let '(start, ticks) := deadline timeout_ms (base st) in
    begin pol (Sending qa msg (clamp_msg_priority priority) timeout_ms start ticks) this live_sp st.

Definition msg_send (pol : policy) (qa msg timeout_ms this live_sp : Z) (st : ipc) : option (option pending * Z * ipc) :=
  msg_send_priority pol qa msg MSG_PRIO_NORMAL timeout_ms this live_sp st.

Definition msg_recv (pol : policy) (qa msg timeout_ms this live_sp : Z) (st : ipc) : option (option pending * Z * ipc) :=
  if (qa =? 0) || (msg =? 0) then Some (None, IPC_ERR_INVALID, st)
  else
    let '(start, ticks) := deadline timeout_ms (base st) in
    begin pol (Receiving qa msg timeout_ms start ticks) this live_sp st.

(** ** Queries *)

Definition msg_queue_count (qa : Z) (st : ipc) : Z :=
  if qa =? 0 then 0 else total_count (queue_at st qa).

Fixpoint lookup_loop (n i : nat) (qid : Z) (st : ipc) : Z :=
  match n with
  | O => 0
  | S n =>
      let qa := nth i (queues st) 0 in
      if negb (qa =? 0) && (MsgRing.id (queue_at st qa) =? qid) then qa else lookup_loop n (S i) qid st
  end.

Definition msg_queue_lookup (qid : Z) (st : ipc) : Z := lookup_loop MSG_QUEUE_MAX 0 qid st.

(** The statistics a caller asks for. *)
Definition msg_queue_stats (qa : Z) (st : ipc) : option (Z * Z * Z) :=
  if qa =? 0 then None
  else let q := queue_at st qa in Some (msgs_sent q, msgs_recv q, high_water q).

Record ipc_stats := IpcStats { queue_count : Z; total_msgs_sent : Z; total_msgs_recv : Z }.

Fixpoint stats_loop (n i : nat) (st : ipc) (acc : ipc_stats) : ipc_stats :=
  match n with
  | O => acc
  | S n =>
      let qa := nth i (queues st) 0 in
      let acc := if qa =? 0 then acc
        else IpcStats (queue_count acc +32 1) (total_msgs_sent acc +64 msgs_sent (queue_at st qa))
               (total_msgs_recv acc +64 msgs_recv (queue_at st qa)) in
      stats_loop n (S i) st acc
  end.

(** The queue part of [ipc_get_stats]. *)
Definition ipc_get_stats (st : ipc) : ipc_stats := stats_loop MSG_QUEUE_MAX 0 st (IpcStats 0 0 0).

End MsgQueue.
