(* ===== verification/MsgSpec.v ===== *)
(** What the operations on message queues do, and the invariant they keep.

    The invariant ties each registered queue to its rings, its two wait queues and its two
    blocks of memory, inside the scheduler's invariant; the wait queues are stacks, so the
    last task to wait is woken first. *)

From S2P Require Import Prelude FreeList Buddy BuddyInv BuddyStep BuddySpec PmmSpec.
From S2P Require Import StealDeque Task Sys Sched TaskSleep RunQueue SchedInv Dispatch SchedCalls SchedSleep SchedSpec.
From S2P Require Import WaitQueue HeapBlocks MsgRing MsgQueue.

Open Scope Z_scope.
Open Scope slm_scope.

Module MsgSpec.
Import MsgRing Task Sys Sched RunQueue SchedInv Dispatch SchedCalls SchedSleep SchedSpec WaitQueue HeapBlocks MsgQueue.

(** What may change for a task that does not end: neither its stack nor that it lives. *)
Definition tame (s s' : sys) : Prop :=
  forall a, state (tasks s a) <> TASK_TERMINATED ->
    state (tasks s' a) <> TASK_TERMINATED /\ stack_base (tasks s' a) = stack_base (tasks s a).

#[export] Instance tame_preorder : PreOrder tame.
Proof.
  split; [by intros s a|]. intros s1 s2 s3 H1 H2 a Ha. destruct (H1 a Ha) as [Hb <-]. by apply H2.
Qed.

Lemma carried_tame (s s' : sys) : (forall a, state (tasks s a) <> TASK_TERMINATED -> carried (tasks s a) (tasks s' a)) -> tame s s'.
Proof.
  intros H a Ha. destruct (H a Ha) as ((_ & _ & Hst & _) & _ & -> & _). split; [|done]. intros E. rewrite E in Hst.
  by destruct (state (tasks s a)).
Qed.

(** The part of the state the scheduler does not see. *)
Definition rest (st : ipc) : memory * list Z * Z := (mem st, queues st, next_queue_id st).

Section msg.
Context (R : list (list Z)) (B : list (nat * Z)) (pol : policy) {Hpol : forall G : Ghost, PolicyOk (G := G) pol}.

(** The ghost state: the wait queues [W] and the blocks [bl] of the message queues, in
    front of those of other components. *)
Definition held (W : list (list Z)) (bl : list (nat * Z)) : Ghost := Ghosts (W ++ R) (bl ++ B).

Lemma sched_inv_perm W bl bl' s Q S :
  bl' ≡ₚ bl -> sched_inv (G := held W bl) s Q S -> sched_inv (G := held W bl') s Q S.
Proof.
  intros Hp [K Hl Ha]. constructor; [|done|done]. eapply (core_blocks_perm (held W bl)); [done|done|].
  unfold held. cbn [blocks]. by rewrite Hp.
Qed.

Lemma ghost_insert W bl k w :
  (k < length W)%nat -> Ghosts (<[k := w]> (waits (Ghost := held W bl))) (blocks (Ghost := held W bl)) = held (<[k := w]> W) bl.
Proof. intros Hi. unfold held. cbn [waits blocks]. by rewrite insert_app_l. Qed.

(** Giving up the CPU. *)
Lemma yield_spec W bl this sp s Q S :
  at_schedule (G := held W bl) s Q S this sp ->
  exists s' Q', yield (Z.of_nat this) sp s = Some s' /\ sched_inv (G := held W bl) s' Q' S /\ tame s s'.
Proof.
  intros A. destruct (schedule_spec (G := held W bl) this sp s Q S A) as (s' & _ & _ & Q' & E & I' & _ & _ & _ & Hc & _).
  exists s', Q'. split_and!; try done. apply carried_tame. auto.
Qed.

(** ** Waiting *)

Lemma enqueue_waiter W bl k w d qa this sp st Q S p :
  sched_inv (G := held W bl) (base st) Q S -> W !! k = Some w ->
  wait_queue d (queue_at st qa) = default 0 (hd_error w) -> runs (base st) this p -> sp_ok (tasks (base st) p) sp ->
  exists s', block_enqueue d qa (Z.of_nat this) st = Some (set_queue qa (set_wait_queue d p (queue_at st qa)) (with_base s' st)) /\
    at_schedule (G := held (<[k := p :: w]> W) bl) s' Q S this sp /\ tame (base st) s'.
Proof.
  intros I Hw Hhd (Hlt & Hc & Hp & Hrun & Hidle) Hsp. pose proof I as [K Hlen Haw].
  pose proof (k_cpus _ _ _ _ K) as Hcc. unfold MAX_CPUS in Hcc.
  assert (Hwr : waits (Ghost := held W bl) !! k = Some w) by (by apply lookup_app_l_Some).
  assert (Hpw : p ∉ waiters (G := held W bl)) by (rewrite <- Hc; by apply (awake_waiting (G := held W bl) S)).
  unfold block_enqueue. rewrite current_curs, Hc, (proj2 (Z.eqb_neq p 0)) by (lia || done).
  set (s' := upd p _ (upd p _ _)). exists s'. split; [done|].
  assert (Hpe : tasks s' p = set_state TASK_BLOCKED (set_next (default 0 (hd_error w)) (tasks (base st) p))).
  { unfold s'. rewrite !tasks_upd_eq. by rewrite Hhd. }
  assert (Hoth : forall a, a <> p -> tasks s' a = tasks (base st) a) by (intros a Ha; unfold s'; by rewrite !tasks_upd_ne).
  assert (K' : core (G := held (<[k := p :: w]> W) bl) s' Q S (curs s')).
  { rewrite <- ghost_insert by (by eapply lookup_lt_Some).
    eapply (core_wait (held W bl) k [] w (base st) s' Q S _ this p); try done; try (rewrite Hpe; done).
    - rewrite <- Hc. apply Haw.
    - intros a Ha. by rewrite Hoth.
    - intros a Ha. by rewrite Hoth.
    - rewrite Hpe. apply (core_tcb _ _ _ _ K p). }
  split.
  - constructor; try done.
    + intros c Hne. change (curs s' c) with (curs (base st) c). intros [Hin|Hin]%elem_of_app.
      * by apply (awake_asleep (G := held W bl) _ _ (Haw c)).
      * unfold waiters in Hin. cbn [waits held] in Hin.
        destruct (concat_split (W ++ R) k w) as (A & D & HW & HW'); [by apply lookup_app_l_Some|].
        rewrite <- insert_app_l, HW', !elem_of_app, elem_of_cons in Hin by (by eapply lookup_lt_Some).
        destruct (decide (curs (base st) c = p)) as [E|E].
        -- apply Hne. symmetry. apply (k_cur_inj _ _ _ _ K); congruence.
        -- apply (awake_waiting (G := held W bl) _ _ (Haw c)). unfold waiters. cbn [waits held]. rewrite HW, !elem_of_app. tauto.
    + change (curs s' this) with (curs (base st) this). rewrite Hc, Hpe. exact Hsp.
  - intros a Ha. destruct (decide (a = p)) as [->|Hne]; [by rewrite Hpe|by rewrite Hoth].
Qed.

Lemma block_spec W bl k w d qa this sp st Q S p :
  sched_inv (G := held W bl) (base st) Q S -> W !! k = Some w ->
  wait_queue d (queue_at st qa) = default 0 (hd_error w) -> runs (base st) this p -> sp_ok (tasks (base st) p) sp ->
  exists s' Q', block_on_queue d qa (Z.of_nat this) sp st = Some (set_queue qa (set_wait_queue d p (queue_at st qa)) (with_base s' st)) /\
    sched_inv (G := held (<[k := p :: w]> W) bl) s' Q' S /\ tame (base st) s'.
Proof.
  intros I Hw Hhd Hr Hsp. destruct (enqueue_waiter W bl k w d qa this sp st Q S p I Hw Hhd Hr Hsp) as (s1 & E & A & T1).
  destruct (yield_spec _ _ this sp s1 Q S A) as (s2 & Q2 & E2 & I2 & T2).
  unfold block_on_queue. rewrite E. unfold mbind, option_bind. cbn [base set_queue with_base]. rewrite E2.
  exists s2, Q2. split_and!; try done. by transitivity s1.
Qed.

(** ** Waking *)

Lemma wake_spec W bl k w d qa st Q S :
  sched_inv (G := held W bl) (base st) Q S -> W !! k = Some w ->
  wait_queue d (queue_at st qa) = default 0 (hd_error w) ->
  exists s' Q', wake_one pol d qa st = Some (default 0 (hd_error w),
      if decide (w = []) then st else set_queue qa (set_wait_queue d (default 0 (hd_error (list.tail w))) (queue_at st qa)) (with_base s' st)) /\
    (w = [] -> s' = base st) /\
    sched_inv (G := held (<[k := list.tail w]> W) bl) s' Q' S /\ tame (base st) s' /\
    (forall p, hd_error w = Some p -> state (tasks s' p) = TASK_READY).
Proof.
  intros I Hw Hhd. pose proof I as [K Hlen Haw]. unfold wake_one. rewrite Hhd. destruct w as [|p w].
  { exists (base st), Q. rewrite decide_True by done. split_and!; try done. cbn. by rewrite list_insert_id. }
  assert (Hwr : waits (Ghost := held W bl) !! k = Some ([] ++ p :: w)) by (by apply lookup_app_l_Some).
  destruct (wait_queue_facts (held W bl) _ _ _ _ k (p :: w) K Hwr) as (Hch & Hnd & _ & Hin).
  destruct (Hin p) as (Hpw & Hpt & _); [by left|]. pose proof (in_table_nonzero p Hpt) as Hp0.
  change (default 0 (hd_error (p :: w))) with p. rewrite (proj2 (Z.eqb_neq p 0)) by done. cbn [base set_queue].
  set (s1 := upd p _ (upd p _ _)).
  assert (Hnx : next (tasks (base st) p) = default 0 (hd_error w)).
  { cbn [chain] in Hch. destruct Hch as (_ & _ & Hch). by apply chain_head in Hch. }
  assert (Hpe : tasks s1 p = set_state TASK_READY (set_next 0 (tasks (base st) p))) by (unfold s1; by rewrite !tasks_upd_eq).
  assert (Hoth : forall a, a <> p -> tasks s1 a = tasks (base st) a) by (intros a Ha; unfold s1; by rewrite !tasks_upd_ne).
  destruct (core_unwait (held W bl) k [] w (base st) s1 Q S (curs (base st)) p K Hwr) as [K1 F1];
    try done; try (by rewrite Hpe).
  { intros c Hc. apply (awake_waiting (G := held W bl) _ _ (Haw c)). by rewrite Hc. }
  { intros a Ha. by rewrite Hoth. }
  { intros a Ha. by rewrite Hoth. }
  { rewrite Hpe. apply (core_tcb _ _ _ _ K p). }
  rewrite ghost_insert in K1, F1 by (by eapply lookup_lt_Some). cbn [app] in K1, F1.
  destruct (add_task_spec (G := held (<[k := w]> W) bl) pol s1 Q S _ p K1 F1) as (s2 & c & Q2 & E & K2 & P); [by rewrite Hpe|].
  rewrite E. unfold mbind, option_bind. exists s2, Q2. cbn [list.tail]. rewrite Hnx. split; [done|]. split; [done|].
  assert (He : env s2 = env (base st)) by (by rewrite (pl_env _ _ _ _ _ _ P)).
  split; [|split].
  - assert (Hct : current_task s2 = current_task (base st)) by (unfold env in He; congruence).
    assert (Hcs : forall c, curs s2 c = curs (base st) c) by (intros d0; unfold curs; by rewrite Hct).
    constructor; [by eapply (core_cur_ext (G := held (<[k := w]> W) bl))|by rewrite Hct|].
    intros e. rewrite Hcs. intros [Hi|Hi]%elem_of_app; [by apply (awake_asleep (G := held W bl) _ _ (Haw e))|].
    apply (awake_waiting (G := held W bl) _ _ (Haw e)). unfold waiters in *. cbn [waits held] in *.
    destruct (concat_split (W ++ R) k (p :: w)) as (A & D & HW & HW'); [by apply lookup_app_l_Some|].
    rewrite <- insert_app_l, HW' in Hi by (by eapply lookup_lt_Some). rewrite HW, !elem_of_app, elem_of_cons in *. tauto.
  - intros a Ha. destruct (placed_kept _ _ _ _ _ _ P ltac:(by rewrite Hpe) a) as (_ & -> & _ & -> & _).
    destruct (decide (a = p)) as [->|Hne]; [by rewrite Hpe|by rewrite Hoth].
  - intros p' [= <-]. destruct (placed_kept _ _ _ _ _ _ P ltac:(by rewrite Hpe) p) as (_ & -> & _). by rewrite Hpe.
Qed.

(** ** Memory *)

Lemma inv_heap W bl bl' s h Q S :
  sched_inv (G := held W bl) s Q S -> core (G := held W bl') (with_heap h s) Q S (curs s) ->
  sched_inv (G := held W bl') (with_heap h s) Q S.
Proof. intros [_ Hlen Haw] K. constructor; done. Qed.

Lemma inv_alloc W bl s Q S n :
  sched_inv (G := held W bl) s Q S -> 0 < n <= 2 ^ 63 ->
  exists p h', Buddy.pmm_alloc_pages n (heap s) = Some (p, h') /\
    (p = 0 /\ h' = heap s \/
     p <> 0 /\ (BuddySpec.order_for n <= FreeList.MAX_ORDER)%nat /\ BuddySpec.allocated (heap s) h' (BuddySpec.order_for n) p /\
     sched_inv (G := held W ((BuddySpec.order_for n, p) :: bl)) (with_heap h' s) Q S).
Proof.
  intros I Hn. pose proof I as [K _ _]. pose proof (stk_inv _ _ _ (k_stacks _ _ _ _ K)) as Hinv.
  destruct (PmmSpec.alloc_pages_spec n (heap s) Hinv Hn) as (p & h' & E & Hinv' & [(Hp & Ho & Ha)|(-> & -> & _)]).
  - exists p, h'. split; [done|]. right. split_and!; try done. eapply inv_heap; [done|]. by apply (core_take (held W bl)).
  - exists 0, (heap s). split; [done|]. by left.
Qed.

Lemma inv_free W bl bl' s Q S a n :
  sched_inv (G := held W bl) s Q S -> bl ≡ₚ (BuddySpec.order_for n, a) :: bl' ->
  0 < n <= 2 ^ 63 -> (BuddySpec.order_for n <= FreeList.MAX_ORDER)%nat ->
  exists h', Buddy.pmm_free_pages a n (heap s) = Some h' /\ sched_inv (G := held W bl') (with_heap h' s) Q S.
Proof.
  intros I Hb Hn Ho. pose proof I as [K _ _].
  destruct (core_give (held W bl) s a n (bl' ++ B) Q S (curs s) K) as (h' & E & K'); try done.
  { unfold held. cbn [blocks]. by rewrite Hb. }
  exists h'. split; [done|]. by eapply inv_heap.
Qed.

(** Two blocks of the list do not overlap, and none overlaps a stack. *)
Lemma blocks_disjoint W bl s Q S b c l x :
  sched_inv (G := held W bl) s Q S -> bl ≡ₚ b :: c :: l -> BuddyInv.in_block b.2 b.1 x -> ~ BuddyInv.in_block c.2 c.1 x.
Proof.
  intros I Hp Hb Hc. apply (sched_inv_perm _ _ (b :: c :: l)) in I; [|by symmetry]. destruct I as [K _ _].
  assert (E : 0%nat = 1%nat) by (by apply (stk_sep _ _ _ (k_stacks _ _ _ _ K) 0%nat 1%nat b c x)). done.
Qed.

Lemma block_off_stack W bl s Q S b p x :
  sched_inv (G := held W bl) s Q S -> b ∈ bl -> in_table p -> stack_base (tasks s p) <> 0 ->
  BuddyInv.in_block (stack_base (tasks s p)) STACK_ORDER x -> ~ BuddyInv.in_block b.2 b.1 x.
Proof.
  intros [K _ _] Hb Hp Hs. apply (stk_clear _ _ _ (k_stacks _ _ _ _ K) p b.1 b.2 x); try done.
  rewrite <- surjective_pairing. apply elem_of_app. by left.
Qed.

Lemma block_allocated W bl s Q S b :
  sched_inv (G := held W bl) s Q S -> b ∈ bl -> BuddySpec.is_allocated (heap s) b.1 b.2.
Proof.
  intros [K _ _] Hb. apply (stk_blocks _ _ _ (k_stacks _ _ _ _ K)). rewrite <- surjective_pairing. apply elem_of_app. by left.
Qed.

Lemma heap_bounds W bl s Q S :
  sched_inv (G := held W bl) s Q S -> 0 < Buddy.heap_start (heap s) /\ Buddy.heap_end (heap s) <= 2 ^ 63.
Proof.
  intros [K _ _]. destruct (stk_inv _ _ _ (k_stacks _ _ _ _ K)) as (_ & (L & Hb) & _).
  pose proof (BuddyInv.b_geom _ _ _ Hb) as Hg. split; [apply (BuddyInv.g_pos _ Hg)|apply (BuddyInv.g_top _ Hg)].
Qed.

(** ** The table *)

Definition buffer_pages (q : msg_queue) : Z := pages_for (u64 (total_capacity q * msg_size q)).

(** A queue owns the page of its structure and its buffer. *)
Definition queue_blocks (q : msg_queue) (qa : Z) : list (nat * Z) :=
  [(BuddySpec.order_for 1, qa); (BuddySpec.order_for (buffer_pages q), buffer q)].

Definition live (l : list Z) : list Z := filter (fun a => a <> 0) l.

Definition table_blocks (st : ipc) : list (nat * Z) :=
  live (queues st) ≫= (fun qa => queue_blocks (queue_at st qa) qa).

(** The wait queues of slot [i] of the table. *)
Definition windex (i : nat) (d : side) : nat := match d with Senders => 2 * i | Receivers => 2 * i + 1 end.

Record queue_ok (st : ipc) (W : list (list Z)) (i : nat) (qa : Z) (L : messages) : Prop := {
  q_ring : ring_ok (queue_at st qa) (mem st) L;
  q_wait : forall d, exists w, W !! windex i d = Some w /\ wait_queue d (queue_at st qa) = default 0 (hd_error w);
  q_pages : 0 < buffer_pages (queue_at st qa) <= 2 ^ 63 /\
    (BuddySpec.order_for (buffer_pages (queue_at st qa)) <= FreeList.MAX_ORDER)%nat;
  q_room : buffer_size (queue_at st qa) <= BuddyInv.bsize (BuddySpec.order_for (buffer_pages (queue_at st qa)))
}.

Record table_ok (st : ipc) (W : list (list Z)) (L : Z -> messages) : Prop := {
  t_len : length (queues st) = MSG_QUEUE_MAX;
  t_wlen : length W = (2 * MSG_QUEUE_MAX)%nat;
  t_inj : forall i j qa, queues st !! i = Some qa -> queues st !! j = Some qa -> qa <> 0 -> i = j;
  t_live : forall i qa, queues st !! i = Some qa -> qa <> 0 -> queue_ok st W i qa (L qa);
  t_dead : forall i d, queues st !! i = Some 0 -> W !! windex i d = Some []
}.

Definition msg_inv (st : ipc) (W : list (list Z)) (L : Z -> messages) (Q : nat -> list Z) (S : list Z) : Prop :=
  sched_inv (G := held W (table_blocks st)) (base st) Q S /\ table_ok st W L.

Lemma live_insert l i qa : l !! i = Some 0 -> qa <> 0 -> live (<[i := qa]> l) ≡ₚ qa :: live l.
Proof.
  intros Hi Hq. pose proof (lookup_lt_Some _ _ _ Hi). unfold live. rewrite insert_take_drop by done.
  rewrite <- (take_drop_middle l i 0 Hi) at 3. rewrite !filter_app, !filter_cons, decide_True, decide_False by (done || tauto).
  by rewrite Permutation_middle.
Qed.

Lemma live_remove l i qa : l !! i = Some qa -> qa <> 0 -> live l ≡ₚ qa :: live (<[i := 0]> l).
Proof.
  intros Hi Hq. pose proof (lookup_lt_Some _ _ _ Hi). rewrite <- (live_insert _ i qa) by (done || by apply list_lookup_insert_eq).
  by rewrite list_insert_insert_eq, list_insert_id.
Qed.

Lemma blocks_of_live st i qa :
  queues st !! i = Some qa -> qa <> 0 ->
  table_blocks st ≡ₚ queue_blocks (queue_at st qa) qa ++ table_blocks (with_table (<[i := 0]> (queues st)) (next_queue_id st) st).
Proof. intros Hi Hq. unfold table_blocks at 1. rewrite (live_remove _ i qa) by done. done. Qed.

Lemma blocks_of_two st i j qa qb :
  queues st !! i = Some qa -> queues st !! j = Some qb -> qa <> 0 -> qb <> 0 -> i <> j ->
  exists l, table_blocks st ≡ₚ queue_blocks (queue_at st qa) qa ++ queue_blocks (queue_at st qb) qb ++ l.
Proof.
  intros Hi Hj Ha Hb Hne. set (st1 := with_table (<[i := 0]> (queues st)) (next_queue_id st) st).
  exists (table_blocks (with_table (<[j := 0]> (queues st1)) (next_queue_id st1) st1)). rewrite (blocks_of_live st i qa) by done. fold st1.
  rewrite (blocks_of_live st1 j qb); [done| |done]. cbn. by rewrite list_lookup_insert_ne.
Qed.

(** The buffers of two queues do not overlap. *)
Lemma buffers_apart st W L Q S i j qa qb :
  msg_inv st W L Q S -> queues st !! i = Some qa -> queues st !! j = Some qb -> qa <> 0 -> qb <> 0 -> i <> j ->
  let q := queue_at st qa in let q' := queue_at st qb in apart (buffer q) (buffer_size q) (buffer q') (buffer_size q').
Proof.
  intros [I T] Hi Hj Ha Hb Hne q q'. destruct (blocks_of_two st i j qa qb Hi Hj Ha Hb Hne) as [l Hl].
  destruct (t_live _ _ _ T i qa Hi Ha) as [Ra _ _ Qa]. destruct (t_live _ _ _ T j qb Hj Hb) as [Rb _ _ Qb].
  fold q in Ra, Qa, Hl. fold q' in Rb, Qb, Hl. unfold queue_blocks in Hl. cbn [app] in Hl.
  set (x := Z.max (buffer q) (buffer q')).
  assert (Hp : table_blocks st ≡ₚ (BuddySpec.order_for (buffer_pages q), buffer q) :: (BuddySpec.order_for (buffer_pages q'), buffer q') ::
    (BuddySpec.order_for 1, qa) :: (BuddySpec.order_for 1, qb) :: l) by (rewrite Hl; solve_Permutation).
  pose proof (blocks_disjoint _ _ _ _ _ _ _ _ x I Hp) as Hd. unfold BuddyInv.in_block in Hd. cbn [fst snd] in Hd.
  unfold apart. destruct (decide (buffer q + buffer_size q <= buffer q')); [by left|]. right.
  destruct (decide (buffer q' + buffer_size q' <= buffer q)); [done|]. exfalso.
  pose proof (BuddyInv.bsize_pos (BuddySpec.order_for (buffer_pages q))). pose proof (BuddyInv.bsize_pos (BuddySpec.order_for (buffer_pages q'))).
  subst x. apply Hd; lia.
Qed.

(** [n] bytes at [a] in the stack of task [p]. *)
Definition own_stack (s : sys) (p a n : Z) : Prop :=
  in_table p /\ stack_base (tasks s p) <> 0 /\ stack_base (tasks s p) <= a /\ 0 <= n /\ a + n <= stack_base (tasks s p) + STACK_SIZE.

Lemma stack_apart st W L Q S i qa p a :
  msg_inv st W L Q S -> queues st !! i = Some qa -> qa <> 0 ->
  let q := queue_at st qa in own_stack (base st) p a (msg_size q) ->
  forall j qb, queues st !! j = Some qb -> qb <> 0 -> let q' := queue_at st qb in
  region a (msg_size q) /\ apart a (msg_size q) (buffer q') (buffer_size q').
Proof.
  intros [I T] Hi Ha q (Hp & Hs & Hlo & Hn & Hhi) j qb Hj Hb q'.
  destruct (t_live _ _ _ T j qb Hj Hb) as [Rb _ _ Qb]. fold q' in Rb, Qb.
  pose proof (r_size _ _ _ (q_ring _ _ _ _ _ (t_live _ _ _ T i qa Hi Ha))) as Hsz. fold q in Hsz. pose proof (heap_bounds _ _ _ _ _ I) as [H0 H1].
  assert (Hal : BuddySpec.is_allocated (heap (base st)) STACK_ORDER (stack_base (tasks (base st) p))).
  { pose proof I as [K _ _]. by apply (stk_held _ _ _ (k_stacks _ _ _ _ K)). }
  destruct Hal as (_ & A1 & A2 & _). change (BuddyInv.bsize STACK_ORDER) with STACK_SIZE in A2. split; [unfold region; lia|].
  assert (Hin : (BuddySpec.order_for (buffer_pages q'), buffer q') ∈ table_blocks st).
  { rewrite (blocks_of_live st j qb) by done. right. left. }
  set (x := Z.max a (buffer q')). pose proof (block_off_stack _ _ _ _ _ _ p x I Hin Hp Hs) as Hd.
  unfold BuddyInv.in_block in Hd. change (BuddyInv.bsize STACK_ORDER) with STACK_SIZE in Hd. cbn [fst snd] in Hd.
  unfold apart. destruct (decide (a + msg_size q <= buffer q')); [by left|]. right.
  destruct (decide (buffer q' + buffer_size q' <= a)); [done|]. exfalso.
  pose proof (BuddyInv.bsize_pos (BuddySpec.order_for (buffer_pages q'))). subst x. apply Hd; lia.
Qed.

(** ** Changing one queue *)

Lemma windex_inj i d j e : windex i d = windex j e -> i = j /\ d = e.
Proof. unfold windex. destruct d, e; intros; split; try done; lia. Qed.

Lemma windex_lt st W L i qa d : table_ok st W L -> queues st !! i = Some qa -> (windex i d < length W)%nat.
Proof.
  intros T Hi. apply lookup_lt_Some in Hi. rewrite (t_len _ _ _ T) in Hi. rewrite (t_wlen _ _ _ T). unfold windex. destruct d; lia.
Qed.

(** The wait queues are no part of the rings. *)
Lemma ring_waiters d v q m L : ring_ok q m L -> ring_ok (set_wait_queue d v q) m L.
Proof. intros R0. constructor; try apply R0. intros p Hp. eapply level_ok_ext; [..|by apply R0]; done. Qed.

Definition extent (q : msg_queue) : Z * Z * Z * Z := (capacity q, total_capacity q, msg_size q, buffer q).

(** The registered queues keep their place and size. *)
Definition same_extents (st st' : ipc) : Prop := forall b, b ∈ queues st -> extent (queue_at st' b) = extent (queue_at st b).

Lemma shape_extent q q' : shape q' = shape q -> extent q' = extent q /\ forall d, wait_queue d q' = wait_queue d q.
Proof. unfold shape, extent. intros [= ? -> -> -> -> E1 E2]. split; [done|]. by intros []. Qed.

Lemma extent_blocks q q' qa : extent q' = extent q -> queue_blocks q' qa = queue_blocks q qa /\ buffer_size q' = buffer_size q /\ buffer_pages q' = buffer_pages q.
Proof. unfold extent, queue_blocks, buffer_pages, buffer_size. intros [= -> -> -> ->]. done. Qed.

(** Queue [qa] in slot [i] has become [q'], its wait queue [d] has become [w]; the others
    keep their rings. *)
Lemma table_update st st' W L i qa q' d w l :
  table_ok st W L -> queues st !! i = Some qa -> qa <> 0 -> queues st' = queues st ->
  queue_at st' qa = q' -> (forall b, b <> qa -> queue_at st' b = queue_at st b) ->
  extent q' = extent (queue_at st qa) -> ring_ok q' (mem st') l ->
  (forall j qb, queues st !! j = Some qb -> qb <> 0 -> j <> i -> ring_ok (queue_at st qb) (mem st') (L qb)) ->
  wait_queue d q' = default 0 (hd_error w) -> (forall e, e <> d -> wait_queue e q' = wait_queue e (queue_at st qa)) ->
  table_ok st' (<[windex i d := w]> W) (<[qa := l]> L) /\ table_blocks st' = table_blocks st.
Proof.
  intros T Hi Hq Hqs Hq' Hoth Hex Hr Hrs Hw Hws. pose proof (extent_blocks _ _ qa Hex) as (Hb & Hsz & Hpg).
  pose proof (windex_lt st W L i qa d T Hi) as Hlt.
  assert (Hsame : forall j e, j <> i -> <[windex i d := w]> W !! windex j e = W !! windex j e).
  { intros j e Hj. apply list_lookup_insert_ne. intros E. apply windex_inj in E as [E _]. done. }
  split.
  - constructor; rewrite ?Hqs, ?length_insert; try apply T.
    + intros j qb Hj Hqb. destruct (decide (j = i)) as [->|Hji].
      * rewrite Hi in Hj. injection Hj as <-. rewrite fn_lookup_insert. destruct (t_live _ _ _ T i qa Hi Hq) as [_ Hwt Hp Hro].
        constructor; rewrite ?Hq', ?Hpg, ?Hsz; try done. intros e. destruct (decide (e = d)) as [->|Hed].
        -- exists w. split; [by apply list_lookup_insert_eq|done].
        -- destruct (Hwt e) as (v & Hv & Hve). exists v. rewrite Hws by done. split; [|done].
           rewrite list_lookup_insert_ne; [done|]. intros E. apply windex_inj in E as [_ E]. congruence.
      * assert (Hne : qb <> qa) by (intros ->; by apply Hji, (t_inj _ _ _ T j i qa)).
        rewrite fn_lookup_insert_ne by done. destruct (t_live _ _ _ T j qb Hj Hqb) as [_ Hwt Hp Hro].
        constructor; rewrite ?Hoth by done; try done; [by apply (Hrs j)|]. intros e. rewrite Hsame by done. apply Hwt.
    + intros j e Hj. rewrite Hsame; [by apply (t_dead _ _ _ T)|]. intros ->. congruence.
  - unfold table_blocks. rewrite Hqs. apply list_bind_ext; [|done]. intros b. destruct (decide (b = qa)) as [->|Hne]; [by rewrite Hq'|by rewrite Hoth].
Qed.

Lemma table_ext st W L L' : (forall a, L' a = L a) -> table_ok st W L -> table_ok st W L'.
Proof. intros HL []. constructor; try done. intros i qa Hi Hq. rewrite HL. auto. Qed.

Lemma table_base st s W L : table_ok st W L -> table_ok (with_base s st) W L.
Proof. intros []. constructor; try done. intros i qa Hi Hq. by destruct (t_live0 i qa Hi Hq). Qed.

(** ** The rounds of the loops *)

(** A caller that may not go on: it returns an error, or joins the wait queue, or yields. *)
Lemma wait_pass_spec st W L Q S i qa d err t start ticks this sp p w :
  msg_inv st W L Q S -> queues st !! i = Some qa -> qa <> 0 -> W !! windex i d = Some w ->
  runs (base st) this p -> sp_ok (tasks (base st) p) sp ->
  exists o st', wait_pass d err qa t start ticks (Z.of_nat this) sp st = Some (o, st') /\
    ((exists rc, o = Returned rc /\ rc ∈ [err; IPC_ERR_TIMEOUT]) /\ 0 <= t /\ st' = st \/
     o = Waits /\ t <> MSG_NO_WAIT /\ queues st' = queues st /\ same_extents st st' /\ tame (base st) (base st') /\
     exists Q', msg_inv st' (if t <? 0 then <[windex i d := p :: w]> W else W) L Q' S).
Proof.
  intros [I T] Hi Hq Hw Hr Hsp. unfold wait_pass. destruct (Z.eqb_spec t MSG_NO_WAIT) as [->|Ht0].
  { exists (Returned err), st. split; [done|]. left. split; [|done]. exists err. split; [done|]. by left. }
  destruct ((0 <? t) && timeout_expired start ticks (base st)) eqn:Hto.
  { exists (Returned IPC_ERR_TIMEOUT), st. split; [done|]. left.
    apply andb_true_iff in Hto as [Ht _]. apply Z.ltb_lt in Ht. split; [|split; [lia|done]]. eexists. split; [done|]. right. by left. }
  destruct (q_wait _ _ _ _ _ (t_live _ _ _ T i qa Hi Hq) d) as (w' & Hw' & Hhd). rewrite Hw in Hw'. injection Hw' as <-.
  destruct (t <? 0) eqn:Ht.
  - destruct (block_spec W _ (windex i d) w d qa this sp st Q S p I Hw Hhd Hr Hsp) as (s' & Q' & E & I' & T').
    rewrite E. unfold mbind, option_bind. eexists Waits, _. split; [done|]. right.
    split_and!; try done; [intros b _; cbn; rewrite fn_lookup_insert_Z; case_decide; subst; done|]. exists Q'.
    set (q' := set_wait_queue d p (queue_at st qa)).
    destruct (table_update st (set_queue qa q' (with_base s' st)) W L i qa q' d (p :: w) (L qa)) as [T1 HB]; try done.
    + cbn. by rewrite fn_lookup_insert.
    + intros b Hb. cbn. by rewrite fn_lookup_insert_ne.
    + by apply ring_waiters, (t_live _ _ _ T i qa Hi Hq).
    + intros j qb Hj Hqb _. apply (t_live _ _ _ T j qb Hj Hqb).
    + by destruct d.
    + intros e He. by destruct d, e.
    + split; [by rewrite HB|]. eapply table_ext; [|exact T1]. intros a. rewrite fn_lookup_insert_Z. by case_decide; subst.
  - destruct Hr as (Hlt & Hc & _). rewrite <- Hc in Hsp.
    destruct (yield_spec W _ this sp (base st) Q S (at_schedule_of (G := held W _) _ _ _ _ _ I Hlt Hsp)) as (s' & Q' & E & I' & T').
    rewrite E. unfold mbind, option_bind. eexists Waits, _. split; [done|]. right. split_and!; try done. exists Q'. split; [done|].
    by apply table_base.
Qed.

(** Putting the result of a copy into the table and waking the other side. *)
Lemma finish_spec st W L Q S i qa d w q' m' l :
  msg_inv st W L Q S -> queues st !! i = Some qa -> qa <> 0 -> W !! windex i d = Some w ->
  shape q' = shape (queue_at st qa) -> ring_ok q' m' l ->
  (forall j qb, queues st !! j = Some qb -> qb <> 0 -> j <> i -> ring_ok (queue_at st qb) m' (L qb)) ->
  exists st' Q', wake_one pol d qa (set_queue qa q' (with_mem m' st)) = Some (default 0 (hd_error w), st') /\
    msg_inv st' (<[windex i d := list.tail w]> W) (<[qa := l]> L) Q' S /\ queues st' = queues st /\ mem st' = m' /\ same_extents st st' /\ tame (base st) (base st') /\
    (forall p, hd_error w = Some p -> state (tasks (base st') p) = TASK_READY).
Proof.
  intros [I T] Hi Hq Hw Hsh Hr Hrs. destruct (shape_extent _ _ Hsh) as [Hex Hwt].
  destruct (q_wait _ _ _ _ _ (t_live _ _ _ T i qa Hi Hq) d) as (w' & Hw' & Hhd). rewrite Hw in Hw'. injection Hw' as <-.
  set (st1 := set_queue qa q' (with_mem m' st)).
  assert (Hq1 : queue_at st1 qa = q') by (cbn; by rewrite fn_lookup_insert).
  assert (Hoth : forall b, b <> qa -> queue_at st1 b = queue_at st b) by (intros b Hb; cbn; by rewrite fn_lookup_insert_ne).
  destruct (wake_spec W (table_blocks st) (windex i d) w d qa st1 Q S I Hw) as (s' & Q' & E & Hbase & I' & T' & Hrd).
  { rewrite Hq1. by rewrite Hwt. }
  rewrite E. set (st' := if decide (w = []) then st1 else _). exists st', Q'. split; [done|].
  assert (Hst' : base st' = s' /\ queues st' = queues st /\ mem st' = m' /\
    queue_at st' qa = (if decide (w = []) then q' else set_wait_queue d (default 0 (hd_error (list.tail w))) q') /\
    (forall b, b <> qa -> queue_at st' b = queue_at st b)).
  { unfold st'. destruct (decide (w = [])) as [->|Hne]; [by rewrite Hbase|]. split_and!; try done.
    - cbn [queue_at set_queue]. by rewrite fn_lookup_insert, Hq1.
    - intros b Hb. cbn [queue_at set_queue with_base]. rewrite fn_lookup_insert_ne by done. by apply Hoth. }
  destruct Hst' as (Hb & Hqs & Hm & Hqa & Hqb).
  destruct (table_update st st' W L i qa _ d (list.tail w) l T Hi Hq Hqs Hqa Hqb) as [T1 HB].
  - destruct (decide _); [done|]. by destruct d.
  - rewrite Hm. destruct (decide _); [done|]. by apply ring_waiters.
  - rewrite Hm. done.
  - destruct (decide (w = [])) as [->|Hne]; [|by destruct d]. by rewrite Hwt, Hhd.
  - intros e He. rewrite <- Hwt. destruct (decide _); [done|]. by destruct d, e.
  - split; [split; [by rewrite HB, Hb|done]|]. rewrite Hb. split_and!; try done. intros b _. destruct (decide (b = qa)) as [->|Hbq]; [|by rewrite Hqb].
    rewrite Hqa. destruct (decide _); [done|]. by destruct d.
Qed.

Lemma send_ok_spec st W L Q S i qa w msg prio t start ticks this sp p :
  msg_inv st W L Q S -> queues st !! i = Some qa -> qa <> 0 -> W !! windex i Receivers = Some w ->
  let q := queue_at st qa in
  level_of prio -> level_full prio q = false -> own_stack (base st) p msg (msg_size q) ->
  exists st' Q', send_pass pol qa msg prio t start ticks this sp st = Some (Returned IPC_OK, st') /\
    msg_inv st' (<[windex i Receivers := list.tail w]> W) (<[qa := queue_message prio (bytes (mem st) msg (msg_size q)) (L qa)]> L) Q' S /\
    queues st' = queues st /\ same_extents st st' /\ tame (base st) (base st') /\
    (forall a, hd_error w = Some a -> state (tasks (base st') a) = TASK_READY).
Proof.
  intros M Hi Hq Hw q Hp Hf Hown. pose proof M as [I T]. destruct (t_live _ _ _ T i qa Hi Hq) as [Rq _ _ _]. fold q in Rq.
  destruct (stack_apart st W L Q S i qa p msg M Hi Hq Hown i qa Hi Hq) as [Hreg Hap]. fold q in Hreg, Hap.
  pose proof (send_spec q (mem st) (L qa) prio msg Rq Hp Hf Hreg Hap) as Hs. unfold send_pass. fold q. rewrite Hf.
  destruct (send_message prio msg q (mem st)) as [q' m']. destruct Hs as (Rq' & Hsh & Hm).
  destruct (finish_spec st W L Q S i qa Receivers w q' m' _ M Hi Hq Hw Hsh Rq') as (st' & Q' & E & M' & Hqs & Hmm & Hx' & Ht & Hrd).
  { intros j qb Hj Hqb Hji. eapply ring_frame; [|apply (t_live _ _ _ T j qb Hj Hqb)]. intros a Ha. apply Hm.
    pose proof (buffers_apart st W L Q S i j qa qb M Hi Hj Hq Hqb ltac:(done)) as Hba. fold q in Hba. unfold apart in Hba. lia. }
  rewrite E. exists st', Q'. split_and!; done.
Qed.

Lemma recv_ok_spec st W L Q S i qa w msg t start ticks this sp p :
  msg_inv st W L Q S -> queues st !! i = Some qa -> qa <> 0 -> W !! windex i Senders = Some w ->
  let q := queue_at st qa in
  depth (L qa) <> 0 -> own_stack (base st) p msg (msg_size q) ->
  exists st' Q' pr x l, recv_pass pol qa msg t start ticks this sp st = Some (Returned IPC_OK, st') /\
    served (high_prio_recv_count q) (L qa) pr /\ L qa pr = x :: l /\ bytes (mem st') msg (msg_size q) = x /\
    msg_inv st' (<[windex i Senders := list.tail w]> W) (<[qa := take_message pr (L qa)]> L) Q' S /\
    queues st' = queues st /\ same_extents st st' /\ tame (base st) (base st') /\
    (forall a, hd_error w = Some a -> state (tasks (base st') a) = TASK_READY).
Proof.
  intros M Hi Hq Hw q Hd Hown. pose proof M as [I T]. destruct (t_live _ _ _ T i qa Hi Hq) as [Rq _ _ _]. fold q in Rq.
  pose proof (stack_apart st W L Q S i qa p msg M Hi Hq Hown) as Hap. fold q in Hap. destruct (Hap i qa Hi Hq) as [Hreg Hap0]. fold q in Hap0.
  destruct (recv_spec q (mem st) (L qa) msg Rq Hd Hreg Hap0) as (pr & x & l & q' & m' & E & Hsv & Hl & Rq' & Hx & _ & Hsh & Hm).
  unfold recv_pass. fold q. rewrite (r_total _ _ _ Rq), (proj2 (Z.eqb_neq _ 0)), E by done.
  assert (Hp0 : pr <? 0 = false) by (apply Z.ltb_ge; destruct Hsv as ([H0 _] & _); exact H0). rewrite Hp0.
  destruct (finish_spec st W L Q S i qa Senders w q' m' _ M Hi Hq Hw Hsh Rq') as (st' & Q' & E' & M' & Hqs & Hmm & Hx' & Ht & Hrd).
  { intros j qb Hj Hqb Hji. eapply ring_frame; [|apply (t_live _ _ _ T j qb Hj Hqb)]. intros a Ha. apply Hm.
    destruct (Hap j qb Hj Hqb) as [_ Hba]. unfold apart in Hba. lia. }
  rewrite E'. exists st', Q', pr, x, l. split; [done|]. split; [done|]. split; [done|]. rewrite Hmm. split_and!; done.
Qed.

(** ** Creation *)

Lemma pages_for_spec n :
  0 < n < 2 ^ 64 -> pages_for n = 0 \/ 0 < pages_for n <= 2 ^ 52 /\ n <= pages_for n * Buddy.PAGE_SIZE.
Proof.
  intros Hn. unfold pages_for, Buddy.PAGE_SIZE. destruct (decide (n + 4096 < 2 ^ 64)) as [Hs|Hs].
  - right. rewrite (u64_small (n + 4096)), u64_small by (unfold is_u64; lia).
    pose proof (Z.div_mod (n + 4096 - 1) 4096 ltac:(lia)). pose proof (Z.mod_pos_bound (n + 4096 - 1) 4096 ltac:(lia)). lia.
  - destruct (decide (n + 4096 = 2 ^ 64)) as [Hz|Hz]; [right; assert (n = 2 ^ 64 - 4096) as -> by lia; vm_compute; split_and!; congruence|].
    left. assert (E : u64 (n + 4096) = n + 4096 - 2 ^ 64) by (symmetry; apply (Z.mod_unique _ _ 1); lia).
    rewrite E, u64_small by (unfold is_u64; lia). apply Z.div_small. lia.
Qed.

Lemma block_pages n : 0 < n -> n * Buddy.PAGE_SIZE <= BuddyInv.bsize (BuddySpec.order_for n).
Proof.
  intros Hn. pose proof (BuddySpec.order_for_pow2 n Hn). unfold BuddyInv.bsize, Buddy.PAGE_SIZE.
  rewrite Z.pow_add_r by lia. change (2 ^ 12) with 4096. lia.
Qed.

Lemma free_slot_spec n i l :
  match free_slot n i l with
  | Some k => (i <= k < i + n)%nat /\ nth k l 0 = 0
  | None => forall k, (i <= k < i + n)%nat -> nth k l 0 <> 0
  end.
Proof.
  revert i. induction n as [|n IH]; intros i; cbn [free_slot]; [intros; lia|].
  destruct (Z.eqb_spec (nth i l 0) 0) as [E|E]; [split; [lia|done]|]. specialize (IH (S i)).
  destruct (free_slot n (S i) l) as [k|]; [destruct IH; split; [lia|done]|].
  intros k Hk. destruct (decide (k = i)) as [->|]; [done|]. apply IH. lia.
Qed.

(** A structure and memory outside the table. *)
Lemma table_aside st W L s m' qa q0 :
  table_ok st W L -> qa <> 0 -> qa ∉ queues st ->
  (forall j qb a, queues st !! j = Some qb -> qb <> 0 -> buffer (queue_at st qb) <= a < buffer (queue_at st qb) + buffer_size (queue_at st qb) -> m' a = mem st a) ->
  table_ok (set_queue qa q0 (with_mem m' (with_base s st))) W L /\
  table_blocks (set_queue qa q0 (with_mem m' (with_base s st))) = table_blocks st.
Proof.
  intros T Hq Hn Hm. set (st' := set_queue _ _ _).
  assert (Hqs : forall j qb, queues st !! j = Some qb -> queue_at st' qb = queue_at st qb).
  { intros j qb Hj. cbn. rewrite fn_lookup_insert_ne; [done|]. intros ->. apply Hn. by eapply list_elem_of_lookup_2. }
  split.
  - destruct T. constructor; try done. intros j qb Hj Hb. destruct (t_live0 j qb Hj Hb).
    pose proof (Hqs j qb Hj) as E. constructor; rewrite ?E; try done. eapply ring_frame; [|done]. intros a Ha. by eapply Hm.
  - unfold table_blocks. cbn [queues st' set_queue with_mem with_base]. unfold live.
    apply Forall_bind_ext, Forall_forall. intros b [_ Hb]%list_elem_of_filter. apply list_elem_of_lookup in Hb as [j Hj].
    by rewrite <- (Hqs j b Hj).
Qed.

(** Entering a fresh queue in an empty slot. *)
Lemma table_enter st W L i qa q n :
  table_ok st W L -> qa <> 0 -> qa ∉ queues st -> queues st !! i = Some 0 ->
  ring_ok q (mem st) (fun _ => []) -> (forall d, wait_queue d q = 0) ->
  0 < buffer_pages q <= 2 ^ 63 -> (BuddySpec.order_for (buffer_pages q) <= FreeList.MAX_ORDER)%nat ->
  buffer_size q <= BuddyInv.bsize (BuddySpec.order_for (buffer_pages q)) ->
  let st' := with_table (<[i := qa]> (queues st)) n (set_queue qa q st) in
  table_ok st' W (<[qa := fun _ => []]> L) /\ table_blocks st' ≡ₚ queue_blocks q qa ++ table_blocks st.
Proof.
  intros T Hq Hn Hi Hr Hw Hpg Ho Hro st'. pose proof (lookup_lt_Some _ _ _ Hi) as Hlt.
  assert (Hqa : queue_at st' qa = q) by (cbn; by rewrite fn_lookup_insert).
  assert (Hqs : forall j qb, queues st !! j = Some qb -> qb <> qa /\ queue_at st' qb = queue_at st qb).
  { intros j qb Hj. assert (qb <> qa) by (intros ->; apply Hn; by eapply list_elem_of_lookup_2).
    cbn. by rewrite fn_lookup_insert_ne. }
  assert (Hlk : forall j qb, queues st' !! j = Some qb -> j = i /\ qb = qa \/ j <> i /\ queues st !! j = Some qb).
  { intros j qb Hj. cbn in Hj. destruct (decide (j = i)) as [->|Hji].
    - rewrite list_lookup_insert_eq in Hj by done. left. by injection Hj.
    - rewrite list_lookup_insert_ne in Hj by done. by right. }
  split.
  - constructor; try apply T.
    + cbn. rewrite length_insert. apply T.
    + intros j k b Hj Hk Hb. apply Hlk in Hj as [[-> ->]|[Hj Hj']], Hk as [[-> Hk]|[Hk Hk']]; try done.
      * by destruct (Hqs _ _ Hk') as [? _].
      * destruct (Hqs _ _ Hj') as [Hx _]. congruence.
      * by apply (t_inj _ _ _ T j k b).
    + intros j qb Hj Hb. apply Hlk in Hj as [[-> ->]|[Hj Hj']].
      * rewrite fn_lookup_insert. constructor; rewrite ?Hqa; try done. intros d. exists []. rewrite Hw. split; [|done]. by apply (t_dead _ _ _ T).
      * destruct (Hqs _ _ Hj') as [Hne E]. rewrite fn_lookup_insert_ne by done. destruct (t_live _ _ _ T j qb Hj' Hb).
        constructor; rewrite ?E; done.
    + intros j d Hj. apply Hlk in Hj as [[_ <-]|[_ Hj]]; [done|by apply (t_dead _ _ _ T)].
  - unfold table_blocks. cbn [queues st' with_table set_queue]. rewrite (live_insert _ i qa) by done. cbn [mbind list_bind].
    rewrite Hqa. apply Permutation_app; [done|]. rewrite (Forall_bind_ext _ (fun b => queue_blocks (queue_at st b) b)); [done|]. apply Forall_forall.
    intros b [_ Hb]%list_elem_of_filter. apply list_elem_of_lookup in Hb as [j Hj]. by rewrite (proj2 (Hqs j b Hj)).
Qed.

Definition message_size (size : Z) : Z := if size =? 0 then MSG_SIZE_DEFAULT else size.

(** How a creation ends. *)
Definition create_result (st : ipc) (W : list (list Z)) (L : Z -> messages) (Q : nat -> list Z) (S : list Z)
    (cap size qa : Z) (st' : ipc) : Prop :=
  (exists h, base st' = with_heap h (base st)) /\ same_extents st st' /\
  (qa = 0 /\ queues st' = queues st /\ msg_inv st' W L Q S \/
   qa <> 0 /\ qa ∉ queues st /\ exists i buf, queues st !! i = Some 0 /\ queues st' = <[i := qa]> (queues st) /\
     queue_at st' qa = init_queue (next_queue_id st) (message_size size) cap (MSG_PRIO_COUNT * cap) buf /\
     msg_inv st' W (<[qa := fun _ => []]> L) Q S).

Lemma page_order : BuddySpec.order_for 1 = 0%nat.
Proof. reflexivity. Qed.

Lemma order_pages n : 0 < n -> (BuddySpec.order_for n <= FreeList.MAX_ORDER)%nat -> n <= 2 ^ 19.
Proof.
  intros Hn Ho. pose proof (BuddySpec.order_for_pow2 n Hn). etransitivity; [done|]. apply Z.pow_le_mono_r; [lia|].
  unfold FreeList.MAX_ORDER in Ho. lia.
Qed.

(** A block that was free is no registered queue. *)
Lemma fresh_queue st W L Q S o h qa :
  msg_inv st W L Q S -> BuddySpec.allocated (heap (base st)) h o qa -> qa <> 0 -> qa ∉ queues st.
Proof.
  intros [I T] (_ & _ & _ & Hfr & _) Hq Hin. apply list_elem_of_lookup in Hin as [i Hi].
  assert (Hb : (BuddySpec.order_for 1, qa) ∈ table_blocks st) by (rewrite (blocks_of_live st i qa) by done; left).
  destruct (block_allocated _ _ _ _ _ _ I Hb) as (_ & _ & _ & Hnf). cbn [fst snd] in Hnf.
  pose proof (BuddyInv.bsize_pos o). pose proof (BuddyInv.bsize_pos (BuddySpec.order_for 1)).
  apply (Hnf qa); [|apply Hfr]; unfold BuddyInv.in_block; lia.
Qed.

(** Clearing the buffer of a queue that is not registered yet. *)
Lemma clear_spec st W L Q S qa buf n q0 h :
  let o := BuddySpec.order_for n in
  msg_inv st W L Q S -> qa <> 0 -> qa ∉ queues st ->
  sched_inv (G := held W ((o, buf) :: (BuddySpec.order_for 1, qa) :: table_blocks st)) (with_heap h (base st)) Q S ->
  0 < n -> (o <= FreeList.MAX_ORDER)%nat ->
  let st1 := set_queue qa q0 (with_mem (ipc_memset (Z.to_nat (u64 (n * Buddy.PAGE_SIZE))) buf 0 (mem st)) (with_pages h st)) in
  table_ok st1 W L /\ table_blocks st1 = table_blocks st /\ 0 < buf /\ buf + n * Buddy.PAGE_SIZE <= 2 ^ 63.
Proof.
  intros o [I T] Hq Hnin I2 Hn0 Ho st1. pose proof (order_pages n Hn0 Ho) as Hnp.
  pose proof (block_pages n Hn0) as Hbs. fold o in Hbs.
  assert (Hal : BuddySpec.is_allocated h o buf) by (apply (block_allocated _ _ _ _ _ (o, buf) I2); left).
  destruct Hal as (_ & Hlo & Hhi & _). pose proof (heap_bounds _ _ _ _ _ I2) as [Hs He]. cbn [heap with_heap] in Hs, He.
  assert (Hr : 0 < buf /\ buf + n * Buddy.PAGE_SIZE <= 2 ^ 63) by lia.
  unfold Buddy.PAGE_SIZE in *. unfold st1. rewrite (u64_small (n * 4096)) by (unfold is_u64; lia). set (m' := ipc_memset _ _ _ _).
  destruct (table_aside st W L (with_heap h (base st)) m' qa q0 T Hq Hnin) as [T1 HB]; [|done].
  intros j qb a Hj Hqb Ha. destruct (t_live _ _ _ T j qb Hj Hqb) as [_ _ _ Hro].
  pose proof (blocks_of_live st j qb Hj Hqb) as HP. unfold queue_blocks in HP. cbn [app] in HP. set (rs := table_blocks (with_table _ _ _)) in HP.
  assert (Hno : ~ BuddyInv.in_block buf o a).
  { intros Hin. apply (blocks_disjoint _ _ _ _ _ (o, buf) (BuddySpec.order_for (buffer_pages (queue_at st qb)), buffer (queue_at st qb))
      ((BuddySpec.order_for 1, qa) :: (BuddySpec.order_for 1, qb) :: rs) a I2); [rewrite HP; solve_Permutation|done|].
    unfold BuddyInv.in_block. cbn [fst snd]. lia. }
  unfold m'. rewrite memset_at by (unfold region; lia). rewrite decide_False; [done|]. unfold BuddyInv.in_block in Hno. lia.
Qed.

(** The last part of [msg_queue_create]: both blocks are there. *)
Lemma register_spec st W L Q S qa buf n size cap h :
  let o := BuddySpec.order_for n in
  msg_inv st W L Q S -> qa <> 0 -> qa ∉ queues st ->
  sched_inv (G := held W ((o, buf) :: (BuddySpec.order_for 1, qa) :: table_blocks st)) (with_heap h (base st)) Q S ->
  0 < cap <= MSG_QUEUE_MAX_CAPACITY -> 0 < message_size size -> MSG_PRIO_COUNT * cap * message_size size <= SIZE_MAX ->
  n = pages_for (MSG_PRIO_COUNT * cap * message_size size) -> 0 < n -> (o <= FreeList.MAX_ORDER)%nat ->
  exists qa' st',
    register_queue qa n (set_queue qa (init_queue 0 (message_size size) cap (MSG_PRIO_COUNT * cap) buf)
      (with_mem (ipc_memset (Z.to_nat (u64 (n * Buddy.PAGE_SIZE))) buf 0 (mem st)) (with_pages h st))) = Some (qa', st') /\
    create_result st W L Q S cap size qa' st'.
Proof.
  intros o M Hq Hnin I2 Hcap Hsz Hmax Hn Hn0 Ho. set (sz := message_size size) in *. set (q0 := init_queue 0 sz cap _ buf).
  destruct (clear_spec st W L Q S qa buf n q0 h M Hq Hnin I2 Hn0 Ho) as (T1 & HB & Hb0 & Hb1). set (st1 := set_queue qa q0 _) in *.
  pose proof (block_pages n Hn0) as Hbs. fold o in Hbs. unfold SIZE_MAX, MSG_QUEUE_MAX_CAPACITY, MSG_PRIO_COUNT in *.
  destruct (pages_for_spec (4 * cap * sz)) as [Hz|[_ Hpg]]; [nia|lia|]. rewrite <- Hn in Hpg.
  pose proof (order_pages n Hn0 Ho). assert (0 <= 4 * cap * sz) by nia. unfold register_queue. cbn [queues].
  assert (Hq0 : queue_at st1 qa = q0) by (cbn; by rewrite fn_lookup_insert). rewrite Hq0.
  pose proof (free_slot_spec MSG_QUEUE_MAX 0 (queues st1)) as Hfs. destruct (free_slot MSG_QUEUE_MAX 0 (queues st1)) as [i|].
  - destruct Hfs as [Hi Hnth]. assert (Hi0 : queues st !! i = Some 0).
    { destruct M as [_ T]. destruct (lookup_lt_is_Some_2 (queues st) i) as [x Hx]; [rewrite (t_len _ _ _ T); lia|].
      change (queues st1) with (queues st) in Hnth. rewrite (nth_lookup_Some _ _ _ _ Hx) in Hnth. by subst. }
    set (q := init_queue (next_queue_id st1) (msg_size q0) (capacity q0) (total_capacity q0) (buffer q0)).
    assert (Hbp : buffer_pages q = n).
    { unfold buffer_pages. cbn [total_capacity msg_size q q0 init_queue]. rewrite u64_small by (unfold is_u64; lia). by symmetry. }
    destruct (table_enter st1 W L i qa q (next_queue_id st1 +32 1) T1 Hq Hnin Hi0) as [T2 HB2]; rewrite ?Hbp; try done.
    + unfold q. cbn [msg_size capacity buffer total_capacity q0 init_queue]. apply init_ring; [lia|done|].
      unfold region, MSG_PRIO_COUNT, Buddy.PAGE_SIZE in *. lia.
    + by intros [].
    + lia.
    + change (buffer_size q) with (4 * cap * sz). fold o. lia.
    + eexists qa, _. split; [done|]. split; [by exists h|].
      split; [intros b Hb; cbn; rewrite !fn_lookup_insert_ne by (by intros ->); done|]. right. split; [done|]. split; [done|]. exists i, buf.
      split; [done|]. split; [done|]. split; [cbn [queue_at with_table set_queue]; rewrite fn_lookup_insert; done|]. split; [|done].
      eapply sched_inv_perm; [|exact I2]. rewrite HB2, HB. unfold queue_blocks. rewrite Hbp. fold o. cbn. solve_Permutation.
  - destruct (inv_free W _ _ _ Q S buf n I2 ltac:(done) ltac:(lia) Ho) as (h1 & E1 & I3). cbn [heap with_heap] in E1.
    change (heap (base st1)) with h. change (buffer q0) with buf. rewrite E1. unfold mbind, option_bind.
    destruct (inv_free W _ _ _ Q S qa 1 I3 ltac:(done) ltac:(lia)) as (h2 & E2 & I4); [rewrite page_order; unfold FreeList.MAX_ORDER; lia|].
    cbn [heap with_heap] in E2. unfold Buddy.pmm_free_page. rewrite E2. eexists 0, _. split; [done|]. split; [by exists h2|].
    split; [intros b Hb; cbn; rewrite !fn_lookup_insert_ne by (by intros ->); done|]. left.
    split; [done|]. split; [done|]. split; [|apply table_base, T1].
    change (table_blocks (with_pages h2 st1)) with (table_blocks st1). by rewrite HB.
Qed.

Lemma alloc_none n s W bl Q S :
  sched_inv (G := held W bl) s Q S -> 0 <= n <= 2 ^ 52 ->
  exists p h', Buddy.pmm_alloc_pages n (heap s) = Some (p, h') /\
    (p = 0 /\ h' = heap s \/
     p <> 0 /\ 0 < n /\ (BuddySpec.order_for n <= FreeList.MAX_ORDER)%nat /\
     sched_inv (G := held W ((BuddySpec.order_for n, p) :: bl)) (with_heap h' s) Q S).
Proof.
  intros I Hn. destruct (decide (n = 0)) as [->|Hn0].
  - exists 0, (heap s). split; [|by left]. unfold Buddy.pmm_alloc_pages. by destruct (negb _).
  - destruct (inv_alloc W bl s Q S n I ltac:(lia)) as (p & h' & E & [?|(? & ? & _ & ?)]); exists p, h'; (split; [done|]); [by left|].
    right. split_and!; try done. lia.
Qed.

Lemma create_spec st W L Q S cap size :
  msg_inv st W L Q S -> is_u64 cap -> is_u64 size ->
  exists qa st', msg_queue_create cap size st = Some (qa, st') /\ create_result st W L Q S cap size qa st'.
Proof.
  intros M Hc Hs. pose proof M as [I T]. unfold msg_queue_create. fold (message_size size).
  assert (Hfail : forall h, h = heap (base st) -> create_result st W L Q S cap size 0 (with_pages h st)).
  { intros h ->. split; [by eexists|]. split; [done|]. left. split; [done|]. split; [done|]. unfold with_pages.
    replace (with_heap (heap (base st)) (base st)) with (base st) by (by destruct (base st)). by destruct st. }
  assert (Hsame : create_result st W L Q S cap size 0 st).
  { split; [exists (heap (base st)); by destruct (base st)|]. split; [done|]. by left. }
  destruct ((cap =? 0) || (MSG_QUEUE_MAX_CAPACITY <? cap)) eqn:Hcap; [by exists 0, st|].
  apply orb_false_iff in Hcap as [Hc0 Hcm]. apply Z.eqb_neq in Hc0. apply Z.ltb_ge in Hcm.
  unfold is_u64, MSG_QUEUE_MAX_CAPACITY in *. assert (Hsz : 0 < message_size size < 2 ^ 64).
  { unfold message_size, MSG_SIZE_DEFAULT. destruct (Z.eqb_spec size 0); lia. }
  rewrite (u64_small (cap * MSG_PRIO_COUNT)) by (unfold is_u64, MSG_PRIO_COUNT; lia). rewrite (Z.mul_comm cap).
  destruct (SIZE_MAX / (MSG_PRIO_COUNT * cap) <? message_size size) eqn:Hov; [by exists 0, st|]. apply Z.ltb_ge in Hov.
  assert (Hmax : 0 < MSG_PRIO_COUNT * cap * message_size size <= SIZE_MAX).
  { unfold MSG_PRIO_COUNT in *. pose proof (Z.mul_div_le SIZE_MAX (4 * cap) ltac:(lia)) as Hd. split; [apply Z.mul_pos_pos; lia|].
    etransitivity; [|exact Hd]. apply Z.mul_le_mono_nonneg_l; lia. }
  rewrite (u64_small (_ * message_size size)) by (unfold is_u64, SIZE_MAX in *; lia). set (n := pages_for _).
  assert (Hn : 0 <= n <= 2 ^ 52) by (destruct (pages_for_spec (MSG_PRIO_COUNT * cap * message_size size)) as [E|[? _]]; [unfold SIZE_MAX in *; lia|unfold n; rewrite E; lia|unfold n; lia]).
  destruct (inv_alloc W _ (base st) Q S 1 I ltac:(lia)) as (qa & h1 & E1 & Ha1). unfold Buddy.pmm_alloc_page. rewrite E1.
  cbn [mbind option_bind]. destruct Ha1 as [[-> ->]|(Hq & _ & Hal & I1)]; [cbn; eexists 0, _; split; [done|by apply Hfail]|].
  rewrite (proj2 (Z.eqb_neq qa 0)) by done. change (heap (base (with_pages h1 st))) with (heap (with_heap h1 (base st))).
  destruct (alloc_none n (with_heap h1 (base st)) W _ Q S I1 Hn) as (buf & h2 & E2 & Ha2). rewrite E2.
  cbn [mbind option_bind]. destruct Ha2 as [[-> ->]|(Hb & Hn0 & Ho & I2)].
  - cbn [Z.eqb]. destruct (inv_free W _ _ _ Q S qa 1 I1 ltac:(done) ltac:(lia)) as (h3 & E3 & I3);
      [rewrite page_order; unfold FreeList.MAX_ORDER; lia|].
    cbn [heap with_heap base with_pages with_base] in E3 |- *. unfold Buddy.pmm_free_page. rewrite E3.
    eexists 0, _. split; [done|]. split; [by exists h3|]. split; [done|]. left. split; [done|]. split; [done|]. split; [exact I3|exact (table_base st _ W L T)].
  - rewrite (proj2 (Z.eqb_neq buf 0)) by done.
    apply (register_spec st W L Q S qa buf n size cap h2); try done; [by eapply fresh_queue|unfold MSG_QUEUE_MAX_CAPACITY; lia|lia|lia].
Qed.

(** ** Destruction *)

Lemma unregister_spec n k qa l i :
  (k <= i < k + n)%nat -> l !! i = Some qa -> (forall j, (k <= j < i)%nat -> nth j l 0 <> qa) ->
  remove_queue n k qa l = <[i := 0]> l.
Proof.
  revert k. induction n as [|n IH]; intros k Hk Hi Hfirst; [lia|]. cbn [remove_queue].
  destruct (decide (k = i)) as [->|Hne]; [by rewrite (nth_lookup_Some _ _ _ _ Hi), Z.eqb_refl|].
  rewrite (proj2 (Z.eqb_neq _ _)) by (apply Hfirst; lia). apply IH; [lia|done|]. intros j Hj. apply Hfirst. lia.
Qed.

Lemma destroy_spec st W L Q S i qa :
  msg_inv st W L Q S -> queues st !! i = Some qa -> qa <> 0 ->
  exists rc st', msg_queue_destroy qa st = Some (rc, st') /\ (exists h, base st' = with_heap h (base st)) /\ same_extents st st' /\
    ((exists d w, W !! windex i d = Some w /\ w <> []) /\ rc = IPC_ERR_BUSY /\ st' = st \/
     (forall d, W !! windex i d = Some []) /\ rc = IPC_OK /\ queues st' = <[i := 0]> (queues st) /\ msg_inv st' W L Q S).
Proof.
  intros [I T] Hi Hq. destruct (t_live _ _ _ T i qa Hi Hq) as [Rq Hw [Hpg Ho] _].
  destruct (Hw Senders) as (ws & Hws & Es). destruct (Hw Receivers) as (wr & Hwr & Er). cbn [wait_queue] in Es, Er.
  unfold msg_queue_destroy. rewrite (proj2 (Z.eqb_neq qa 0)), Es, Er by done.
  assert (Hhead : forall d w, W !! windex i d = Some w -> default 0 (hd_error w) = 0 <-> w = []).
  { intros d w Hdw. destruct w as [|a w]; [done|]. split; [|done]. cbn. intros ->.
    pose proof I as [K _ _]. destruct (wait_queue_facts (held W (table_blocks st)) _ _ _ _ (windex i d) (0 :: w) K) as (_ & _ & _ & Hin);
      [by apply lookup_app_l_Some|]. destruct (Hin 0) as (_ & [? _] & _); [by left|]. lia. }
  destruct (negb _ || negb _) eqn:Hbusy.
  { exists IPC_ERR_BUSY, st. split; [done|]. split; [exists (heap (base st)); by destruct (base st)|]. split; [done|]. left. split; [|done].
    apply orb_true_iff in Hbusy as [H|H]; apply negb_true_iff, Z.eqb_neq in H; rewrite Hhead in H by done; eauto. }
  apply orb_false_iff in Hbusy as [H1 H2]. apply negb_false_iff, Z.eqb_eq in H1, H2.
  apply (Hhead _ _ Hws) in H1 as ->. apply (Hhead _ _ Hwr) in H2 as ->.
  pose proof (lookup_lt_Some _ _ _ Hi) as Hlt. rewrite (t_len _ _ _ T) in Hlt.
  rewrite (unregister_spec MSG_QUEUE_MAX 0 qa (queues st) i); [|lia|done|].
  2:{ intros j Hj E. destruct (lookup_lt_is_Some_2 (queues st) j) as [x Hx]; [rewrite (t_len _ _ _ T); lia|].
      rewrite (nth_lookup_Some _ _ _ _ Hx) in E. subst x. pose proof (t_inj _ _ _ T j i qa Hx Hi Hq). lia. }
  set (st1 := with_table _ _ st). pose proof (blocks_of_live st i qa Hi Hq) as HB. fold st1 in HB.
  unfold queue_blocks in HB. cbn [app] in HB.
  destruct (inv_free W _ ((BuddySpec.order_for 1, qa) :: table_blocks st1) _ Q S (buffer (queue_at st qa)) _ I ltac:(rewrite HB; solve_Permutation) Hpg Ho)
    as (h1 & E1 & I1). unfold buffer_pages in E1. change (heap (base st1)) with (heap (base st)). rewrite E1. unfold mbind, option_bind.
  destruct (inv_free W _ _ _ Q S qa 1 I1 ltac:(done) ltac:(lia)) as (h2 & E2 & I2); [rewrite page_order; unfold FreeList.MAX_ORDER; lia|].
  cbn [heap with_heap] in E2. unfold Buddy.pmm_free_page. rewrite E2. eexists IPC_OK, _. split; [done|]. split; [by exists h2|]. split; [done|].
  right. split; [by intros []|]. split; [done|]. split; [done|]. split; [exact I2|]. apply table_base.
  assert (Hlk : forall j b, queues st1 !! j = Some b -> j = i /\ b = 0 \/ j <> i /\ queues st !! j = Some b).
  { intros j b Hj. cbn in Hj. apply list_lookup_insert_Some in Hj as [(<- & <- & _)|[? ?]]; [by left|]. right. split; [congruence|done]. }
  destruct T. constructor; try done.
  - cbn. by rewrite length_insert.
  - intros j k b Hj Hk Hb. apply Hlk in Hj as [[_ ?]|[? ?]], Hk as [[_ ?]|[? ?]]; try done. by apply (t_inj0 j k b).
  - intros j b Hj Hb. apply Hlk in Hj as [[_ ?]|[? Hj]]; [done|]. by destruct (t_live0 j b Hj Hb).
  - intros j d Hj. apply Hlk in Hj as [[-> _]|[? ?]]; [by destruct d|auto].
Qed.

End msg.

End MsgSpec.
