(* ===== verification/MsgSessions.v ===== *)
(** What message queues promise to the tasks that use them.

    A session is a sequence of calls from any CPUs; a call that waits is resumed when its
    task runs again.  Sessions run to their end, the queues stay well-formed, and no
    receiver is left asleep next to a message nobody else has been woken for. *)

From S2P Require Import Prelude FreeList Buddy BuddyInv BuddyStep BuddySpec PmmSpec.
From S2P Require Import StealDeque Task Sys Sched TaskSleep Heuristic RunQueue SchedInv Dispatch SchedCalls SchedSleep.
From S2P Require Import TaskLife SchedBoot SchedSpec SchedPick WaitQueue HeapBlocks MsgRing MsgQueue MsgSpec.

Open Scope Z_scope.
Open Scope slm_scope.

Module MsgSessions.
Import MsgRing Task Sys Sched RunQueue SchedInv Dispatch SchedCalls SchedSleep SchedSpec WaitQueue HeapBlocks MsgQueue MsgSpec.

(** ** Calls in progress *)

Definition call_queue (k : pending) : Z := match k with Sending qa _ _ _ _ _ => qa | Receiving qa _ _ _ _ => qa end.
Definition call_msg (k : pending) : Z := match k with Sending _ m _ _ _ _ => m | Receiving _ m _ _ _ => m end.
Definition call_timeout (k : pending) : Z := match k with Sending _ _ _ t _ _ => t | Receiving _ _ t _ _ => t end.
Definition call_side (k : pending) : side := match k with Sending _ _ _ _ _ _ => Senders | Receiving _ _ _ _ _ => Receivers end.
Definition call_level (k : pending) : Z := match k with Sending _ _ p _ _ _ => p | Receiving _ _ _ _ _ => 0 end.

(** The kernel with the calls its tasks are in the middle of. *)
Record box := Box { ipcs : ipc; calls : Z -> option pending }.

(** The receive calls on [qa] without a timeout. *)
Definition receiving (qa : Z) (o : option pending) : bool :=
  match o with Some (Receiving qa' _ t _ _) => (qa' =? qa) && (t <? 0) | _ => false end.

Definition receivers (cs : Z -> option pending) (qa : Z) : Z :=
  Z.of_nat (length (filter (fun p => receiving qa (cs p) = true) (seqZ 1 MAX_TASKS))).

Lemma count_update (l : list Z) (p : Z) (f g : Z -> bool) :
  NoDup l -> p ∈ l -> (forall x, x <> p -> g x = f x) ->
  Z.of_nat (length (filter (fun x => g x = true) l)) =
  Z.of_nat (length (filter (fun x => f x = true) l)) - Z.b2z (f p) + Z.b2z (g p).
Proof.
  intros Hnd Hp Hfg. apply elem_of_Permutation in Hp as [l' Hl]. rewrite Hl in Hnd. apply NoDup_cons in Hnd as [Hp Hnd].
  rewrite Hl, !filter_cons.
  assert (E : filter (fun x => g x = true) l' = filter (fun x => f x = true) l').
  { clear Hnd Hl. induction l' as [|x l' IH]; [done|]. apply not_elem_of_cons in Hp as [Hx Hp]. rewrite !filter_cons, Hfg, IH by done. done. }
  rewrite E. destruct (g p), (f p); repeat case_decide; try done; simpl; lia.
Qed.

Lemma receivers_ext cs cs' qa : (forall a, cs' a = cs a) -> receivers cs' qa = receivers cs qa.
Proof.
  intros E. unfold receivers. do 2 f_equal. induction (seqZ 1 MAX_TASKS) as [|a l IH]; [done|]. by rewrite !filter_cons, E, IH.
Qed.

Lemma receivers_insert cs qa p o :
  in_table p -> receivers (<[p := o]> cs) qa = receivers cs qa - Z.b2z (receiving qa (cs p)) + Z.b2z (receiving qa o).
Proof.
  intros [H1 H2]. unfold receivers. rewrite (count_update _ p (fun p => receiving qa (cs p))).
  - by rewrite fn_lookup_insert.
  - apply NoDup_seqZ.
  - apply elem_of_seqZ. lia.
  - intros x Hx. by rewrite fn_lookup_insert_ne.
Qed.

Lemma receivers_ge cs qa w :
  NoDup w -> (forall p, p ∈ w -> in_table p /\ receiving qa (cs p) = true) -> Z.of_nat (length w) <= receivers cs qa.
Proof.
  intros Hnd Hw. unfold receivers. apply inj_le. apply NoDup_incl_length; [by apply NoDup_ListNoDup|].
  intros p Hp%list_elem_of_In. destruct (Hw p Hp) as [[H1 H2] Hr]. apply list_elem_of_In, list_elem_of_filter.
  split; [done|]. apply elem_of_seqZ. lia.
Qed.

(** ** The invariant *)

Definition call_ok (st : ipc) (p : Z) (k : pending) : Prop :=
  let qa := call_queue k in
  state (tasks (base st) p) <> TASK_TERMINATED /\ qa ∈ queues st /\ qa <> 0 /\
  own_stack (base st) p (call_msg k) (msg_size (queue_at st qa)) /\ level_of (call_level k).

Record calls_ok (b : box) (W : list (list Z)) (L : Z -> messages) : Prop := {
  c_call : forall p k, calls b p = Some k -> call_ok (ipcs b) p k;
  c_wait : forall i qa d w p, queues (ipcs b) !! i = Some qa -> qa <> 0 -> W !! windex i d = Some w -> p ∈ w ->
    exists k, calls b p = Some k /\ call_queue k = qa /\ call_side k = d /\ call_timeout k < 0;
  c_wake : forall i qa w, queues (ipcs b) !! i = Some qa -> qa <> 0 -> W !! windex i Receivers = Some w -> w <> [] ->
    depth (L qa) + Z.of_nat (length w) <= receivers (calls b) qa
}.

Section sessions.
Context (R : list (list Z)) (B : list (nat * Z)) (pol : policy) {Hpol : forall G : Ghost, PolicyOk (G := G) pol}.

#[local] Notation held := (MsgSpec.held R B).
#[local] Notation msg_inv := (MsgSpec.msg_inv R B).

Lemma call_ok_frame st st' p k :
  (forall qa, qa ∈ queues st -> qa = call_queue k -> qa ∈ queues st') -> same_extents st st' -> tame (base st) (base st') ->
  call_ok st p k -> call_ok st' p k.
Proof.
  intros Hq He Ht (Hst & Hin & Hne & Hown & Hl). destruct (Ht p Hst) as [Hst' Hb].
  assert (E : msg_size (queue_at st' (call_queue k)) = msg_size (queue_at st (call_queue k))).
  { specialize (He _ Hin). unfold extent in He. congruence. }
  split_and!; try done; [by apply Hq|]. unfold own_stack in *. by rewrite E, Hb.
Qed.

(** Task [p], which waits for nothing, replaces its call and may join a wait queue. *)
Lemma runs_no_waiter W bl s Q S this p :
  sched_inv (G := held W bl) s Q S -> runs s this p -> in_table p /\ forall k w, W !! k = Some w -> p ∉ w.
Proof.
  intros [K Hlen Haw] (Hlt & Hc & Hp & _). destruct (k_cur _ _ _ _ K this) as (Htab & _); [congruence|]. rewrite Hc in Htab.
  split; [done|]. intros k w Hw Hin. apply (awake_waiting (G := held W bl) _ _ (Haw this)). rewrite Hc.
  eapply (waiters_in (G := held W bl)); [|done]. apply elem_of_app. left. by eapply list_elem_of_lookup_2.
Qed.

Lemma wait_lookup (k k' : nat) (w' : list Z) (W : list (list Z)) w : <[k := w']> W !! k' = Some w -> k' = k /\ w = w' \/ k' <> k /\ W !! k' = Some w.
Proof. intros H. apply list_lookup_insert_Some in H as [(<- & <- & _)|[? ?]]; [by left|]. right. split; [congruence|done]. Qed.

(** A task leaves its call without waiting. *)
Lemma calls_leave st st' cs W W' L L' p :
  calls_ok (Box st cs) W L -> in_table p -> (forall k w, W !! k = Some w -> p ∉ w) ->
  queues st' = queues st -> same_extents st st' -> tame (base st) (base st') ->
  (forall k w, W' !! k = Some w -> exists w0, W !! k = Some w0 /\ (w = w0 \/ w = list.tail w0)) ->
  (forall i qa w, queues st !! i = Some qa -> qa <> 0 -> W' !! windex i Receivers = Some w -> w <> [] ->
     depth (L' qa) + Z.of_nat (length w) <= receivers cs qa - Z.b2z (receiving qa (cs p))) ->
  calls_ok (Box st' (<[p := None]> cs)) W' L'.
Proof.
  intros [C1 C2 C3] Hp Hnw Hqs Hex Ht HW Hwk. constructor; cbn [ipcs calls] in *; rewrite ?Hqs.
  - intros a k Ha. destruct (decide (a = p)) as [->|Hne]; [by rewrite fn_lookup_insert in Ha|].
    rewrite fn_lookup_insert_ne in Ha by done. eapply call_ok_frame; [|done|done|by apply C1]. by rewrite Hqs.
  - intros i qa d w a Hi Hq Hw Ha. destruct (HW _ _ Hw) as (w0 & Hw0 & Hcase).
    assert (Ha0 : a ∈ w0) by (destruct Hcase as [-> | ->]; [done|]; destruct w0; [done|]; by right).
    rewrite fn_lookup_insert_ne; [by eapply C2|]. intros ->. by eapply Hnw.
  - intros i qa w Hi Hq Hw Hne. rewrite receivers_insert by done. specialize (Hwk i qa w Hi Hq Hw Hne). cbn [receiving Z.b2z]. lia.
Qed.

(** A task stays in its call [k], and if [k] has no timeout joins the wait queue. *)
Lemma calls_stay st st' cs W L i k w p :
  calls_ok (Box st cs) W L -> in_table p -> (forall k w, W !! k = Some w -> p ∉ w) -> cs p = None \/ cs p = Some k ->
  queues st' = queues st -> same_extents st st' -> tame (base st) (base st') -> call_ok st p k ->
  queues st !! i = Some (call_queue k) -> W !! windex i (call_side k) = Some w ->
  (forall j, queues st !! j = Some (call_queue k) -> j = i) ->
  (forall a, a ∈ w -> in_table a) -> NoDup w -> (call_side k = Receivers -> depth (L (call_queue k)) = 0) ->
  calls_ok (Box st' (<[p := Some k]> cs)) (if call_timeout k <? 0 then <[windex i (call_side k) := p :: w]> W else W) L.
Proof.
  intros [C1 C2 C3] Hp Hnw Hcs Hqs Hex Ht Hk Hi Hw Huniq Htab Hnd Hd. set (qa := call_queue k) in *. cbn [ipcs calls] in *.
  assert (Hrec : forall qb, receiving qb (Some k) = true <-> qb = qa /\ call_side k = Receivers /\ call_timeout k < 0).
  { intros qb. unfold qa. destruct k as [|qc m t start ticks]; cbn; [split; [done|by intros (_ & ? & _)]|].
    rewrite andb_true_iff, Z.eqb_eq, Z.ltb_lt. intuition congruence. }
  assert (Hge : forall qb, receivers cs qb <= receivers (<[p := Some k]> cs) qb).
  { intros qb. rewrite receivers_insert by done. destruct Hcs as [-> | ->]; [|lia].
    change (receiving qb None) with false. destruct (receiving qb (Some k)); cbn [Z.b2z]; lia. }
  set (t := call_timeout k) in *. constructor; cbn [ipcs calls]; rewrite ?Hqs.
  - intros a k' Ha. destruct (decide (a = p)) as [->|Hne].
    + rewrite fn_lookup_insert in Ha. injection Ha as <-. eapply call_ok_frame; [|done|done|done]. by rewrite Hqs.
    + rewrite fn_lookup_insert_ne in Ha by done. eapply call_ok_frame; [|done|done|by apply C1]. by rewrite Hqs.
  - intros j qb d v a Hj Hqb Hv Ha. destruct (decide (a = p)) as [->|Hne].
    + destruct (t <? 0) eqn:E; [|by destruct (Hnw _ _ Hv)]. apply wait_lookup in Hv as [[Hx ->]|[_ Hv]]; [|by destruct (Hnw _ _ Hv)].
      apply windex_inj in Hx as [-> ->]. rewrite Hi in Hj. injection Hj as <-. exists k. rewrite fn_lookup_insert.
      split_and!; try done. by apply Z.ltb_lt.
    + rewrite fn_lookup_insert_ne by done. destruct (t <? 0); [|by eapply C2].
      apply wait_lookup in Hv as [[Hx ->]|[_ Hv]]; [|by eapply C2]. apply windex_inj in Hx as [-> ->].
      apply elem_of_cons in Ha as [?|Ha]; [done|]. by eapply C2.
  - intros j qb v Hj Hqb Hv Hne. destruct (t <? 0) eqn:E; [|etransitivity; [by eapply C3|done]].
    apply wait_lookup in Hv as [[Hx ->]|[_ Hv]]; [|etransitivity; [by eapply C3|done]].
    apply windex_inj in Hx as [-> Hs]. symmetry in Hs. rewrite Hi in Hj. injection Hj as <-. rewrite Hd by done. apply Z.ltb_lt in E.
    rewrite Z.add_0_l. apply receivers_ge.
    + apply NoDup_cons. split; [by eapply Hnw|done].
    + intros a [->|Ha]%elem_of_cons; [rewrite fn_lookup_insert; split; [done|by apply Hrec]|].
      split; [by apply Htab|]. rewrite fn_lookup_insert_ne by (intros ->; by eapply Hnw).
      rewrite Hs in Hw. destruct (C2 i qa Receivers w a Hi Hqb Hw Ha) as (k' & -> & Hk1 & Hk2 & Hk3).
      destruct k' as [|qc m t' start ticks]; [done|]. cbn in *. rewrite andb_true_iff, Z.eqb_eq, Z.ltb_lt. done.
Qed.

Lemma wait_facts st W L Q S i qa d :
  msg_inv st W L Q S -> queues st !! i = Some qa -> qa <> 0 ->
  exists w, W !! windex i d = Some w /\ NoDup w /\ (forall a, a ∈ w -> in_table a /\ state (tasks (base st) a) = TASK_BLOCKED) /\
    chain (fun a => next (tasks (base st) a)) (wait_queue d (queue_at st qa)) w /\ (length w < QUEUE_FUEL)%nat.
Proof.
  intros [[K _ _] T] Hi Hq. destruct (q_wait _ _ _ _ _ (t_live _ _ _ T i qa Hi Hq) d) as (w & Hw & Hhd). exists w. split; [done|].
  destruct (wait_queue_facts (held W (table_blocks st)) _ _ _ _ (windex i d) w K) as (Hch & Hnd & Hlen & Hin); [by apply lookup_app_l_Some|].
  rewrite Hhd. split_and!; try done. intros a Ha. by destruct (Hin a Ha) as (_ & ? & ?).
Qed.

(** A round that ends in the waiting loop. *)
Lemma wait_step st cs W L Q S this sp p k i err start ticks :
  msg_inv st W L Q S -> calls_ok (Box st cs) W L -> runs (base st) this p -> sp_ok (tasks (base st) p) sp -> call_ok st p k ->
  cs p = None \/ cs p = Some k -> queues st !! i = Some (call_queue k) ->
  (call_side k = Receivers -> depth (L (call_queue k)) = 0) ->
  exists o st' W' Q', wait_pass (call_side k) err (call_queue k) (call_timeout k) start ticks (Z.of_nat this) sp st = Some (o, st') /\
    msg_inv st' W' L Q' S /\ calls_ok (Box st' (<[p := match o with Returned _ => None | Waits => Some k end]> cs)) W' L.
Proof.
  intros M Cs Hr Hsp Hk Hcs Hi Hd. pose proof Hk as (_ & _ & Hq & _). pose proof M as [I T].
  destruct (runs_no_waiter W _ _ Q S this p I Hr) as [Hp Hnw].
  destruct (wait_facts st W L Q S i (call_queue k) (call_side k) M Hi Hq) as (w & Hw & Hnd & Htab & _).
  destruct (wait_pass_spec R B st W L Q S i (call_queue k) (call_side k) err (call_timeout k) start ticks this sp p w M Hi Hq Hw Hr Hsp)
    as (o & st' & E & [((rc & -> & _) & Ht & ->)|(-> & _ & Hqs & Hex & Htm & Q' & M')]).
  - exists (Returned rc), st, W, Q. split; [done|]. split; [done|]. eapply calls_leave; try done; [by eauto|].
    intros j qb v Hj Hqb Hv Hne. pose proof (c_wake _ _ _ Cs j qb v Hj Hqb Hv Hne) as Hwk. cbn [calls] in Hwk.
    assert (Hrf : receiving qb (cs p) = false); [|rewrite Hrf; cbn [Z.b2z]; lia].
    destruct Hcs as [-> | ->]; [done|]. destruct k; [done|]. cbn in *. rewrite (proj2 (Z.ltb_ge _ 0)) by done. apply andb_false_r.
  - eexists Waits, st', _, Q'. split; [done|]. split; [done|]. eapply calls_stay; try done; [|intros a Ha; by apply Htab].
    intros j Hj. by eapply (t_inj _ _ _ T).
Qed.

Lemma tail_lookup (W : list (list Z)) n w (m : nat) v :
  W !! n = Some w -> <[n := list.tail w]> W !! m = Some v -> exists w0, W !! m = Some w0 /\ (v = w0 \/ v = list.tail w0).
Proof. intros Hw Hv. apply wait_lookup in Hv as [[-> ->]|[_ Hv]]; eauto. Qed.

Lemma resume_step st cs W L Q S this sp p k :
  msg_inv st W L Q S -> calls_ok (Box st cs) W L -> runs (base st) this p -> sp_ok (tasks (base st) p) sp -> call_ok st p k ->
  cs p = None \/ cs p = Some k ->
  exists o st' W' L' Q', resume pol k (Z.of_nat this) sp st = Some (o, st') /\ msg_inv st' W' L' Q' S /\
    calls_ok (Box st' (<[p := match o with Returned _ => None | Waits => Some k end]> cs)) W' L'.
Proof.
  intros M Cs Hr Hsp Hk Hcs. pose proof Hk as (_ & Hin & Hq & Hown & Hlv). apply list_elem_of_lookup in Hin as [i Hi].
  pose proof M as [I T]. destruct (runs_no_waiter W _ _ Q S this p I Hr) as [Hp Hnw].
  pose proof (q_ring _ _ _ _ _ (t_live _ _ _ T i _ Hi Hq)) as Rq. pose proof (c_wake _ _ _ Cs) as Hwk. cbn [calls ipcs] in Hwk.
  assert (Hother : forall j qb, queues st !! j = Some qb -> qb <> 0 -> j <> i -> qb <> call_queue k).
  { intros j qb Hj Hqb Hji ->. by apply Hji, (t_inj _ _ _ T j i (call_queue k)). }
  destruct k as [qa msg pr t start ticks|qa msg t start ticks]; cbn [call_queue call_msg call_level resume] in *.
  - destruct (level_full pr (queue_at st qa)) eqn:Hf.
    + unfold send_pass. rewrite Hf. destruct (wait_step st cs W L Q S this sp p (Sending qa msg pr t start ticks) i IPC_ERR_FULL start ticks M Cs Hr Hsp Hk Hcs Hi)
        as (o & st' & W' & Q' & E & M' & C'); [done|]. exists o, st', W', L, Q'. done.
    + destruct (wait_facts st W L Q S i qa Receivers M Hi Hq) as (w & Hw & _).
      destruct (send_ok_spec R B pol st W L Q S i qa w msg pr t start ticks (Z.of_nat this) sp p M Hi Hq Hw Hlv Hf Hown)
        as (st' & Q' & E & M' & Hqs & Hex & Ht & _). eexists (Returned IPC_OK), st', _, _, Q'. split; [done|]. split; [done|].
      eapply calls_leave; try done; [intros n v; by eapply tail_lookup|]. intros j qb v Hj Hqb Hv Hne.
      assert (Hrf : receiving qb (cs p) = false) by (by destruct Hcs as [-> | ->]). rewrite Hrf. cbn [Z.b2z].
      apply wait_lookup in Hv as [[Hx ->]|[Hx Hv]].
      * apply windex_inj in Hx as [-> _]. rewrite Hi in Hj. injection Hj as <-. rewrite fn_lookup_insert, depth_queue by done.
        destruct w as [|a w]; [done|]. specialize (Hwk i qa (a :: w) Hi Hq Hw ltac:(done)). cbn [list.tail length] in *. lia.
      * rewrite fn_lookup_insert_ne by (intros ->; apply Hx; f_equal; by apply (t_inj _ _ _ T j i qb)).
        specialize (Hwk j qb v Hj Hqb Hv Hne). lia.
  - destruct (decide (depth (L qa) = 0)) as [Hd|Hd].
    + unfold recv_pass. rewrite (r_total _ _ _ Rq), Hd. cbn [Z.eqb].
      destruct (wait_step st cs W L Q S this sp p (Receiving qa msg t start ticks) i IPC_ERR_EMPTY start ticks M Cs Hr Hsp Hk Hcs Hi)
        as (o & st' & W' & Q' & E & M' & C'); [done|]. exists o, st', W', L, Q'. done.
    + destruct (wait_facts st W L Q S i qa Senders M Hi Hq) as (w & Hw & _).
      destruct (recv_ok_spec R B pol st W L Q S i qa w msg t start ticks (Z.of_nat this) sp p M Hi Hq Hw Hd Hown)
        as (st' & Q' & pl & x & l & E & (Hpl & _) & Hl & _ & M' & Hqs & Hex & Ht & _).
      eexists (Returned IPC_OK), st', _, _, Q'. split; [done|]. split; [done|].
      eapply calls_leave; try done; [intros n v; by eapply tail_lookup|]. intros j qb v Hj Hqb Hv Hne.
      apply wait_lookup in Hv as [[Hx _]|[_ Hv]]; [by apply windex_inj in Hx as [_ Hx]|].
      specialize (Hwk j qb v Hj Hqb Hv Hne). destruct (decide (j = i)) as [->|Hji].
      * rewrite Hi in Hj. injection Hj as <-. rewrite fn_lookup_insert. erewrite depth_take by done.
        destruct (receiving qa (cs p)); cbn [Z.b2z]; lia.
      * rewrite fn_lookup_insert_ne by (apply not_eq_sym; by eapply Hother).
        assert (Hrf : receiving qb (cs p) = false); [|rewrite Hrf; cbn [Z.b2z]; lia].
        destruct Hcs as [-> | ->]; [done|]. cbn. rewrite (proj2 (Z.eqb_neq qa qb)); [done|]. apply not_eq_sym. by eapply Hother.
Qed.

(** ** Sessions *)

Inductive msg_call :=
  | Create (cap size : Z)
  | Destroy (qa : Z)
  | Send (this : nat) (qa msg priority timeout_ms sp : Z)
  | Recv (this : nat) (qa msg timeout_ms sp : Z)
  | Resume (this : nat) (sp : Z)
  | Reschedule (this : nat) (sp : Z)
  | Advance (n : Z).

(** The clock moves on. *)
Definition advance (n : Z) (s : sys) : sys :=
  Sys (tasks s) (rqs s) (deques s) (current_task s) (preempt_disabled s) (task_count s) (context_switches s) (timer_ticks s)
    (isolated_cores s) (cpu_count s) (sleep_queue_head s) (rr_next s) (rebalance_tick_counter s) (rebalance_migrations s)
    (diag s) (next_task_id s) (heap s) (cleanups s) (now_ns s) (timer_count s +64 n) (timer_freq s).

(** A call of the task that runs on CPU [this]: its result and the rest of its work. *)
Definition enter (this : nat) (b : box) (r : option (option pending * Z * ipc)) : option (Z * box) :=
  '(k, rc, st) ← r; Some (rc, Box st (<[curs (base (ipcs b)) this := k]> (calls b))).

Definition msg_exec (c : msg_call) (b : box) : option (Z * box) :=
  let st := ipcs b in
  match c with
  | Create cap size => '(qa, st) ← msg_queue_create cap size st; Some (qa, Box st (calls b))
  | Destroy qa => '(rc, st) ← msg_queue_destroy qa st; Some (rc, Box st (calls b))
  | Send this qa msg priority t sp => enter this b (msg_send_priority pol qa msg priority t (Z.of_nat this) sp st)
  | Recv this qa msg t sp => enter this b (msg_recv pol qa msg t (Z.of_nat this) sp st)
  | Resume this sp =>
      k ← calls b (curs (base st) this); enter this b (begin pol k (Z.of_nat this) sp st)
  | Reschedule this sp => s ← yield (Z.of_nat this) sp (base st); Some (0, Box (with_base s st) (calls b))
  | Advance n => Some (0, Box (with_base (advance n (base st)) st) (calls b))
  end.

(** The caller passes NULL, or a registered queue and a message in its own stack. *)
Definition args_ok (st : ipc) (p qa msg : Z) : Prop :=
  qa = 0 \/ msg = 0 \/ qa ∈ queues st /\ own_stack (base st) p msg (msg_size (queue_at st qa)).

Definition msg_allowed (b : box) (c : msg_call) : Prop :=
  let st := ipcs b in let s := base st in
  let caller this sp := runs s this (curs s this) /\ sp_ok (tasks s (curs s this)) sp in
  match c with
  | Create cap size => is_u64 cap /\ is_u64 size
  | Destroy qa => qa = 0 \/ qa ∈ queues st /\ forall p k, calls b p = Some k -> call_queue k <> qa
  | Send this qa msg _ _ sp => caller this sp /\ calls b (curs s this) = None /\ args_ok st (curs s this) qa msg
  | Recv this qa msg _ sp => caller this sp /\ calls b (curs s this) = None /\ args_ok st (curs s this) qa msg
  | Resume this sp => caller this sp /\ calls b (curs s this) <> None
  | Reschedule this sp => Z.of_nat this < cpu_count s /\ sp_ok (tasks s (curs s this)) sp
  | Advance _ => True
  end.

Definition box_ok (b : box) : Prop := exists W L Q S, msg_inv (ipcs b) W L Q S /\ calls_ok b W L.

(** Recording that a task is in no call changes nothing when it was in none. *)
Lemma calls_none b p st :
  calls b p = None -> forall W L, calls_ok (Box st (calls b)) W L -> calls_ok (Box st (<[p := None]> (calls b))) W L.
Proof.
  intros Hp W L [C1 C2 C3]. cbn [ipcs calls] in *. assert (E : forall a, (<[p := None]> (calls b)) a = calls b a).
  { intros a. rewrite fn_lookup_insert_Z. by case_decide; subst. }
  constructor; cbn [ipcs calls].
  - intros a k. rewrite E. apply C1.
  - intros i qa d w a Hi Hq Hw Ha. rewrite E. by eapply C2.
  - intros i qa w Hi Hq Hw Hne. rewrite (receivers_ext (calls b)) by done. by eapply C3.
Qed.

Lemma begin_step b W L Q S this sp k :
  let s := base (ipcs b) in let p := curs s this in
  msg_inv (ipcs b) W L Q S -> calls_ok b W L -> runs s this p -> sp_ok (tasks s p) sp -> call_ok (ipcs b) p k ->
  calls b p = None \/ calls b p = Some k ->
  exists rc b', enter this b (begin pol k (Z.of_nat this) sp (ipcs b)) = Some (rc, b') /\ box_ok b'.
Proof.
  intros s p M Cs Hr Hsp Hk Hcs. destruct b as [st cs]. cbn [ipcs calls] in *.
  destruct (resume_step st cs W L Q S this sp p k M Cs Hr Hsp Hk Hcs) as (o & st' & W' & L' & Q' & E & M' & C').
  unfold enter, begin. rewrite E. unfold mbind, option_bind. destruct o as [rc|]; eexists _, _; (split; [done|]);
    exists W', L', Q', S; done.
Qed.

Lemma running_alive s W bl Q S this p : sched_inv (G := held W bl) s Q S -> runs s this p -> state (tasks s p) <> TASK_TERMINATED.
Proof. intros _ (_ & _ & _ & -> & _). done. Qed.

(** A fresh send or receive. *)
Lemma enter_step b W L Q S this qa msg t sp mk :
  let s := base (ipcs b) in let p := curs s this in
  msg_inv (ipcs b) W L Q S -> calls_ok b W L -> runs s this p -> sp_ok (tasks s p) sp -> calls b p = None ->
  args_ok (ipcs b) p qa msg ->
  (forall start ticks, call_queue (mk start ticks) = qa /\ call_msg (mk start ticks) = msg /\ level_of (call_level (mk start ticks))) ->
  exists rc b', enter this b
      (if (qa =? 0) || (msg =? 0) then Some (None, IPC_ERR_INVALID, ipcs b)
       else let '(start, ticks) := deadline t s in begin pol (mk start ticks) (Z.of_nat this) sp (ipcs b)) = Some (rc, b') /\ box_ok b'.
Proof.
  intros s p M Cs Hr Hsp Hno Ha Hmk. destruct ((qa =? 0) || (msg =? 0)) eqn:E0.
  { eexists _, _. split; [done|]. exists W, L, Q, S. split; [done|]. apply calls_none; [done|]. by destruct b. }
  apply orb_false_iff in E0 as [Hq Hm]. apply Z.eqb_neq in Hq, Hm. destruct Ha as [?|[?|[Hin Hown]]]; [done|done|].
  destruct (deadline t s) as [start ticks]. destruct (Hmk start ticks) as (E1 & E2 & E3).
  eapply begin_step; try done; [|by left]. unfold call_ok. rewrite E1, E2. split_and!; try done; [|by apply E3..].
  pose proof M as [I _]. by eapply running_alive.
Qed.

Lemma inv_tame_same (s s' : sys) : tasks s' = tasks s -> tame s s'.
Proof. intros E a Ha. by rewrite E. Qed.

(** Only the allocator's and the clock's state changed. *)
Lemma calls_frame b st' W L :
  calls_ok b W L -> queues st' = queues (ipcs b) -> same_extents (ipcs b) st' -> tame (base (ipcs b)) (base st') ->
  calls_ok (Box st' (calls b)) W L.
Proof.
  intros [C1 C2 C3] Hqs Hex Ht. constructor; cbn [ipcs calls]; rewrite ?Hqs; try done.
  intros p k Hp. eapply call_ok_frame; [|done|done|by apply C1]. by rewrite Hqs.
Qed.

Lemma create_step b cap size :
  box_ok b -> is_u64 cap -> is_u64 size -> exists qa b', msg_exec (Create cap size) b = Some (qa, b') /\ box_ok b'.
Proof.
  intros (W & L & Q & S & M & Cs) Hc Hs.
  destruct (create_spec R B (ipcs b) W L Q S cap size M Hc Hs) as (qa & st' & E & (h & Hb) & Hex & Hres).
  cbn [msg_exec]. rewrite E. eexists _, _. split; [done|]. assert (Ht : tame (base (ipcs b)) (base st')) by (apply inv_tame_same; by rewrite Hb).
  destruct Hres as [(-> & Hqs & M')|(Hq & Hn & i & buf & Hi & Hqs & Hnew & M')].
  - exists W, L, Q, S. split; [done|]. by apply calls_frame.
  - exists W, (<[qa := fun _ => []]> L), Q, S. split; [done|]. destruct Cs as [C1 C2 C3]. pose proof (lookup_lt_Some _ _ _ Hi) as Hlt.
    pose proof M as [_ T]. assert (Hlk : forall j qb, queues st' !! j = Some qb -> j = i /\ qb = qa \/ queues (ipcs b) !! j = Some qb /\ qb <> qa).
    { intros j qb Hj. rewrite Hqs in Hj. apply list_lookup_insert_Some in Hj as [(-> & -> & _)|[_ Hj]]; [by left|]. right. split; [done|].
      intros ->. apply Hn. by eapply list_elem_of_lookup_2. }
    constructor; cbn [ipcs calls].
    + intros p k Hp. eapply call_ok_frame; [|done|done|by apply C1]. intros qb Hin Hqk. rewrite Hqs.
      apply list_elem_of_lookup in Hin as [j Hj]. destruct (C1 p k Hp) as (_ & _ & Hk0 & _).
      apply (list_elem_of_lookup_2 _ j). rewrite list_lookup_insert_ne; [done|]. intros <-. congruence.
    + intros j qb d w p Hj Hqb Hw Hp. apply Hlk in Hj as [[-> ->]|[Hj _]]; [|by eapply C2].
      rewrite (t_dead _ _ _ T i d Hi) in Hw. injection Hw as <-. by apply not_elem_of_nil in Hp.
    + intros j qb w Hj Hqb Hw Hne. apply Hlk in Hj as [[-> ->]|[Hj Hqa]].
      * rewrite (t_dead _ _ _ T i Receivers Hi) in Hw. by injection Hw as <-.
      * rewrite fn_lookup_insert_ne by done. by eapply C3.
Qed.

Lemma destroy_step b qa :
  box_ok b -> msg_allowed b (Destroy qa) -> exists rc b', msg_exec (Destroy qa) b = Some (rc, b') /\ box_ok b'.
Proof.
  intros (W & L & Q & S & M & Cs) A. cbn [msg_allowed msg_exec] in *. destruct (decide (qa = 0)) as [->|Hq].
  { unfold msg_queue_destroy. rewrite Z.eqb_refl. eexists _, _. split; [done|]. exists W, L, Q, S. by destruct b. }
  destruct A as [?|[Hin Hno]]; [done|]. apply list_elem_of_lookup in Hin as [i Hi].
  destruct (destroy_spec R B (ipcs b) W L Q S i qa M Hi Hq) as (rc & st' & E & (h & Hb) & Hex & Hres). rewrite E.
  eexists _, _. split; [done|]. exists W, L, Q, S. assert (Ht : tame (base (ipcs b)) (base st')) by (apply inv_tame_same; by rewrite Hb).
  destruct Hres as [(_ & _ & ->)|(_ & _ & Hqs & M')]; [by destruct b|]. split; [done|]. destruct Cs as [C1 C2 C3].
  assert (Hlk : forall j qb, queues st' !! j = Some qb -> qb <> 0 -> queues (ipcs b) !! j = Some qb).
  { intros j qb Hj Hqb. rewrite Hqs in Hj. by apply list_lookup_insert_Some in Hj as [(_ & <- & _)|[_ Hj]]. }
  constructor; cbn [ipcs calls].
  - intros p k Hp. eapply call_ok_frame; [|done|done|by apply C1]. intros qb Hin Hqk. rewrite Hqs.
    apply list_elem_of_lookup in Hin as [j Hj]. apply (list_elem_of_lookup_2 _ j). rewrite list_lookup_insert_ne; [done|].
    intros <-. rewrite Hi in Hj. injection Hj as <-. by apply (Hno p k).
  - intros j qb d w p Hj Hqb Hw Hp. eapply C2; try done. by apply Hlk.
  - intros j qb w Hj Hqb Hw Hne. eapply C3; try done. by apply Hlk.
Qed.

Lemma msg_step c b : box_ok b -> msg_allowed b c -> exists rc b', msg_exec c b = Some (rc, b') /\ box_ok b'.
Proof.
  intros O A. destruct c as [cap size|qa|this qa msg pr t sp|this qa msg t sp|this sp|this sp|n].
  - destruct A. by apply create_step.
  - by apply destroy_step.
  - destruct O as (W & L & Q & S & M & Cs), A as ((Hr & Hsp) & Hno & Ha). cbn [msg_exec]. unfold msg_send_priority.
    eapply (enter_step b W L Q S this qa msg t sp (fun start ticks => Sending qa msg (clamp_msg_priority pr) t start ticks)); try done.
    intros start ticks. split_and!; try done; apply (clamp_level pr).
  - destruct O as (W & L & Q & S & M & Cs), A as ((Hr & Hsp) & Hno & Ha). cbn [msg_exec]. unfold msg_recv.
    by eapply (enter_step b W L Q S this qa msg t sp (fun start ticks => Receiving qa msg t start ticks)).
  - destruct O as (W & L & Q & S & M & Cs), A as ((Hr & Hsp) & Hcall). cbn [msg_exec].
    destruct (calls b (curs (base (ipcs b)) this)) as [k|] eqn:Hk; [|done]. unfold mbind at 1, option_bind at 1.
    eapply begin_step; try done; [by apply (c_call _ _ _ Cs)|by right].
  - destruct O as (W & L & Q & S & M & Cs), A as (Hlt & Hsp). pose proof M as [I T]. cbn [msg_exec].
    destruct (yield_spec R B W _ this sp _ Q S (at_schedule_of (G := held W _) _ _ _ _ _ I Hlt Hsp)) as (s' & Q' & E & I' & Ht).
    rewrite E. eexists _, _. split; [done|]. exists W, L, Q', S. split; [split; [done|by apply table_base]|]. by apply calls_frame.
  - destruct O as (W & L & Q & S & M & Cs). pose proof M as [I T]. eexists _, _. split; [done|]. exists W, L, Q, S.
    split; [split; [|by apply table_base]|by apply calls_frame]. destruct I as [K Hlen Haw]. constructor; try done.
    eapply (core_irrel (G := held W _)); try done. apply K.
Qed.

Fixpoint msg_run (cs : list msg_call) (b : box) : option (list Z * box) :=
  match cs with
  | [] => Some ([], b)
  | c :: cs => '(rc, b) ← msg_exec c b; '(rcs, b) ← msg_run cs b; Some (rc :: rcs, b)
  end.

Fixpoint msg_permitted (cs : list msg_call) (b : box) : Prop :=
  match cs with
  | [] => True
  | c :: cs => msg_allowed b c /\ forall rc b', msg_exec c b = Some (rc, b') -> msg_permitted cs b'
  end.

(** The tasks in a wait queue, from its head. *)
Definition waiting (d : side) (qa : Z) (st : ipc) : list Z :=
  walk QUEUE_FUEL (fun a => next (tasks (base st) a)) (wait_queue d (queue_at st qa)).

(** The registered queues hold messages in well-formed rings, and every task in one of
    their wait queues is BLOCKED in a call on that side of that queue. *)
Definition queues_ok (b : box) : Prop :=
  forall qa, qa ∈ queues (ipcs b) -> qa <> 0 ->
    (exists L, ring_ok (queue_at (ipcs b) qa) (mem (ipcs b)) L) /\
    forall d p, p ∈ waiting d qa (ipcs b) -> state (tasks (base (ipcs b)) p) = TASK_BLOCKED /\
      exists k, calls b p = Some k /\ call_queue k = qa /\ call_side k = d /\ call_timeout k < 0.

(** While receivers are asleep on a queue, each message in it has a receiver that is in
    its call and awake. *)
Definition no_lost_wakeup (b : box) : Prop :=
  forall qa, qa ∈ queues (ipcs b) -> qa <> 0 -> waiting Receivers qa (ipcs b) <> [] ->
    total_count (queue_at (ipcs b) qa) + Z.of_nat (length (waiting Receivers qa (ipcs b))) <= receivers (calls b) qa.

Lemma box_promises b : box_ok b -> queues_ok b /\ no_lost_wakeup b.
Proof.
  intros (W & L & Q & S & M & Cs). pose proof M as [_ T].
  assert (Hw : forall i qa d, queues (ipcs b) !! i = Some qa -> qa <> 0 -> W !! windex i d = Some (waiting d qa (ipcs b)) /\
    forall p, p ∈ waiting d qa (ipcs b) -> state (tasks (base (ipcs b)) p) = TASK_BLOCKED).
  { intros i qa d Hi Hq. destruct (wait_facts _ W L Q S i qa d M Hi Hq) as (w & Hw & _ & Hin & Hch & Hlen).
    assert (E : waiting d qa (ipcs b) = w) by (by apply chain_walk). rewrite E. split; [done|]. intros p Hp. by apply Hin. }
  split; intros qa Hin Hq; apply list_elem_of_lookup in Hin as [i Hi].
  - destruct (t_live _ _ _ T i qa Hi Hq) as [Rq _ _ _]. split; [by exists (L qa)|]. intros d p Hp.
    destruct (Hw i qa d Hi Hq) as [Hwd Hb]. split; [by apply Hb|]. by eapply (c_wait _ _ _ Cs).
  - intros Hne. destruct (Hw i qa Receivers Hi Hq) as [Hwd _]. rewrite (r_total _ _ _ (q_ring _ _ _ _ _ (t_live _ _ _ T i qa Hi Hq))).
    by eapply (c_wake _ _ _ Cs).
Qed.

Lemma msg_run_ok cs b : box_ok b -> msg_permitted cs b -> exists rcs b', msg_run cs b = Some (rcs, b') /\ box_ok b'.
Proof.
  revert b. induction cs as [|c cs IH]; intros b O P; [by exists [], b|]. destruct P as [A P].
  destruct (msg_step c b O A) as (rc & b1 & E & O1). cbn [msg_run]. rewrite E. unfold mbind, option_bind.
  destruct (IH b1 O1 (P rc b1 E)) as (rcs & b2 & -> & O2). by eexists _, _.
Qed.

(** C5.  Any sequence of calls that create and destroy queues, send and receive with or
    without waiting, and yield, from any CPUs, runs to its end without a NULL dereference,
    a panic or a failure of the page allocator, provided callers pass registered queues
    and messages in their own stack, and nobody destroys a queue that a task is still in a
    call on.  Afterwards the rings of every queue are well-formed, every task in a wait
    queue is BLOCKED in a call on that queue, and no receiver is left asleep without
    another one being awake for each message in the queue. *)
Theorem msg_sessions_safe (cs : list msg_call) (b : box) :
  box_ok b -> msg_permitted cs b ->
  exists rcs b', msg_run cs b = Some (rcs, b') /\ box_ok b' /\ queues_ok b' /\ no_lost_wakeup b'.
Proof.
  intros O P. destruct (msg_run_ok cs b O P) as (rcs & b' & E & O'). exists rcs, b'. split; [done|]. split; [done|].
  by apply box_promises.
Qed.


End sessions.

(** ** Examples *)

(** No queues yet on a machine that satisfies the scheduler's invariant. *)
Lemma box_fresh s m f n :
  inv (G := SchedBoot.nothing_held) s -> box_ok [] [] (Box (Ipc s m f (replicate MSG_QUEUE_MAX 0) n) (fun _ => None)).
Proof.
  intros [K Hlen Haw]. set (W := replicate (2 * MSG_QUEUE_MAX) ([] : list Z)).
  assert (Hw : waiters (G := MsgSpec.held [] [] W []) = []) by reflexivity.
  assert (Hz : forall i qa, replicate MSG_QUEUE_MAX 0 !! i = Some qa -> qa = 0 /\ (i < MSG_QUEUE_MAX)%nat)
    by (intros i qa [-> ?]%lookup_replicate; done).
  eexists W, (fun _ _ => []), _, _. split; [split|].
  - constructor; [|done|].
    + eapply (core_new_waits SchedBoot.nothing_held); [exact K|exact Hw|done|]. intros l Hl. right.
      unfold MsgSpec.held in Hl. cbn [waits] in Hl. rewrite app_nil_r in Hl. by apply elem_of_replicate in Hl as [-> _].
    + intros c. cbn [base]. change (waiters (G := _)) with ([] : list Z) at 1. apply (Haw c).
  - constructor; cbn [queues].
    + done.
    + done.
    + intros i j qa Hi _ Hq. by apply Hz in Hi as [-> _].
    + intros i qa Hi Hq. by apply Hz in Hi as [-> _].
    + intros i d Hi. apply Hz in Hi as [_ Hi]. unfold W. apply lookup_replicate. split; [done|]. unfold windex. destruct d; lia.
  - constructor; cbn [ipcs calls queues]; try done.
    + intros i qa d w p Hi Hq. by apply Hz in Hi as [-> _].
    + intros i qa w Hi Hq. by apply Hz in Hi as [-> _].
Qed.

(** Task 3 runs on CPU 0; every byte of memory starts as its address. *)
Definition msg_machine : box :=
  Box (Ipc (after SchedPick.busy_session) u8 (fun _ => init_queue 0 0 0 0 0) (replicate MSG_QUEUE_MAX 0) 1) (fun _ => None).

Lemma msg_machine_ok : box_ok [] [] msg_machine.
Proof. apply box_fresh. exact SchedPick.busy_inv. Qed.

Definition own_stackb (s : sys) (p a n : Z) : bool :=
  (1 <=? p) && (p <=? MAX_TASKS) && negb (stack_base (tasks s p) =? 0) && (stack_base (tasks s p) <=? a) && (0 <=? n) &&
  (a + n <=? stack_base (tasks s p) + STACK_SIZE).

Definition args_okb (st : ipc) (p qa msg : Z) : bool :=
  (qa =? 0) || (msg =? 0) || bool_decide (qa ∈ queues st) && own_stackb (base st) p msg (msg_size (queue_at st qa)).

Lemma args_okb_sound st p qa msg : args_okb st p qa msg = true -> args_ok st p qa msg.
Proof.
  unfold args_okb, args_ok. rewrite !orb_true_iff, andb_true_iff, !Z.eqb_eq, bool_decide_eq_true.
  intros [[?|?]|[? H]]; [by left|by right; left|]. right; right. split; [done|]. unfold own_stackb in H.
  rewrite !andb_true_iff, negb_true_iff, Z.eqb_neq, !Z.leb_le in H. unfold own_stack, in_table. tauto.
Qed.

Definition busy (o : option pending) : bool := if o then true else false.

(** A check of the callers' obligations, for sessions that destroy no queue. *)
Definition msg_allowedb (b : box) (c : msg_call) : bool :=
  let st := ipcs b in let s := base st in
  let caller this sp := runsb s this && sp_okb (tasks s (curs s this)) sp in
  match c with
  | Create cap size => (0 <=? cap) && (cap <? 2 ^ 64) && (0 <=? size) && (size <? 2 ^ 64)
  | Destroy qa => qa =? 0
  | Send this qa msg _ _ sp => caller this sp && negb (busy (calls b (curs s this))) && args_okb st (curs s this) qa msg
  | Recv this qa msg _ sp => caller this sp && negb (busy (calls b (curs s this))) && args_okb st (curs s this) qa msg
  | Resume this sp => caller this sp && busy (calls b (curs s this))
  | Reschedule this sp => on_cpub s this sp
  | Advance _ => true
  end.

Lemma msg_allowedb_sound b c : msg_allowedb b c = true -> msg_allowed b c.
Proof.
  pose proof (runsb_sound (base (ipcs b))) as HR. pose proof sp_okb_sound as HS. pose proof (args_okb_sound (ipcs b)) as HA.
  assert (Hnone : forall o : option pending, negb (busy o) = true -> o = None) by (by intros []).
  destruct c; cbn [msg_allowedb msg_allowed]; rewrite ?andb_true_iff.
  - rewrite !Z.leb_le, !Z.ltb_lt. unfold is_u64. tauto.
  - rewrite Z.eqb_eq. by left.
  - intros [[[? ?] ?] ?]. split_and!; auto.
  - intros [[[? ?] ?] ?]. split_and!; auto.
  - intros [[? ?] Hb]. split_and!; auto. by destruct (calls _ _).
  - intros H. by destruct (on_cpub_sound _ _ _ H).
  - done.
Qed.

#[local] Notation policy := Heuristic.sched_policy_heuristic.

Fixpoint msg_permittedb (cs : list msg_call) (b : box) : bool :=
  match cs with
  | [] => true
  | c :: cs => msg_allowedb b c && match msg_exec policy c b with Some (_, b') => msg_permittedb cs b' | None => true end
  end.

Lemma msg_permittedb_sound cs b : msg_permittedb cs b = true -> msg_permitted policy cs b.
Proof.
  revert b. induction cs as [|c cs IH]; intros b; cbn [msg_permittedb msg_permitted]; [done|]. rewrite andb_true_iff. intros [H1 H2].
  split; [by apply msg_allowedb_sound|]. intros rc b' E. rewrite E in H2. by apply IH.
Qed.

Definition msg_after (cs : list msg_call) : box := default msg_machine (snd <$> msg_run policy cs msg_machine).

(** Task 3 waits for a message on CPU 0, task 4 sends one, task 3 resumes with it on CPU 1. *)
Definition delivery : list msg_call :=
  [Create 2 4; Recv 0 0x40002000 0x400d0000 (-1) 0x400d0000; Send 0 0x40002000 0x40110004 3 0 0x40110000;
   Reschedule 1 0x40090000; Resume 1 0x400d0000].

#[local] Opaque msg_machine.

(** Witness of C5: the message sent while task 3 was asleep. *)
Lemma msg_sessions_safe_witness :
  (exists rcs b, msg_run policy delivery msg_machine = Some (rcs, b) /\ queues_ok b /\ no_lost_wakeup b) /\
  bytes (mem (ipcs (msg_after delivery))) 0x400d0000 4 = [4; 5; 6; 7].
Proof.
  split; [|vm_compute; reflexivity].
  destruct (msg_sessions_safe [] [] policy delivery msg_machine msg_machine_ok) as (rcs & b & E & _ & H1 & H2).
  - apply msg_permittedb_sound. vm_compute. reflexivity.
  - exists rcs, b. split; [exact E|]. split; assumption.
Defined.


(** Task 3 waits for a slot of high priority, then task 4 for one of low priority; task 5
    receives the message of high priority. *)
Definition mixed_senders : list msg_call :=
  [Create 1 4; Send 0 0x40002000 0x400d0000 2 0 0x400d0000; Send 0 0x40002000 0x400d0000 0 0 0x400d0000;
   Send 0 0x40002000 0x400d0000 2 (-1) 0x400d0000; Send 0 0x40002000 0x40110000 0 (-1) 0x40110000;
   Recv 0 0x40002000 0x40150000 0 0x40150000; Reschedule 0 0x40150000; Resume 0 0x40110000].

(**  A receive wakes the sender that came last, whatever level it waits for.  So a
    sender can stay asleep while its own level has a free slot and no other sender is
    awake: here task 3 waits for a slot of level 2, the receive freed one, but task 4 was
    woken, found its own level full and went back to sleep. *)
Theorem sender_sleeps_beside_free_slot :
  let b := msg_after mixed_senders in let st := ipcs b in let q := queue_at st 0x40002000 in
  msg_permitted policy mixed_senders msg_machine /\ waiting Senders 0x40002000 st = [4; 3] /\
  calls b 3 = Some (Sending 0x40002000 0x400d0000 2 (-1) 0 0) /\ state (tasks (base st) 3) = TASK_BLOCKED /\
  level_full 2 q = false /\ count (level 2 q) = 0 /\ state (tasks (base st) 4) = TASK_BLOCKED /\ calls b 5 = None.
Proof.
  split; [apply msg_permittedb_sound; vm_compute; reflexivity|]. vm_compute. split_and!; reflexivity.
Qed.

(** Task 3 waits for a message and has been woken for one, but has not run yet. *)
Definition woken_receiver : list msg_call :=
  [Create 2 4; Recv 0 0x40002000 0x400d0000 (-1) 0x400d0000; Send 0 0x40002000 0x40110004 3 0 0x40110000].

(**  [msg_queue_destroy] refuses only while tasks are in the wait queues.  A task that
    has been woken and has not run yet is in none: the queue is destroyed, its page is
    free, and the task is still in its call on it. *)
Theorem destroy_under_woken_receiver :
  let b := msg_after woken_receiver in
  exists st', msg_queue_destroy 0x40002000 (ipcs b) = Some (IPC_OK, st') /\
    calls b 3 = Some (Receiving 0x40002000 0x400d0000 (-1) 0 0) /\ state (tasks (base st') 3) = TASK_READY /\
    Buddy.get_block_state 0x40002000 (heap (base st')) = Some Buddy.BLOCK_FREE.
Proof.
  cbv zeta. destruct (msg_queue_destroy 0x40002000 (ipcs (msg_after woken_receiver))) as [[rc st']|] eqn:E.
  - exists st'. assert (H : match msg_queue_destroy 0x40002000 (ipcs (msg_after woken_receiver)) with
      | Some (rc, st') => (rc, calls (msg_after woken_receiver) 3, state (tasks (base st') 3), Buddy.get_block_state 0x40002000 (heap (base st')))
      | None => (1, None, TASK_READY, None) end =
      (IPC_OK, Some (Receiving 0x40002000 0x400d0000 (-1) 0 0), TASK_READY, Some Buddy.BLOCK_FREE)) by (vm_compute; reflexivity).
    rewrite E in H. apply pair_equal_spec in H as [H H3]. apply pair_equal_spec in H as [H H2]. apply pair_equal_spec in H as [H0 H1].
    rewrite H0. split; [reflexivity|]. split; [exact H1|]. split; [exact H2|exact H3].
  - exfalso. assert (H : match msg_queue_destroy 0x40002000 (ipcs (msg_after woken_receiver)) with Some _ => true | None => false end = true)
      by (vm_compute; reflexivity). by rewrite E in H.
Qed.

End MsgSessions.
