(* ===== verification/PageDesc.v ===== *)
(** Page-table descriptors: the constants of include/vmm.h, the descriptor
    constructors of mm/vmm.c ([make_block_desc], [make_l1_block_desc],
    [make_table_desc], [make_page_desc]) and what the translation hardware reads
    back from a descriptor they built. *)

From S2P Require Import Prelude.
From S2P Require Import Buddy.

Module PageDesc.
Import Buddy.
Open Scope Z_scope.
Open Scope slm_scope.

(** ** include/vmm.h *)

Definition BLOCK_SIZE : Z := 0x200000.
Definition L1_BLOCK_SIZE : Z := 0x40000000.
Definition ENTRIES_PER_TABLE : nat := 512.

Definition L1_INDEX (va : Z) : Z := Z.land (Z.shiftr va 30) 0x1FF.
Definition L2_INDEX (va : Z) : Z := Z.land (Z.shiftr va 21) 0x1FF.
Definition L3_INDEX (va : Z) : Z := Z.land (Z.shiftr va 12) 0x1FF.

Definition KERNEL_VA_BASE : Z := 0xFFFFFF8000000000.
Definition PA_TO_KVA (pa : Z) : Z := Z.lor pa KERNEL_VA_BASE.
Definition KVA_TO_PA (va : Z) : Z := Z.ldiff va KERNEL_VA_BASE.

Definition USER_L1_FIRST : Z := 256.
Definition USER_L1_LIMIT : Z := 512.
Definition USER_VA_BASE : Z := USER_L1_FIRST * L1_BLOCK_SIZE.
Definition USER_VA_LIMIT : Z := USER_L1_LIMIT * L1_BLOCK_SIZE.

Definition PTE_TYPE_INVALID : Z := 0.
Definition PTE_TYPE_BLOCK : Z := 1.
Definition PTE_TYPE_TABLE : Z := 3.
Definition PTE_TYPE_PAGE : Z := 3.
Definition PTE_TYPE_MASK : Z := 3.

Definition PTE_ATTR_INDEX (n : Z) : Z := Z.shiftl (Z.land n 7) 2.
Definition PTE_AP_RW_EL1 : Z := Z.shiftl 0 6.
Definition PTE_AP_RW_ALL : Z := Z.shiftl 1 6.
Definition PTE_AP_RO_EL1 : Z := Z.shiftl 2 6.
Definition PTE_AP_RO_ALL : Z := Z.shiftl 3 6.
Definition PTE_SH_NON : Z := Z.shiftl 0 8.
Definition PTE_SH_INNER : Z := Z.shiftl 3 8.
Definition PTE_AF : Z := Z.shiftl 1 10.
Definition PTE_NG : Z := Z.shiftl 1 11.
Definition PTE_PXN : Z := Z.shiftl 1 53.
Definition PTE_UXN : Z := Z.shiftl 1 54.
Definition PTE_SW_GPU_MAPPED : Z := Z.shiftl 1 55.
Definition PTE_SW_MODEL_PAGE : Z := Z.shiftl 1 56.
Definition PTE_SW_INFERENCE_HOT : Z := Z.shiftl 1 57.
Definition PTE_SW_PMM_OWNED : Z := Z.shiftl 1 58.
Definition PTE_ADDR_MASK : Z := 0x0000FFFFFFFFF000.
Definition BLOCK_ADDR_MASK : Z := 0x0000FFFFFFE00000.
Definition L1_BLOCK_ADDR_MASK : Z := 0x0000FFFFC0000000.

Definition MAIR_IDX_DEVICE_nGnRnE : Z := 0.
Definition MAIR_IDX_NORMAL_NC : Z := 2.
Definition MAIR_IDX_NORMAL_WB : Z := 3.

Definition VMM_FLAG_DEVICE : Z := Z.shiftl 1 0.
Definition VMM_FLAG_NOCACHE : Z := Z.shiftl 1 1.
Definition VMM_FLAG_READ : Z := Z.shiftl 1 2.
Definition VMM_FLAG_WRITE : Z := Z.shiftl 1 3.
Definition VMM_FLAG_EXEC : Z := Z.shiftl 1 4.
Definition VMM_FLAG_USER : Z := Z.shiftl 1 5.
Definition VMM_FLAG_GPU_MAPPED : Z := Z.shiftl 1 8.
Definition VMM_FLAG_MODEL_PAGE : Z := Z.shiftl 1 9.
Definition VMM_FLAG_INFERENCE_HOT : Z := Z.shiftl 1 10.
Definition VMM_FLAG_PMM_OWNED : Z := Z.shiftl 1 11.

(** C's [flags & bit] as a condition. *)
Definition has (flags bit : Z) : bool := negb (Z.land flags bit =? 0).

(** [desc |= bits] under a condition. *)
Definition or_if (c : bool) (bits desc : Z) : Z := if c then Z.lor desc bits else desc.

(** ** The descriptor constructors *)

(** The memory-attribute block the three leaf constructors share. *)
Definition or_memory (flags desc : Z) : Z :=
  if has flags VMM_FLAG_DEVICE then
    Z.lor (Z.lor desc (PTE_ATTR_INDEX MAIR_IDX_DEVICE_nGnRnE)) PTE_SH_NON
  else if has flags VMM_FLAG_NOCACHE then
    Z.lor (Z.lor desc (PTE_ATTR_INDEX MAIR_IDX_NORMAL_NC)) PTE_SH_INNER
  else
    Z.lor (Z.lor desc (PTE_ATTR_INDEX MAIR_IDX_NORMAL_WB)) PTE_SH_INNER.

(** The access-permission block. *)
Definition or_access (flags desc : Z) : Z :=
  if has flags VMM_FLAG_USER then
    if negb (has flags VMM_FLAG_WRITE) then Z.lor desc PTE_AP_RO_ALL else Z.lor desc PTE_AP_RW_ALL
  else
    if negb (has flags VMM_FLAG_WRITE) then Z.lor desc PTE_AP_RO_EL1 else Z.lor desc PTE_AP_RW_EL1.

(** The execute-never block. *)
Definition or_execute (flags desc : Z) : Z :=
  let desc := or_if (negb (has flags VMM_FLAG_EXEC)) PTE_PXN desc in
  or_if (negb (has flags VMM_FLAG_USER) || negb (has flags VMM_FLAG_EXEC)) PTE_UXN desc.

(** [None]: the panic on a user block. *)
Definition make_block_desc (pa flags : Z) : option Z :=
  if has flags VMM_FLAG_USER then None
  else
    let desc := PTE_TYPE_BLOCK in
    let desc := Z.lor desc (Z.land pa BLOCK_ADDR_MASK) in
    let desc := Z.lor desc PTE_AF in
    let desc := or_memory flags desc in
    let desc := or_access flags desc in
    let desc := or_execute flags desc in
    let desc := or_if (has flags VMM_FLAG_GPU_MAPPED) PTE_SW_GPU_MAPPED desc in
    let desc := or_if (has flags VMM_FLAG_MODEL_PAGE) PTE_SW_MODEL_PAGE desc in
    Some (or_if (has flags VMM_FLAG_INFERENCE_HOT) PTE_SW_INFERENCE_HOT desc).

Definition make_l1_block_desc (pa flags : Z) : option Z :=
  if has flags VMM_FLAG_USER then None
  else
    let desc := PTE_TYPE_BLOCK in
    let desc := Z.lor desc (Z.land pa L1_BLOCK_ADDR_MASK) in
    let desc := Z.lor desc PTE_AF in
    let desc := or_memory flags desc in
    let desc := or_access flags desc in
    Some (or_execute flags desc).

Definition make_table_desc (table_pa : Z) : Z := Z.lor PTE_TYPE_TABLE (Z.land table_pa PTE_ADDR_MASK).

Definition make_page_desc (pa flags : Z) : Z :=
  let desc := PTE_TYPE_PAGE in
  let desc := Z.lor desc (Z.land pa PTE_ADDR_MASK) in
  let desc := Z.lor desc PTE_AF in
  let desc := or_memory flags desc in
  let desc := or_access flags desc in
  let desc := or_execute flags desc in
  let desc := or_if (has flags VMM_FLAG_PMM_OWNED) PTE_SW_PMM_OWNED desc in
  or_if (has flags VMM_FLAG_USER) PTE_NG desc.

(** ** Reading a descriptor

    What the source tests in an entry, and the fields the translation hardware
    takes from a leaf (Arm architecture, stage 1, 4 KB granule). *)

Definition pte_type (e : Z) : Z := Z.land e PTE_TYPE_MASK.
Definition pte_addr (e : Z) : Z := Z.land e PTE_ADDR_MASK.
Definition pmm_owned (e : Z) : bool := has e PTE_SW_PMM_OWNED.

Definition leaf_mair (e : Z) : Z := Z.land (Z.shiftr e 2) 7.
Definition leaf_el0 (e : Z) : bool := Z.testbit e 6.
Definition leaf_readonly (e : Z) : bool := Z.testbit e 7.
Definition leaf_accessed (e : Z) : bool := Z.testbit e 10.
Definition leaf_nonglobal (e : Z) : bool := Z.testbit e 11.
Definition leaf_pxn (e : Z) : bool := Z.testbit e 53.
Definition leaf_uxn (e : Z) : bool := Z.testbit e 54.

(** The permissions of a leaf at EL0. *)
Definition el0_can_read (e : Z) : bool := leaf_el0 e.
Definition el0_can_write (e : Z) : bool := leaf_el0 e && negb (leaf_readonly e).
Definition el0_can_exec (e : Z) : bool := leaf_el0 e && negb (leaf_uxn e).
Definition el1_can_write (e : Z) : bool := negb (leaf_readonly e).

(** The memory type the flags ask for. *)
Definition mair_of (flags : Z) : Z :=
  if has flags VMM_FLAG_DEVICE then MAIR_IDX_DEVICE_nGnRnE
  else if has flags VMM_FLAG_NOCACHE then MAIR_IDX_NORMAL_NC
  else MAIR_IDX_NORMAL_WB.

(** ** Address bits and attribute bits *)

Lemma or_if_app c b d x : or_if c b (Z.lor x d) = Z.lor x (or_if c b d).
Proof. unfold or_if. destruct c; [by rewrite Z.lor_assoc|done]. Qed.

Lemma or_memory_app f d x : or_memory f (Z.lor x d) = Z.lor x (or_memory f d).
Proof. unfold or_memory. by repeat case_match; rewrite <- !Z.lor_assoc. Qed.

Lemma or_access_app f d x : or_access f (Z.lor x d) = Z.lor x (or_access f d).
Proof. unfold or_access. by repeat case_match; rewrite <- !Z.lor_assoc. Qed.

Lemma or_execute_app f d x : or_execute f (Z.lor x d) = Z.lor x (or_execute f d).
Proof. unfold or_execute. by rewrite !or_if_app. Qed.

(** The attributes are put beside the address. *)
Lemma make_page_desc_split pa f :
  make_page_desc pa f = Z.lor (Z.land pa PTE_ADDR_MASK) (make_page_desc 0 f).
Proof.
  unfold make_page_desc. rewrite Z.land_0_l, Z.lor_0_r.
  rewrite (Z.lor_comm PTE_TYPE_PAGE (Z.land pa PTE_ADDR_MASK)), <- !Z.lor_assoc.
  by rewrite or_memory_app, or_access_app, or_execute_app, !or_if_app.
Qed.

Lemma make_block_desc_split pa f :
  make_block_desc pa f = Z.lor (Z.land pa BLOCK_ADDR_MASK) <$> make_block_desc 0 f.
Proof.
  unfold make_block_desc. case_match; [done|]. cbn [fmap option_fmap option_map]. f_equal. rewrite Z.land_0_l, Z.lor_0_r.
  rewrite (Z.lor_comm PTE_TYPE_BLOCK (Z.land pa BLOCK_ADDR_MASK)), <- !Z.lor_assoc.
  by rewrite or_memory_app, or_access_app, or_execute_app, !or_if_app.
Qed.

Lemma make_l1_block_desc_split pa f :
  make_l1_block_desc pa f = Z.lor (Z.land pa L1_BLOCK_ADDR_MASK) <$> make_l1_block_desc 0 f.
Proof.
  unfold make_l1_block_desc. case_match; [done|]. cbn [fmap option_fmap option_map]. f_equal. rewrite Z.land_0_l, Z.lor_0_r.
  rewrite (Z.lor_comm PTE_TYPE_BLOCK (Z.land pa L1_BLOCK_ADDR_MASK)), <- !Z.lor_assoc.
  by rewrite or_memory_app, or_access_app, or_execute_app.
Qed.

(** Bits outside the address mask are the attributes', bits inside the address's. *)
Lemma split_out m k pa a : Z.land m k = 0 -> Z.land (Z.lor (Z.land pa m) a) k = Z.land a k.
Proof. intros E. by rewrite Z.land_lor_distr_l, <- Z.land_assoc, E, Z.land_0_r, Z.lor_0_l. Qed.

Lemma split_in m k pa a : Z.land a k = 0 -> Z.land (Z.lor (Z.land pa m) a) k = Z.land pa (Z.land m k).
Proof. intros E. by rewrite Z.land_lor_distr_l, E, Z.lor_0_r, Z.land_assoc. Qed.

Lemma split_bit m i pa a : Z.testbit m i = false -> Z.testbit (Z.lor (Z.land pa m) a) i = Z.testbit a i.
Proof. intros E. by rewrite Z.lor_spec, Z.land_spec, E, andb_false_r. Qed.

(** Case analysis on the flags a descriptor depends on. *)
Ltac flag_cases f :=
  unfold make_page_desc, make_block_desc, make_l1_block_desc, or_memory, or_access, or_execute, or_if, mair_of;
  repeat match goal with |- context [has f ?b] => destruct (has f b) end.

Lemma page_desc_addr pa f : pte_addr (make_page_desc pa f) = Z.land pa PTE_ADDR_MASK.
Proof.
  rewrite make_page_desc_split. unfold pte_addr. rewrite split_in, Z.land_diag; [done|]. flag_cases f; reflexivity.
Qed.

Lemma page_desc_type pa f : pte_type (make_page_desc pa f) = PTE_TYPE_PAGE.
Proof. rewrite make_page_desc_split. unfold pte_type. rewrite split_out by done. flag_cases f; reflexivity. Qed.

Lemma page_desc_owned pa f : pmm_owned (make_page_desc pa f) = has f VMM_FLAG_PMM_OWNED.
Proof. rewrite make_page_desc_split. unfold pmm_owned, has. rewrite split_out by done. fold (has f VMM_FLAG_PMM_OWNED). flag_cases f; reflexivity. Qed.

Lemma table_desc_addr pa : pte_addr (make_table_desc pa) = Z.land pa PTE_ADDR_MASK.
Proof. unfold pte_addr, make_table_desc. rewrite Z.lor_comm, split_in, Z.land_diag; done. Qed.

Lemma table_desc_type pa : pte_type (make_table_desc pa) = PTE_TYPE_TABLE.
Proof. unfold pte_type, make_table_desc. rewrite Z.lor_comm, split_out; done. Qed.

(** A block descriptor exists exactly when the flags do not ask for EL0 access. *)
Lemma block_desc_defined pa f : is_Some (make_block_desc pa f) <-> has f VMM_FLAG_USER = false.
Proof. unfold make_block_desc. destruct (has f VMM_FLAG_USER); split; try done. Qed.

Lemma block_desc_spec pa f d :
  make_block_desc pa f = Some d ->
  pte_type d = PTE_TYPE_BLOCK /\ Z.land d BLOCK_ADDR_MASK = Z.land pa BLOCK_ADDR_MASK.
Proof.
  rewrite make_block_desc_split. destruct (make_block_desc 0 f) as [a|] eqn:E; [|done]. intros [= <-].
  assert (Ha : pte_type a = PTE_TYPE_BLOCK /\ Z.land a BLOCK_ADDR_MASK = 0).
  { revert E. flag_cases f; intros [= <-]; vm_compute; auto. }
  destruct Ha as [Ht Hm]. unfold pte_type in *. rewrite split_out, split_in, Z.land_diag by done. done.
Qed.

(** The permissions of a block: never EL0, writable and executable at EL1 as asked. *)
Lemma block_desc_perms pa f d :
  make_block_desc pa f = Some d ->
  el0_can_read d = false /\ el0_can_exec d = false /\ leaf_uxn d = true /\ leaf_nonglobal d = false /\
  leaf_accessed d = true /\ el1_can_write d = has f VMM_FLAG_WRITE /\ leaf_pxn d = negb (has f VMM_FLAG_EXEC).
Proof.
  rewrite make_block_desc_split. destruct (make_block_desc 0 f) as [a|] eqn:E; [|done]. intros [= <-].
  unfold el0_can_read, el0_can_exec, el1_can_write, leaf_el0, leaf_readonly, leaf_uxn, leaf_pxn, leaf_nonglobal, leaf_accessed.
  rewrite !split_bit by done. revert E. flag_cases f; intros [= <-]; vm_compute; auto 10.
Qed.

Lemma page_desc_perms pa f :
  let d := make_page_desc pa f in
  el0_can_read d = has f VMM_FLAG_USER /\
  el0_can_write d = has f VMM_FLAG_USER && has f VMM_FLAG_WRITE /\
  el0_can_exec d = has f VMM_FLAG_USER && has f VMM_FLAG_EXEC /\
  el1_can_write d = has f VMM_FLAG_WRITE /\ leaf_pxn d = negb (has f VMM_FLAG_EXEC) /\
  leaf_nonglobal d = has f VMM_FLAG_USER /\ leaf_accessed d = true.
Proof.
  cbv zeta. rewrite make_page_desc_split.
  unfold el0_can_read, el0_can_write, el0_can_exec, el1_can_write, leaf_el0, leaf_readonly, leaf_uxn, leaf_pxn, leaf_nonglobal, leaf_accessed.
  rewrite !split_bit by done. flag_cases f; vm_compute; auto 10.
Qed.

Lemma page_desc_mair pa f : leaf_mair (make_page_desc pa f) = mair_of f.
Proof.
  unfold leaf_mair. rewrite <- (Z.shiftr_land _ 28 2 : _ = Z.land (Z.shiftr _ 2) 7).
  rewrite make_page_desc_split, split_out by done. flag_cases f; reflexivity.
Qed.

(** Physical addresses of pages are unchanged by the address mask. *)
Lemma mask_page pa : 0 <= pa < 2 ^ 48 -> (PAGE_SIZE | pa) -> Z.land pa PTE_ADDR_MASK = pa.
Proof.
  intros Hpa [k ->]. change PTE_ADDR_MASK with (Z.shiftl (Z.ones 36) 12).
  change PAGE_SIZE with (2 ^ 12) in *. rewrite <- Z.shiftl_mul_pow2, <- Z.shiftl_land, Z.land_ones by lia.
  rewrite Z.mod_small; [done|]. change (2 ^ 48) with (2 ^ 36 * 2 ^ 12) in Hpa. nia.
Qed.

Lemma mask_block pa : 0 <= pa < 2 ^ 48 -> (BLOCK_SIZE | pa) -> Z.land pa BLOCK_ADDR_MASK = pa.
Proof.
  intros Hpa [k ->]. change BLOCK_ADDR_MASK with (Z.shiftl (Z.ones 27) 21).
  change BLOCK_SIZE with (2 ^ 21) in *. rewrite <- Z.shiftl_mul_pow2, <- Z.shiftl_land, Z.land_ones by lia.
  rewrite Z.mod_small; [done|]. change (2 ^ 48) with (2 ^ 27 * 2 ^ 21) in Hpa. nia.
Qed.



End PageDesc.
