(* ===== verification/Vmm.v ===== *)
(** The virtual memory manager of mm/vmm.c: page tables in memory, the kernel's
    2 MB block mappings, the per-task user tables with their 4 KB pages, and the
    order of table stores, TLB invalidations and page frees. *)

From S2P Require Import Prelude.
From S2P Require Import Buddy PageDesc.

Module Vmm.
Import Buddy PageDesc.
Open Scope Z_scope.
Open Scope slm_scope.

(** ** State *)

(** The TLB maintenance instructions the code issues, all broadcast to the inner
    shareable domain: [tlbi vaae1is], [tlbi vmalle1is]. *)
Inductive tlbi_op :=
  | TlbiVa (vpn : Z)
  | TlbiAll.

(** What other observers see of a call, in program order: a store to a table
    entry, a completed TLB invalidation, a page given back to the allocator. *)
Inductive event :=
  | Stored (entry value : Z)
  | Tlbi (op : tlbi_op)
  | Freed (page : Z).

(** [words] is the memory of table entries by physical address: the kernel reaches
    a table through its identity mapping or through [PA_TO_KVA], both of which
    lead to the same word.  [junk] is what the allocator and later owners leave in a
    page that has been freed, per free.  [trace] is newest first. *)
Record vmm := Vmm {
  frames : pmm;
  words : Z -> Z;
  l1_table : Z;
  vmm_initialized : bool;
  blocks_mapped : Z;
  junk : nat -> Z -> Z;
  trace : list event
}.

Definition with_frames (h : pmm) (st : vmm) : vmm :=
  Vmm h (words st) (l1_table st) (vmm_initialized st) (blocks_mapped st) (junk st) (trace st).

Definition with_words (w : Z -> Z) (st : vmm) : vmm :=
  Vmm (frames st) w (l1_table st) (vmm_initialized st) (blocks_mapped st) (junk st) (trace st).

Definition with_blocks (n : Z) (st : vmm) : vmm :=
  Vmm (frames st) (words st) (l1_table st) (vmm_initialized st) n (junk st) (trace st).

Definition emit (e : event) (st : vmm) : vmm :=
  Vmm (frames st) (words st) (l1_table st) (vmm_initialized st) (blocks_mapped st) (junk st) (e :: trace st).

(** [t[i]] of a table of 64-bit entries. *)
Definition entry (t i : Z) : Z := t + 8 * i.

(** A store to an entry, with the [cache_clean_range] that makes it visible to the
    table walker. *)
Definition store (a v : Z) (st : vmm) : vmm := emit (Stored a v) (with_words (<[a := v]> (words st)) st).

(** [pmm_free_pages(page, 1)]: the page is no longer the caller's, and its words
    are whatever its next owners make them. *)
Definition free_frame (p : Z) (st : vmm) : option vmm :=
  h ← pmm_free_pages p 1 (frames st);
  let w := fun a => if (p <=? a) && (a <? p + PAGE_SIZE) then junk st (length (trace st)) a else words st a in
  Some (emit (Freed p) (with_words w (with_frames h st))).

(** [pmm_alloc_pages(1)]: 0 is NULL. *)
Definition alloc_frame (st : vmm) : option (Z * vmm) :=
  '(p, h) ← pmm_alloc_pages 1 (frames st);
  Some (p, with_frames h st).

(** The loop that clears a fresh table. *)
Fixpoint clear_entries (n : nat) (t i : Z) (st : vmm) : vmm :=
  match n with
  | O => st
  | S n => clear_entries n t (i + 1) (store (entry t i) 0 st)
  end.

(** ** TLB maintenance *)

Definition vmm_invalidate_tlb (virt : Z) (st : vmm) : vmm := emit (Tlbi (TlbiVa (Z.shiftr virt 12))) st.

Definition vmm_invalidate_tlb_all (st : vmm) : vmm := emit (Tlbi TlbiAll) st.

(** The loop of single-page invalidations; [n] counts the pages left. *)
Fixpoint tlbi_pages (n : nat) (va : Z) (st : vmm) : vmm :=
  match n with
  | O => st
  | S n => tlbi_pages n (va + PAGE_SIZE) (vmm_invalidate_tlb va st)
  end.

Definition vmm_invalidate_tlb_range (start end_ : Z) (st : vmm) : vmm :=
  let start := Z.ldiff start (PAGE_SIZE - 1) in
  let end_ := Z.ldiff (end_ +64 (PAGE_SIZE - 1)) (PAGE_SIZE - 1) in
  let num_pages := (end_ -64 start) / PAGE_SIZE in
  if (32 <? num_pages) || (end_ <=? start) then vmm_invalidate_tlb_all st
  else tlbi_pages (Z.to_nat num_pages) start st.

(** ** The kernel's block mappings *)

(** The kernel virtual address of the L2 table for [va]; 0 is NULL. *)
Definition get_l2_table (va : Z) (st : vmm) : Z :=
  let l1_entry := words st (entry (l1_table st) (L1_INDEX va)) in
  if negb (pte_type l1_entry =? PTE_TYPE_TABLE) then 0 else PA_TO_KVA (pte_addr l1_entry).

(** [l2[i]] through a kernel virtual address. *)
Definition kva_entry (l2 i : Z) : Z := entry (KVA_TO_PA l2) i.

Definition vmm_map_block_locked (virt phys flags : Z) (st : vmm) : option (Z * vmm) :=
  let l2 := get_l2_table virt st in
  if l2 =? 0 then Some (-1, st)
  else
    let e := kva_entry l2 (L2_INDEX virt) in
    if negb (pte_type (words st e) =? PTE_TYPE_INVALID) then Some (-1, st)
    else
      desc ← make_block_desc phys flags;
      let st := store e desc st in
      let st := with_blocks (blocks_mapped st +32 1) st in
      Some (0, vmm_invalidate_tlb virt st).

Definition vmm_unmap_block_locked (virt : Z) (st : vmm) : Z * vmm :=
  let l2 := get_l2_table virt st in
  if l2 =? 0 then (-1, st)
  else
    let e := kva_entry l2 (L2_INDEX virt) in
    if pte_type (words st e) =? PTE_TYPE_INVALID then (-1, st)
    else
      let st := store e PTE_TYPE_INVALID st in
      let st := with_blocks (blocks_mapped st -32 1) st in
      (0, vmm_invalidate_tlb virt st).

Definition vmm_ensure_kernel_l2_table (virt : Z) (st : vmm) : option (Z * vmm) :=
  if negb (vmm_initialized st) then Some (-1, st)
  else
    let e := entry (l1_table st) (L1_INDEX virt) in
    let l1_type := pte_type (words st e) in
    if l1_type =? PTE_TYPE_TABLE then Some (0, st)
    else if negb (l1_type =? PTE_TYPE_INVALID) then Some (-1, st)
    else
      '(new_l2, st) ← alloc_frame st;
      if new_l2 =? 0 then Some (-1, st)
      else
        let st := clear_entries ENTRIES_PER_TABLE new_l2 0 st in
        let st := store e (make_table_desc new_l2) st in
        Some (0, vmm_invalidate_tlb virt st).

Definition vmm_map_block (virt phys flags : Z) (st : vmm) : option (Z * vmm) :=
  if negb (vmm_initialized st) then Some (-1, st)
  else if negb (Z.land virt (BLOCK_SIZE - 1) =? 0) then Some (-1, st)
  else if negb (Z.land phys (BLOCK_SIZE - 1) =? 0) then Some (-1, st)
  else vmm_map_block_locked virt phys flags st.

Definition vmm_unmap_block (virt : Z) (st : vmm) : Z * vmm :=
  if negb (vmm_initialized st) then (-1, st)
  else if negb (Z.land virt (BLOCK_SIZE - 1) =? 0) then (-1, st)
  else vmm_unmap_block_locked virt st.

(** The rollback loop of [vmm_map_region] over [undo < offset]; [n] blocks are left. *)
Fixpoint unmap_undo (n : nat) (virt undo : Z) (st : vmm) : vmm :=
  match n with
  | O => st
  | S n => unmap_undo n virt (undo + BLOCK_SIZE) (vmm_unmap_block_locked (virt +64 undo) st).2
  end.

(** The mapping loop of [vmm_map_region]; [n] blocks are left. *)
Fixpoint map_blocks (n : nat) (virt phys flags offset : Z) (st : vmm) : option (Z * vmm) :=
  match n with
  | O => Some (0, st)
  | S n =>
      '(ret, st) ← vmm_map_block_locked (virt +64 offset) (phys +64 offset) flags st;
      if negb (ret =? 0) then Some (ret, unmap_undo (Z.to_nat (offset / BLOCK_SIZE)) virt 0 st)
      else map_blocks n virt phys flags (offset + BLOCK_SIZE) st
  end.

Definition vmm_map_region (virt phys size flags : Z) (st : vmm) : option (Z * vmm) :=
  if negb (vmm_initialized st) then Some (-1, st)
  else
    let size := Z.ldiff (size +64 BLOCK_SIZE -64 1) (BLOCK_SIZE - 1) in
    map_blocks (Z.to_nat (size / BLOCK_SIZE)) virt phys flags 0 st.

Definition vmm_virt_to_phys (virt : Z) (st : vmm) : Z :=
  let l1_entry := words st (entry (l1_table st) (L1_INDEX virt)) in
  if pte_type l1_entry =? PTE_TYPE_BLOCK then
    Z.lor (Z.land l1_entry L1_BLOCK_ADDR_MASK) (Z.land virt (L1_BLOCK_SIZE - 1))
  else
    let l2 := get_l2_table virt st in
    if l2 =? 0 then 0
    else
      let e := words st (kva_entry l2 (L2_INDEX virt)) in
      if negb (pte_type e =? PTE_TYPE_BLOCK) then 0
      else Z.lor (Z.land e BLOCK_ADDR_MASK) (Z.land virt (BLOCK_SIZE - 1)).

Definition vmm_is_mapped (virt : Z) (st : vmm) : bool :=
  let l1_entry := words st (entry (l1_table st) (L1_INDEX virt)) in
  if pte_type l1_entry =? PTE_TYPE_BLOCK then true
  else
    let l2 := get_l2_table virt st in
    if l2 =? 0 then false
    else negb (pte_type (words st (kva_entry l2 (L2_INDEX virt))) =? PTE_TYPE_INVALID).

(** ** Per-task user tables *)

(** The loop that mirrors the kernel's L1 entries. *)
Fixpoint copy_entries (n : nat) (from to i : Z) (st : vmm) : vmm :=
  match n with
  | O => st
  | S n => copy_entries n from to (i + 1) (store (entry to i) (words st (entry from i)) st)
  end.

(** The status and [*out_pa]; [out_pa] says whether the pointer is non-NULL. *)
Definition vmm_create_user_l1 (out_pa : bool) (st : vmm) : option (Z * Z * vmm) :=
  if negb out_pa then Some (-1, 0, st)
  else
    '(page, st) ← alloc_frame st;
    if page =? 0 then Some (-1, 0, st)
    else
      let st := copy_entries (Z.to_nat USER_L1_FIRST) (l1_table st) page 0 st in
      let st := clear_entries (Z.to_nat (USER_L1_LIMIT - USER_L1_FIRST)) page USER_L1_FIRST st in
      Some (0, page, st).

(** The table an entry of a user table leads to, installed fresh when the entry is
    invalid: [Some (table, new page or 0)], or [None] inside when there is none. *)
Definition descend (t i : Z) (st : vmm) : option (option (Z * Z) * vmm) :=
  let e := words st (entry t i) in
  if pte_type e =? PTE_TYPE_TABLE then Some (Some (pte_addr e, 0), st)
  else if pte_type e =? PTE_TYPE_INVALID then
    '(page, st) ← alloc_frame st;
    if page =? 0 then Some (None, st)
    else
      let st := clear_entries ENTRIES_PER_TABLE page 0 st in
      Some (Some (page, page), store (entry t i) (make_table_desc page) st)
  else Some (None, st).

(** The rollback of one level of the [fail] path: [page] is the table this call
    installed at [t[i]], or 0. *)
Definition roll_back (t i page : Z) (st : vmm) : option vmm :=
  if page =? 0 then Some st else free_frame page (store (entry t i) 0 st).

Definition vmm_user_map_page (l1_pa va pa flags : Z) (st : vmm) : option (Z * vmm) :=
  if l1_pa =? 0 then Some (-1, st)
  else if (va <? USER_VA_BASE) || (USER_VA_LIMIT <=? va) then Some (-1, st)
  else if negb (Z.land va (PAGE_SIZE - 1) =? 0) then Some (-1, st)
  else if negb (Z.land pa (PAGE_SIZE - 1) =? 0) then Some (-1, st)
  else
    '(r2, st) ← descend l1_pa (L1_INDEX va) st;
    match r2 with
    | None => Some (-1, st)
    | Some (l2, new_l2_page) =>
        '(r3, st) ← descend l2 (L2_INDEX va) st;
        match r3 with
        | None =>
            st ← roll_back l1_pa (L1_INDEX va) new_l2_page st;
            Some (-1, st)
        | Some (l3, new_l3_page) =>
            if negb (pte_type (words st (entry l3 (L3_INDEX va))) =? PTE_TYPE_INVALID) then
              st ← roll_back l2 (L2_INDEX va) new_l3_page st;
              st ← roll_back l1_pa (L1_INDEX va) new_l2_page st;
              Some (-1, st)
            else Some (0, store (entry l3 (L3_INDEX va)) (make_page_desc pa flags) st)
        end
    end.

(** The leaf loop of [vmm_destroy_user_l1]. *)
Fixpoint destroy_l3 (n : nat) (l3 k : Z) (st : vmm) : option vmm :=
  match n with
  | O => Some st
  | S n =>
      let e := words st (entry l3 k) in
      st ← (if negb (pte_type e =? PTE_TYPE_PAGE) then Some st
            else if pmm_owned e then free_frame (pte_addr e) st else Some st);
      destroy_l3 n l3 (k + 1) st
  end.

(** The loop over an L2 table's entries. *)
Fixpoint destroy_l2 (n : nat) (l2 j : Z) (st : vmm) : option vmm :=
  match n with
  | O => Some st
  | S n =>
      let e := words st (entry l2 j) in
      st ← (if negb (pte_type e =? PTE_TYPE_TABLE) then Some st
            else
              st ← destroy_l3 ENTRIES_PER_TABLE (pte_addr e) 0 st;
              free_frame (pte_addr e) st);
      destroy_l2 n l2 (j + 1) st
  end.

(** The loop over the user part of the L1. *)
Fixpoint destroy_l1 (n : nat) (l1 i : Z) (st : vmm) : option vmm :=
  match n with
  | O => Some st
  | S n =>
      let e := words st (entry l1 i) in
      st ← (if negb (pte_type e =? PTE_TYPE_TABLE) then Some st
            else
              st ← destroy_l2 ENTRIES_PER_TABLE (pte_addr e) 0 st;
              free_frame (pte_addr e) st);
      destroy_l1 n l1 (i + 1) st
  end.

Definition vmm_destroy_user_l1 (l1_pa : Z) (st : vmm) : option vmm :=
  if l1_pa =? 0 then Some st
  else
    st ← destroy_l1 (Z.to_nat (USER_L1_LIMIT - USER_L1_FIRST)) l1_pa USER_L1_FIRST st;
    free_frame l1_pa st.

(** The address of the L3 entry for [va]; 0 is NULL. *)
Definition user_l3_entry (l1_pa va : Z) (st : vmm) : Z :=
  if l1_pa =? 0 then 0
  else if (va <? USER_VA_BASE) || (USER_VA_LIMIT <=? va) then 0
  else if negb (Z.land va (PAGE_SIZE - 1) =? 0) then 0
  else
    let l1_entry := words st (entry l1_pa (L1_INDEX va)) in
    if negb (pte_type l1_entry =? PTE_TYPE_TABLE) then 0
    else
      let l2_entry := words st (entry (pte_addr l1_entry) (L2_INDEX va)) in
      if negb (pte_type l2_entry =? PTE_TYPE_TABLE) then 0
      else entry (pte_addr l2_entry) (L3_INDEX va).

(** First pass of [vmm_user_unmap_range]: make the leaves invalid. *)
Fixpoint unmap_invalidate (n : nat) (l1_pa va i rc : Z) (st : vmm) : Z * vmm :=
  match n with
  | O => (rc, st)
  | S n =>
      let e := user_l3_entry l1_pa (va +64 u64 (i * PAGE_SIZE)) st in
      if (e =? 0) || negb (pte_type (words st e) =? PTE_TYPE_PAGE) then unmap_invalidate n l1_pa va (i + 1) (-1) st
      else unmap_invalidate n l1_pa va (i + 1) rc (store e (Z.ldiff (words st e) PTE_TYPE_MASK) st)
  end.

(** Second pass: clear the entries and free the owned pages. *)
Fixpoint unmap_free (n : nat) (l1_pa va i : Z) (st : vmm) : option vmm :=
  match n with
  | O => Some st
  | S n =>
      let e := user_l3_entry l1_pa (va +64 u64 (i * PAGE_SIZE)) st in
      let v := words st e in
      st ← (if (e =? 0) || (v =? 0) || negb (pte_type v =? PTE_TYPE_INVALID) then Some st
            else
              let st := store e 0 st in
              if pmm_owned v then free_frame (pte_addr v) st else Some st);
      unmap_free n l1_pa va (i + 1) st
  end.

Definition vmm_user_unmap_range (l1_pa va pages : Z) (st : vmm) : option (Z * vmm) :=
  if pages =? 0 then Some (0, st)
  else
    let '(rc, st) := unmap_invalidate (Z.to_nat pages) l1_pa va 0 0 st in
    let st := vmm_invalidate_tlb_range va (va +64 u64 (pages * PAGE_SIZE)) st in
    st ← unmap_free (Z.to_nat pages) l1_pa va 0 st;
    Some (rc, st).

Definition vmm_user_unmap_page (l1_pa va : Z) (st : vmm) : option (Z * vmm) :=
  vmm_user_unmap_range l1_pa va 1 st.

End Vmm.
