(* ===== verification/VmmTree.v ===== *)
(** The tree a user L1 table spans: nodes and leaves as functions of the path of
    indices that leads to them, the invariant of a family of user address spaces,
    and how one store to a table entry changes what the paths lead to. *)

From S2P Require Import Prelude.
From S2P Require Import Buddy BuddyInv BuddySpec PmmSpec PageDesc Vmm.

Module VmmTree.
Import Buddy BuddyInv BuddySpec PageDesc Vmm.
Open Scope Z_scope.
Open Scope slm_scope.

(** ** Paths

    A path lists table indices, the deepest first: [[j; i]] is entry [j] of the L2
    table that entry [i] of the L1 leads to. *)

Definition sub (w : Z -> Z) (t i : Z) : option Z :=
  if pte_type (w (entry t i)) =? PTE_TYPE_TABLE then Some (pte_addr (w (entry t i))) else None.

(** Index [i] can follow [p]: below the L1 only its user half is the task's own. *)
Definition step_ok (i : Z) (p : list Z) : bool :=
  (0 <=? i) && (i <? 512) && match p with [] => USER_L1_FIRST <=? i | _ => true end.

(** The table at the end of a path. *)
Fixpoint node (w : Z -> Z) (l1 : Z) (p : list Z) : option Z :=
  match p with
  | [] => Some l1
  | i :: p => t ← node w l1 p; if step_ok i p then sub w t i else None
  end.

(** The entry at the end of a path of three indices, 0 when a level is missing. *)
Definition leafv (w : Z -> Z) (l1 : Z) (p : list Z) : Z :=
  match p with
  | k :: p => match node w l1 p with Some t => if step_ok k p then w (entry t k) else 0 | None => 0 end
  | [] => 0
  end.

(** The page of the allocator that the end of a path stands for: a table, or the
    page of a leaf the space owns. *)
Definition frame (w : Z -> Z) (l1 : Z) (p : list Z) : option Z :=
  if (length p <=? 2)%nat then node w l1 p
  else if (length p =? 3)%nat && pmm_owned (leafv w l1 p) then Some (pte_addr (leafv w l1 p))
  else None.

(** The invariant of the address spaces [Ls].  [H] holds of the leaves that are
    being torn down: no longer valid, not yet cleared. *)
Record tables_ok (h : pmm) (w : Z -> Z) (Ls : list Z) (H : Z -> list Z -> Prop) : Prop := {
  t_inv : inv h;
  t_top : heap_end h <= 2 ^ 48;
  t_alloc : forall l1 p a, l1 ∈ Ls -> frame w l1 p = Some a -> is_allocated h 0 a;
  t_inj : forall l1 l1' p p' a, l1 ∈ Ls -> l1' ∈ Ls -> frame w l1 p = Some a -> frame w l1' p' = Some a ->
    l1 = l1' /\ p = p';
  t_types : forall l1 p t i, l1 ∈ Ls -> (length p <= 1)%nat -> node w l1 p = Some t -> step_ok i p = true ->
    w (entry t i) = 0 \/ pte_type (w (entry t i)) = PTE_TYPE_TABLE;
  t_leaf : forall l1 p, l1 ∈ Ls -> length p = 3%nat ->
    leafv w l1 p = 0 \/ pte_type (leafv w l1 p) = PTE_TYPE_PAGE \/
    pte_type (leafv w l1 p) = PTE_TYPE_INVALID /\ H l1 p
}.

Definition settled : Z -> list Z -> Prop := fun _ _ => False.

(** ** Arithmetic of entries *)

Lemma step_ok_range i p : step_ok i p = true -> 0 <= i < 512.
Proof. unfold step_ok. lia. Qed.

Lemma entry_in_page a i : 0 <= i < 512 -> in_block a 0 (entry a i).
Proof. unfold in_block, entry. rewrite bsize_0. unfold PAGE_SIZE. lia. Qed.

Lemma entry_inj a b i j :
  aligned 0 a -> aligned 0 b -> 0 <= i < 512 -> 0 <= j < 512 -> entry a i = entry b j -> a = b /\ i = j.
Proof.
  intros Ha Hb Hi Hj E. assert (a = b) as ->.
  { apply (dyadic_eq a b 0 (entry a i)); [done|done|by apply entry_in_page|rewrite E; by apply entry_in_page]. }
  unfold entry in E. lia.
Qed.

Lemma frame_node w l1 p : (length p <= 2)%nat -> frame w l1 p = node w l1 p.
Proof. intros Hp. unfold frame. by rewrite (proj2 (Nat.leb_le _ _)). Qed.

Lemma frame_leaf w l1 p :
  length p = 3%nat -> frame w l1 p = if pmm_owned (leafv w l1 p) then Some (pte_addr (leafv w l1 p)) else None.
Proof. intros Hp. unfold frame. by rewrite Hp. Qed.

Lemma frame_deep w l1 p : (3 < length p)%nat -> frame w l1 p = None.
Proof.
  intros Hp. unfold frame. rewrite (proj2 (Nat.leb_gt _ _)), (proj2 (Nat.eqb_neq _ _)) by lia. done.
Qed.

Lemma node_cons w l1 i p t :
  node w l1 p = Some t -> node w l1 (i :: p) = if step_ok i p then sub w t i else None.
Proof. intros E. cbn [node]. by rewrite E. Qed.

Lemma leafv_cons w l1 k p t :
  node w l1 p = Some t -> step_ok k p = true -> leafv w l1 (k :: p) = w (entry t k).
Proof. intros E Hs. unfold leafv. by rewrite E, Hs. Qed.

Lemma node_parent w l1 i p a : node w l1 (i :: p) = Some a -> exists t, node w l1 p = Some t /\ step_ok i p = true /\ sub w t i = Some a.
Proof. cbn [node]. destruct (node w l1 p) as [t|]; [|done]. cbn. destruct (step_ok i p) eqn:Hs; [|done]. eauto. Qed.

Lemma sub_zero w t i : w (entry t i) = 0 -> sub w t i = None.
Proof. intros E. unfold sub. by rewrite E. Qed.

(** ** Memory that agrees on the tables *)

(** [w] and [w'] show the same tree under [l1]. *)
Definition same_tree (w w' : Z -> Z) (l1 : Z) : Prop :=
  (forall p, (length p <= 2)%nat -> node w' l1 p = node w l1 p) /\
  (forall p, length p = 3%nat -> leafv w' l1 p = leafv w l1 p).

Lemma tree_frame w w' l1 p : same_tree w w' l1 -> frame w' l1 p = frame w l1 p.
Proof.
  intros [Hn Hl]. destruct (decide (length p <= 2)%nat).
  - rewrite !frame_node by done. auto.
  - destruct (decide (length p = 3%nat)); [rewrite !frame_leaf by done; by rewrite Hl|by rewrite !frame_deep by lia].
Qed.

Lemma agree_tree w w' l1 :
  (forall p t i, (length p <= 2)%nat -> node w l1 p = Some t -> 0 <= i < 512 -> w' (entry t i) = w (entry t i)) ->
  same_tree w w' l1.
Proof.
  intros Hag. assert (Hn : forall p, (length p <= 2)%nat -> node w' l1 p = node w l1 p).
  { induction p as [|i p IH]; intros Hp; [done|]. cbn [length] in Hp. cbn [node]. rewrite IH by lia.
    destruct (node w l1 p) as [t|] eqn:E; [|done]. cbn. destruct (step_ok i p) eqn:Hs; [|done].
    unfold sub. rewrite (Hag p t i) by (done || lia || by eapply step_ok_range). done. }
  split; [done|]. intros [|k p] Hp; [done|]. cbn [length] in Hp. unfold leafv. rewrite Hn by lia.
  destruct (node w l1 p) as [t|] eqn:E; [|done]. destruct (step_ok k p) eqn:Hs; [|done].
  apply (Hag p); [lia|done|by eapply step_ok_range].
Qed.

Section tables.
Context (h : pmm) (w : Z -> Z) (Ls : list Z) (H : Z -> list Z -> Prop).
Context (T : tables_ok h w Ls H).

Lemma node_allocated l1 p t : l1 ∈ Ls -> (length p <= 2)%nat -> node w l1 p = Some t -> is_allocated h 0 t.
Proof. intros Hl Hp Hn. eapply (t_alloc _ _ _ _ T); [done|]. by rewrite (frame_node w l1 p). Qed.

Lemma allocated_aligned a : is_allocated h 0 a -> aligned 0 a.
Proof. by intros []. Qed.

Lemma allocated_bounds a : is_allocated h 0 a -> 0 < a < 2 ^ 48.
Proof.
  intros (_ & Hlo & Hhi & _). destruct (t_inv _ _ _ _ T) as (_ & [L HL] & _).
  pose proof (g_pos _ (b_geom _ _ _ HL)). pose proof (t_top _ _ _ _ T). pose proof (bsize_pos 0). lia.
Qed.

Lemma allocated_addr a : is_allocated h 0 a -> Z.land a PTE_ADDR_MASK = a.
Proof.
  intros Ha. apply mask_page; [pose proof (allocated_bounds a Ha); lia|]. rewrite <- bsize_0. by apply allocated_aligned.
Qed.

(** Two tables are the same or apart. *)
Lemma node_inj l1 l1' p p' t t' i i' :
  l1 ∈ Ls -> l1' ∈ Ls -> (length p <= 2)%nat -> (length p' <= 2)%nat ->
  node w l1 p = Some t -> node w l1' p' = Some t' -> 0 <= i < 512 -> 0 <= i' < 512 -> entry t i = entry t' i' ->
  l1 = l1' /\ i :: p = i' :: p'.
Proof.
  intros Hl Hl' Hp Hp' Hn Hn' Hi Hi' E.
  destruct (entry_inj t t' i i') as [-> ->]; try done;
    [by apply allocated_aligned, (node_allocated l1 p)|by apply allocated_aligned, (node_allocated l1' p')|].
  destruct (t_inj _ _ _ _ T l1 l1' p p' t') as [-> ->]; try done; by rewrite frame_node.
Qed.

(** A store to one entry is seen only below that entry. *)
Lemma node_store l1 p t i v l1' q :
  l1 ∈ Ls -> l1' ∈ Ls -> (length p <= 2)%nat -> node w l1 p = Some t -> 0 <= i < 512 ->
  (length q <= 3)%nat -> ~ (l1' = l1 /\ (i :: p) `suffix_of` q) ->
  node (<[entry t i := v]> w) l1' q = node w l1' q.
Proof.
  intros Hl Hl' Hp Hn Hi. induction q as [|j q IH]; intros Hq Hns; [done|]. cbn [length] in Hq. cbn [node].
  rewrite IH; [|lia|intros [-> Hs]; apply Hns; split; [done|by apply suffix_cons_r]].
  destruct (node w l1' q) as [t'|] eqn:E; [|done]. cbn. destruct (step_ok j q) eqn:Hs; [|done].
  unfold sub. rewrite fn_lookup_insert_ne; [done|]. intros Ee. apply Hns.
  destruct (node_inj l1 l1' p q t t' i j) as [-> ->]; try done; [lia|by eapply step_ok_range].
Qed.

Lemma leafv_store l1 p t i v l1' q :
  l1 ∈ Ls -> l1' ∈ Ls -> (length p <= 2)%nat -> node w l1 p = Some t -> 0 <= i < 512 ->
  length q = 3%nat -> ~ (l1' = l1 /\ (i :: p) `suffix_of` q) ->
  leafv (<[entry t i := v]> w) l1' q = leafv w l1' q.
Proof.
  intros Hl Hl' Hp Hn Hi Hq Hns. destruct q as [|k q]; [done|]. cbn [length] in Hq. unfold leafv.
  rewrite (node_store l1 p t i v l1' q); try done; try lia.
  2:{ intros [-> Hs]; apply Hns; split; [done|by apply suffix_cons_r]. }
  destruct (node w l1' q) as [t'|] eqn:E; [|done]. destruct (step_ok k q) eqn:Hs; [|done].
  apply fn_lookup_insert_ne. intros Ee. apply Hns.
  destruct (node_inj l1 l1' p q t t' i k) as [-> ->]; try done; [lia|by eapply step_ok_range].
Qed.

(** Memory outside the tables is no part of the tree. *)
Lemma outside_tree w' l1 :
  l1 ∈ Ls ->
  (forall p t x, (length p <= 2)%nat -> node w l1 p = Some t -> in_block t 0 x -> w' x = w x) ->
  same_tree w w' l1.
Proof. intros Hl Hag. apply agree_tree. intros p t i Hp Hn Hi. apply (Hag p t); [done|done|by apply entry_in_page]. Qed.

(** Tables that are read as before, frames that are still allocated. *)
Lemma tables_agree h' w' :
  (forall l1 p t i, l1 ∈ Ls -> (length p <= 2)%nat -> node w l1 p = Some t -> 0 <= i < 512 -> w' (entry t i) = w (entry t i)) ->
  inv h' -> heap_end h' = heap_end h ->
  (forall l1 p a, l1 ∈ Ls -> frame w l1 p = Some a -> is_allocated h' 0 a) ->
  tables_ok h' w' Ls H.
Proof.
  intros Hag Hinv Hend Hal.
  assert (Hsame : forall l1, l1 ∈ Ls -> same_tree w w' l1) by (intros l1 Hl; apply agree_tree; intros; by apply (Hag l1 p)).
  split; try done.
  - rewrite Hend. apply (t_top _ _ _ _ T).
  - intros l1 p a Hl. rewrite (tree_frame _ _ _ _ (Hsame l1 Hl)). by apply Hal.
  - intros l1 l1' p p' a Hl Hl'. rewrite (tree_frame _ _ _ p (Hsame l1 Hl)), (tree_frame _ _ _ p' (Hsame l1' Hl')).
    by apply (t_inj _ _ _ _ T).
  - intros l1 p t i Hl Hp Hn Hs. rewrite (proj1 (Hsame l1 Hl)) in Hn by lia.
    rewrite (Hag l1 p t i) by (done || lia || by eapply step_ok_range). by apply (t_types _ _ _ _ T l1 p).
  - intros l1 p Hl Hp. rewrite (proj2 (Hsame l1 Hl)) by done. by apply (t_leaf _ _ _ _ T).
Qed.

(** One leaf is rewritten. *)
Lemma leaf_update l1 p t k v :
  l1 ∈ Ls -> length p = 2%nat -> node w l1 p = Some t -> step_ok k p = true ->
  let w' := <[entry t k := v]> w in
  (forall l1' q, l1' ∈ Ls -> (length q <= 2)%nat -> node w' l1' q = node w l1' q) /\
  (forall l1' q, l1' ∈ Ls -> length q = 3%nat ->
     leafv w' l1' q = if decide (l1' = l1 /\ q = k :: p) then v else leafv w l1' q).
Proof.
  intros Hl Hp Hn Hs w'. pose proof (step_ok_range _ _ Hs) as Hk.
  assert (Hnode : forall l1' q, l1' ∈ Ls -> (length q <= 2)%nat -> node w' l1' q = node w l1' q).
  { intros l1' q Hl' Hq. apply (node_store l1 p t k v); try done; try lia.
    intros [_ Hsuf]. apply suffix_length in Hsuf. cbn [length] in Hsuf. lia. }
  split; [done|]. intros l1' q Hl' Hq. case_decide as E.
  - destruct E as [-> ->]. rewrite (leafv_cons _ _ _ _ t) by (done || rewrite Hnode by (done || lia); done). apply fn_lookup_insert.
  - apply (leafv_store l1 p); try done; [lia|]. intros [-> Hsuf]. apply E. split; [done|].
    destruct Hsuf as [pre ->]. rewrite length_app in Hq. cbn [length] in Hq. by destruct pre; [|simpl in Hq; lia].
Qed.

Lemma leaf_update_ok l1 p t k v (H' : Z -> list Z -> Prop) :
  l1 ∈ Ls -> length p = 2%nat -> node w l1 p = Some t -> step_ok k p = true ->
  (pmm_owned v = true -> is_allocated h 0 (pte_addr v) /\
     forall l1' q, l1' ∈ Ls -> frame w l1' q = Some (pte_addr v) -> l1' = l1 /\ q = k :: p) ->
  (v = 0 \/ pte_type v = PTE_TYPE_PAGE \/ pte_type v = PTE_TYPE_INVALID /\ H' l1 (k :: p)) ->
  (forall l1' q, ~ (l1' = l1 /\ q = k :: p) -> H l1' q -> H' l1' q) ->
  tables_ok h (<[entry t k := v]> w) Ls H'.
Proof.
  intros Hl Hp Hn Hs Hown Htype HH'. destruct (leaf_update l1 p t k v Hl Hp Hn Hs) as [Hnode Hleaf].
  set (w' := <[entry t k := v]> w) in *.
  assert (Hframe : forall l1' q a, l1' ∈ Ls -> frame w' l1' q = Some a ->
    l1' = l1 /\ q = k :: p /\ pmm_owned v = true /\ a = pte_addr v \/ ~ (l1' = l1 /\ q = k :: p) /\ frame w l1' q = Some a).
  { intros l1' q a Hl'. destruct (decide (length q <= 2)%nat) as [Hq|Hq].
    - rewrite !frame_node, Hnode by done. intros Ha. right. split; [|done]. intros [-> ->]. cbn [length] in Hq. lia.
    - destruct (decide (length q = 3%nat)) as [E3|]; [|by rewrite frame_deep by lia].
      rewrite !frame_leaf, Hleaf by done. case_decide as E; [|by right]. destruct E as [-> ->].
      destruct (pmm_owned v) eqn:Ev; [|done]. intros [= <-]. by left. }
  split; try apply T.
  - intros l1' q a Hl' Ha. apply Hframe in Ha as [(-> & -> & Ho & ->)|[_ Ha]]; [by apply Hown|by eapply (t_alloc _ _ _ _ T)|done].
  - intros l2 l3 q q' a H2 H3 Ha Ha'.
    apply Hframe in Ha as [(-> & -> & Ho & ->)|[N Ha]]; [|..|done];
      (apply Hframe in Ha' as [(-> & -> & Ho' & E)|[N' Ha']]; [|..|done]); [done|..].
    + exfalso. apply N'. by apply (proj2 (Hown Ho)).
    + subst a. exfalso. apply N. by apply (proj2 (Hown Ho')).
    + by apply (t_inj _ _ _ _ T l2 l3 q q' a).
  - intros l1' q t' i Hl' Hq Hn' Hs'. rewrite Hnode in Hn' by (done || lia).
    unfold w'. rewrite fn_lookup_insert_ne; [by apply (t_types _ _ _ _ T l1' q)|]. intros E.
    destruct (node_inj l1 l1' p q t t' k i) as [_ [= _ ->]]; try done; [lia|lia|by eapply step_ok_range|by eapply step_ok_range|lia].
  - intros l1' q Hl' Hq. rewrite Hleaf by done. case_decide as E; [destruct E as [-> ->]; done|].
    destruct (t_leaf _ _ _ _ T l1' q Hl' Hq) as [?|[?|[? ?]]]; auto.
Qed.

(** A fresh, cleared page becomes a table. *)
Lemma install_table l1 p t i a :
  l1 ∈ Ls -> (length p <= 1)%nat -> node w l1 p = Some t -> step_ok i p = true -> w (entry t i) = 0 ->
  is_allocated h 0 a -> (forall l1' q, l1' ∈ Ls -> frame w l1' q <> Some a) ->
  (forall j, 0 <= j < 512 -> w (entry a j) = 0) ->
  let w' := <[entry t i := make_table_desc a]> w in
  (forall l1' q, l1' ∈ Ls -> (length q <= 2)%nat ->
     node w' l1' q = if decide (l1' = l1 /\ q = i :: p) then Some a else node w l1' q) /\
  (forall l1' q, l1' ∈ Ls -> length q = 3%nat -> leafv w' l1' q = leafv w l1' q).
Proof.
  intros Hl Hp Hn Hs H0 Ha Hfresh Hz w'. pose proof (step_ok_range _ _ Hs) as Hi.
  assert (Hap : forall j, 0 <= j < 512 -> entry a j <> entry t i).
  { intros j Hj E. pose proof (node_allocated l1 p t Hl ltac:(lia) Hn) as Ht.
    destruct (entry_inj a t j i (allocated_aligned _ Ha) (allocated_aligned _ Ht) Hj Hi E) as [-> _].
    apply (Hfresh l1 p); [done|]. by rewrite frame_node by lia. }
  assert (Hself : node w' l1 (i :: p) = Some a).
  { rewrite (node_cons _ _ _ _ t), Hs.
    - unfold sub, w'. by rewrite fn_lookup_insert, table_desc_type, table_desc_addr, allocated_addr.
    - unfold w'. rewrite (node_store l1 p t i); try done; try lia. intros [_ Hsuf%suffix_length]. cbn [length] in Hsuf. lia. }
  assert (Hnone : node w l1 (i :: p) = None) by (rewrite (node_cons _ _ _ _ t), Hs by done; by apply sub_zero).
  assert (Hbelow : forall j, node w' l1 (j :: i :: p) = None).
  { intros j. rewrite (node_cons _ _ _ _ a) by done. destruct (step_ok j (i :: p)) eqn:Hsj; [|done].
    apply sub_zero. unfold w'. apply step_ok_range in Hsj. rewrite fn_lookup_insert_ne; [by apply Hz|]. by apply not_eq_sym, Hap. }
  split.
  - intros l1' q Hl' Hq. case_decide as E; [by destruct E as [-> ->]|].
    destruct (decide (l1' = l1 /\ (i :: p) `suffix_of` q)) as [[-> [pre ->]]|Hns]; [|by apply (node_store l1 p); (done || lia)].
    destruct pre as [|j [|]]; [by destruct E| |rewrite length_app in Hq; simpl in Hq; lia].
    cbn [app]. rewrite Hbelow. symmetry. cbn [node]. cbn [node] in Hnone. by rewrite Hnone.
  - intros l1' q Hl' Hq. destruct (decide (l1' = l1 /\ (i :: p) `suffix_of` q)) as [[-> [pre ->]]|Hns]; [|by apply (leafv_store l1 p); (done || lia)].
    destruct pre as [|k [|j [|]]]; cbn [app].
    + simpl in Hq. lia.
    + unfold leafv at 2. rewrite Hnone. unfold leafv. rewrite Hself. destruct (step_ok k (i :: p)) eqn:Hsk; [|done].
      apply step_ok_range in Hsk. unfold w'. rewrite fn_lookup_insert_ne; [by apply Hz|]. by apply not_eq_sym, Hap.
    + unfold leafv. rewrite Hbelow. cbn [node]. cbn [node] in Hnone. by rewrite Hnone.
    + rewrite length_app in Hq. simpl in Hq. lia.
Qed.

Lemma install_table_ok l1 p t i a :
  l1 ∈ Ls -> (length p <= 1)%nat -> node w l1 p = Some t -> step_ok i p = true -> w (entry t i) = 0 ->
  is_allocated h 0 a -> (forall l1' q, l1' ∈ Ls -> frame w l1' q <> Some a) ->
  (forall j, 0 <= j < 512 -> w (entry a j) = 0) ->
  tables_ok h (<[entry t i := make_table_desc a]> w) Ls H.
Proof.
  intros Hl Hp Hn Hs H0 Ha Hfresh Hz.
  destruct (install_table l1 p t i a Hl Hp Hn Hs H0 Ha Hfresh Hz) as [Hnode Hleaf].
  set (w' := <[entry t i := make_table_desc a]> w) in *.
  assert (Hframe : forall l1' q x, l1' ∈ Ls -> frame w' l1' q = Some x ->
    (l1' = l1 /\ q = i :: p) /\ x = a \/ frame w l1' q = Some x).
  { intros l1' q x Hl'. destruct (decide (length q <= 2)%nat) as [Hq|Hq].
    - rewrite !frame_node, Hnode by done. case_decide as E; [|by right]. intros [= <-]. by left.
    - destruct (decide (length q = 3%nat)) as [E3|]; [|by rewrite frame_deep by lia].
      rewrite !frame_leaf, Hleaf by done. by right. }
  split; try apply T.
  - intros l1' q x Hl' Hx. apply Hframe in Hx as [[_ ->]|Hx]; [done|by eapply (t_alloc _ _ _ _ T)|done].
  - intros l2 l3 q q' x H2 H3 Hx Hx'. apply Hframe in Hx as [[[-> ->] ->]|Hx]; [|..|done];
      (apply Hframe in Hx' as [[[-> ->] Ex]|Hx']; [|..|done]); try done; try subst x; [by destruct (Hfresh l3 q')|by destruct (Hfresh l2 q)|].
    by apply (t_inj _ _ _ _ T l2 l3 q q' x).
  - intros l1' q t' j Hl' Hq Hn' Hs'. rewrite Hnode in Hn' by (done || lia). case_decide as E.
    + destruct E as [-> ->]. injection Hn' as <-. left. apply step_ok_range in Hs'. unfold w'.
      rewrite fn_lookup_insert_ne; [by apply Hz|]. intros E.
      pose proof (node_allocated l1 p t Hl ltac:(lia) Hn) as Ht.
      destruct (entry_inj t a i j (allocated_aligned _ Ht) (allocated_aligned _ Ha) (step_ok_range _ _ Hs) Hs' E) as [-> _].
      apply (Hfresh l1 p); [done|]. by rewrite frame_node by lia.
    + unfold w'. rewrite fn_lookup_insert_Z. case_decide as E'; [right; by apply table_desc_type|by apply (t_types _ _ _ _ T l1' q)].
  - intros l1' q Hl' Hq. rewrite Hleaf by done. by apply (t_leaf _ _ _ _ T).
Qed.

End tables.

End VmmTree.
