(* ===== verification/VmmUser.v ===== *)
(** Per-task user address spaces: creation, mapping, unmapping and destruction of
    mm/vmm.c against the tree of VmmTree, one specification per operation. *)

From S2P Require Import Prelude.
From S2P Require Import FreeList Buddy BuddyInv BuddyStep BuddySpec PmmSpec PageDesc Vmm VmmTree.

Module VmmUser.
Import Buddy BuddyInv BuddySpec PageDesc Vmm VmmTree.
Open Scope Z_scope.
Open Scope slm_scope.

(** ** Addresses and paths *)

Definition path_of (va : Z) : list Z := [L3_INDEX va; L2_INDEX va; L1_INDEX va].

(** A page-aligned address of the user window. *)
Definition user_page (va : Z) : Prop := USER_VA_BASE <= va < USER_VA_LIMIT /\ (PAGE_SIZE | va).

#[export] Instance user_page_dec va : Decision (user_page va).
Proof.
  refine (cast_if (decide (USER_VA_BASE <= va < USER_VA_LIMIT /\ va mod PAGE_SIZE = 0)));
    unfold user_page; by rewrite <- Z.mod_divide.
Defined.

(** What the hardware walk from [l1] finds at [va]: a valid leaf, or nothing. *)
Definition translate (w : Z -> Z) (l1 va : Z) : option Z :=
  let e := leafv w l1 (path_of va) in
  if pte_type e =? PTE_TYPE_PAGE then Some e else None.

Lemma L1_INDEX_eq va : L1_INDEX va = (va / 2 ^ 30) mod 512.
Proof. unfold L1_INDEX. change 0x1FF with (Z.ones 9). by rewrite Z.land_ones, Z.shiftr_div_pow2 by lia. Qed.

Lemma L2_INDEX_eq va : L2_INDEX va = (va / 2 ^ 21) mod 512.
Proof. unfold L2_INDEX. change 0x1FF with (Z.ones 9). by rewrite Z.land_ones, Z.shiftr_div_pow2 by lia. Qed.

Lemma L3_INDEX_eq va : L3_INDEX va = (va / 2 ^ 12) mod 512.
Proof. unfold L3_INDEX. change 0x1FF with (Z.ones 9). by rewrite Z.land_ones, Z.shiftr_div_pow2 by lia. Qed.

Lemma window_steps va :
  USER_VA_BASE <= va < USER_VA_LIMIT ->
  step_ok (L1_INDEX va) [] = true /\ step_ok (L2_INDEX va) [L1_INDEX va] = true /\
  step_ok (L3_INDEX va) [L2_INDEX va; L1_INDEX va] = true.
Proof.
  rewrite L1_INDEX_eq, L2_INDEX_eq, L3_INDEX_eq. unfold USER_VA_BASE, USER_VA_LIMIT, USER_L1_FIRST, USER_L1_LIMIT, L1_BLOCK_SIZE.
  intros Hva. unfold step_ok, USER_L1_FIRST.
  pose proof (Z.mod_pos_bound (va / 2 ^ 21) 512 ltac:(lia)). pose proof (Z.mod_pos_bound (va / 2 ^ 12) 512 ltac:(lia)).
  assert (256 <= va / 2 ^ 30 < 512) by (split; [apply Z.div_le_lower_bound|apply Z.div_lt_upper_bound]; lia).
  rewrite (Z.mod_small (va / 2 ^ 30)) by lia. lia.
Qed.

(** A page of the window is determined by its path. *)
Lemma path_of_inj va va' : user_page va -> user_page va' -> path_of va = path_of va' -> va = va'.
Proof.
  unfold user_page, path_of, USER_VA_BASE, USER_VA_LIMIT, USER_L1_FIRST, USER_L1_LIMIT, L1_BLOCK_SIZE.
  intros [Hva [q ->]] [Hva' [q' ->]]. rewrite !L1_INDEX_eq, !L2_INDEX_eq, !L3_INDEX_eq.
  change PAGE_SIZE with (2 ^ 12) in *. change (2 ^ 30) with (2 ^ 12 * 2 ^ 18). change (2 ^ 21) with (2 ^ 12 * 2 ^ 9).
  rewrite <- !Z.div_div, !Z.div_mul by lia. intros [= E3 E2 E1].
  assert (0 <= q < 512 * (512 * 512) /\ 0 <= q' < 512 * (512 * 512)) as [Hq Hq'] by lia.
  change (2 ^ 9) with 512 in *. change (2 ^ 18) with (512 * 512) in *. rewrite <- !Z.div_div in E1 by lia.
  assert (Hsmall : forall x, 0 <= x < 512 * (512 * 512) -> 0 <= x / 512 / 512 < 512).
  { intros x Hx. rewrite Z.div_div by lia. split; [apply Z.div_pos|apply Z.div_lt_upper_bound]; lia. }
  rewrite (Z.mod_small (q / 512 / 512)), (Z.mod_small (q' / 512 / 512)) in E1 by auto.
  pose proof (Z.div_mod q 512). pose proof (Z.div_mod q' 512).
  pose proof (Z.div_mod (q / 512) 512). pose proof (Z.div_mod (q' / 512) 512). lia.
Qed.

(** ** The primitive steps *)

(** The parts of the state no operation on user tables changes. *)
Definition statics (st st' : vmm) : Prop :=
  l1_table st' = l1_table st /\ vmm_initialized st' = vmm_initialized st /\
  blocks_mapped st' = blocks_mapped st /\ junk st' = junk st /\
  heap_start (frames st') = heap_start (frames st) /\ heap_end (frames st') = heap_end (frames st).

Lemma statics_refl st : statics st st.
Proof. done. Qed.

Lemma statics_trans st1 st2 st3 : statics st1 st2 -> statics st2 st3 -> statics st1 st3.
Proof. intros (? & ? & ? & ? & ? & ?) (? & ? & ? & ? & ? & ?). split_and!; congruence. Qed.

Lemma clear_entries_spec n t i st :
  let st' := clear_entries n t i st in
  frames st' = frames st /\ statics st st' /\
  (forall j, i <= j < i + Z.of_nat n -> words st' (entry t j) = 0) /\
  (forall x, (forall j, i <= j < i + Z.of_nat n -> x <> entry t j) -> words st' x = words st x).
Proof.
  revert i st. induction n as [|n IH]; intros i st; cbn [clear_entries]; [split_and!; try done; lia|].
  destruct (IH (i + 1) (store (entry t i) 0 st)) as (E1 & E2 & E3 & E4). cbv zeta.
  assert (Hout : forall x, (forall j, i + 1 <= j < i + 1 + Z.of_nat n -> x <> entry t j) ->
    words (clear_entries n t (i + 1) (store (entry t i) 0 st)) x = if decide (x = entry t i) then 0 else words st x).
  { intros x Hx. rewrite E4 by done. cbn [store emit with_words words]. by rewrite fn_lookup_insert_Z. }
  split_and!; try done.
  - intros j Hj. destruct (decide (j = i)) as [->|]; [|apply E3; lia]. rewrite Hout; [by rewrite decide_True|].
    unfold entry. lia.
  - intros x Hx. rewrite Hout; [|intros j Hj; apply Hx; lia]. rewrite decide_False; [done|]. apply Hx. lia.
Qed.

(** Clearing a whole table clears its page and nothing else. *)
Lemma clear_table_spec t st :
  let st' := clear_entries ENTRIES_PER_TABLE t 0 st in
  frames st' = frames st /\ statics st st' /\
  (forall j, 0 <= j < 512 -> words st' (entry t j) = 0) /\
  (forall x, ~ in_block t 0 x -> words st' x = words st x).
Proof.
  pose proof (clear_entries_spec ENTRIES_PER_TABLE t 0 st) as HC. cbv zeta in *.
  change (Z.of_nat ENTRIES_PER_TABLE) with 512 in HC. revert HC. generalize (clear_entries ENTRIES_PER_TABLE t 0 st).
  intros st' (E1 & E2 & E3 & E4). split_and!; try done; try apply E2.
  intros x Hx. apply E4. intros j Hj ->. apply Hx, entry_in_page. lia.
Qed.

Lemma exhausted_zero h : inv h -> exhausted h 0 -> free_pages h = 0.
Proof.
  intros (_ & [L HL] & ->) Hex. pose proof (b_geom _ _ _ HL) as Hg. pose proof (g_pos _ Hg).
  destruct (decide (filter (fun v => v = BLOCK_FREE) (block_state h) = [])) as [E|Hne]; [unfold count_free; by rewrite E|].
  exfalso. destruct (filter _ (block_state h)) as [|v l] eqn:E; [done|].
  assert (Hv : v ∈ filter (fun v => v = BLOCK_FREE) (block_state h)) by (rewrite E; by left).
  apply list_elem_of_filter in Hv as [-> Hv]. apply list_elem_of_lookup in Hv as [i Hi].
  apply (Hex (heap_start h + Z.of_nat i * PAGE_SIZE)).
  - unfold aligned. rewrite bsize_0. apply Z.divide_add_r; [apply (g_start _ Hg)|by exists (Z.of_nat i)].
  - intros x Hx. unfold in_block in Hx. rewrite bsize_0 in Hx. unfold is_free. split; [unfold PAGE_SIZE in *; lia|].
    replace (Z.to_nat _) with i; [done|].
    assert ((x - heap_start h) / PAGE_SIZE = Z.of_nat i) as ->; [|lia]. unfold PAGE_SIZE in *.
    symmetry. apply Z.div_unique with (x - heap_start h - Z.of_nat i * 4096); lia.
Qed.

Lemma order_page : order_for 1 = 0%nat.
Proof. reflexivity. Qed.

Lemma alloc_frame_spec st :
  inv (frames st) ->
  exists p st', alloc_frame st = Some (p, st') /\
    (p = 0 /\ st' = st /\ free_pages (frames st) = 0 \/
     p <> 0 /\ st' = with_frames (frames st') st /\ inv (frames st') /\ allocated (frames st) (frames st') 0 p).
Proof.
  intros Hinv. unfold alloc_frame.
  destruct (PmmSpec.alloc_pages_spec 1 (frames st) Hinv) as (p & h' & -> & Hinv' & Hres); [lia|].
  rewrite order_page in Hres. cbn. exists p, (with_frames h' st). split; [done|].
  destruct Hres as [(Hp & _ & Ha)|(-> & -> & [Hx|Hx])]; [by right|unfold FreeList.MAX_ORDER in Hx; lia|left].
  split_and!; [done|by destruct st|by apply exhausted_zero].
Qed.

Lemma alloc_statics st st' o a : st' = with_frames (frames st') st -> allocated (frames st) (frames st') o a -> statics st st'.
Proof. intros -> (_ & _ & _ & _ & _ & ? & ? & _). done. Qed.

(** A page that has just been allocated was in use by nobody. *)
Lemma alloc_keeps h h' a p :
  allocated h h' 0 a -> is_allocated h 0 p -> is_allocated h' 0 p /\ p <> a.
Proof.
  intros (Hal & Hlo & Hhi & Hfr & Hf & Hs & He & _) (Hp & Hplo & Hphi & Hnf). split.
  - split_and!; [done|by rewrite Hs|by rewrite He|]. intros x Hx Hx'. apply Hf in Hx' as [Hx' _]. by apply (Hnf x).
  - intros ->. apply (Hnf a); [|apply Hfr]; unfold in_block; pose proof (bsize_pos 0); lia.
Qed.

Lemma alloc_is_allocated h h' a : allocated h h' 0 a -> is_allocated h' 0 a.
Proof.
  intros (Hal & Hlo & Hhi & Hfr & Hf & Hs & He & _). split_and!; [done|by rewrite Hs|by rewrite He|].
  intros x Hx Hx'. by apply Hf in Hx' as [_ ?].
Qed.

Lemma free_frame_spec p st :
  inv (frames st) -> is_allocated (frames st) 0 p ->
  exists st', free_frame p st = Some st' /\ inv (frames st') /\ statics st st' /\
    heap_start (frames st') = heap_start (frames st) /\ heap_end (frames st') = heap_end (frames st) /\
    (forall x, is_free (frames st') x <-> is_free (frames st) x \/ in_block p 0 x) /\
    (forall x, ~ in_block p 0 x -> words st' x = words st x) /\ trace st' = Freed p :: trace st.
Proof.
  intros Hinv Hal. unfold free_frame.
  destruct (PmmSpec.free_pages_spec p 1 (frames st) Hinv) as (h' & -> & Hinv' & Hrel & Hs & He & _);
    [lia|rewrite order_page; lia|by rewrite order_page|]. rewrite order_page in Hrel.
  cbn. eexists. split; [done|]. cbn [frames words trace emit with_words with_frames]. split_and!; try done.
  intros x Hx. unfold in_block in Hx. rewrite bsize_0 in Hx.
  destruct (Z.leb_spec p x), (Z.ltb_spec x (p + PAGE_SIZE)); try done. exfalso. apply Hx. lia.
Qed.

(** Pages freed keep the others allocated. *)
Lemma free_keeps h h' p q :
  (forall x, is_free h' x <-> is_free h x \/ in_block p 0 x) ->
  heap_start h' = heap_start h -> heap_end h' = heap_end h ->
  is_allocated h 0 p -> is_allocated h 0 q -> p <> q -> is_allocated h' 0 q.
Proof.
  intros Hf Hs He (Hp & _) (Hq & Hlo & Hhi & Hnf) Hne. split_and!; [done|by rewrite Hs|by rewrite He|].
  intros x Hx Hx'. apply Hf in Hx' as [Hx'|Hx']; [by apply (Hnf x)|]. apply Hne. by apply (dyadic_eq p q 0 x).
Qed.

(** ** What a space holds *)

(** The bytes of the pages the spaces own. *)
Definition footprint (w : Z -> Z) (Ls : list Z) (x : Z) : Prop :=
  exists l1 p a, l1 ∈ Ls /\ frame w l1 p = Some a /\ in_block a 0 x.

(** The bytes that are free or owned by a space: the pages the operations move
    between the allocator and the spaces. *)
Definition accounted (st : vmm) (Ls : list Z) (x : Z) : Prop :=
  is_free (frames st) x \/ footprint (words st) Ls x.

(** The kernel's half of the L1 tables. *)
Definition kernel_half (w w' : Z -> Z) (Ls : list Z) : Prop :=
  forall l1 k, l1 ∈ Ls -> 0 <= k < USER_L1_FIRST -> w' (entry l1 k) = w (entry l1 k).

Notation spaces_ok st Ls H := (tables_ok (frames st) (words st) Ls H).

(** A store below the user half of an L1 leaves the kernel's half alone. *)
Lemma store_kernel_half h w Ls H l1 p t i v :
  tables_ok h w Ls H -> l1 ∈ Ls -> (length p <= 2)%nat -> node w l1 p = Some t -> step_ok i p = true ->
  kernel_half w (<[entry t i := v]> w) Ls.
Proof.
  intros T Hl Hp Hn Hs l1' k Hl' Hk. apply fn_lookup_insert_ne. intros E.
  destruct (node_inj h w Ls H T l1 l1' p [] t l1' i k) as [_ [= -> ->]]; try done; try (cbn; lia);
    [by eapply step_ok_range|unfold USER_L1_FIRST in Hk; lia|].
  unfold step_ok in Hs. lia.
Qed.

Lemma kernel_half_trans w1 w2 w3 Ls : kernel_half w1 w2 Ls -> kernel_half w2 w3 Ls -> kernel_half w1 w3 Ls.
Proof. intros H1 H2 l1 k Hl Hk. by rewrite H2, H1. Qed.

(** A page that no space owns holds no table entry. *)
Lemma table_off h w Ls H a l1 p t i :
  tables_ok h w Ls H -> (forall l1 q, l1 ∈ Ls -> frame w l1 q <> Some a) -> aligned 0 a ->
  l1 ∈ Ls -> (length p <= 2)%nat -> node w l1 p = Some t -> 0 <= i < 512 -> ~ in_block a 0 (entry t i).
Proof.
  intros T Hfresh Ha Hl Hp Hn Hi Hin. apply (Hfresh l1 p Hl). rewrite frame_node, Hn by done. f_equal.
  apply (dyadic_eq _ _ 0 (entry t i)); [|done|by apply entry_in_page|done].
  eapply allocated_aligned, (node_allocated _ _ _ _ T l1 p); done.
Qed.

(** Memory outside the tables does not show in them. *)
Lemma kernel_half_outside h w w' Ls H a :
  tables_ok h w Ls H -> (forall l1 q, l1 ∈ Ls -> frame w l1 q <> Some a) -> aligned 0 a ->
  (forall x, ~ in_block a 0 x -> w' x = w x) -> kernel_half w w' Ls.
Proof.
  intros T Hfresh Ha Hout l1 k Hl Hk. unfold USER_L1_FIRST in Hk. apply Hout.
  eapply (table_off _ _ _ _ _ _ []); (done || cbn; lia).
Qed.

(** ** One level of the walk *)

(** The call installed the fresh page [a] as the table at [i :: p]. *)
Record installed (st st' : vmm) (Ls : list Z) (l1 : Z) (p : list Z) (t i a : Z) : Prop := {
  in_fresh : allocated (frames st) (frames st') 0 a;
  in_nonzero : a <> 0;
  in_empty : words st (entry t i) = 0;
  in_words : forall x, x <> entry t i -> ~ in_block a 0 x -> words st' x = words st x;
  in_ok : spaces_ok st' Ls settled;
  in_node : forall l1' q, l1' ∈ Ls -> (length q <= 2)%nat ->
    node (words st') l1' q = if decide (l1' = l1 /\ q = i :: p) then Some a else node (words st) l1' q;
  in_leaf : forall l1' q, l1' ∈ Ls -> length q = 3%nat -> leafv (words st') l1' q = leafv (words st) l1' q;
  in_statics : statics st st';
  in_kernel : kernel_half (words st) (words st') Ls
}.

Lemma fresh_frame h h' w Ls H a :
  tables_ok h w Ls H -> allocated h h' 0 a -> forall l1 q, l1 ∈ Ls -> frame w l1 q <> Some a.
Proof.
  intros T Ha l1 q Hl Hq. by destruct (alloc_keeps h h' a a Ha (t_alloc _ _ _ _ T l1 q a Hl Hq)).
Qed.

(** A fresh page that is cleared leaves the spaces as they were. *)
Lemma alloc_tables_ok h h' w w' Ls H a :
  tables_ok h w Ls H -> inv h' -> allocated h h' 0 a -> (forall x, ~ in_block a 0 x -> w' x = w x) ->
  tables_ok h' w' Ls H /\ (forall l1, l1 ∈ Ls -> same_tree w w' l1).
Proof.
  intros T Hinv Ha Hout. pose proof (fresh_frame _ _ _ _ _ _ T Ha) as Hfresh.
  assert (Hag : forall l1 p t i, l1 ∈ Ls -> (length p <= 2)%nat -> node w l1 p = Some t -> 0 <= i < 512 -> w' (entry t i) = w (entry t i)).
  { intros l1 p t i Hl Hp Hn Hi. apply Hout. by eapply (table_off _ _ _ _ _ l1 p); [| |destruct Ha|..]. }
  split.
  - eapply (tables_agree h w); try done; [by destruct Ha as (_ & _ & _ & _ & _ & _ & ? & _)|].
    intros l1 p b Hl Hb. apply (alloc_keeps h h' a b Ha). by eapply (t_alloc _ _ _ _ T).
  - intros l1 Hl. apply agree_tree. intros p t i Hp Hn Hi. by apply (Hag l1 p).
Qed.

Lemma descend_spec st Ls l1 p t i :
  spaces_ok st Ls settled -> l1 ∈ Ls -> (length p <= 1)%nat -> node (words st) l1 p = Some t -> step_ok i p = true ->
  exists r st', descend t i st = Some (r, st') /\
    (r = None /\ st' = st /\ free_pages (frames st) = 0 \/
     (exists t', r = Some (t', 0) /\ st' = st /\ node (words st) l1 (i :: p) = Some t') \/
     exists a, r = Some (a, a) /\ installed st st' Ls l1 p t i a).
Proof.
  intros T Hl Hp Hn Hs. unfold descend. destruct (Z.eqb_spec (pte_type (words st (entry t i))) PTE_TYPE_TABLE) as [Et|Et].
  { eexists _, st. split; [done|]. right. left. eexists. split_and!; [done|done|].
    rewrite (node_cons _ _ _ _ t), Hs by done. unfold sub. by rewrite Et. }
  destruct (t_types _ _ _ _ T l1 p t i Hl Hp Hn Hs) as [E0|?]; [|done]. rewrite E0. cbn [pte_type Z.land Z.eqb PTE_TYPE_INVALID].
  destruct (alloc_frame_spec st (t_inv _ _ _ _ T)) as (a & st1 & -> & [(-> & -> & Hz)|(Ha & Est & Hinv & Hal)]).
  { cbn. exists None, st. auto. }
  unfold mbind at 1, option_bind at 1. rewrite (proj2 (Z.eqb_neq a 0)) by done.
  pose proof (clear_table_spec a st1) as HC. cbv zeta in HC. revert HC. generalize (clear_entries ENTRIES_PER_TABLE a 0 st1).
  intros st2 (F1 & F2 & F3 & F4). eexists _, _. split; [done|]. right. right. exists a. split; [done|].
  assert (W1 : words st1 = words st) by (by rewrite Est). rewrite W1 in F4.
  destruct (alloc_tables_ok _ _ _ (words st2) _ _ a T Hinv Hal F4) as [T2 Hsame]. rewrite <- F1 in T2, Hal.
  pose proof (fresh_frame _ _ _ _ _ _ T Hal) as Hfresh. pose proof (alloc_is_allocated _ _ _ Hal) as Ha2.
  assert (Hn2 : node (words st2) l1 p = Some t) by (rewrite (proj1 (Hsame l1 Hl)) by lia; done).
  assert (Hf2 : forall l1' q, l1' ∈ Ls -> frame (words st2) l1' q <> Some a).
  { intros l1' q Hl'. rewrite (tree_frame (words st)) by auto. auto. }
  assert (E2 : words st2 (entry t i) = 0).
  { rewrite F4; [done|]. apply step_ok_range in Hs. by eapply (table_off _ _ _ _ _ l1 p); [| |destruct Hal| |lia|..]. }
  destruct (install_table _ _ _ _ T2 l1 p t i a Hl Hp Hn2 Hs E2 Ha2 Hf2 F3) as [Hnode Hleaf].
  split; try done; cbn [store emit with_words words frames].
  - intros x Hx Hxa. rewrite fn_lookup_insert_ne by done. by apply F4.
  - by apply (install_table_ok _ _ _ _ T2 l1 p).
  - intros l1' q Hl' Hq. rewrite Hnode by done. case_decide; [done|]. by apply (proj1 (Hsame l1' Hl')).
  - intros l1' q Hl' Hq. rewrite Hleaf by done. by apply (proj2 (Hsame l1' Hl')).
  - eapply statics_trans; [|exact F2]. eapply alloc_statics; [exact Est|]. by rewrite F1 in Hal.
  - eapply kernel_half_trans; [by eapply (kernel_half_outside _ _ (words st2) _ _ a T); [|by destruct Hal|]|].
    by eapply (store_kernel_half _ _ _ _ l1 p); [exact T2| |lia|..].
Qed.

(** A page the caller holds: allocated, and no page of any space. *)
Definition held (st : vmm) (Ls : list Z) (a : Z) : Prop :=
  is_allocated (frames st) 0 a /\ forall l1 q, l1 ∈ Ls -> frame (words st) l1 q <> Some a.

(** Tables may have been added to the spaces; every translation is as before. *)
Record grown (st st' : vmm) (Ls : list Z) : Prop := {
  gr_ok : spaces_ok st' Ls settled;
  gr_statics : statics st st';
  gr_kernel : kernel_half (words st) (words st') Ls;
  gr_leaf : forall l1 q, l1 ∈ Ls -> length q = 3%nat -> leafv (words st') l1 q = leafv (words st) l1 q;
  gr_acc : forall x, accounted st' Ls x <-> accounted st Ls x;
  gr_held : forall a, held st Ls a -> held st' Ls a;
  gr_mono : forall x, is_free (frames st') x -> is_free (frames st) x
}.

Lemma grown_refl st Ls : spaces_ok st Ls settled -> grown st st Ls.
Proof. done. Qed.

Lemma grown_trans st1 st2 st3 Ls : grown st1 st2 Ls -> grown st2 st3 Ls -> grown st1 st3 Ls.
Proof.
  intros [_ ? ? L1 A1 h1 ?] [? ? ? L2 A2 h2 ?]. split; try done.
  - by eapply statics_trans.
  - by eapply kernel_half_trans.
  - intros l1 q Hl Hq. by rewrite L2, L1.
  - intros x. by rewrite A2, A1.
  - auto.
  - auto.
Qed.

Lemma installed_frame st st' Ls l1 p t i a l1' q :
  installed st st' Ls l1 p t i a -> (length p <= 1)%nat -> l1' ∈ Ls ->
  frame (words st') l1' q = if decide (l1' = l1 /\ q = i :: p) then Some a else frame (words st) l1' q.
Proof.
  intros I Hp Hl'. destruct (decide (length q <= 2)%nat) as [Hq|Hq]; [rewrite !frame_node by done; by apply (in_node _ _ _ _ _ _ _ _ I)|].
  rewrite decide_False by (intros [_ ->]; cbn [length] in Hq; lia).
  destruct (decide (length q = 3%nat)) as [E3|]; [|by rewrite !frame_deep by lia].
  by rewrite !frame_leaf, (in_leaf _ _ _ _ _ _ _ _ I) by done.
Qed.

Lemma installed_pages st st' Ls l1 p t i a :
  installed st st' Ls l1 p t i a -> free_pages (frames st') = free_pages (frames st) - 1.
Proof. intros I. by destruct (in_fresh _ _ _ _ _ _ _ _ I) as (_ & _ & _ & _ & _ & _ & _ & ?). Qed.

Lemma installed_grown st st' Ls l1 p t i a :
  installed st st' Ls l1 p t i a -> spaces_ok st Ls settled -> l1 ∈ Ls -> (length p <= 1)%nat ->
  node (words st) l1 p = Some t -> grown st st' Ls.
Proof.
  intros I T Hl Hp Hn. pose proof (in_fresh _ _ _ _ _ _ _ _ I) as Ha. pose proof Ha as (_ & _ & _ & Hfr & Hf & _).
  assert (Hnone : frame (words st) l1 (i :: p) = None).
  { rewrite frame_node, (node_cons _ _ _ _ t) by (done || cbn [length]; lia). case_match; [|done]. apply sub_zero, I. }
  split; try apply I.
  - intros x. unfold accounted, footprint. rewrite Hf. split.
    + intros [[Hx _]|(l1' & q & b & Hl' & Hb & Hx)]; [by left|].
      rewrite (installed_frame _ _ _ _ _ _ _ _ _ _ I) in Hb by done. case_decide as E; [injection Hb as <-; left; by apply Hfr|].
      right. by exists l1', q, b.
    + intros [Hx|(l1' & q & b & Hl' & Hb & Hx)].
      * destruct (decide (in_block a 0 x)) as [Hin|Hin]; [right|by left]. exists l1, (i :: p), a. split_and!; try done.
        rewrite (installed_frame _ _ _ _ _ _ _ _ _ _ I) by done. by rewrite decide_True.
      * right. exists l1', q, b. split_and!; try done. rewrite (installed_frame _ _ _ _ _ _ _ _ _ _ I) by done.
        rewrite decide_False; [done|]. intros [-> ->]. congruence.
  - intros b [Hb Hnf]. destruct (alloc_keeps _ _ _ _ Ha Hb) as [Hb' Hne]. split; [done|]. intros l1' q Hl'.
    rewrite (installed_frame _ _ _ _ _ _ _ _ _ _ I) by done. case_decide; [congruence|auto].
Qed.

(** The state of a failed call: the spaces and the allocator as they were. *)
Definition undone (st st' : vmm) (Ls : list Z) : Prop :=
  spaces_ok st' Ls settled /\ statics st st' /\ kernel_half (words st) (words st') Ls /\
  (forall l1, l1 ∈ Ls -> same_tree (words st) (words st') l1) /\
  (forall x, is_free (frames st') x <-> is_free (frames st) x) /\
  heap_start (frames st') = heap_start (frames st) /\ heap_end (frames st') = heap_end (frames st).

Lemma undone_refl st Ls : spaces_ok st Ls settled -> undone st st Ls.
Proof. done. Qed.

Lemma undone_grown st st' Ls : undone st st' Ls -> grown st st' Ls.
Proof.
  intros (T & Hst & Hk & Hsame & Hf & Hs & He). split; try done.
  - intros l1 q Hl Hq. by apply (Hsame l1).
  - intros x. unfold accounted, footprint. rewrite Hf. split; (intros [?|(l1 & q & a & Hl & Ha & Hx)]; [by left|right; exists l1, q, a]); split_and!; try done.
    + by rewrite <- (tree_frame _ (words st')) by auto.
    + by rewrite (tree_frame (words st)) by auto.
  - intros a [(? & ? & ? & Hnf) Hno]. split.
    + split_and!; try done; [by rewrite Hs|by rewrite He|]. intros x Hx. rewrite Hf. auto.
    + intros l1 q Hl. rewrite (tree_frame (words st)) by auto. auto.
  - intros x. by rewrite Hf.
Qed.

Lemma roll_back_spec st st1 Ls l1 p t i a :
  installed st st1 Ls l1 p t i a -> spaces_ok st Ls settled -> l1 ∈ Ls -> (length p <= 1)%nat ->
  node (words st) l1 p = Some t -> exists st2, roll_back t i a st1 = Some st2 /\ undone st st2 Ls.
Proof.
  intros I T Hl Hp Hn. pose proof (in_fresh _ _ _ _ _ _ _ _ I) as Ha. pose proof Ha as (Hal & _ & _ & Hfr & Hf & Hs & He & _).
  unfold roll_back. rewrite (proj2 (Z.eqb_neq a 0)) by apply I.
  destruct (free_frame_spec a (store (entry t i) 0 st1)) as (st2 & -> & Hinv & Hst & Hs2 & He2 & Hf2 & Hw2 & _);
    [apply (in_ok _ _ _ _ _ _ _ _ I)|by apply (alloc_is_allocated (frames st))|].
  cbn [store emit with_words words frames] in *. exists st2. split; [done|].
  assert (Hfree : forall x, is_free (frames st2) x <-> is_free (frames st) x).
  { intros x. rewrite Hf2, Hf. split; [intros [[? _]|?]; auto|]. intros Hx. destruct (decide (in_block a 0 x)); auto. }
  assert (Hout : forall x, ~ in_block a 0 x -> words st2 x = words st x).
  { intros x Hx. rewrite Hw2, fn_lookup_insert_Z by done. case_decide as E; [subst x; symmetry; apply I|by apply I]. }
  pose proof (fresh_frame _ _ _ _ _ _ T Ha) as Hfresh.
  assert (Hag : forall l1 p t i, l1 ∈ Ls -> (length p <= 2)%nat -> node (words st) l1 p = Some t -> 0 <= i < 512 ->
    words st2 (entry t i) = words st (entry t i)).
  { intros l1' q t' j Hl' Hq Hn' Hj. apply Hout. by eapply (table_off _ _ _ _ _ l1' q). }
  split_and!; try done; try congruence.
  - eapply (tables_agree _ _ _ _ T); try done; [congruence|]. intros l1' q b Hl' Hb.
    destruct (t_alloc _ _ _ _ T l1' q b Hl' Hb) as (? & ? & ? & Hnf). split_and!; try done; try congruence.
    intros x Hx. rewrite Hfree. by apply Hnf.
  - eapply statics_trans; [apply I|done].
  - by eapply (kernel_half_outside _ _ _ _ _ a T).
  - intros l1' Hl'. apply agree_tree. intros q t' j Hq Hn' Hj. by apply (Hag l1' q).
Qed.

(** ** Mapping a page *)

(** A successful mapping of [pa] at [va] in the space [l1]. *)
Record mapped (st st' : vmm) (Ls : list Z) (l1 va pa flags : Z) : Prop := {
  mp_ok : spaces_ok st' Ls settled;
  mp_statics : statics st st';
  mp_kernel : kernel_half (words st) (words st') Ls;
  mp_page : user_page va /\ (PAGE_SIZE | pa);
  mp_before : leafv (words st) l1 (path_of va) = 0;
  mp_leaf : forall l1' q, l1' ∈ Ls -> length q = 3%nat ->
    leafv (words st') l1' q =
      if decide (l1' = l1 /\ q = path_of va) then make_page_desc pa flags else leafv (words st) l1' q;
  mp_acc : forall x, accounted st' Ls x <->
    accounted st Ls x \/ has flags VMM_FLAG_PMM_OWNED = true /\ in_block pa 0 x;
  mp_held : forall a, held st Ls a -> ~ (has flags VMM_FLAG_PMM_OWNED = true /\ a = pa) -> held st' Ls a;
  mp_mono : forall x, is_free (frames st') x -> is_free (frames st) x
}.

Lemma map_leaf st Ls l1 va pa flags l3 :
  spaces_ok st Ls settled -> l1 ∈ Ls -> user_page va -> (PAGE_SIZE | pa) ->
  (has flags VMM_FLAG_PMM_OWNED = true -> held st Ls pa) ->
  node (words st) l1 [L2_INDEX va; L1_INDEX va] = Some l3 -> words st (entry l3 (L3_INDEX va)) = 0 ->
  mapped st (store (entry l3 (L3_INDEX va)) (make_page_desc pa flags) st) Ls l1 va pa flags.
Proof.
  intros T Hl Hva Hpa Hown Hn H0. destruct (window_steps va (proj1 Hva)) as (_ & _ & Hs).
  set (p := [L2_INDEX va; L1_INDEX va]) in *. set (v := make_page_desc pa flags) in *.
  change (path_of va) with (L3_INDEX va :: p) in *.
  destruct (leaf_update _ _ _ _ T l1 p l3 (L3_INDEX va) v Hl eq_refl Hn Hs) as [Hnode Hleaf].
  assert (Hbefore : leafv (words st) l1 (L3_INDEX va :: p) = 0) by (by rewrite (leafv_cons _ _ _ _ l3)).
  assert (Hv : pmm_owned v = true -> pte_addr v = pa /\ held st Ls pa).
  { unfold v. rewrite page_desc_owned, page_desc_addr. intros Ho%Hown. split; [|done]. eapply allocated_addr; [done|apply Ho]. }
  assert (Hframe : forall l1' q, l1' ∈ Ls -> frame (<[entry l3 (L3_INDEX va) := v]> (words st)) l1' q =
    if decide (l1' = l1 /\ q = L3_INDEX va :: p) then (if has flags VMM_FLAG_PMM_OWNED then Some pa else None) else frame (words st) l1' q).
  { intros l1' q Hl'. destruct (decide (length q <= 2)%nat) as [Hq|Hq].
    - rewrite !frame_node, Hnode, decide_False; try done. intros [_ ->]. cbn in Hq. lia.
    - destruct (decide (length q = 3%nat)) as [E3|]; [|rewrite !frame_deep, decide_False; try lia; try done; intros [_ ->]; cbn in *; lia].
      rewrite !frame_leaf, Hleaf by done. case_decide; [|done]. destruct (pmm_owned v) eqn:Ev.
      + destruct (Hv eq_refl) as [-> _]. unfold v in Ev. rewrite page_desc_owned in Ev. by rewrite Ev.
      + unfold v in Ev. rewrite page_desc_owned in Ev. by rewrite Ev. }
  assert (Hnone : frame (words st) l1 (L3_INDEX va :: p) = None) by (rewrite frame_leaf, Hbefore by done; done).
  split; try done; cbn [store emit with_words words frames].
  - apply (leaf_update_ok _ _ _ _ T l1 p l3 _ _ settled Hl eq_refl Hn Hs); [|right; left; apply page_desc_type|done].
    intros [-> [Ha Hnf]]%Hv. split; [done|]. intros l1' q Hl' Hq. by destruct (Hnf l1' q).
  - by eapply (store_kernel_half _ _ _ _ l1 p); [exact T| |cbn; lia|..].
  - intros x. unfold accounted, footprint. cbn [store emit with_words words frames]. split.
    + intros [?|(l1' & q & b & Hl' & Hb & Hx)]; [by left; left|]. rewrite Hframe in Hb by done. case_decide as E.
      * destruct (has flags VMM_FLAG_PMM_OWNED) eqn:Eo; [|done]. injection Hb as <-. by right.
      * left. right. by exists l1', q, b.
    + intros [[?|(l1' & q & b & Hl' & Hb & Hx)]|[Ho Hx]]; [by left|..]; right.
      * exists l1', q, b. split_and!; try done. rewrite Hframe by done. rewrite decide_False; [done|]. intros [-> ->]. congruence.
      * exists l1, (L3_INDEX va :: p), pa. split_and!; try done. rewrite Hframe by done. by rewrite decide_True, Ho.
  - intros a [Ha Hnf] Hne. split; [done|]. intros l1' q Hl'. cbn [store emit with_words words]. rewrite Hframe by done. case_decide; [|by auto].
    destruct (has flags VMM_FLAG_PMM_OWNED); [|done]. intros [= ->]. by apply Hne.
Qed.

Lemma mapped_grown st st1 st2 Ls l1 va pa flags :
  l1 ∈ Ls -> grown st st1 Ls -> mapped st1 st2 Ls l1 va pa flags -> mapped st st2 Ls l1 va pa flags.
Proof.
  intros Hl [_ ? ? L1 A1 h1 ?] [? ? ? ? ? L2 A2 h2 ?]. split; try done.
  - by eapply statics_trans.
  - by eapply kernel_half_trans.
  - rewrite <- L1; done.
  - intros l1' q Hl' Hq. by rewrite L2, L1.
  - intros x. by rewrite A2, A1.
  - auto.
  - auto.
Qed.

(** Why a mapping is refused: bad arguments, a page already there, no memory. *)
Definition map_refused (st : vmm) (l1 va pa : Z) : Prop :=
  ~ (user_page va /\ (PAGE_SIZE | pa)) \/ is_Some (translate (words st) l1 va) \/ free_pages (frames st) < 2.

Lemma map_page_guards l1 va pa flags st :
  l1 <> 0 ->
  vmm_user_map_page l1 va pa flags st = Some (-1, st) /\ ~ (user_page va /\ (PAGE_SIZE | pa)) \/
  user_page va /\ (PAGE_SIZE | pa).
Proof.
  intros Hl. unfold vmm_user_map_page, user_page. rewrite (proj2 (Z.eqb_neq l1 0)) by done.
  destruct (Z.ltb_spec va USER_VA_BASE); [left; split; [done|]; lia|].
  destruct (Z.leb_spec USER_VA_LIMIT va); [left; split; [done|]; lia|]. cbn [orb].
  destruct (negb (Z.land va (PAGE_SIZE - 1) =? 0)) eqn:Ev.
  { left. split; [done|]. intros [[_ Hd] _]. rewrite <- bsize_0 in Hd. apply PmmSpec.page_aligned_land in Hd. congruence. }
  destruct (negb (Z.land pa (PAGE_SIZE - 1) =? 0)) eqn:Ep.
  { left. split; [done|]. intros [_ Hd]. rewrite <- bsize_0 in Hd. apply PmmSpec.page_aligned_land in Hd. congruence. }
  right. apply PmmSpec.page_aligned_land in Ev, Ep. unfold aligned in *. rewrite bsize_0 in *. split_and!; (done || lia).
Qed.

(** The tests the entry points share pass on a page of the window. *)
Lemma user_page_tests va :
  user_page va ->
  (va <? USER_VA_BASE) = false /\ (USER_VA_LIMIT <=? va) = false /\ negb (Z.land va (PAGE_SIZE - 1) =? 0) = false.
Proof.
  intros [Hva Hd]. split_and!; [lia|lia|]. apply PmmSpec.page_aligned_land. unfold aligned. by rewrite bsize_0.
Qed.

(** The leaf of a fresh L3 table. *)
Lemma map_installed st st' Ls l1 va pa flags l2 l3 :
  spaces_ok st Ls settled -> l1 ∈ Ls -> user_page va -> (PAGE_SIZE | pa) ->
  (has flags VMM_FLAG_PMM_OWNED = true -> held st Ls pa) -> node (words st) l1 [L1_INDEX va] = Some l2 ->
  installed st st' Ls l1 [L1_INDEX va] l2 (L2_INDEX va) l3 ->
  words st' (entry l3 (L3_INDEX va)) = 0 /\
  mapped st (store (entry l3 (L3_INDEX va)) (make_page_desc pa flags) st') Ls l1 va pa flags.
Proof.
  intros T Hl Hva Hpa Hown Hn I. destruct (window_steps va (proj1 Hva)) as (S1 & S2 & S3).
  assert (G : grown st st' Ls) by (apply (installed_grown _ _ _ _ _ _ _ _ I); (done || cbn; lia)).
  assert (Hn3 : node (words st') l1 [L2_INDEX va; L1_INDEX va] = Some l3)
    by (rewrite (in_node _ _ _ _ _ _ _ _ I) by (done || cbn; lia); by rewrite decide_True).
  assert (E : words st' (entry l3 (L3_INDEX va)) = 0).
  { rewrite <- (leafv_cons _ _ _ _ _ Hn3 S3), (gr_leaf _ _ _ G) by done. unfold leafv.
    rewrite (node_cons _ _ _ _ l2), S2 by done. by rewrite (sub_zero _ _ _ (in_empty _ _ _ _ _ _ _ _ I)). }
  split; [done|]. eapply mapped_grown; [done|done|].
  apply map_leaf; try done; [apply G|]. intros Ho. by apply (gr_held _ _ _ G), Hown.
Qed.

Lemma map_page_spec st Ls l1 va pa flags :
  spaces_ok st Ls settled -> l1 ∈ Ls -> (has flags VMM_FLAG_PMM_OWNED = true -> held st Ls pa) ->
  exists rc st', vmm_user_map_page l1 va pa flags st = Some (rc, st') /\
    (rc = 0 /\ mapped st st' Ls l1 va pa flags /\ free_pages (frames st) - 2 <= free_pages (frames st') \/
     rc = -1 /\ undone st st' Ls /\ map_refused st l1 va pa).
Proof.
  intros T Hl Hown. pose proof (allocated_bounds _ _ _ _ T l1 (node_allocated _ _ _ _ T l1 [] l1 Hl ltac:(cbn; lia) eq_refl)) as Hl1.
  destruct (map_page_guards l1 va pa flags st ltac:(lia)) as [[E Hbad]|[Hva Hpa]].
  { exists (-1), st. split; [done|]. right. split_and!; [done|done|by left]. }
  destruct (user_page_tests va Hva) as (T1 & T2 & T3). destruct (window_steps va (proj1 Hva)) as (S1 & S2 & S3).
  assert (T4 : negb (Z.land pa (PAGE_SIZE - 1) =? 0) = false) by (apply PmmSpec.page_aligned_land; unfold aligned; by rewrite bsize_0).
  unfold vmm_user_map_page. rewrite (proj2 (Z.eqb_neq l1 0)), T1, T2, T3, T4 by lia. cbn [orb].
  destruct (descend_spec st Ls l1 [] l1 (L1_INDEX va) T Hl ltac:(cbn; lia) eq_refl S1)
    as (r2 & st1 & -> & [(-> & -> & Hz)|[(l2 & -> & -> & Hn2)|(l2 & -> & I2)]]).
  { exists (-1), st. split; [done|]. right. split_and!; [done|done|]. right. right. lia. }
  - unfold mbind at 1, option_bind at 1. cbv beta iota.
    destruct (descend_spec st Ls l1 [L1_INDEX va] l2 (L2_INDEX va) T Hl ltac:(cbn; lia) Hn2 S2)
      as (r3 & st2 & -> & [(-> & -> & Hz)|[(l3 & -> & -> & Hn3)|(l3 & -> & I3)]]); unfold mbind at 1, option_bind at 1; cbv beta iota.
    + exists (-1), st. split; [done|]. right. split_and!; [done|done|]. right. right. lia.
    + pose proof (leafv_cons _ _ _ _ _ Hn3 S3) as Hlv. destruct (t_leaf _ _ _ _ T l1 (path_of va) Hl eq_refl) as [E|[E|[? []]]];
        unfold path_of in E; rewrite Hlv in E.
      * rewrite E. eexists _, _. split; [done|]. left. split_and!; [done|by apply map_leaf|cbn; lia].
      * rewrite E. exists (-1), st. split; [done|]. right. split_and!; [done|done|]. right. left.
        unfold translate, path_of. rewrite Hlv, E. by eexists.
    + destruct (map_installed st st2 Ls l1 va pa flags l2 l3) as [E M]; try done.
      rewrite E. eexists _, _. split; [done|]. left. pose proof (installed_pages _ _ _ _ _ _ _ _ I3). split_and!; [done|done|cbn; lia].
  - unfold mbind at 1, option_bind at 1. cbv beta iota. assert (G1 : grown st st1 Ls) by (apply (installed_grown _ _ _ _ _ _ _ _ I2); (done || cbn; lia)).
    assert (Hn2 : node (words st1) l1 [L1_INDEX va] = Some l2)
      by (rewrite (in_node _ _ _ _ _ _ _ _ I2) by (done || cbn; lia); by rewrite decide_True).
    destruct (descend_spec st1 Ls l1 [L1_INDEX va] l2 (L2_INDEX va) (gr_ok _ _ _ G1) Hl ltac:(cbn; lia) Hn2 S2)
      as (r3 & st2 & -> & [(-> & -> & Hz)|[(l3 & -> & -> & Hn3)|(l3 & -> & I3)]]); unfold mbind at 1, option_bind at 1; cbv beta iota.
    + destruct (roll_back_spec st st1 Ls l1 [] l1 (L1_INDEX va) l2 I2 T Hl ltac:(cbn; lia) eq_refl) as (st2 & -> & Hun). cbn.
      exists (-1), st2. split; [done|]. right. split_and!; [done|done|]. right. right.
      destruct (in_fresh _ _ _ _ _ _ _ _ I2) as (_ & _ & _ & _ & _ & _ & _ & Hfp). cbn in Hfp. lia.
    + exfalso. rewrite (in_node _ _ _ _ _ _ _ _ I2), decide_False in Hn3 by (done || (cbn; lia) || (intros [_ ?]; done)).
      apply node_parent in Hn3 as (t & Hn & _). cbn [node] in Hn. cbn in Hn. rewrite S1 in Hn.
      rewrite (sub_zero _ _ _ (in_empty _ _ _ _ _ _ _ _ I2)) in Hn. done.
    + destruct (map_installed st1 st2 Ls l1 va pa flags l2 l3) as [E M]; try done; [apply G1|intros Ho; by apply (gr_held _ _ _ G1), Hown|].
      rewrite E. eexists _, _. split; [done|]. left. pose proof (installed_pages _ _ _ _ _ _ _ _ I2). pose proof (installed_pages _ _ _ _ _ _ _ _ I3).
      split_and!; [done|by eapply mapped_grown|cbn; lia].
Qed.

(** ** Creating a space *)

(** The boot L1 is a static table: its page is never free. *)
Definition boot_apart (st : vmm) : Prop :=
  aligned 0 (l1_table st) /\ forall x, in_block (l1_table st) 0 x -> ~ is_free (frames st) x.

Lemma copy_entries_spec n from to i st :
  (forall j j', i <= j < i + Z.of_nat n -> i <= j' < i + Z.of_nat n -> entry from j <> entry to j') ->
  let st' := copy_entries n from to i st in
  frames st' = frames st /\ statics st st' /\
  (forall j, i <= j < i + Z.of_nat n -> words st' (entry to j) = words st (entry from j)) /\
  (forall x, (forall j, i <= j < i + Z.of_nat n -> x <> entry to j) -> words st' x = words st x).
Proof.
  revert i st. induction n as [|n IH]; intros i st Hap; cbn [copy_entries]; [split_and!; try done; lia|].
  destruct (IH (i + 1) (store (entry to i) (words st (entry from i)) st)) as (E1 & E2 & E3 & E4).
  { intros j j' Hj Hj'. apply Hap; lia. }
  cbv zeta. cbn [store emit with_words words] in E3, E4. split_and!; try done.
  - intros j Hj. destruct (decide (j = i)) as [->|].
    + rewrite E4; [apply fn_lookup_insert|]. intros j' Hj'. unfold entry. lia.
    + rewrite E3 by lia. apply fn_lookup_insert_ne. apply not_eq_sym, Hap; lia.
  - intros x Hx. rewrite E4; [|intros j Hj; apply Hx; lia]. apply fn_lookup_insert_ne. apply not_eq_sym, Hx. lia.
Qed.

(** The space [a] has just been created. *)
Record created (st st' : vmm) (Ls : list Z) (a : Z) : Prop := {
  cr_ok : spaces_ok st' (a :: Ls) settled;
  cr_new : a ∉ Ls /\ a <> 0;
  cr_statics : statics st st';
  cr_empty : forall q, length q = 3%nat -> leafv (words st') a q = 0;
  cr_mirror : forall k, 0 <= k < USER_L1_FIRST -> words st' (entry a k) = words st (entry (l1_table st) k);
  cr_kernel : kernel_half (words st) (words st') Ls;
  cr_leaf : forall l1 q, l1 ∈ Ls -> length q = 3%nat -> leafv (words st') l1 q = leafv (words st) l1 q;
  cr_acc : forall x, accounted st' (a :: Ls) x <-> accounted st Ls x;
  cr_held : forall b, held st Ls b -> held st' (a :: Ls) b;
  cr_mono : forall x, is_free (frames st') x -> is_free (frames st) x;
  cr_count : free_pages (frames st') = free_pages (frames st) - 1
}.

(** An L1 whose user half is zero spans nothing. *)
Lemma empty_space w a :
  (forall k, USER_L1_FIRST <= k < USER_L1_LIMIT -> w (entry a k) = 0) ->
  (forall q, node w a q = if decide (q = []) then Some a else None) /\
  (forall q, length q = 3%nat -> leafv w a q = 0) /\
  (forall q, frame w a q = if decide (q = []) then Some a else None).
Proof.
  intros Hz. assert (Hn : forall q, node w a q = if decide (q = []) then Some a else None).
  { induction q as [|i q IH]; [done|]. rewrite decide_False by done. cbn [node]. rewrite IH. case_decide; [|done]. subst q. cbn.
    destruct (step_ok i []) eqn:Hs; [|done]. apply sub_zero, Hz. unfold step_ok, USER_L1_LIMIT, USER_L1_FIRST in *. lia. }
  assert (Hl : forall q, length q = 3%nat -> leafv w a q = 0).
  { intros [|k q] Hq; [done|]. unfold leafv. rewrite Hn. case_decide; [|done]. by subst q. }
  split_and!; try done. intros q. destruct (decide (length q <= 2)%nat); [by rewrite frame_node|].
  rewrite decide_False by (by intros ->; cbn in *; lia).
  destruct (decide (length q = 3%nat)); [|by rewrite frame_deep by lia]. rewrite frame_leaf, Hl by done. done.
Qed.

Lemma create_ok st h' w' Ls a :
  spaces_ok st Ls settled -> inv h' -> allocated (frames st) h' 0 a -> (forall x, ~ in_block a 0 x -> w' x = words st x) ->
  (forall k, USER_L1_FIRST <= k < USER_L1_LIMIT -> w' (entry a k) = 0) ->
  tables_ok h' w' (a :: Ls) settled /\ (forall l1, l1 ∈ Ls -> same_tree (words st) w' l1) /\ a ∉ Ls.
Proof.
  intros T Hinv Ha Hout Hz. destruct (alloc_tables_ok _ _ _ w' _ _ a T Hinv Ha Hout) as [T1 Hsame].
  destruct (empty_space w' a Hz) as (Hn & Hl & Hf). pose proof (fresh_frame _ _ _ _ _ _ T Ha) as Hfresh.
  assert (Hnew : a ∉ Ls) by (intros Hin; by apply (Hfresh a [] Hin)).
  assert (Hf1 : forall l1 q, l1 ∈ Ls -> frame w' l1 q <> Some a) by (intros l1 q Hl1; rewrite (tree_frame (words st)) by auto; auto).
  split_and!; try done. split; try apply T1.
  - intros l1 p b [->|Hl1]%elem_of_cons; [|by apply (t_alloc _ _ _ _ T1)]. rewrite Hf. case_decide; [|done]. intros [= <-].
    by eapply alloc_is_allocated.
  - intros l1 l2 p p' b [->|H1]%elem_of_cons [->|H2]%elem_of_cons; rewrite ?Hf.
    + do 2 case_decide; try done. by subst.
    + case_decide; [|done]. intros [= <-] E. by destruct (Hf1 l2 p').
    + case_decide; [|done]. intros E [= <-]. by destruct (Hf1 l1 p).
    + by apply (t_inj _ _ _ _ T1).
  - intros l1 p t i [->|H1]%elem_of_cons Hp; [|by apply (t_types _ _ _ _ T1)]. rewrite Hn. case_decide; [|done]. intros [= <-] Hs. subst p.
    left. apply Hz. unfold step_ok, USER_L1_LIMIT, USER_L1_FIRST in *. lia.
  - intros l1 p [->|H1]%elem_of_cons Hp; [left; by apply Hl|by apply (t_leaf _ _ _ _ T1)].
Qed.

(** The memory of a fresh L1: the kernel's entries copied, the user's cleared. *)
Lemma fresh_l1_words a st :
  aligned 0 (l1_table st) -> aligned 0 a -> a <> l1_table st ->
  let st' := clear_entries (Z.to_nat (USER_L1_LIMIT - USER_L1_FIRST)) a USER_L1_FIRST
    (copy_entries (Z.to_nat USER_L1_FIRST) (l1_table st) a 0 st) in
  frames st' = frames st /\ statics st st' /\
  (forall k, 0 <= k < USER_L1_FIRST -> words st' (entry a k) = words st (entry (l1_table st) k)) /\
  (forall k, USER_L1_FIRST <= k < USER_L1_LIMIT -> words st' (entry a k) = 0) /\
  (forall x, ~ in_block a 0 x -> words st' x = words st x).
Proof.
  intros Hb Ha Hne.
  pose proof (copy_entries_spec (Z.to_nat USER_L1_FIRST) (l1_table st) a 0 st) as HC. cbv zeta in HC. cbv zeta.
  rewrite Z2Nat.id in HC by (unfold USER_L1_FIRST; lia). change (0 + USER_L1_FIRST) with USER_L1_FIRST in HC.
  assert (Hap' : forall j j', 0 <= j < USER_L1_FIRST -> 0 <= j' < USER_L1_FIRST -> entry (l1_table st) j <> entry a j').
  { intros j j' Hj Hj' E. unfold USER_L1_FIRST in *. destruct (entry_inj (l1_table st) a j j') as [? _]; (done || lia || congruence). }
  specialize (HC Hap'). revert HC. generalize (copy_entries (Z.to_nat USER_L1_FIRST) (l1_table st) a 0 st). intros st1 (E1 & E2 & E3 & E4).
  pose proof (clear_entries_spec (Z.to_nat (USER_L1_LIMIT - USER_L1_FIRST)) a USER_L1_FIRST st1) as HC. cbv zeta in HC.
  rewrite Z2Nat.id in HC by (unfold USER_L1_FIRST, USER_L1_LIMIT; lia).
  replace (USER_L1_FIRST + (USER_L1_LIMIT - USER_L1_FIRST)) with USER_L1_LIMIT in HC by lia.
  revert HC. generalize (clear_entries (Z.to_nat (USER_L1_LIMIT - USER_L1_FIRST)) a USER_L1_FIRST st1). intros st2 (F1 & F2 & F3 & F4).
  split_and!; try congruence; try done.
  - by eapply statics_trans.
  - intros k Hk. rewrite F4; [by apply E3|]. intros j Hj. unfold entry. lia.
  - intros x Hx. unfold in_block in Hx. rewrite bsize_0 in Hx. unfold USER_L1_FIRST, USER_L1_LIMIT, entry, PAGE_SIZE in *.
    rewrite F4, E4; [done|..]; intros j Hj; lia.
Qed.

Lemma user_create_spec st Ls :
  spaces_ok st Ls settled -> boot_apart st ->
  exists rc a st', vmm_create_user_l1 true st = Some (rc, a, st') /\
    (rc = 0 /\ created st st' Ls a \/ rc = -1 /\ st' = st /\ free_pages (frames st) = 0).
Proof.
  intros T [Hb Hap]. unfold vmm_create_user_l1. cbn [negb].
  destruct (alloc_frame_spec st (t_inv _ _ _ _ T)) as (a & st1 & -> & [(-> & -> & Hz)|(Hne & Est & Hinv & Hal)]).
  { exists (-1), 0, st. split; [done|]. by right. }
  unfold mbind at 1, option_bind at 1. cbv beta iota. rewrite (proj2 (Z.eqb_neq a 0)) by done.
  pose proof Hal as (Ha & Hlo & Hhi & Hfr & Hf & Hs & He & Hct).
  assert (words st1 = words st /\ l1_table st1 = l1_table st) as (W1 & L1) by (by rewrite Est).
  pose proof (alloc_statics _ _ _ _ Est Hal) as S1.
  destruct (fresh_l1_words a st1) as (E1 & E2 & E3 & E4 & E5); [by rewrite L1|done|rewrite L1; intros ->|].
  { apply (Hap (l1_table st)); [|apply Hfr]; unfold in_block; pose proof (bsize_pos 0); lia. }
  cbv zeta in *. revert E1 E2 E3 E4 E5.
  generalize (clear_entries (Z.to_nat (USER_L1_LIMIT - USER_L1_FIRST)) a USER_L1_FIRST (copy_entries (Z.to_nat USER_L1_FIRST) (l1_table st1) a 0 st1)).
  intros st2 E1 E2 E3 E4 E5. rewrite W1 in *. exists 0, a, st2. split; [done|]. left. split; [done|].
  destruct (create_ok st (frames st1) (words st2) Ls a T Hinv Hal E5 E4) as (T2 & Hsame & Hnew). destruct (empty_space _ _ E4) as (_ & Hl & Hfa).
  rewrite <- E1 in *. split; try done.
  - by eapply statics_trans.
  - intros k Hk. rewrite E3 by done. by rewrite L1.
  - eapply (kernel_half_outside _ _ _ _ _ a T); try done. by eapply fresh_frame.
  - intros l1 q Hl1 Hq. by apply (Hsame l1).
  - intros x. unfold accounted, footprint. rewrite Hf. split.
    + intros [[? _]|(l1 & q & b & [->|Hl1]%elem_of_cons & Hb' & Hx)]; [by left|..].
      * rewrite Hfa in Hb'. case_decide; [|done]. injection Hb' as <-. left. by apply Hfr.
      * rewrite (tree_frame (words st)) in Hb' by auto. right. by exists l1, q, b.
    + intros [Hx|(l1 & q & b & Hl1 & Hb' & Hx)].
      * destruct (decide (in_block a 0 x)); [right|by left]. exists a, [], a. split_and!; [by left| |done]. by rewrite Hfa.
      * right. exists l1, q, b. split_and!; [by right| |done]. by rewrite (tree_frame (words st)) by auto.
  - intros b [Hb' Hnf]. destruct (alloc_keeps _ _ _ _ Hal Hb') as [? Hne']. split; [done|]. intros l1 q [->|Hl1]%elem_of_cons.
    + rewrite Hfa. case_decide; [|done]. congruence.
    + rewrite (tree_frame (words st)) by auto. auto.
  - intros x. rewrite Hf. by intros [? _].
Qed.

End VmmUser.
