(* ===== verification/VmmTear.v ===== *)
(** Tearing user mappings down: [vmm_destroy_user_l1], which gives every page of a
    space back exactly once, and [vmm_user_unmap_range], which makes leaves
    invalid, flushes the TLB and only then frees pages. *)

From S2P Require Import Prelude.
From S2P Require Import FreeList Buddy BuddyInv BuddyStep BuddySpec PmmSpec PageDesc Vmm VmmTree VmmUser.

Module VmmTear.
Import Buddy BuddyInv BuddySpec PageDesc Vmm VmmTree VmmUser.
Open Scope Z_scope.
Open Scope slm_scope.

(** ** Paths below a path *)

Lemma node_suffix w l1 pre q a : node w l1 (pre ++ q) = Some a -> exists b, node w l1 q = Some b.
Proof.
  revert a. induction pre as [|i pre IH]; intros a; [by exists a|]. intros (t & Hn & _)%node_parent. by apply (IH t).
Qed.

Lemma leafv_nonzero w l1 q : leafv w l1 q <> 0 -> exists k p t, q = k :: p /\ node w l1 p = Some t /\ step_ok k p = true.
Proof.
  destruct q as [|k p]; [done|]. unfold leafv. destruct (node w l1 p) as [t|] eqn:E; [|done].
  destruct (step_ok k p) eqn:Hs; [|done]. by exists k, p, t.
Qed.

(** A page below an entry hangs off a table at that entry. *)
Lemma frame_below w l1 pre i p a :
  frame w l1 (pre ++ i :: p) = Some a -> (length p <= 1)%nat -> exists t, node w l1 (i :: p) = Some t.
Proof.
  intros Hf Hp. destruct (decide (length (pre ++ i :: p) <= 2)%nat) as [Hl|Hl].
  { rewrite frame_node in Hf by done. by apply node_suffix in Hf. }
  destruct (decide (length (pre ++ i :: p) = 3%nat)) as [E3|]; [|by rewrite frame_deep in Hf by lia].
  rewrite frame_leaf in Hf by done. destruct (leafv_nonzero w l1 (pre ++ i :: p)) as (k & q & t & E & Hn & _).
  { intros E0. by rewrite E0 in Hf. }
  destruct pre as [|k' pre]; [rewrite length_app in E3; cbn in E3; lia|]. injection E as -> <-. by apply node_suffix in Hn.
Qed.

Lemma frame_step w l1 i p a : frame w l1 (i :: p) = Some a -> step_ok i p = true.
Proof.
  destruct (decide (length (i :: p) <= 2)%nat) as [Hl|Hl].
  { rewrite frame_node by done. by intros (t & _ & ? & _)%node_parent. }
  destruct (decide (length (i :: p) = 3%nat)) as [E3|]; [|by rewrite frame_deep by lia].
  rewrite frame_leaf by done. intros Hf. destruct (leafv_nonzero w l1 (i :: p)) as (k & q & t & [= <- <-] & _ & ?); [|done].
  intros E0. by rewrite E0 in Hf.
Qed.

(** Fewer spaces. *)
Lemma tables_sub h w Ls Ls' H : tables_ok h w Ls H -> (forall l1, l1 ∈ Ls' -> l1 ∈ Ls) -> tables_ok h w Ls' H.
Proof.
  intros T Hsub. split; try apply T.
  - intros l1 p a Hl. apply (t_alloc _ _ _ _ T l1 p a). auto.
  - intros l1 l1' p p' a Hl Hl'. apply (t_inj _ _ _ _ T l1 l1' p p' a); auto.
  - intros l1 p t i Hl. apply (t_types _ _ _ _ T l1 p t i). auto.
  - intros l1 p Hl. apply (t_leaf _ _ _ _ T l1 p). auto.
Qed.

(** ** Destroying a space *)

Section destroy.
Context (st0 : vmm) (Ls : list Z) (l1 : Z).
Context (T0 : tables_ok (frames st0) (words st0) Ls settled) (Hl1 : l1 ∈ Ls).

Notation frame0 := (frame (words st0) l1).
Notation node0 := (node (words st0) l1).

(** The bytes of the pages at the paths in [D]. *)
Definition gone (D : list Z -> Prop) (x : Z) : Prop :=
  exists q a, D q /\ frame0 q = Some a /\ in_block a 0 x.

(** The pages at the paths in [D] have been given back, and nothing else happened. *)
Record torn (st : vmm) (D : list Z -> Prop) : Prop := {
  to_inv : inv (frames st);
  to_start : heap_start (frames st) = heap_start (frames st0);
  to_end : heap_end (frames st) = heap_end (frames st0);
  to_free : forall x, is_free (frames st) x <-> is_free (frames st0) x \/ gone D x;
  to_words : forall x, ~ gone D x -> words st x = words st0 x;
  to_statics : statics st0 st
}.

Lemma torn_change st D D' : (forall q a, frame0 q = Some a -> D q <-> D' q) -> torn st D -> torn st D'.
Proof.
  intros HD [? ? ? Hf Hw ?]. assert (Hg : forall x, gone D x <-> gone D' x).
  { intros x. unfold gone. split; intros (q & a & Hq & Ha & Hx); exists q, a; split_and!; try done; by apply (HD q a). }
  split; try done.
  - intros x. by rewrite Hf, Hg.
  - intros x Hx. apply Hw. by rewrite Hg.
Qed.

(** Pages of different paths, or of other spaces, are apart. *)
Lemma frame_apart l1' q a D x :
  l1' ∈ Ls -> frame (words st0) l1' q = Some a -> ~ (l1' = l1 /\ D q) -> in_block a 0 x -> ~ gone D x.
Proof.
  intros Hl' Ha Hq Hx (q' & a' & Hq' & Ha' & Hx').
  assert (a' = a) as ->.
  { apply (dyadic_eq _ _ 0 x); [..|done|done].
    - eapply allocated_aligned, (t_alloc _ _ _ _ T0 l1 q'); done.
    - eapply allocated_aligned, (t_alloc _ _ _ _ T0 l1' q); done. }
  apply Hq. destruct (t_inj _ _ _ _ T0 l1' l1 q q' a) as [-> ->]; done.
Qed.

Lemma torn_allocated st D l1' q a :
  torn st D -> l1' ∈ Ls -> frame (words st0) l1' q = Some a -> ~ (l1' = l1 /\ D q) -> is_allocated (frames st) 0 a.
Proof.
  intros Ht Hl' Ha Hq. destruct (t_alloc _ _ _ _ T0 l1' q a Hl' Ha) as (Hal & Hlo & Hhi & Hnf).
  split_and!; [done|by rewrite (to_start _ _ Ht)|by rewrite (to_end _ _ Ht)|].
  intros x Hx. rewrite (to_free _ _ Ht). intros [?|Hg]; [by apply (Hnf x)|]. by apply (frame_apart l1' q a D x).
Qed.

Lemma torn_free st D q a :
  torn st D -> frame0 q = Some a -> ~ D q ->
  exists st', free_frame a st = Some st' /\ torn st' (fun q' => D q' \/ q' = q).
Proof.
  intros Ht Ha Hq. destruct (free_frame_spec a st (to_inv _ _ Ht)) as (st' & E & Hinv & Hst & Hs & He & Hf & Hw & _).
  { eapply torn_allocated; try done. by intros []. }
  exists st'. split; [done|].
  assert (Hg : forall x, gone (fun q' => D q' \/ q' = q) x <-> gone D x \/ in_block a 0 x).
  { intros x. split.
    - intros (q' & a' & [Hq'| ->] & Ha' & Hx); [left; by exists q', a'|right]. congruence.
    - intros [(q' & a' & Hq' & Ha' & Hx)|Hx]; [exists q', a'|exists q, a]; auto. }
  split; try done; try (rewrite ?Hs, ?He; apply Ht).
  - intros x. rewrite Hg, Hf, (to_free _ _ Ht). tauto.
  - intros x. rewrite Hg. intros Hx. rewrite Hw by tauto. apply (to_words _ _ Ht). tauto.
  - eapply statics_trans; [apply Ht|done].
Qed.

Lemma torn_read st D p t i :
  torn st D -> (length p <= 2)%nat -> node0 p = Some t -> ~ D p -> 0 <= i < 512 ->
  words st (entry t i) = words st0 (entry t i).
Proof.
  intros Ht Hp Hn Hd Hi. apply (to_words _ _ Ht). apply (frame_apart l1 p t); [done|by rewrite frame_node|by intros []|by apply entry_in_page].
Qed.

Lemma step_below i j p : 0 <= i < 512 -> step_ok i (j :: p) = true.
Proof. unfold step_ok. lia. Qed.

Lemma destroy_l3_spec n l3 k st D p :
  torn st D -> length p = 2%nat -> node0 p = Some l3 -> ~ D p -> 0 <= k -> k + Z.of_nat n <= 512 ->
  (forall k', k <= k' < k + Z.of_nat n -> ~ D (k' :: p)) ->
  exists st', destroy_l3 n l3 k st = Some st' /\
    torn st' (fun q => D q \/ exists k', k <= k' < k + Z.of_nat n /\ q = k' :: p).
Proof.
  revert k st D. induction n as [|n IH]; intros k st D Ht Hp Hn Hd Hk Hhi Hbelow.
  { exists st. split; [done|]. eapply torn_change; [|done]. intros q a _. split; [auto|]. intros [?|(k' & ? & _)]; [done|lia]. }
  cbn [destroy_l3]. rewrite (torn_read st D p l3 k) by (done || lia).
  assert (Hlv : leafv (words st0) l1 (k :: p) = words st0 (entry l3 k)).
  { apply leafv_cons; [done|]. destruct p as [|j p]; [done|]. apply step_below. lia. }
  assert (H3 : length (k :: p) = 3%nat) by (cbn [length]; lia).
  assert (Hone : exists st1, (if negb (pte_type (words st0 (entry l3 k)) =? PTE_TYPE_PAGE) then Some st
      else if pmm_owned (words st0 (entry l3 k)) then free_frame (pte_addr (words st0 (entry l3 k))) st else Some st) = Some st1 /\
    torn st1 (fun q => D q \/ q = k :: p)).
  { destruct (frame0 (k :: p)) as [a|] eqn:Ef.
    - destruct (torn_free st D (k :: p) a Ht Ef ltac:(apply Hbelow; lia)) as (st1 & E & Ht1). exists st1. split; [|done].
      rewrite frame_leaf, Hlv in Ef by done. destruct (pmm_owned _) eqn:Eo; [|done]. injection Ef as <-.
      destruct (t_leaf _ _ _ _ T0 l1 (k :: p) Hl1 H3) as [E0|[E0|[_ []]]]; rewrite Hlv in E0; rewrite E0 in *; done.
    - exists st. split; [rewrite frame_leaf, Hlv in Ef by done; destruct (pmm_owned _); [done|by case_match]|].
      eapply torn_change; [|done]. intros q a Ha. split; [auto|]. intros [?| ->]; [done|congruence]. }
  destruct Hone as (st1 & -> & Ht1). unfold mbind at 1, option_bind at 1. cbv beta iota.
  destruct (IH (k + 1) st1 _ Ht1 Hp Hn) as (st2 & -> & Ht2); try lia.
  { intros [?|E]; [done|]. rewrite E in Hp. cbn [length] in *. lia. }
  { intros k' Hk' [Hd'|[= ->]]; [|lia]. apply (Hbelow k'); [lia|done]. }
  exists st2. split; [done|]. eapply torn_change; [|done]. intros q a _. split.
  - intros [[?| ->]|(k' & ? & ->)]; [by left|right; exists k; split; [lia|done]|right; exists k'; split; [lia|done]].
  - intros [?|(k' & Hk' & ->)]; [by left; left|]. destruct (decide (k' = k)) as [->|]; [by left; right|]. right. exists k'. split; [lia|done].
Qed.

(** Everything below [j :: p]. *)
Definition below (j : Z) (p q : list Z) : Prop := (j :: p) `suffix_of` q.

Lemma below_frames j p q a :
  frame0 q = Some a -> below j p q -> length p = 1%nat -> q = j :: p \/ exists k, 0 <= k < 512 /\ q = k :: j :: p.
Proof.
  intros Ha [pre ->] Hp. destruct pre as [|k [|k' pre]]; [by left|right|].
  - exists k. split; [|done]. by eapply step_ok_range, frame_step.
  - rewrite frame_deep in Ha; [done|]. rewrite length_app. cbn [length]. lia.
Qed.

Lemma torn_below_none st D j p :
  torn st D -> (length p <= 1)%nat -> node0 (j :: p) = None -> torn st (fun q => D q \/ below j p q).
Proof.
  intros Ht Hp Hn. eapply torn_change; [|done]. intros q a Ha. split; [auto|]. intros [?|[pre ->]]; [done|].
  apply frame_below in Ha as [t Ht']; [|done]. congruence.
Qed.

(** The paths of a loop from [j] on. *)
Lemma torn_range st D j n p :
  torn st (fun q => (D q \/ below j p q) \/ exists j', j + 1 <= j' < j + 1 + Z.of_nat n /\ below j' p q) ->
  torn st (fun q => D q \/ exists j', j <= j' < j + Z.of_nat (S n) /\ below j' p q).
Proof.
  apply torn_change. intros q a _. split.
  - intros [[?|?]|(j' & ? & ?)]; [by left|right; exists j; split; [lia|done]|right; exists j'; split; [lia|done]].
  - intros [?|(j' & Hj' & ?)]; [by left; left|]. destruct (decide (j' = j)) as [->|]; [by left; right|]. right. exists j'. split; [lia|done].
Qed.

Lemma below_inj j j' p q : below j p q -> below j' p q -> j = j'.
Proof.
  intros Hs Hs'. destruct (suffix_weak_total (j :: p) (j' :: p) q Hs Hs') as [[[|x pre] E]|[[|x pre] E]];
    try (injection E; congruence); apply (f_equal length) in E; cbn in E; rewrite length_app in E; cbn in E; lia.
Qed.

(** One L3 table with its leaves. *)
Lemma destroy_l3_table st D j p l3 :
  torn st D -> length p = 1%nat -> node0 (j :: p) = Some l3 -> (forall q, below j p q -> ~ D q) ->
  exists st', (st1 ← destroy_l3 ENTRIES_PER_TABLE l3 0 st; free_frame l3 st1) = Some st' /\
    torn st' (fun q => D q \/ below j p q).
Proof.
  intros Ht Hp Hn Hd.
  destruct (destroy_l3_spec ENTRIES_PER_TABLE l3 0 st D (j :: p) Ht) as (st1 & -> & Ht1); try done;
    [cbn [length]; lia|apply Hd; by exists []|intros k' _; apply Hd; by exists [k']|].
  change (0 + Z.of_nat ENTRIES_PER_TABLE) with 512 in Ht1. unfold mbind at 1, option_bind at 1. cbv beta iota.
  destruct (torn_free st1 _ (j :: p) l3 Ht1) as (st2 & E & Ht2).
  { rewrite frame_node by (cbn [length]; lia). done. }
  { intros [?|(k' & _ & Ek)]; [by apply (Hd (j :: p)); [exists []|]|]. apply (f_equal length) in Ek. cbn in Ek. lia. }
  exists st2. split; [done|]. eapply torn_change; [|done]. intros q a Ha. split.
  - intros [[?|(k' & _ & ->)]| ->]; [by left|right; by exists [k']|right; by exists []].
  - intros [?|Hb]; [by left; left|]. destruct (below_frames j p q a Ha Hb Hp) as [->|(k & Hk & ->)]; [by right|]. left. right. by exists k.
Qed.

Lemma destroy_l2_spec n l2 j st D p :
  torn st D -> length p = 1%nat -> node0 p = Some l2 -> ~ D p -> 0 <= j -> j + Z.of_nat n <= 512 ->
  (forall j' q, j <= j' < j + Z.of_nat n -> below j' p q -> ~ D q) ->
  exists st', destroy_l2 n l2 j st = Some st' /\
    torn st' (fun q => D q \/ exists j', j <= j' < j + Z.of_nat n /\ below j' p q).
Proof.
  revert j st D. induction n as [|n IH]; intros j st D Ht Hp Hn Hd Hj Hhi Hbelow.
  { exists st. split; [done|]. eapply torn_change; [|done]. intros q a _. split; [auto|]. intros [?|(k' & ? & _)]; [done|lia]. }
  cbn [destroy_l2]. rewrite (torn_read st D p l2 j) by (done || lia).
  assert (Hs : step_ok j p = true) by (destruct p as [|i p]; [done|]; apply step_below; lia).
  assert (Hone : exists st1, (if negb (pte_type (words st0 (entry l2 j)) =? PTE_TYPE_TABLE) then Some st
      else st1 ← destroy_l3 ENTRIES_PER_TABLE (pte_addr (words st0 (entry l2 j))) 0 st;
           free_frame (pte_addr (words st0 (entry l2 j))) st1) = Some st1 /\ torn st1 (fun q => D q \/ below j p q)).
  { destruct (Z.eqb_spec (pte_type (words st0 (entry l2 j))) PTE_TYPE_TABLE) as [Et|Et]; cbn [negb].
    - apply destroy_l3_table; try done; [|intros q; apply Hbelow; lia]. rewrite (node_cons _ _ _ _ l2), Hs by done. unfold sub. by rewrite Et.
    - exists st. split; [done|]. apply torn_below_none; [done|lia|]. rewrite (node_cons _ _ _ _ l2), Hs by done.
      unfold sub. by rewrite (proj2 (Z.eqb_neq _ _)). }
  destruct Hone as (st1 & -> & Ht1). unfold mbind at 1, option_bind at 1. cbv beta iota.
  destruct (IH (j + 1) st1 _ Ht1 Hp Hn) as (st2 & -> & Ht2); try lia.
  { intros [?|Hb%suffix_length]; [done|]. cbn [length] in Hb. lia. }
  { intros j' q Hj' Hb [Hd'|Hb']; [by apply (Hbelow j' q); [lia|..]|]. assert (j = j') by (by eapply below_inj). lia. }
  exists st2. split; [done|]. by apply torn_range.
Qed.

(** One L2 table with everything below it. *)
Lemma destroy_l2_table st D i l2 :
  torn st D -> node0 [i] = Some l2 -> (forall q, below i [] q -> ~ D q) ->
  exists st', (st1 ← destroy_l2 ENTRIES_PER_TABLE l2 0 st; free_frame l2 st1) = Some st' /\
    torn st' (fun q => D q \/ below i [] q).
Proof.
  intros Ht Hn Hd.
  destruct (destroy_l2_spec ENTRIES_PER_TABLE l2 0 st D [i] Ht) as (st1 & -> & Ht1); try done.
  { apply Hd. by exists []. }
  { intros j' q _ [pre ->]. apply Hd. exists (pre ++ [j']). by rewrite <- app_assoc. }
  change (0 + Z.of_nat ENTRIES_PER_TABLE) with 512 in Ht1. unfold mbind at 1, option_bind at 1. cbv beta iota.
  destruct (torn_free st1 _ [i] l2 Ht1) as (st2 & E & Ht2).
  { by rewrite frame_node by (cbn [length]; lia). }
  { intros [?|(j' & _ & Hb%suffix_length)]; [by apply (Hd [i]); [exists []|]|]. cbn in Hb. lia. }
  exists st2. split; [done|]. eapply torn_change; [|done]. intros q a Ha. split.
  - intros [[?|(j' & _ & [pre ->])]| ->]; [by left|right; exists (pre ++ [j']); by rewrite <- app_assoc|right; by exists []].
  - intros [?|[pre ->]]; [by left; left|]. destruct pre as [|j pre _] using rev_ind; [by right|]. left. right. exists j.
    rewrite <- app_assoc in Ha |- *. cbn [app] in Ha |- *. split; [|by exists pre].
    destruct pre as [|k pre]; [by eapply step_ok_range, frame_step|].
    destruct (decide (pre = [])) as [->|Hpre]; [|rewrite frame_deep in Ha; [done|]; destruct pre; [done|]; cbn [app length]; rewrite length_app; cbn; lia].
    destruct (frame_below _ _ [k] j [i] a Ha) as [t Hn']; [cbn; lia|]. apply node_parent in Hn' as (_ & _ & Hs & _). by eapply step_ok_range.
Qed.

Lemma destroy_l1_spec n i st D :
  torn st D -> ~ D [] -> USER_L1_FIRST <= i -> i + Z.of_nat n <= USER_L1_LIMIT ->
  (forall i' q, i <= i' < i + Z.of_nat n -> below i' [] q -> ~ D q) ->
  exists st', destroy_l1 n l1 i st = Some st' /\
    torn st' (fun q => D q \/ exists i', i <= i' < i + Z.of_nat n /\ below i' [] q).
Proof.
  unfold USER_L1_FIRST, USER_L1_LIMIT.
  revert i st D. induction n as [|n IH]; intros i st D Ht Hd Hi Hhi Hbelow.
  { exists st. split; [done|]. eapply torn_change; [|done]. intros q a _. split; [auto|]. intros [?|(k' & ? & _)]; [done|lia]. }
  cbn [destroy_l1]. rewrite (torn_read st D [] l1 i) by (done || (cbn; lia) || lia).
  assert (Hs : step_ok i [] = true) by (unfold step_ok, USER_L1_FIRST; lia).
  assert (Hone : exists st1, (if negb (pte_type (words st0 (entry l1 i)) =? PTE_TYPE_TABLE) then Some st
      else st1 ← destroy_l2 ENTRIES_PER_TABLE (pte_addr (words st0 (entry l1 i))) 0 st;
           free_frame (pte_addr (words st0 (entry l1 i))) st1) = Some st1 /\ torn st1 (fun q => D q \/ below i [] q)).
  { destruct (Z.eqb_spec (pte_type (words st0 (entry l1 i))) PTE_TYPE_TABLE) as [Et|Et]; cbn [negb].
    - apply destroy_l2_table; try done; [|intros q; apply Hbelow; lia]. rewrite (node_cons _ _ _ _ l1), Hs by done. unfold sub. by rewrite Et.
    - exists st. split; [done|]. apply torn_below_none; [done|cbn; lia|]. rewrite (node_cons _ _ _ _ l1), Hs by done.
      unfold sub. by rewrite (proj2 (Z.eqb_neq _ _)). }
  destruct Hone as (st1 & -> & Ht1). unfold mbind at 1, option_bind at 1. cbv beta iota.
  destruct (IH (i + 1) st1 _ Ht1) as (st2 & -> & Ht2); try lia.
  { intros [?|Hb%suffix_length]; [done|]. cbn [length] in Hb. lia. }
  { intros i' q Hi' Hb [Hd'|Hb']; [by apply (Hbelow i' q); [lia|..]|]. assert (i = i') by (by eapply below_inj). lia. }
  exists st2. split; [done|]. by apply torn_range.
Qed.

(** Every page of the space is given back, once. *)
Lemma destroy_all : exists st', vmm_destroy_user_l1 l1 st0 = Some st' /\ torn st' (fun _ => True).
Proof.
  assert (Hl : l1 <> 0).
  { pose proof (allocated_bounds _ _ _ _ T0 l1 (node_allocated _ _ _ _ T0 l1 [] l1 Hl1 ltac:(cbn; lia) eq_refl)). lia. }
  assert (Ht : torn st0 (fun _ => False)).
  { assert (Hg : forall x, ~ gone (fun _ => False) x) by (intros x (? & ? & [] & _)).
    split; try done; [apply T0|]. intros x. pose proof (Hg x). tauto. }
  unfold vmm_destroy_user_l1. rewrite (proj2 (Z.eqb_neq l1 0)) by done.
  destruct (destroy_l1_spec (Z.to_nat (USER_L1_LIMIT - USER_L1_FIRST)) USER_L1_FIRST st0 _ Ht) as (st1 & -> & Ht1); try done; try tauto; try lia.
  rewrite Z2Nat.id in Ht1 by (unfold USER_L1_LIMIT, USER_L1_FIRST; lia). unfold mbind at 1, option_bind at 1. cbv beta iota.
  destruct (torn_free st1 _ [] l1 Ht1) as (st2 & E & Ht2); [done| |].
  { intros [[]|(i' & _ & Hb%suffix_length)]. cbn in Hb. lia. }
  exists st2. split; [done|]. eapply torn_change; [|done]. intros q a Ha. split; [done|]. intros _.
  destruct q as [|i q _] using rev_ind; [by right|]. left. right. exists i. split; [|by exists q].
  assert (Hs : step_ok i [] = true).
  { destruct q as [|k q]; [by eapply frame_step|]. destruct (frame_below _ _ (k :: q) i [] a Ha) as [t Hn]; [cbn; lia|].
    by apply node_parent in Hn as (_ & _ & ? & _). }
  unfold step_ok, USER_L1_FIRST, USER_L1_LIMIT in *. lia.
Qed.

(** What is left of the family of spaces. *)
Definition others : list Z := filter (fun l => l <> l1) Ls.

Lemma elem_of_others l : l ∈ others <-> l ∈ Ls /\ l <> l1.
Proof. unfold others. rewrite list_elem_of_filter. tauto. Qed.

Record destroyed (st : vmm) : Prop := {
  ds_ok : tables_ok (frames st) (words st) others settled;
  ds_statics : statics st0 st;
  ds_kernel : kernel_half (words st0) (words st) others;
  ds_leaf : forall l q, l ∈ others -> length q = 3%nat -> leafv (words st) l q = leafv (words st0) l q;
  ds_free : forall x, is_free (frames st) x <-> is_free (frames st0) x \/ footprint (words st0) [l1] x;
  ds_acc : forall x, accounted st others x <-> accounted st0 Ls x;
  ds_held : forall a, held st0 Ls a -> held st others a
}.

Lemma user_destroy_spec : exists st', vmm_destroy_user_l1 l1 st0 = Some st' /\ destroyed st'.
Proof.
  destruct destroy_all as (st & E & Ht). exists st. split; [done|].
  assert (Hag : forall l p t i, l ∈ others -> (length p <= 2)%nat -> node (words st0) l p = Some t -> 0 <= i < 512 ->
    words st (entry t i) = words st0 (entry t i)).
  { intros l p t i [Hl Hne]%elem_of_others Hp Hn Hi. apply (to_words _ _ Ht).
    apply (frame_apart l p t); [done|by rewrite frame_node|by intros []|by apply entry_in_page]. }
  assert (Hsame : forall l, l ∈ others -> same_tree (words st0) (words st) l).
  { intros l Hl. apply agree_tree. intros p t i Hp Hn Hi. by apply (Hag l p). }
  assert (T : tables_ok (frames st0) (words st0) others settled) by (eapply tables_sub; [exact T0|]; by intros l [? _]%elem_of_others).
  assert (Hg : forall x, gone (fun _ => True) x <-> footprint (words st0) [l1] x).
  { intros x. split; [intros (q & a & _ & Ha & Hx); exists l1, q, a; split_and!; try done; by left|].
    intros (l & q & a & ->%list_elem_of_singleton & Ha & Hx). by exists q, a. }
  split.
  - eapply (tables_agree _ _ _ _ T); try done; try apply Ht. intros l p a Hl Ha. apply elem_of_others in Hl as [Hl Hne].
    eapply (torn_allocated st _ l p); try done. by intros [].
  - apply Ht.
  - intros l k Hl Hk. apply (Hag l [] l); try done; [cbn; lia|unfold USER_L1_FIRST in Hk; lia].
  - intros l q Hl Hq. by apply (Hsame l).
  - intros x. by rewrite (to_free _ _ Ht), Hg.
  - intros x. unfold accounted. rewrite (to_free _ _ Ht), Hg. unfold footprint. split.
    + intros [[?|(l & q & a & ->%list_elem_of_singleton & ?)]|(l & q & a & Hl & Ha & Hx)]; [by left|right; by exists l1, q, a|right].
      rewrite (tree_frame (words st0)) in Ha by auto. apply elem_of_others in Hl as [Hl _]. by exists l, q, a.
    + intros [?|(l & q & a & Hl & Ha & Hx)]; [by left; left|]. destruct (decide (l = l1)) as [->|Hne].
      * left. right. exists l1, q, a. split_and!; try done. by left.
      * right. exists l, q, a. assert (l ∈ others) by (by apply elem_of_others). split_and!; try done. by rewrite (tree_frame (words st0)) by auto.
  - intros a [(Hal & Hlo & Hhi & Hnf) Hno]. split.
    + split_and!; [done|by rewrite (to_start _ _ Ht)|by rewrite (to_end _ _ Ht)|]. intros x Hx. rewrite (to_free _ _ Ht).
      intros [?|(q & b & _ & Hb & Hx')]; [by apply (Hnf x)|]. apply (Hno l1 q Hl1). rewrite Hb. f_equal.
      apply (dyadic_eq _ _ 0 x); try done. eapply allocated_aligned, (t_alloc _ _ _ _ T0 l1 q); done.
    + intros l q Hl. rewrite (tree_frame (words st0)) by auto. apply elem_of_others in Hl as [Hl _]. auto.
Qed.

End destroy.

(** ** Unmapping a range *)

(** What the first pass makes of a leaf. *)
Definition strike (e : Z) : Z := if pte_type e =? PTE_TYPE_PAGE then Z.ldiff e PTE_TYPE_MASK else e.

Lemma strike_fields e : pte_addr (strike e) = pte_addr e /\ pmm_owned (strike e) = pmm_owned e.
Proof.
  unfold strike. case_match; [|done]. unfold pte_addr, pmm_owned, has.
  assert (Hk : forall k, Z.land PTE_TYPE_MASK k = 0 -> Z.land (Z.ldiff e PTE_TYPE_MASK) k = Z.land e k).
  { intros k Hk. apply Z.bits_inj. intros n. rewrite !Z.land_spec, Z.ldiff_spec.
    assert (Hn : Z.testbit PTE_TYPE_MASK n && Z.testbit k n = false) by (by rewrite <- Z.land_spec, Hk, Z.testbit_0_l).
    destruct (Z.testbit e n), (Z.testbit PTE_TYPE_MASK n), (Z.testbit k n); done. }
  by rewrite !Hk.
Qed.

Lemma strike_type e : pte_type e = PTE_TYPE_PAGE -> pte_type (strike e) = PTE_TYPE_INVALID.
Proof.
  intros E. unfold strike. rewrite E, Z.eqb_refl. unfold pte_type. apply Z.land_ldiff.
Qed.

Lemma user_l3_entry_spec st Ls H l1 va :
  tables_ok (frames st) (words st) Ls H -> l1 ∈ Ls ->
  (exists l3, user_page va /\ node (words st) l1 [L2_INDEX va; L1_INDEX va] = Some l3 /\
     user_l3_entry l1 va st = entry l3 (L3_INDEX va) /\ user_l3_entry l1 va st <> 0) \/
  user_l3_entry l1 va st = 0 /\ (user_page va -> leafv (words st) l1 (path_of va) = 0).
Proof.
  intros T Hl. pose proof (allocated_bounds _ _ _ _ T l1 (node_allocated _ _ _ _ T l1 [] l1 Hl ltac:(cbn; lia) eq_refl)) as Hl1.
  unfold user_l3_entry. rewrite (proj2 (Z.eqb_neq l1 0)) by lia.
  destruct (decide (user_page va)) as [Hva|Hva].
  - destruct (user_page_tests va Hva) as (-> & -> & ->), (window_steps va (proj1 Hva)) as (S1 & S2 & S3). cbn [orb].
    unfold path_of, leafv. cbn [node]. cbn [mbind option_bind]. rewrite S1, S2. unfold sub.
    destruct (Z.eqb_spec (pte_type (words st (entry l1 (L1_INDEX va)))) PTE_TYPE_TABLE) as [E1|E1]; cbn [negb]; [|by right].
    cbn. destruct (Z.eqb_spec (pte_type (words st (entry (pte_addr (words st (entry l1 (L1_INDEX va)))) (L2_INDEX va)))) PTE_TYPE_TABLE) as [E2|E2]; cbn [negb]; [|by right].
    left. eexists. split_and!; try done. set (l3 := pte_addr _).
    assert (Hn : node (words st) l1 [L2_INDEX va; L1_INDEX va] = Some l3).
    { rewrite (node_cons _ _ _ _ (pte_addr (words st (entry l1 (L1_INDEX va))))), S2; [unfold sub; by rewrite E2|].
      rewrite (node_cons _ _ _ _ l1), S1 by done. unfold sub. by rewrite E1. }
    pose proof (allocated_bounds _ _ _ _ T l3 (node_allocated _ _ _ _ T l1 [L2_INDEX va; L1_INDEX va] l3 Hl ltac:(cbn; lia) Hn)).
    apply step_ok_range in S3. unfold entry. lia.
  - right. split; [|done]. destruct (Z.ltb_spec va USER_VA_BASE); [done|]. destruct (Z.leb_spec USER_VA_LIMIT va); [done|]. cbn [orb].
    destruct (negb (Z.land va (PAGE_SIZE - 1) =? 0)) eqn:Ev; [done|]. exfalso. apply Hva. split; [lia|].
    apply PmmSpec.page_aligned_land in Ev. unfold aligned in Ev. by rewrite bsize_0 in Ev.
Qed.

(** One leaf is cleared and its page given back when the space owns it. *)
Record leaf_cleared (st st' : vmm) (Ls : list Z) (H : Z -> list Z -> Prop) (l1 k : Z) (p : list Z) : Prop := {
  lc_ok : tables_ok (frames st') (words st') Ls (fun l q => H l q /\ ~ (l = l1 /\ q = k :: p));
  lc_statics : statics st st';
  lc_start : heap_start (frames st') = heap_start (frames st);
  lc_end : heap_end (frames st') = heap_end (frames st);
  lc_node : forall l q, l ∈ Ls -> (length q <= 2)%nat -> node (words st') l q = node (words st) l q;
  lc_leaf : forall l q, l ∈ Ls -> length q = 3%nat ->
    leafv (words st') l q = if decide (l = l1 /\ q = k :: p) then 0 else leafv (words st) l q;
  lc_free : forall x, is_free (frames st') x <->
    is_free (frames st) x \/ exists a, frame (words st) l1 (k :: p) = Some a /\ in_block a 0 x;
  lc_kernel : kernel_half (words st) (words st') Ls;
  lc_trace : exists e tr, trace st' = tr ++ Stored e 0 :: trace st /\ (tr = [] \/ exists a, tr = [Freed a])
}.

Lemma clear_leaf st Ls H l1 p k t :
  tables_ok (frames st) (words st) Ls H -> l1 ∈ Ls -> length p = 2%nat -> node (words st) l1 p = Some t -> step_ok k p = true ->
  exists st', (if pmm_owned (words st (entry t k)) then free_frame (pte_addr (words st (entry t k))) (store (entry t k) 0 st)
     else Some (store (entry t k) 0 st)) = Some st' /\ leaf_cleared st st' Ls H l1 k p.
Proof.
  intros T Hl Hp Hn Hs. set (v := words st (entry t k)). set (H' := fun l q => H l q /\ ~ (l = l1 /\ q = k :: p)).
  assert (H3 : length (k :: p) = 3%nat) by (cbn [length]; lia).
  destruct (leaf_update _ _ _ _ T l1 p t k 0 Hl Hp Hn Hs) as [Hnode Hleaf].
  assert (T1 : tables_ok (frames st) (<[entry t k := 0]> (words st)) Ls H').
  { eapply (leaf_update_ok _ _ _ _ T l1 p t); try done; auto. }
  assert (Hk1 : kernel_half (words st) (<[entry t k := 0]> (words st)) Ls) by (by eapply (store_kernel_half _ _ _ _ l1 p); [exact T| |lia|..]).
  assert (Hfr : frame (words st) l1 (k :: p) = if pmm_owned v then Some (pte_addr v) else None) by (by rewrite frame_leaf, (leafv_cons _ _ _ _ t)).
  destruct (pmm_owned v) eqn:Ho.
  - pose proof (t_alloc _ _ _ _ T l1 _ _ Hl Hfr) as Ha.
    destruct (free_frame_spec (pte_addr v) (store (entry t k) 0 st)) as (st' & E & Hinv & Hst & Hs' & He & Hf & Hw & Htr); [apply T|done|].
    cbn [store emit with_words words frames trace] in *. exists st'. split; [done|].
    assert (Hno : forall l q, l ∈ Ls -> frame (<[entry t k := 0]> (words st)) l q <> Some (pte_addr v)).
    { intros l q Hl' Hq. destruct (decide (length q = 3%nat)) as [E3|N3].
      - rewrite frame_leaf, Hleaf in Hq by done. case_decide as D; [done|]. rewrite <- frame_leaf in Hq by done.
        apply D. by apply (t_inj _ _ _ _ T l l1 q (k :: p) (pte_addr v)).
      - destruct (decide (length q <= 2)%nat); [|by rewrite frame_deep in Hq by lia]. rewrite frame_node, Hnode in Hq by done.
        destruct (t_inj _ _ _ _ T l l1 q (k :: p) (pte_addr v)) as [_ ->]; try done. by rewrite frame_node. }
    assert (Hag : forall l q t' j, l ∈ Ls -> (length q <= 2)%nat -> node (<[entry t k := 0]> (words st)) l q = Some t' -> 0 <= j < 512 ->
      words st' (entry t' j) = <[entry t k := 0]> (words st) (entry t' j)).
    { intros l q t' j Hl' Hq Hn' Hj. apply Hw. by eapply (table_off _ _ _ _ _ l q); [exact T1| |by destruct Ha|..]. }
    assert (Hsame : forall l, l ∈ Ls -> same_tree (<[entry t k := 0]> (words st)) (words st') l).
    { intros l Hl'. apply agree_tree. intros q t' j. by apply (Hag l q). }
    split; try done.
    + eapply (tables_agree _ _ _ _ T1); try done. intros l q a Hl' Hq. eapply (free_keeps (frames st)); try done; [by apply (t_alloc _ _ _ _ T1 l q)|].
      intros <-. by apply (Hno l q).
    + intros l q Hl' Hq. rewrite (proj1 (Hsame l Hl')) by done. auto.
    + intros l q Hl' Hq. rewrite (proj2 (Hsame l Hl')) by done. auto.
    + intros x. rewrite Hf, Hfr. split; [intros [?|?]; [by left|right; by eexists]|]. intros [?|(a & [= <-] & ?)]; auto.
    + eapply kernel_half_trans; [exact Hk1|]. eapply (kernel_half_outside _ _ _ _ _ (pte_addr v) T1); try done. apply Ha.
    + exists (entry t k), [Freed (pte_addr v)]. split; [done|]. right. by eexists.
  - exists (store (entry t k) 0 st). split; [done|]. split; cbn [store emit with_words words frames trace]; try done.
    + intros x. rewrite Hfr. split; [by left|]. by intros [?|(a & ? & _)].
    + exists (entry t k), []. auto.
Qed.

(** The table memory a trace of stores leaves. *)
Fixpoint replay (w : Z -> Z) (tr : list event) : Z -> Z :=
  match tr with
  | [] => w
  | Stored a v :: tr => <[a := v]> (replay w tr)
  | _ :: tr => replay w tr
  end.

(** ** The TLB

    A broadcast invalidation drops the entries it names.  A store may be followed at
    any time by a walk that caches what the tables then say, and so may an
    invalidation. *)
Definition hits (op : tlbi_op) (va : Z) : Prop :=
  match op with TlbiVa vpn => vpn = Z.shiftr va 12 | TlbiAll => True end.

(** A TLB that started as [tlb] may hold a translation of [va] after [tr]. *)
Fixpoint may_cache (tlb : Z -> Prop) (w : Z -> Z) (l1 : Z) (tr : list event) (va : Z) : Prop :=
  match tr with
  | [] => tlb va
  | Stored a v :: tr => may_cache tlb w l1 tr va \/ is_Some (translate (<[a := v]> (replay w tr)) l1 va)
  | Tlbi op :: tr => may_cache tlb w l1 tr va /\ ~ hits op va \/ is_Some (translate (replay w tr) l1 va)
  | Freed _ :: tr => may_cache tlb w l1 tr va
  end.

(** Neither the tables nor the TLB translate [va]. *)
Definition quiet (tlb : Z -> Prop) (w : Z -> Z) (l1 : Z) (tr : list event) (va : Z) : Prop :=
  ~ may_cache tlb w l1 tr va /\ translate (replay w tr) l1 va = None.

(** Clearing an entry, whichever it is, adds no translation. *)
Lemma translate_clear w l1 va e : translate w l1 va = None -> translate (<[e := 0]> w) l1 va = None.
Proof.
  assert (Hsub : forall t i a, sub (<[e := 0]> w) t i = Some a -> sub w t i = Some a).
  { intros t i a. unfold sub. rewrite fn_lookup_insert_Z. by case_decide. }
  assert (Hn : forall q a, node (<[e := 0]> w) l1 q = Some a -> node w l1 q = Some a).
  { induction q as [|i q IH]; intros a; [done|]. intros (t & Ht & Hs & Ha)%node_parent. rewrite (node_cons _ _ _ _ t), Hs by auto. auto. }
  unfold translate. assert (Hl : leafv (<[e := 0]> w) l1 (path_of va) = 0 \/ leafv (<[e := 0]> w) l1 (path_of va) = leafv w l1 (path_of va)).
  { unfold path_of, leafv. destruct (node (<[e := 0]> w) l1 _) as [t|] eqn:E; [|by left]. rewrite (Hn _ _ E).
    case_match; [|by left]. rewrite fn_lookup_insert_Z. case_decide; auto. }
  destruct Hl as [->| ->]; done.
Qed.

(** Events of the second pass: entries cleared, pages freed. *)
Definition clearing (e : event) : Prop := match e with Stored _ v => v = 0 | Tlbi _ => False | Freed _ => True end.

Lemma quiet_clearing tlb w l1 tr' tr va : Forall clearing tr' -> quiet tlb w l1 tr va -> quiet tlb w l1 (tr' ++ tr) va.
Proof.
  intros Hc Hq. induction Hc as [|e tr' He _ [IH1 IH2]]; [done|]. destruct e as [a v|op|p]; [|done|done]. cbn in He. subst v.
  pose proof (translate_clear _ _ _ a IH2) as E. split; cbn [may_cache replay app]; rewrite E; [|done].
  intros [?|[? ?]]; done.
Qed.

Definition storing (e : event) : Prop := match e with Stored _ _ => True | _ => False end.

Definition invalidation (e : event) : Prop := match e with Tlbi _ => True | _ => False end.

Lemma replay_invalidation w tr' tr : Forall invalidation tr' -> replay w (tr' ++ tr) = replay w tr.
Proof. intros Hi. induction Hi as [|e tr' He _ IH]; [done|]. by destruct e. Qed.

Lemma quiet_flush tlb w l1 tr' tr va op :
  Forall invalidation tr' -> Tlbi op ∈ tr' -> hits op va -> translate (replay w tr) l1 va = None -> quiet tlb w l1 (tr' ++ tr) va.
Proof.
  intros Hi Hin Hh E. pose proof (replay_invalidation w tr' tr Hi) as Er. split; [|by rewrite Er].
  clear Er. induction Hi as [|e tr' He Hi IH]; [by apply not_elem_of_nil in Hin|].
  destruct e as [|op'|]; [done| |done]. cbn [may_cache app]. rewrite replay_invalidation, E by done.
  intros [[Hc Hn]|[? ?]]; [|done]. apply elem_of_cons in Hin as [[= <-]|Hin]; [done|]. by apply IH.
Qed.

(** The effect of the TLB calls on the model: only the trace grows. *)
Definition flushed (st st' : vmm) (tr : list event) : Prop :=
  frames st' = frames st /\ words st' = words st /\ statics st st' /\ trace st' = tr ++ trace st /\ Forall invalidation tr.

Lemma tlbi_pages_spec n a st :
  exists tr, flushed st (tlbi_pages n a st) tr /\
    forall i, 0 <= i < Z.of_nat n -> Tlbi (TlbiVa (Z.shiftr (a + i * PAGE_SIZE) 12)) ∈ tr.
Proof.
  revert a st. induction n as [|n IH]; intros a st; [exists []; split; [done|lia]|].
  destruct (IH (a + PAGE_SIZE) (vmm_invalidate_tlb a st)) as (tr & (E1 & E2 & E3 & E4 & E5) & Hin). cbn [tlbi_pages].
  exists (tr ++ [Tlbi (TlbiVa (Z.shiftr a 12))]). split.
  - split_and!; try done; [by rewrite E4, <- app_assoc|]. apply Forall_app. split; [done|]. by repeat constructor.
  - intros i Hi. apply elem_of_app. destruct (decide (i = 0)) as [->|]; [right; replace (a + 0 * PAGE_SIZE) with a by lia; by left|].
    left. replace (a + i * PAGE_SIZE) with (a + PAGE_SIZE + (i - 1) * PAGE_SIZE) by lia. apply Hin. lia.
Qed.

Lemma align_down x : 0 <= x -> Z.ldiff x (PAGE_SIZE - 1) = x / PAGE_SIZE * PAGE_SIZE.
Proof.
  intros Hx. change (PAGE_SIZE - 1) with (Z.ones 12). change PAGE_SIZE with (2 ^ 12).
  by rewrite Z.ldiff_ones_r, Z.shiftl_mul_pow2, Z.shiftr_div_pow2 by lia.
Qed.

Lemma invalidate_range_spec va pages st :
  0 <= va -> (PAGE_SIZE | va) -> 0 < pages -> va + pages * PAGE_SIZE < 2 ^ 64 ->
  exists tr, flushed st (vmm_invalidate_tlb_range va (va +64 u64 (pages * PAGE_SIZE)) st) tr /\
    forall i, 0 <= i < pages -> exists op, Tlbi op ∈ tr /\ hits op (va + i * PAGE_SIZE).
Proof.
  intros Hva [q ->] Hp Hfit. unfold PAGE_SIZE in Hfit.
  assert (E1 : u64 (q * PAGE_SIZE + u64 (pages * PAGE_SIZE)) = (q + pages) * PAGE_SIZE).
  { unfold PAGE_SIZE in *. rewrite (u64_small (pages * 4096)), u64_small; [lia|unfold is_u64; lia..]. }
  unfold vmm_invalidate_tlb_range. rewrite E1, (align_down (q * PAGE_SIZE)), Z.div_mul by done.
  assert (E2 : Z.ldiff (u64 ((q + pages) * PAGE_SIZE + (PAGE_SIZE - 1))) (PAGE_SIZE - 1) = (q + pages) * PAGE_SIZE).
  { rewrite u64_small by (unfold is_u64, PAGE_SIZE in *; lia). rewrite align_down by (unfold PAGE_SIZE in *; lia). f_equal.
    symmetry. apply Z.div_unique with (PAGE_SIZE - 1); unfold PAGE_SIZE; lia. }
  rewrite E2. case_match eqn:Ec.
  - exists [Tlbi TlbiAll]. split; [split_and!; try done; by repeat constructor|]. intros i Hi. exists TlbiAll. split; [by left|done].
  - assert (E3 : u64 ((q + pages) * PAGE_SIZE - q * PAGE_SIZE) / PAGE_SIZE = pages).
    { rewrite u64_small by (unfold is_u64, PAGE_SIZE in *; lia). replace (_ - _) with (pages * PAGE_SIZE) by lia. by apply Z.div_mul. }
    rewrite E3. destruct (tlbi_pages_spec (Z.to_nat pages) (q * PAGE_SIZE) st) as (tr & Hf & Hin). exists tr. split; [done|].
    intros i Hi. exists (TlbiVa (Z.shiftr (q * PAGE_SIZE + i * PAGE_SIZE) 12)). split; [apply Hin; lia|done].
Qed.

Lemma invalidate_range_any start end_ st : exists tr, flushed st (vmm_invalidate_tlb_range start end_ st) tr.
Proof.
  unfold vmm_invalidate_tlb_range. cbv zeta. case_match.
  - exists [Tlbi TlbiAll]. split_and!; try done. by repeat constructor.
  - edestruct (tlbi_pages_spec (Z.to_nat ((Z.ldiff (end_ +64 (PAGE_SIZE - 1)) (PAGE_SIZE - 1) -64 Z.ldiff start (PAGE_SIZE - 1)) / PAGE_SIZE))
      (Z.ldiff start (PAGE_SIZE - 1)) st) as (tr & Hf & _). by exists tr.
Qed.

Section unmap.
Context (st0 : vmm) (Ls : list Z) (l1 va pages : Z).
Context (T0 : tables_ok (frames st0) (words st0) Ls settled) (Hl1 : l1 ∈ Ls).
Context (Hva : 0 <= va) (Hpages : 0 <= pages) (Hfit : va + pages * PAGE_SIZE < 2 ^ 64).

Notation leafv0 := (leafv (words st0)).
Notation page i := (va + i * PAGE_SIZE).

(** [q] leads to one of the first [i] pages of the range. *)
Definition seen (i : Z) (q : list Z) : Prop :=
  exists i', 0 <= i' < i /\ user_page (page i') /\ q = path_of (page i').

Lemma seen_succ i q : 0 <= i -> seen (i + 1) q <-> seen i q \/ user_page (page i) /\ q = path_of (page i).
Proof.
  intros Hi. split.
  - intros (i' & Hi' & Hu & ->). destruct (decide (i' = i)) as [->|]; [by right|left]. exists i'. split; [lia|done].
  - intros [(i' & Hi' & Hu & ->)|[Hu ->]]; [exists i'|exists i]; split_and!; (done || lia).
Qed.

Lemma not_seen i : 0 <= i -> user_page (page i) -> ~ seen i (path_of (page i)).
Proof.
  intros Hi Hu (i' & Hi' & Hu' & E). apply path_of_inj in E; try done. unfold PAGE_SIZE in E. lia.
Qed.

Lemma page_u64 i : 0 <= i < pages -> va +64 u64 (i * PAGE_SIZE) = page i.
Proof. intros Hi. unfold PAGE_SIZE in *. rewrite (u64_small (i * 4096)), u64_small; [done|unfold is_u64; lia..]. Qed.

(** The first [i] pages have been struck. *)
Record struck (st : vmm) (i : Z) : Prop := {
  sk_frames : frames st = frames st0;
  sk_ok : tables_ok (frames st0) (words st) Ls (fun l q => l = l1 /\ seen i q);
  sk_node : forall l q, l ∈ Ls -> (length q <= 2)%nat -> node (words st) l q = node (words st0) l q;
  sk_seen : forall q, length q = 3%nat -> seen i q -> leafv (words st) l1 q = strike (leafv0 l1 q);
  sk_same : forall l q, l ∈ Ls -> length q = 3%nat -> ~ (l = l1 /\ seen i q) -> leafv (words st) l q = leafv0 l q;
  sk_statics : statics st0 st;
  sk_kernel : kernel_half (words st0) (words st) Ls;
  sk_trace : exists tr, trace st = tr ++ trace st0 /\ words st = replay (words st0) tr /\ Forall storing tr
}.

Lemma struck_start : struck st0 0.
Proof.
  assert (Hn : forall q, ~ seen 0 q) by (intros q (i' & ? & _); lia).
  split; try done.
  - split; try apply T0. intros l p Hl Hp. destruct (t_leaf _ _ _ _ T0 l p Hl Hp) as [?|[?|[? []]]]; auto.
  - intros q _ Hq. by destruct (Hn q).
  - by exists [].
Qed.

Lemma struck_skip st i : 0 <= i -> struck st i -> (user_page (page i) -> leafv0 l1 (path_of (page i)) = 0) -> struck st (i + 1).
Proof.
  intros Hi [? T ? Hs Hd ? ? ?] H0. split; try done.
  - split; try apply T. intros l p Hl Hp. destruct (t_leaf _ _ _ _ T l p Hl Hp) as [?|[?|[? [? ?]]]]; auto.
    right. right. split_and!; try done. apply seen_succ; auto.
  - intros q Hq [?|[Hu ->]]%seen_succ; [by apply Hs| |done]. rewrite H0 by done. rewrite Hd, H0; try done.
    intros [_ ?]. by eapply not_seen.
  - intros l q Hl Hq Hn. apply Hd; try done. intros [-> ?]. apply Hn. split; [done|]. apply seen_succ; auto.
Qed.

Lemma struck_store st i l3 :
  0 <= i -> struck st i -> user_page (page i) -> node (words st) l1 [L2_INDEX (page i); L1_INDEX (page i)] = Some l3 ->
  pte_type (words st (entry l3 (L3_INDEX (page i)))) = PTE_TYPE_PAGE ->
  struck (store (entry l3 (L3_INDEX (page i))) (Z.ldiff (words st (entry l3 (L3_INDEX (page i)))) PTE_TYPE_MASK) st) (i + 1).
Proof.
  intros Hi [Hf T Hnd Hs Hd Hst Hk (tr & Htr & Hw & Hst')] Hu Hn Ht. destruct (window_steps _ (proj1 Hu)) as (_ & _ & S3).
  set (v := words st (entry l3 (L3_INDEX (page i)))) in *. set (p := [L2_INDEX (page i); L1_INDEX (page i)]) in *.
  assert (Hv : leafv (words st) l1 (path_of (page i)) = v) by (by apply leafv_cons).
  replace (Z.ldiff v PTE_TYPE_MASK) with (strike v) by (unfold strike; by rewrite Ht).
  destruct (strike_fields v) as [Ea Eo].
  destruct (leaf_update _ _ _ _ T l1 p l3 (L3_INDEX (page i)) (strike v) Hl1 eq_refl Hn S3) as [Hnode Hleaf].
  split; cbn [store emit with_words words frames trace]; try done.
  - eapply (leaf_update_ok _ _ _ _ T l1 p l3); try done.
    + rewrite Eo, Ea. intros Ho.
      assert (Hfr : frame (words st) l1 (path_of (page i)) = Some (pte_addr v)) by (by rewrite frame_leaf, Hv, Ho).
      split; [by apply (t_alloc _ _ _ _ T l1 (path_of (page i)))|]. intros l q Hl Hq. by apply (t_inj _ _ _ _ T l l1 q _ (pte_addr v)).
    + right. right. split; [by apply strike_type|]. split; [done|]. apply seen_succ; auto.
    + intros l q Hne [-> ?]. split; [done|]. apply seen_succ; auto.
  - intros l q Hl Hq. rewrite Hnode by done. auto.
  - intros q Hq Hse. rewrite Hleaf by done. case_decide as E.
    + destruct E as [_ ->]. change (L3_INDEX (page i) :: p) with (path_of (page i)). f_equal. rewrite <- Hv. apply Hd; try done.
      intros [_ ?]. by eapply not_seen.
    + apply Hs; [done|]. apply seen_succ in Hse as [?|[_ ->]]; [done| |done]. by destruct E.
  - intros l q Hl Hq Hne. rewrite Hleaf by done. rewrite decide_False.
    + apply Hd; try done. intros [-> ?]. apply Hne. split; [done|]. apply seen_succ; auto.
    + intros [-> ->]. apply Hne. split; [done|]. apply seen_succ; auto.
  - eapply kernel_half_trans; [done|]. by eapply (store_kernel_half _ _ _ _ l1 p); [exact T| |cbn; lia|..].
  - exists (Stored (entry l3 (L3_INDEX (page i))) (strike v) :: tr). cbn [replay]. rewrite Htr, Hw. split_and!; [done|done|by constructor].
Qed.

(** The first pass. *)
Lemma unmap_invalidate_spec n i rc st :
  0 <= i -> i + Z.of_nat n <= pages -> struck st i -> rc = 0 \/ rc = -1 ->
  exists rc' st', unmap_invalidate n l1 va i rc st = (rc', st') /\ struck st' (i + Z.of_nat n) /\ (rc' = 0 \/ rc' = -1) /\
    (rc' = 0 <-> rc = 0 /\ forall i', i <= i' < i + Z.of_nat n -> user_page (page i') /\ is_Some (translate (words st0) l1 (page i'))).
Proof.
  revert i rc st. induction n as [|n IH]; intros i rc st Hi Hn Hk Hrc; cbn [unmap_invalidate].
  { exists rc, st. split; [done|]. replace (i + Z.of_nat 0) with i by lia. split_and!; try done. split; [intros ->; split; [done|lia]|by intros [? _]]. }
  rewrite page_u64 by lia. replace (i + Z.of_nat (S n)) with (i + 1 + Z.of_nat n) in * by lia.
  assert (Hb : forall rc' : Z, rc' = 0 /\ (forall i', i + 1 <= i' < i + 1 + Z.of_nat n -> user_page (page i') /\ is_Some (translate (words st0) l1 (page i'))) ->
    user_page (page i) /\ is_Some (translate (words st0) l1 (page i)) ->
    rc' = 0 /\ forall i', i <= i' < i + 1 + Z.of_nat n -> user_page (page i') /\ is_Some (translate (words st0) l1 (page i'))).
  { intros rc' [? Hr] Hh. split; [done|]. intros i' Hi'. destruct (decide (i' = i)) as [->|]; [done|]. apply Hr. lia. }
  assert (T : tables_ok (frames st) (words st) Ls (fun l q => l = l1 /\ seen i q)) by (rewrite (sk_frames _ _ Hk); apply Hk).
  destruct (user_l3_entry_spec st Ls _ l1 (page i) T Hl1) as [(l3 & Hu & Hnd & E & Hne)|[-> Hz]].
  - rewrite (proj2 (Z.eqb_neq _ 0)) by done. rewrite E. cbn [orb].
    destruct (window_steps _ (proj1 Hu)) as (_ & _ & S3). pose proof (leafv_cons _ _ _ _ _ Hnd S3) as Hlv.
    assert (Hl0 : leafv0 l1 (path_of (page i)) = words st (entry l3 (L3_INDEX (page i)))).
    { rewrite <- Hlv. symmetry. apply (sk_same _ _ Hk); try done. intros [_ ?]. by eapply not_seen. }
    destruct (Z.eqb_spec (pte_type (words st (entry l3 (L3_INDEX (page i))))) PTE_TYPE_PAGE) as [Et|Et]; cbn [negb].
    + destruct (IH (i + 1) rc _ ltac:(lia) ltac:(lia) (struck_store st i l3 Hi Hk Hu Hnd Et) Hrc) as (rc' & st' & -> & ? & ? & Hr).
      exists rc', st'. split_and!; try done. rewrite Hr. split.
      * intros Hall. apply Hb; [done|]. split; [done|]. unfold translate. rewrite Hl0, Et. by eexists.
      * intros [? Hall]. split; [done|]. intros i' Hi'. apply Hall. lia.
    + destruct (IH (i + 1) (-1) st ltac:(lia) ltac:(lia)) as (rc' & st' & -> & ? & ? & Hr); [|by right|].
      { apply struck_skip; try done. intros _. destruct (t_leaf _ _ _ _ T0 l1 (path_of (page i)) Hl1 eq_refl) as [?|[E'|[_ []]]]; [done|]. congruence. }
      exists rc', st'. split_and!; try done. rewrite Hr. split; [by intros [? _]|]. intros [_ Hall]. exfalso.
      destruct (Hall i ltac:(lia)) as [_ [d Hd]]. unfold translate in Hd. rewrite Hl0, (proj2 (Z.eqb_neq _ _)) in Hd; done.
  - cbn [Z.eqb orb]. assert (Hl0 : user_page (page i) -> leafv0 l1 (path_of (page i)) = 0).
    { intros Hu. rewrite <- Hz by done. symmetry. apply (sk_same _ _ Hk); try done. intros [_ ?]. by eapply not_seen. }
    destruct (IH (i + 1) (-1) st ltac:(lia) ltac:(lia)) as (rc' & st' & -> & ? & ? & Hr); [by apply struck_skip|by right|].
    exists rc', st'. split_and!; try done. rewrite Hr. split; [by intros [? _]|]. intros [_ Hall]. exfalso.
    destruct (Hall i ltac:(lia)) as [Hu [d Hd]]. unfold translate in Hd. by rewrite Hl0 in Hd.
Qed.

(** All pages of the range are struck, the first [i] of them cleared and freed. *)
Record cleared (st1 st : vmm) (i : Z) : Prop := {
  cl_ok : tables_ok (frames st) (words st) Ls (fun l q => l = l1 /\ seen pages q /\ ~ seen i q);
  cl_start : heap_start (frames st) = heap_start (frames st0);
  cl_end : heap_end (frames st) = heap_end (frames st0);
  cl_node : forall l q, l ∈ Ls -> (length q <= 2)%nat -> node (words st) l q = node (words st0) l q;
  cl_done : forall q, length q = 3%nat -> seen i q -> leafv (words st) l1 q = 0;
  cl_todo : forall q, length q = 3%nat -> seen pages q -> ~ seen i q -> leafv (words st) l1 q = strike (leafv0 l1 q);
  cl_same : forall l q, l ∈ Ls -> length q = 3%nat -> ~ (l = l1 /\ seen pages q) -> leafv (words st) l q = leafv0 l q;
  cl_free : forall x, is_free (frames st) x <-> is_free (frames st0) x \/ gone st0 l1 (seen i) x;
  cl_statics : statics st0 st;
  cl_kernel : kernel_half (words st0) (words st) Ls;
  cl_trace : exists tr, trace st = tr ++ trace st1 /\ Forall clearing tr
}.

Lemma cleared_start st : struck st pages -> cleared st st 0.
Proof.
  assert (Hn : forall q, ~ seen 0 q) by (intros q (i' & ? & _); lia).
  intros [Hf T ? Hs Hd ? ? _]. rewrite <- Hf in T. split; try done; try congruence.
  - split; try apply T. intros l p Hl Hp. destruct (t_leaf _ _ _ _ T l p Hl Hp) as [?|[?|[? [? ?]]]]; auto 10.
  - intros q _ Hq. by destruct (Hn q).
  - intros q Hq ? _. by apply Hs.
  - intros x. rewrite Hf. split; [by left|]. intros [?|(q & a & Hq & _)]; [done|]. by destruct (Hn q).
  - by exists [].
Qed.

(** Leaves of the range that hold nothing any more. *)
Lemma struck_value e : e = 0 \/ pte_type e = PTE_TYPE_PAGE -> strike e = 0 \/ pte_type (strike e) = PTE_TYPE_INVALID.
Proof. intros [->|E]; [by left|right; by apply strike_type]. Qed.

Lemma gone_seen i x :
  0 <= i -> gone st0 l1 (seen (i + 1)) x <->
  gone st0 l1 (seen i) x \/ user_page (page i) /\ exists a, frame (words st0) l1 (path_of (page i)) = Some a /\ in_block a 0 x.
Proof.
  intros Hi. split.
  - intros (q & a & [?|[Hu ->]]%seen_succ & Ha & Hx); [left; by exists q, a|right; eauto|done].
  - intros [(q & a & Hq & Ha & Hx)|(Hu & a & Ha & Hx)]; [exists q, a|exists (path_of (page i)), a]; split_and!; try done; apply seen_succ; auto.
Qed.

Lemma cleared_skip st1 st i :
  0 <= i < pages -> cleared st1 st i -> (user_page (page i) -> leafv (words st) l1 (path_of (page i)) = 0) -> cleared st1 st (i + 1).
Proof.
  intros Hi [T ? ? ? Hd Ht Hs Hf ? ? ?] H0.
  assert (Hin : user_page (page i) -> seen pages (path_of (page i))) by (intros Hu; exists i; split_and!; (done || lia)).
  split; try done.
  - split; try apply T. intros l p Hl Hp. destruct (t_leaf _ _ _ _ T l p Hl Hp) as [?|[?|[Hz (-> & Hsp & Hns)]]]; auto.
    destruct (decide (user_page (page i) /\ p = path_of (page i))) as [[Hu ->]|Hne]; [left; by apply H0|].
    right. right. split_and!; try done. rewrite seen_succ by lia. tauto.
  - intros q Hq [?|[Hu ->]]%seen_succ; [by apply Hd|by apply H0|lia].
  - intros q Hq Hsp Hn. apply Ht; try done. rewrite seen_succ in Hn by lia. tauto.
  - intros x. rewrite gone_seen, Hf by lia. split; [tauto|]. intros [?|[?|(Hu & a & Ha & Hx)]]; auto. exfalso.
    assert (Hz : leafv (words st) l1 (path_of (page i)) = strike (leafv0 l1 (path_of (page i)))).
    { apply Ht; auto. apply not_seen; [lia|done]. }
    rewrite frame_leaf in Ha by done. destruct (strike_fields (leafv0 l1 (path_of (page i)))) as [_ Eo].
    rewrite <- Hz, H0 in Eo by done. by rewrite <- Eo in Ha.
Qed.

Lemma cleared_leaf st1 st st' i :
  0 <= i < pages -> cleared st1 st i -> user_page (page i) ->
  leaf_cleared st st' Ls (fun l q => l = l1 /\ seen pages q /\ ~ seen i q) l1 (L3_INDEX (page i)) [L2_INDEX (page i); L1_INDEX (page i)] ->
  cleared st1 st' (i + 1).
Proof.
  intros Hi C Hu [T Hst Es Ee Hn Hl Hf Hk (e & tr' & Htr' & Hev)]. change (L3_INDEX (page i) :: _) with (path_of (page i)) in *.
  pose proof (not_seen i ltac:(lia) Hu) as Hns.
  assert (Hin : seen pages (path_of (page i))) by (exists i; split_and!; (done || lia)).
  assert (Hfr : frame (words st) l1 (path_of (page i)) = frame (words st0) l1 (path_of (page i))).
  { rewrite !frame_leaf by done. rewrite (cl_todo _ _ _ C) by done. destruct (strike_fields (leafv0 l1 (path_of (page i)))) as [-> ->]. done. }
  destruct C as [_ Cs Ce Cn Cd Ct Csm Cf Cst Ck (tr & Htr & Hall)]. split; try congruence.
  - split; try apply T. intros l p Hl' Hp. destruct (t_leaf _ _ _ _ T l p Hl' Hp) as [?|[?|(? & (-> & ? & ?) & Hne)]]; auto.
    right. right. split_and!; try done. rewrite seen_succ by lia. intros [?|[_ ->]]; [done|]. by apply Hne.
  - intros l q Hl' Hq. rewrite Hn, Cn; done.
  - intros q Hq Hs. rewrite Hl by done. case_decide as D; [done|]. apply Cd; [done|].
    apply seen_succ in Hs as [?|[_ ->]]; [done| |lia]. by destruct D.
  - intros q Hq Hsp Hn'. rewrite Hl by done. rewrite seen_succ in Hn' by lia. rewrite decide_False by (intros [_ ->]; tauto). apply Ct; tauto.
  - intros l q Hl' Hq Hne. rewrite Hl by done. rewrite decide_False by (intros [-> ->]; tauto). by apply Csm.
  - intros x. rewrite Hf, Cf, gone_seen, Hfr by lia. tauto.
  - by eapply statics_trans.
  - by eapply kernel_half_trans.
  - exists (tr' ++ Stored e 0 :: tr). rewrite Htr', Htr, <- app_assoc. split; [done|].
    apply Forall_app. split; [destruct Hev as [->|[a ->]]; by repeat constructor|by constructor].
Qed.

(** The second pass. *)
Lemma unmap_free_spec n i st1 st :
  0 <= i -> i + Z.of_nat n <= pages -> cleared st1 st i ->
  exists st', unmap_free n l1 va i st = Some st' /\ cleared st1 st' (i + Z.of_nat n).
Proof.
  revert i st. induction n as [|n IH]; intros i st Hi Hn C; cbn [unmap_free].
  { exists st. replace (i + Z.of_nat 0) with i by lia. done. }
  rewrite page_u64 by lia. replace (i + Z.of_nat (S n)) with (i + 1 + Z.of_nat n) in * by lia. cbv zeta.
  destruct (user_l3_entry_spec st Ls _ l1 (page i) (cl_ok _ _ _ C) Hl1) as [(l3 & Hu & Hnd & E & Hne)|[-> Hz]].
  - rewrite (proj2 (Z.eqb_neq _ 0)) by done. rewrite E. cbn [orb].
    destruct (window_steps _ (proj1 Hu)) as (_ & _ & S3). pose proof (leafv_cons _ _ _ _ _ Hnd S3) as Hlv.
    destruct (Z.eqb_spec (words st (entry l3 (L3_INDEX (page i)))) 0) as [E0|N0]; cbn [orb].
    + apply IH; [lia|lia|]. apply cleared_skip; [lia|done|]. intros _. unfold path_of. by rewrite Hlv.
    + assert (Ht : pte_type (words st (entry l3 (L3_INDEX (page i)))) = PTE_TYPE_INVALID).
      { change (leafv (words st) l1 (path_of (page i)) = words st (entry l3 (L3_INDEX (page i)))) in Hlv.
        rewrite (cl_todo _ _ _ C) in Hlv; [|done|exists i; split_and!; (done || lia)|by apply not_seen].
        rewrite <- Hlv in *. destruct (struck_value (leafv0 l1 (path_of (page i)))); [|done..].
        destruct (t_leaf _ _ _ _ T0 l1 (path_of (page i)) Hl1 eq_refl) as [?|[?|[_ []]]]; auto. }
      rewrite Ht. cbn [Z.eqb negb PTE_TYPE_INVALID].
      destruct (clear_leaf st Ls _ l1 [L2_INDEX (page i); L1_INDEX (page i)] (L3_INDEX (page i)) l3 (cl_ok _ _ _ C) Hl1 eq_refl Hnd S3) as (st' & -> & Hlc).
      unfold mbind at 1, option_bind at 1. cbv beta iota. apply IH; [lia|lia|]. by apply (cleared_leaf st1 st); [lia|..].
  - cbn [Z.eqb orb]. apply IH; [lia|lia|]. by apply cleared_skip; [lia|..].
Qed.

#[global] Instance seen_dec i q : Decision (seen i q).
Proof.
  refine (cast_if (decide (Exists (fun i' => user_page (page i') /\ q = path_of (page i')) (seqZ 0 i))));
    rewrite Exists_exists in *; unfold seen; setoid_rewrite elem_of_seqZ in e || setoid_rewrite elem_of_seqZ in n.
  - destruct e as (i' & Hi' & ?). exists i'. split; [lia|done].
  - intros (i' & Hi' & ?). apply n. exists i'. split; [lia|done].
Defined.

(** What [vmm_user_unmap_range] did. *)
Record unmapped (rc : Z) (st : vmm) : Prop := {
  um_ok : tables_ok (frames st) (words st) Ls settled;
  um_statics : statics st0 st;
  um_kernel : kernel_half (words st0) (words st) Ls;
  um_leaf : forall l q, l ∈ Ls -> length q = 3%nat ->
    leafv (words st) l q = if decide (l = l1 /\ seen pages q) then 0 else leafv0 l q;
  um_free : forall x, is_free (frames st) x <-> is_free (frames st0) x \/ gone st0 l1 (seen pages) x;
  um_acc : forall x, accounted st Ls x <-> accounted st0 Ls x;
  um_held : forall a, held st0 Ls a -> held st Ls a;
  um_rc : rc = 0 \/ rc = -1;
  um_all : rc = 0 <-> forall i, 0 <= i < pages -> user_page (page i) /\ is_Some (translate (words st0) l1 (page i));
  um_order : exists tr, trace st = tr ++ trace st0 /\
    forall newer p older, tr = newer ++ Freed p :: older ->
      forall tlb i, 0 <= i < pages -> user_page (page i) -> quiet tlb (words st0) l1 older (page i)
}.

Lemma cleared_frame st1 st l q :
  cleared st1 st pages -> l ∈ Ls -> frame (words st) l q = if decide (l = l1 /\ seen pages q) then None else frame (words st0) l q.
Proof.
  intros C Hl. destruct (decide (length q = 3%nat)) as [E3|N3].
  - rewrite !frame_leaf by done. case_decide as D.
    + destruct D as [-> D]. by rewrite (cl_done _ _ _ C).
    + by rewrite (cl_same _ _ _ C).
  - rewrite decide_False by (intros [_ (i & _ & _ & ->)]; done).
    destruct (decide (length q <= 2)%nat); [rewrite !frame_node by done; by apply C|by rewrite !frame_deep by lia].
Qed.

(** The struck range is not translated. *)
Lemma struck_quiet st i : struck st pages -> 0 <= i < pages -> user_page (page i) -> translate (words st) l1 (page i) = None.
Proof.
  intros K Hi Hu. unfold translate. rewrite (sk_seen _ _ K) by (done || (exists i; split_and!; (done || lia))).
  destruct (t_leaf _ _ _ _ T0 l1 (path_of (page i)) Hl1 eq_refl) as [->|[E|[_ []]]]; [done|].
  by rewrite (strike_type _ E).
Qed.

(** Every free of a call comes after the flush of the whole range. *)
Lemma free_after_flush st1 st2 st3 trf :
  struck st1 pages -> flushed st1 st2 trf -> cleared st2 st3 pages ->
  (forall i, 0 <= i < pages -> user_page (page i) -> exists op, Tlbi op ∈ trf /\ hits op (page i)) ->
  exists tr, trace st3 = tr ++ trace st0 /\
    forall newer p older, tr = newer ++ Freed p :: older ->
      forall tlb i, 0 <= i < pages -> user_page (page i) -> quiet tlb (words st0) l1 older (page i).
Proof.
  intros K (_ & _ & _ & Htf & Hinv) C Hhit. destruct (sk_trace _ _ K) as (tr1 & Ht1 & Hw1 & Hs1). destruct (cl_trace _ _ _ C) as (tr2 & Ht2 & Hc2).
  exists (tr2 ++ trf ++ tr1). split; [by rewrite Ht2, Htf, Ht1, <- !app_assoc|].
  intros newer p older E tlb i Hi Hu. destruct (Hhit i Hi Hu) as (op & Hop & Hh).
  assert (Hq : quiet tlb (words st0) l1 (trf ++ tr1) (page i)).
  { eapply quiet_flush; try done. rewrite <- Hw1. by apply struck_quiet. }
  assert (Hsplit : exists mid, older = mid ++ trf ++ tr1 /\ Forall clearing mid).
  { clear Hq C Ht2 Htf. revert newer E. induction Hc2 as [|e tr2 He Hc2 IH]; intros newer E.
    - exfalso. assert (Hin : Freed p ∈ trf ++ tr1) by (cbn in E; rewrite E, elem_of_app, elem_of_cons; auto).
      apply elem_of_app in Hin as [Hin|Hin]; [by apply (proj1 (Forall_forall _ _) Hinv) in Hin|by apply (proj1 (Forall_forall _ _) Hs1) in Hin].
    - destruct newer as [|e' newer]; injection E as -> E; [by exists tr2|]. by apply (IH newer). }
  destruct Hsplit as (mid & -> & Hm). by apply quiet_clearing.
Qed.

Lemma unmap_range_spec :
  exists rc st, vmm_user_unmap_range l1 va pages st0 = Some (rc, st) /\ unmapped rc st.
Proof.
  unfold vmm_user_unmap_range. destruct (Z.eqb_spec pages 0) as [E0|N0].
  { assert (Hn : forall q, ~ seen pages q) by (intros q (i' & ? & _); lia). exists 0, st0. split; [done|]. split; try done.
    - intros l q Hl Hq. rewrite decide_False; [done|]. by intros [_ ?%Hn].
    - intros x. split; [by left|]. intros [?|(q & a & Hq & _)]; [done|]. by destruct (Hn q).
    - by left.
    - split; [lia|done].
    - exists []. split; [done|]. by intros [|? newer]. }
  destruct (unmap_invalidate_spec (Z.to_nat pages) 0 0 st0) as (rc & st1 & -> & K & Hrc & Hall); [lia|lia|apply struck_start|by left|].
  replace (0 + Z.of_nat (Z.to_nat pages)) with pages in * by lia.
  assert (Hfl : exists trf, flushed st1 (vmm_invalidate_tlb_range va (va +64 u64 (pages * PAGE_SIZE)) st1) trf /\
    forall i, 0 <= i < pages -> user_page (page i) -> exists op, Tlbi op ∈ trf /\ hits op (page i)).
  { destruct (decide (va mod PAGE_SIZE = 0)) as [Hd|Hd].
    - destruct (invalidate_range_spec va pages st1) as (trf & Hf & Hh); try done; [by apply Z.mod_divide|lia|]. exists trf. split; [done|]. auto.
    - destruct (invalidate_range_any va (va +64 u64 (pages * PAGE_SIZE)) st1) as (trf & Hf). exists trf. split; [done|].
      intros i Hi [_ [q Hq]]. exfalso. apply Hd. replace va with ((q - i) * PAGE_SIZE) by lia. apply Z.mod_mul. done. }
  destruct Hfl as (trf & Hf & Hh). revert Hf. generalize (vmm_invalidate_tlb_range va (va +64 u64 (pages * PAGE_SIZE)) st1). intros st2 Hf.
  pose proof Hf as (F1 & F2 & F3 & _). assert (C : cleared st2 st2 0).
  { destruct (cleared_start st1 K). split; rewrite ?F1, ?F2; try done; [by eapply statics_trans|by exists []]. }
  destruct (unmap_free_spec (Z.to_nat pages) 0 st2 st2 ltac:(lia) ltac:(lia) C) as (st3 & -> & C3).
  replace (0 + Z.of_nat (Z.to_nat pages)) with pages in * by lia. unfold mbind at 1, option_bind at 1. cbv beta iota.
  exists rc, st3. split; [done|]. pose proof (cleared_frame st2 st3) as Hfr. split; try apply C3; try done.
  - destruct C3 as [T]. split; try apply T. intros l p Hl Hp. destruct (t_leaf _ _ _ _ T l p Hl Hp) as [?|[?|(_ & _ & ? & ?)]]; [auto..|done].
  - intros l q Hl Hq. case_decide as D; [destruct D as [-> D]; by apply (cl_done _ _ _ C3)|by apply (cl_same _ _ _ C3)].
  - intros x. unfold accounted, footprint. rewrite (cl_free _ _ _ C3). split.
    + intros [[?|(q & a & Hq & Ha & Hx)]|(l & q & a & Hl & Ha & Hx)]; [by left|right; by exists l1, q, a|right].
      rewrite Hfr in Ha by done. case_decide; [done|]. by exists l, q, a.
    + intros [?|(l & q & a & Hl & Ha & Hx)]; [by left; left|]. destruct (decide (l = l1 /\ seen pages q)) as [[-> D]|D].
      * left. right. by exists q, a.
      * right. exists l, q, a. split_and!; try done. rewrite Hfr by done. by rewrite decide_False.
  - intros a [(Hal & Hlo & Hhi & Hnf) Hno]. split.
    + split_and!; [done|by rewrite (cl_start _ _ _ C3)|by rewrite (cl_end _ _ _ C3)|]. intros x Hx. rewrite (cl_free _ _ _ C3).
      intros [?|(q & b & _ & Hb & Hx')]; [by apply (Hnf x)|]. apply (Hno l1 q Hl1). rewrite Hb. f_equal.
      apply (dyadic_eq _ _ 0 x); try done. eapply allocated_aligned, (t_alloc _ _ _ _ T0 l1 q); done.
    + intros l q Hl. rewrite Hfr by done. case_decide; [done|auto].
  - rewrite Hall. split; [by intros [_ ?]|]. auto.
  - by eapply free_after_flush.
Qed.

End unmap.

End VmmTear.
