(* ===== verification/Asid.v ===== *)
(** The ASID allocator of mm/vmm.c: the in-use and recycled bitmaps, allocation
    with the flush of a recycled slot, release, and the switch that lets a task
    fill the TLB under its ASID. *)

From S2P Require Import Prelude.

Module Asid.
Open Scope Z_scope.
Open Scope slm_scope.

Definition VMM_USER_ASID_MAX : Z := 255.
Definition ASID_BITMAP_WORDS : nat := 4.

(** [tagged] is the hardware's side: the ASIDs under which some TLB of the inner
    shareable domain may hold entries. *)
Record pool := Pool {
  asid_in_use : list Z;
  asid_recycled : list Z;
  tagged : Z -> bool
}.

(** [bm[i / 64]] *)
Definition word_of (bm : list Z) (i : Z) : Z := bm !!! Z.to_nat (i / 64).

Definition asid_bit_set (bm : list Z) (i : Z) : list Z :=
  <[Z.to_nat (i / 64) := Z.lor (word_of bm i) (Z.shiftl 1 (i mod 64))]> bm.

Definition asid_bit_clear (bm : list Z) (i : Z) : list Z :=
  <[Z.to_nat (i / 64) := Z.ldiff (word_of bm i) (Z.shiftl 1 (i mod 64))]> bm.

Definition asid_bit_test (bm : list Z) (i : Z) : bool :=
  negb (Z.land (Z.shiftr (word_of bm i) (i mod 64)) 1 =? 0).

(** [tlbi aside1is] *)
Definition tlbi_asid (a : Z) (s : pool) : pool :=
  Pool (asid_in_use s) (asid_recycled s) (fun b => if b =? a then false else tagged s b).

(** The scan from [i]; [n] slots are left. *)
Fixpoint alloc_from (n : nat) (i : Z) (s : pool) : Z * pool :=
  match n with
  | O => (0, s)
  | S n =>
      if asid_bit_test (asid_in_use s) i then alloc_from n (i + 1) s
      else
        let in_use := asid_bit_set (asid_in_use s) i in
        let recycled := asid_bit_test (asid_recycled s) i in
        if recycled then (i, tlbi_asid i (Pool in_use (asid_bit_clear (asid_recycled s) i) (tagged s)))
        else (i, Pool in_use (asid_recycled s) (tagged s))
  end.

Definition vmm_alloc_asid (s : pool) : Z * pool := alloc_from (Z.to_nat VMM_USER_ASID_MAX) 1 s.

Definition vmm_free_asid (asid : Z) (s : pool) : pool :=
  if (asid =? 0) || (VMM_USER_ASID_MAX <? asid) then s
  else Pool (asid_bit_clear (asid_in_use s) asid) (asid_bit_set (asid_recycled s) asid) (tagged s).

(** [vmm_user_addrspace_switch]: no invalidation; from here on the CPU may fill
    TLB entries under the task's ASID. *)
Definition vmm_user_addrspace_switch (asid : Z) (s : pool) : pool :=
  Pool (asid_in_use s) (asid_recycled s) (fun b => if b =? asid then true else tagged s b).

(** The pool as the kernel image starts it. *)
Definition pool_zero : pool := Pool [0; 0; 0; 0] [0; 0; 0; 0] (fun _ => false).

(** ** Bitmaps *)

Definition slot (i : Z) : Prop := 0 <= i <= VMM_USER_ASID_MAX.

Definition bitmap (bm : list Z) : Prop := length bm = ASID_BITMAP_WORDS.

Lemma asid_bit_test_eq bm i : 0 <= i -> asid_bit_test bm i = Z.testbit (word_of bm i) (i mod 64).
Proof.
  intros Hi. unfold asid_bit_test. change 1 with (Z.ones 1). rewrite Z.land_ones by lia. change (2 ^ 1) with 2.
  rewrite <- (Z.add_0_l (i mod 64)) at 2. rewrite <- Z.shiftr_spec, Z.bit0_odd, Zmod_odd by lia. by destruct (Z.odd _).
Qed.

Lemma word_index i : slot i -> (Z.to_nat (i / 64) < ASID_BITMAP_WORDS)%nat.
Proof. unfold slot, VMM_USER_ASID_MAX, ASID_BITMAP_WORDS. intros. assert (0 <= i / 64 < 4) by (split; [apply Z.div_pos|apply Z.div_lt_upper_bound]; lia). lia. Qed.

Lemma word_insert bm i j w :
  bitmap bm -> slot i -> slot j ->
  word_of (<[Z.to_nat (i / 64) := w]> bm) j = if decide (i / 64 = j / 64) then w else word_of bm j.
Proof.
  intros Hb Hi Hj. pose proof (word_index i Hi) as Hw. unfold word_of. case_decide as E.
  - rewrite E. rewrite E in Hw. apply list_lookup_total_insert_eq. by rewrite Hb.
  - apply list_lookup_total_insert_ne. intros E'. apply E. unfold slot in *.
    assert (0 <= i / 64 /\ 0 <= j / 64) by (split; apply Z.div_pos; lia). lia.
Qed.

Lemma bit_index i j : slot i -> slot j -> i / 64 = j / 64 -> i mod 64 = j mod 64 -> i = j.
Proof. intros _ _ E1 E2. rewrite (Z.div_mod i 64), (Z.div_mod j 64) by lia. lia. Qed.

Lemma test_set bm i j :
  bitmap bm -> slot i -> slot j -> asid_bit_test (asid_bit_set bm i) j = if decide (j = i) then true else asid_bit_test bm j.
Proof.
  intros Hb Hi Hj. rewrite !asid_bit_test_eq by apply Hj. unfold asid_bit_set. rewrite word_insert by done.
  pose proof (Z.mod_pos_bound i 64 ltac:(lia)). pose proof (Z.mod_pos_bound j 64 ltac:(lia)).
  case_decide as E; [|rewrite decide_False; [done|by intros ->]].
  rewrite Z.lor_spec, Z.shiftl_spec by lia. unfold word_of. rewrite E.
  case_decide as D; [subst; rewrite Z.sub_diag; apply orb_true_r|].
  assert (j mod 64 <> i mod 64) by (intros ?; apply D; symmetry; by apply bit_index).
  destruct (decide (j mod 64 < i mod 64)); [rewrite (Z.testbit_neg_r 1) by lia|rewrite (Z.bits_above_log2 1) by (cbn; lia)]; apply orb_false_r.
Qed.

Lemma test_clear bm i j :
  bitmap bm -> slot i -> slot j -> asid_bit_test (asid_bit_clear bm i) j = if decide (j = i) then false else asid_bit_test bm j.
Proof.
  intros Hb Hi Hj. rewrite !asid_bit_test_eq by apply Hj. unfold asid_bit_clear. rewrite word_insert by done.
  pose proof (Z.mod_pos_bound i 64 ltac:(lia)). pose proof (Z.mod_pos_bound j 64 ltac:(lia)).
  case_decide as E; [|rewrite decide_False; [done|by intros ->]].
  rewrite Z.ldiff_spec, Z.shiftl_spec by lia. unfold word_of. rewrite E.
  case_decide as D; [subst; rewrite Z.sub_diag; apply andb_false_r|].
  assert (j mod 64 <> i mod 64) by (intros ?; apply D; symmetry; by apply bit_index).
  destruct (decide (j mod 64 < i mod 64)); [rewrite (Z.testbit_neg_r 1) by lia|rewrite (Z.bits_above_log2 1) by (cbn; lia)]; apply andb_true_r.
Qed.

Lemma bitmap_set bm i : bitmap bm -> bitmap (asid_bit_set bm i).
Proof. unfold bitmap, asid_bit_set. by rewrite length_insert. Qed.

Lemma bitmap_clear bm i : bitmap bm -> bitmap (asid_bit_clear bm i).
Proof. unfold bitmap, asid_bit_clear. by rewrite length_insert. Qed.

#[export] Hint Resolve bitmap_set bitmap_clear : slm.

(** ** Sessions *)

(** What the users of the pool do: take an ASID, run under one they hold, give
    one back. *)
Inductive asid_call :=
  | AsidAlloc
  | AsidRun (k : nat)
  | AsidFree (k : nat).

(** The pool with the ASIDs the callers hold; [k] names one of them. *)
Definition asid_step (c : asid_call) (p : pool * list Z) : pool * list Z :=
  let '(s, held) := p in
  match c with
  | AsidAlloc => let '(a, s) := vmm_alloc_asid s in if a =? 0 then (s, held) else (s, a :: held)
  | AsidRun k => match held !! k with Some a => (vmm_user_addrspace_switch a s, held) | None => p end
  | AsidFree k => match held !! k with Some a => (vmm_free_asid a s, delete k held) | None => p end
  end.

Definition asid_run (cs : list asid_call) (p : pool * list Z) : pool * list Z := foldl (fun p c => asid_step c p) p cs.

(** The held ASIDs are exactly the slots in use, each once, and only those and the
    slots marked for a flush have TLB entries. *)
Record pool_ok (s : pool) (held : list Z) : Prop := {
  po_in_use : bitmap (asid_in_use s);
  po_recycled : bitmap (asid_recycled s);
  po_nodup : NoDup held;
  po_held : forall a, a ∈ held <-> 1 <= a <= VMM_USER_ASID_MAX /\ asid_bit_test (asid_in_use s) a = true;
  po_tagged : forall a, tagged s a = true -> a ∈ held \/ 1 <= a <= VMM_USER_ASID_MAX /\ asid_bit_test (asid_recycled s) a = true
}.

Lemma pool_zero_ok : pool_ok pool_zero [].
Proof.
  split; try done; [constructor|]. intros a. rewrite elem_of_nil. split; [done|]. intros [Ha Ht].
  rewrite asid_bit_test_eq in Ht by lia. unfold word_of in Ht. cbn [asid_in_use pool_zero] in Ht.
  assert (a / 64 = 0 \/ a / 64 = 1 \/ a / 64 = 2 \/ a / 64 = 3) as Hd.
  { unfold VMM_USER_ASID_MAX in Ha. assert (0 <= a / 64 < 4) by (split; [apply Z.div_pos|apply Z.div_lt_upper_bound]; lia). lia. }
  by destruct Hd as [E|[E|[E|E]]]; rewrite E in Ht; cbn in Ht; rewrite Z.testbit_0_l in Ht.
Qed.

(** What a scan from [i] finds: the first slot not in use, flushed if it was
    marked, or nothing. *)
Lemma alloc_from_spec n i s :
  bitmap (asid_in_use s) -> bitmap (asid_recycled s) -> 1 <= i -> i + Z.of_nat n <= VMM_USER_ASID_MAX + 1 ->
  exists a s', alloc_from n i s = (a, s') /\
    (a = 0 /\ s' = s /\ (forall j, i <= j < i + Z.of_nat n -> asid_bit_test (asid_in_use s) j = true) \/
     i <= a < i + Z.of_nat n /\ asid_bit_test (asid_in_use s) a = false /\
     (forall j, i <= j < a -> asid_bit_test (asid_in_use s) j = true) /\
     bitmap (asid_in_use s') /\ bitmap (asid_recycled s') /\
     (forall j, slot j -> asid_bit_test (asid_in_use s') j = if decide (j = a) then true else asid_bit_test (asid_in_use s) j) /\
     (forall j, slot j -> asid_bit_test (asid_recycled s') j = if decide (j = a) then false else asid_bit_test (asid_recycled s) j) /\
     (forall j, tagged s' j = if decide (j = a) then tagged s j && negb (asid_bit_test (asid_recycled s) a) else tagged s j)).
Proof.
  intros Hu Hr. revert i. induction n as [|n IH]; intros i Hi Hn; cbn [alloc_from].
  { exists 0, s. split; [done|]. left. split_and!; [done|done|lia]. }
  destruct (asid_bit_test (asid_in_use s) i) eqn:Et.
  - destruct (IH (i + 1) ltac:(lia) ltac:(lia)) as (a & s' & -> & Hres). exists a, s'. split; [done|].
    assert (Hj : forall hi, (forall j, i + 1 <= j < hi -> asid_bit_test (asid_in_use s) j = true) -> forall j, i <= j < hi -> asid_bit_test (asid_in_use s) j = true).
    { intros hi H j Hj. destruct (decide (j = i)) as [->|]; [done|]. apply H. lia. }
    destruct Hres as [(-> & -> & Hall)|(Ha & Hf & Hbelow & ? & ? & ? & ? & ?)]; [left|right]; split_and!; try done; try lia.
    + apply Hj. intros j Hj'. apply Hall. lia.
    + by apply Hj.
  - assert (Hsi : slot i) by (unfold slot; lia). destruct (asid_bit_test (asid_recycled s) i) eqn:Er.
    + eexists _, _. split; [done|]. right. cbn [asid_in_use asid_recycled tlbi_asid tagged]. split_and!; try lia; auto with slm.
      * intros j Hj. by apply test_set.
      * intros j Hj. by apply test_clear.
      * intros j. destruct (Z.eqb_spec j i); [rewrite decide_True by done; by rewrite Er, andb_false_r|by rewrite decide_False].
    + eexists _, _. split; [done|]. right. cbn [asid_in_use asid_recycled tagged]. split_and!; try lia; auto with slm.
      * intros j Hj. by apply test_set.
      * intros j Hj. case_decide; [by subst|done].
      * intros j. case_decide; [by rewrite Er, andb_true_r|done].
Qed.

Lemma alloc_ok s held :
  pool_ok s held ->
  exists a s', vmm_alloc_asid s = (a, s') /\
    (a = 0 /\ s' = s /\ (forall b, 1 <= b <= VMM_USER_ASID_MAX -> b ∈ held) \/
     1 <= a <= VMM_USER_ASID_MAX /\ a ∉ held /\ tagged s' a = false /\ (forall b, b <> a -> tagged s' b = tagged s b) /\
     pool_ok s' (a :: held)).
Proof.
  intros P. destruct (alloc_from_spec (Z.to_nat VMM_USER_ASID_MAX) 1 s (po_in_use _ _ P) (po_recycled _ _ P)) as (a & s' & E & Hres);
    [lia|unfold VMM_USER_ASID_MAX; lia|].
  exists a, s'. split; [done|]. unfold VMM_USER_ASID_MAX in *. destruct Hres as [(-> & -> & Hall)|(Ha & Hf & _ & ? & ? & Hu & Hr & Ht)].
  - left. split_and!; try done. intros b Hb. apply (po_held _ _ P). unfold VMM_USER_ASID_MAX. split; [done|]. apply Hall. lia.
  - right. assert (Hnew : a ∉ held) by (intros [_ ?]%(po_held _ _ P); congruence).
    assert (Hclean : tagged s' a = false).
    { rewrite Ht, decide_True by done. destruct (tagged s a) eqn:E'; [|done]. by destruct (po_tagged _ _ P a E') as [?|[_ ->]]. }
    split_and!; try done; try lia; [intros b Hb; by rewrite Ht, decide_False|].
    split; try done.
    + constructor; [done|apply P].
    + intros b. rewrite elem_of_cons, (po_held _ _ P). split.
      * intros [->|[Hb Hb']]; [split; [unfold VMM_USER_ASID_MAX; lia|]; rewrite Hu, decide_True by (done || unfold slot, VMM_USER_ASID_MAX; lia); done|].
        split; [done|]. rewrite Hu by (unfold slot; lia). by case_decide.
      * intros [Hb Hb']. rewrite Hu in Hb' by (unfold slot; lia). case_decide; [by left|by right].
    + intros b Hb. destruct (decide (b = a)) as [->|Hne]; [left; by left|]. rewrite Ht, decide_False in Hb by done.
      destruct (po_tagged _ _ P b Hb) as [?|[Hs Hb']]; [left; by right|right]. split; [done|]. rewrite Hr, decide_False by (done || unfold slot; lia). done.
Qed.

Lemma switch_ok s held a : pool_ok s held -> a ∈ held -> pool_ok (vmm_user_addrspace_switch a s) held.
Proof.
  intros P Ha. destruct P. split; try done. intros b. cbn [tagged vmm_user_addrspace_switch asid_recycled].
  destruct (Z.eqb_spec b a); [subst; by left|auto].
Qed.

Lemma release_ok s held k a : pool_ok s held -> held !! k = Some a -> pool_ok (vmm_free_asid a s) (delete k held).
Proof.
  intros P Hk. assert (Ha : a ∈ held) by (by eapply list_elem_of_lookup_2). pose proof Ha as [Hr _]%(po_held _ _ P).
  assert (Hperm : held ≡ₚ a :: delete k held) by (by apply delete_Permutation).
  pose proof (po_nodup _ _ P) as Hnd. rewrite Hperm in Hnd. apply NoDup_cons in Hnd as [Hna Hnd].
  assert (Hin : forall b, b ∈ delete k held <-> b ∈ held /\ b <> a).
  { intros b. assert (Hb : b ∈ held <-> b = a \/ b ∈ delete k held) by (rewrite <- elem_of_cons; by apply elem_of_Permutation_proper).
    split; [intros Hd; split; [apply Hb; by right|by intros ->]|]. by intros [[->|?]%Hb ?]. }
  unfold vmm_free_asid. rewrite (proj2 (Z.eqb_neq a 0)), (proj2 (Z.ltb_ge _ _)) by lia. cbn [orb]. destruct P as [P1 P2 P3 P4 P5].
  assert (Hsa : slot a) by (unfold slot; lia).
  split; cbn [asid_in_use asid_recycled tagged]; auto with slm.
  - intros b. rewrite Hin, P4. split.
    + intros [[Hb Hb'] Hne]. split; [done|]. rewrite test_clear, decide_False by (done || unfold slot; lia). done.
    + intros [Hb Hb']. rewrite test_clear in Hb' by (done || unfold slot; lia). by case_decide.
  - intros b Hb. destruct (decide (b = a)) as [->|Hne].
    + right. split; [done|]. by rewrite test_set, decide_True.
    + destruct (P5 b Hb) as [?|[Hs Hb']]; [left; by apply Hin|right]. split; [done|]. rewrite test_set, decide_False by (done || unfold slot; lia). done.
Qed.

Lemma asid_run_ok cs s held : pool_ok s held -> let '(s', held') := asid_run cs (s, held) in pool_ok s' held'.
Proof.
  revert s held. induction cs as [|c cs IH]; intros s held P; [done|]. unfold asid_run in *. cbn [foldl].
  destruct c as [|k|k]; cbn [asid_step].
  - destruct (alloc_ok s held P) as (a & s' & -> & [(-> & -> & _)|(Ha & _ & _ & _ & P')]); [by apply IH|].
    rewrite (proj2 (Z.eqb_neq a 0)) by lia. by apply IH.
  - destruct (held !! k) as [a|] eqn:E; [|by apply IH]. apply IH, switch_ok; [done|by eapply list_elem_of_lookup_2].
  - destruct (held !! k) as [a|] eqn:E; [|by apply IH]. by apply IH, release_ok.
Qed.

(** C38. After any history of allocations, switches and releases, allocation either
    hands out an ASID between 1 and 255 that nobody holds and under which no TLB
    entry of an earlier holder is left, leaving the other ASIDs' entries alone, or
    fails because all 255 are held. *)
Theorem alloc_asid_fresh (cs : list asid_call) :
  let '(s, held) := asid_run cs (pool_zero, []) in
  let '(a, s') := vmm_alloc_asid s in
  a = 0 /\ s' = s /\ (forall b, 1 <= b <= VMM_USER_ASID_MAX -> b ∈ held) \/
  1 <= a <= VMM_USER_ASID_MAX /\ a ∉ held /\ tagged s' a = false /\ (forall b, b <> a -> tagged s' b = tagged s b).
Proof.
  pose proof (asid_run_ok cs pool_zero [] pool_zero_ok) as P. destruct (asid_run cs (pool_zero, [])) as [s held].
  destruct (alloc_ok s held P) as (a & s' & -> & [?|(? & ? & ? & ? & _)]); [by left|by right].
Qed.

End Asid.
