(* ===== verification/KString.v ===== *)
(** The kernel's string functions (src/string.c) on byte memory: copies, fills,
    comparisons and scans, each against a reference definition. *)

From S2P Require Import Prelude.

Module KString.
Open Scope Z_scope.
Open Scope slm_scope.

(** Byte memory; on the supported targets [char] is unsigned. *)
Notation bytes := (Z -> Z).

(** ** Memory *)

(** [while (n--) *d++ = *s++] *)
Fixpoint memcpy (d s : Z) (n : nat) (m : bytes) : bytes :=
  match n with
  | O => m
  | S n => memcpy (d + 1) (s + 1) n (<[d := m s]> m)
  end.

Fixpoint memset (p c : Z) (n : nat) (m : bytes) : bytes :=
  match n with
  | O => m
  | S n => memset (p + 1) c n (<[p := u8 c]> m)
  end.

Definition secure_zero (p : Z) (n : nat) (m : bytes) : bytes := memset p 0 n m.

Fixpoint memcmp (s1 s2 : Z) (n : nat) (m : bytes) : Z :=
  match n with
  | O => 0
  | S n => if negb (m s1 =? m s2) then m s1 - m s2 else memcmp (s1 + 1) (s2 + 1) n m
  end.

(** [while (n--) *--d = *--s] from the ends. *)
Fixpoint copy_back (d s : Z) (n : nat) (m : bytes) : bytes :=
  match n with
  | O => m
  | S n => copy_back (d - 1) (s - 1) n (<[d - 1 := m (s - 1)]> m)
  end.

Definition memmove (d s : Z) (n : nat) (m : bytes) : bytes :=
  if d <? s then memcpy d s n m
  else if s <? d then copy_back (d + Z.of_nat n) (s + Z.of_nat n) n m
  else m.

(** ** Strings

    Scans run with fuel; they need one more than the length of the string. *)

Fixpoint strlen (fuel : nat) (s : Z) (m : bytes) : option Z :=
  match fuel with
  | O => None
  | S fuel => if m s =? 0 then Some 0 else len ← strlen fuel (s + 1) m; Some (len + 1)
  end.

Fixpoint strcpy (fuel : nat) (d s : Z) (m : bytes) : option bytes :=
  match fuel with
  | O => None
  | S fuel =>
      let c := m s in
      let m := <[d := c]> m in
      if c =? 0 then Some m else strcpy fuel (d + 1) (s + 1) m
  end.

(** Both loops of [strncpy]: once the terminator has been met, [pad] is set. *)
Fixpoint strncpy_from (d s : Z) (n : nat) (pad : bool) (m : bytes) : bytes :=
  match n with
  | O => m
  | S n =>
      if pad then strncpy_from (d + 1) (s + 1) n true (<[d := 0]> m)
      else if m s =? 0 then strncpy_from (d + 1) (s + 1) n true (<[d := 0]> m)
      else strncpy_from (d + 1) (s + 1) n false (<[d := m s]> m)
  end.

Definition strncpy (d s : Z) (n : nat) (m : bytes) : bytes := strncpy_from d s n false m.

(** The address of the first [c]; 0 is NULL. *)
Fixpoint strchr (fuel : nat) (s c : Z) (m : bytes) : option Z :=
  match fuel with
  | O => None
  | S fuel =>
      if m s =? 0 then Some (if c =? 0 then s else 0)
      else if m s =? u8 c then Some s
      else strchr fuel (s + 1) c m
  end.

(** The inner loops of [strspn] and [strcspn]: is [c] in the set at [a]? *)
Fixpoint in_set (fuel : nat) (c a : Z) (m : bytes) : option bool :=
  match fuel with
  | O => None
  | S fuel => if m a =? 0 then Some false else if c =? m a then Some true else in_set fuel c (a + 1) m
  end.

Fixpoint strspn (fuel : nat) (s accept : Z) (m : bytes) : option Z :=
  match fuel with
  | O => None
  | S n =>
      if m s =? 0 then Some 0
      else
        b ← in_set fuel (m s) accept m;
        if negb b then Some 0 else count ← strspn n (s + 1) accept m; Some (count + 1)
  end.

Fixpoint strcspn (fuel : nat) (s reject : Z) (m : bytes) : option Z :=
  match fuel with
  | O => None
  | S n =>
      if m s =? 0 then Some 0
      else
        b ← in_set fuel (m s) reject m;
        if (b : bool) then Some 0 else count ← strcspn n (s + 1) reject m; Some (count + 1)
  end.

Fixpoint strcmp (fuel : nat) (s1 s2 : Z) (m : bytes) : option Z :=
  match fuel with
  | O => None
  | S fuel =>
      if negb (m s1 =? 0) && (m s1 =? m s2) then strcmp fuel (s1 + 1) (s2 + 1) m
      else Some (m s1 - m s2)
  end.

(** The loop of [strncmp], entered with [n >= 1]; [k] is [n - 1]. *)
Fixpoint strncmp_from (k : nat) (s1 s2 : Z) (m : bytes) : Z :=
  match k with
  | O => m s1 - m s2
  | S k => if negb (m s1 =? 0) && (m s1 =? m s2) then strncmp_from k (s1 + 1) (s2 + 1) m else m s1 - m s2
  end.

Definition strncmp (s1 s2 : Z) (n : nat) (m : bytes) : Z :=
  match n with O => 0 | S k => strncmp_from k s1 s2 m end.

(** ** [atoi]

    The arithmetic is C [int]; [None] is signed overflow, which C leaves
    undefined. *)

Definition int_ok (x : Z) : bool := (- 2 ^ 31 <=? x) && (x <? 2 ^ 31).

Definition is_space (c : Z) : bool := (c =? 32) || (c =? 9) || (c =? 10) || (c =? 13) || (c =? 12) || (c =? 11).

Definition is_digit (c : Z) : bool := (48 <=? c) && (c <=? 57).

Fixpoint skip_spaces (fuel : nat) (s : Z) (m : bytes) : option Z :=
  match fuel with
  | O => None
  | S fuel => if is_space (m s) then skip_spaces fuel (s + 1) m else Some s
  end.

Fixpoint atoi_digits (fuel : nat) (s result : Z) (m : bytes) : option Z :=
  match fuel with
  | O => None
  | S fuel =>
      if is_digit (m s) then
        if int_ok (result * 10) && int_ok (result * 10 + (m s - 48)) then
          atoi_digits fuel (s + 1) (result * 10 + (m s - 48)) m
        else None
      else Some result
  end.

Definition atoi (fuel : nat) (s : Z) (m : bytes) : option Z :=
  s ← skip_spaces fuel s m;
  let '(sign, s) := if m s =? 45 then (-1, s + 1) else if m s =? 43 then (1, s + 1) else (1, s) in
  result ← atoi_digits fuel s 0 m;
  Some (sign * result).

(** ** Copies *)

(** All bytes moved at once. *)
Definition moved (d s : Z) (n : nat) (m : bytes) : bytes :=
  fun a => if decide (d <= a < d + Z.of_nat n) then m (s + (a - d)) else m a.

Lemma memcpy_forward d s n m a :
  d <= s \/ s + Z.of_nat n <= d -> memcpy d s n m a = moved d s n m a.
Proof.
  revert d s m. induction n as [|n IH]; intros d s m Hds; cbn [memcpy]; unfold moved.
  { rewrite decide_False by lia. done. }
  rewrite IH by lia. unfold moved. rewrite !fn_lookup_insert_Z.
  destruct (decide (a = d)) as [->|Hne].
  - rewrite decide_False, decide_True by lia. f_equal. lia.
  - destruct (decide (d + 1 <= a < d + 1 + Z.of_nat n)).
    + rewrite decide_False, decide_True by lia. f_equal. lia.
    + by rewrite decide_False by lia.
Qed.

Lemma copy_back_backward d s n m a :
  s <= d -> copy_back (d + Z.of_nat n) (s + Z.of_nat n) n m a = moved d s n m a.
Proof.
  revert m. induction n as [|n IH]; intros m Hds; cbn [copy_back].
  { unfold moved. by rewrite decide_False by lia. }
  replace (d + Z.of_nat (S n) - 1) with (d + Z.of_nat n) by lia. replace (s + Z.of_nat (S n) - 1) with (s + Z.of_nat n) by lia.
  rewrite IH by done. unfold moved. rewrite !fn_lookup_insert_Z.
  destruct (decide (a = d + Z.of_nat n)) as [->|Hne].
  - rewrite decide_False, decide_True by lia. f_equal. lia.
  - destruct (decide (d <= a < d + Z.of_nat n)).
    + rewrite decide_False, decide_True by lia. done.
    + by rewrite decide_False by lia.
Qed.

Lemma memset_spec p c n m a :
  memset p c n m a = if decide (p <= a < p + Z.of_nat n) then u8 c else m a.
Proof.
  revert p m. induction n as [|n IH]; intros p m; cbn [memset]; [by rewrite decide_False by lia|].
  rewrite IH, fn_lookup_insert_Z. destruct (decide (a = p)) as [->|Hne].
  - rewrite decide_False, decide_True by lia. done.
  - destruct (decide (p + 1 <= a < p + 1 + Z.of_nat n)); [by rewrite decide_True by lia|by rewrite decide_False by lia].
Qed.

(** C39. [memmove] moves a block of any length between any two addresses, however
    the two overlap, as if all its bytes were read before the first is written,
    and touches nothing else: its forward and backward loops are one
    simultaneous copy. *)
Theorem memmove_simultaneous (d s : Z) (n : nat) (m : bytes) (a : Z) :
  memmove d s n m a = if decide (d <= a < d + Z.of_nat n) then m (s + (a - d)) else m a.
Proof.
  unfold memmove. destruct (Z.ltb_spec d s); [by apply memcpy_forward; lia|].
  destruct (Z.ltb_spec s d); [by apply copy_back_backward; lia|].
  case_decide; [f_equal; lia|done].
Qed.

(** ** Strings in memory *)

(** The string [l] with its terminator lies at [s]. *)
Fixpoint cstr (m : bytes) (s : Z) (l : list Z) : Prop :=
  match l with
  | [] => m s = 0
  | c :: l => m s = c /\ 0 < c < 256 /\ cstr m (s + 1) l
  end.

Lemma strlen_spec fuel m s l : cstr m s l -> (length l < fuel)%nat -> strlen fuel s m = Some (Z.of_nat (length l)).
Proof.
  revert fuel s. induction l as [|c l IH]; intros [|fuel] s Hs Hf; cbn [length] in Hf; try lia; cbn [strlen cstr] in *.
  - by rewrite Hs.
  - destruct Hs as (-> & Hc & Hs). rewrite (proj2 (Z.eqb_neq c 0)), (IH fuel) by (done || lia). cbn [mbind option_bind]. f_equal.
    cbn [length]. lia.
Qed.

(** Dictionary order on byte strings. *)
Fixpoint lex_lt (l1 l2 : list Z) : bool :=
  match l1, l2 with
  | _, [] => false
  | [], _ :: _ => true
  | a :: l1, b :: l2 => (a <? b) || (a =? b) && lex_lt l1 l2
  end.

(** [strcmp] orders two strings as a dictionary does: it returns within as many
    steps as the shorter string has bytes, 0 exactly for equal strings and a
    negative number exactly when the first comes before the second. *)
Theorem strcmp_orders (fuel : nat) (m : bytes) (s1 s2 : Z) (l1 l2 : list Z) :
  cstr m s1 l1 -> cstr m s2 l2 -> (Nat.min (length l1) (length l2) < fuel)%nat ->
  exists r, strcmp fuel s1 s2 m = Some r /\ (r = 0 <-> l1 = l2) /\ (r < 0 <-> lex_lt l1 l2 = true).
Proof.
  revert fuel s1 s2 l2. induction l1 as [|a l1 IH]; intros [|fuel] s1 s2 l2 H1 H2 Hf; try lia; cbn [strcmp].
  - cbn [cstr] in H1. rewrite H1. cbn [Z.eqb negb andb]. eexists. split; [done|]. destruct l2 as [|b l2]; cbn [cstr lex_lt] in *.
    + rewrite H2. split; [done|]. split; [lia|done].
    + destruct H2 as (-> & Hb & _). split; [split; [lia|done]|split; [done|lia]].
  - cbn [cstr] in H1. destruct H1 as (-> & Ha & H1). rewrite (proj2 (Z.eqb_neq a 0)) by lia. cbn [negb andb].
    destruct l2 as [|b l2]; cbn [cstr lex_lt] in *.
    + rewrite H2, (proj2 (Z.eqb_neq a 0)) by lia. eexists. split; [done|]. split; [split; [lia|done]|split; [lia|done]].
    + destruct H2 as (-> & Hb & H2). destruct (Z.eqb_spec a b) as [->|Hne].
      * destruct (IH fuel (s1 + 1) (s2 + 1) l2 H1 H2) as (r & -> & Hr0 & Hrn); [cbn [length] in Hf; lia|].
        exists r. split; [done|]. rewrite Z.ltb_irrefl. cbn [orb andb]. split; [|done]. rewrite Hr0. split; [by intros ->|by intros [= ->]].
      * eexists. split; [done|]. cbn [andb]. rewrite orb_false_r, Z.ltb_lt. split; [split; [lia|by intros [= ? _]]|lia].
Qed.

(** ** The other comparisons and scans *)

Lemma memcmp_equal s1 s2 n m :
  memcmp s1 s2 n m = 0 <-> forall i, 0 <= i < Z.of_nat n -> m (s1 + i) = m (s2 + i).
Proof.
  revert s1 s2. induction n as [|n IH]; intros s1 s2; cbn [memcmp]; [split; [lia|done]|].
  destruct (Z.eqb_spec (m s1) (m s2)) as [E|Hne]; cbn [negb].
  - rewrite IH. split; intros H i Hi.
    + destruct (decide (i = 0)) as [->|]; [by rewrite !Z.add_0_r|].
      replace (s1 + i) with (s1 + 1 + (i - 1)) by lia. replace (s2 + i) with (s2 + 1 + (i - 1)) by lia. apply H. lia.
    + replace (s1 + 1 + i) with (s1 + (1 + i)) by lia. replace (s2 + 1 + i) with (s2 + (1 + i)) by lia. apply H. lia.
  - split; [lia|]. intros H. specialize (H 0 ltac:(lia)). rewrite !Z.add_0_r in H. done.
Qed.

Lemma in_set_spec fuel m c a l : cstr m a l -> (length l < fuel)%nat -> in_set fuel c a m = Some (bool_decide (c ∈ l)).
Proof.
  revert fuel a. induction l as [|b l IH]; intros [|fuel] a Ha Hf; cbn [length] in Hf; try lia; cbn [in_set cstr] in *.
  - rewrite Ha. by rewrite bool_decide_eq_false_2 by apply not_elem_of_nil.
  - destruct Ha as (-> & Hb & Ha). rewrite (proj2 (Z.eqb_neq b 0)) by lia. destruct (Z.eqb_spec c b) as [->|Hne].
    + by rewrite bool_decide_eq_true_2 by left.
    + rewrite (IH fuel) by (done || lia). f_equal. apply bool_decide_ext. rewrite elem_of_cons. tauto.
Qed.

(** The length of the longest prefix of [l] in which [P] holds. *)
Fixpoint prefix_length (P : Z -> bool) (l : list Z) : Z :=
  match l with
  | [] => 0
  | c :: l => if P c then prefix_length P l + 1 else 0
  end.

Lemma strspn_spec fuel m s accept l set :
  cstr m s l -> cstr m accept set -> (length l + length set < fuel)%nat ->
  strspn fuel s accept m = Some (prefix_length (fun c => bool_decide (c ∈ set)) l).
Proof.
  intros Hs Ha. revert fuel s Hs. induction l as [|c l IH]; intros [|fuel] s Hs Hf; try lia; cbn [length] in Hf; cbn [strspn cstr prefix_length] in *.
  - by rewrite Hs.
  - destruct Hs as (-> & Hc & Hs). rewrite (proj2 (Z.eqb_neq c 0)), (in_set_spec (S fuel) m c accept set) by (done || lia). cbn [mbind option_bind].
    case_bool_decide; cbn [negb]; [|done]. rewrite IH by (done || lia). done.
Qed.

Lemma strcspn_spec fuel m s reject l set :
  cstr m s l -> cstr m reject set -> (length l + length set < fuel)%nat ->
  strcspn fuel s reject m = Some (prefix_length (fun c => negb (bool_decide (c ∈ set))) l).
Proof.
  intros Hs Ha. revert fuel s Hs. induction l as [|c l IH]; intros [|fuel] s Hs Hf; try lia; cbn [length] in Hf; cbn [strcspn cstr prefix_length] in *.
  - by rewrite Hs.
  - destruct Hs as (-> & Hc & Hs). rewrite (proj2 (Z.eqb_neq c 0)), (in_set_spec (S fuel) m c reject set) by (done || lia). cbn [mbind option_bind].
    case_bool_decide; cbn [negb]; [done|]. rewrite IH by (done || lia). done.
Qed.

Lemma strncpy_pad d s n m a : strncpy_from d s n true m a = if decide (d <= a < d + Z.of_nat n) then 0 else m a.
Proof.
  revert d s m. induction n as [|n IH]; intros d s m; cbn [strncpy_from]; [by rewrite decide_False by lia|].
  rewrite IH, fn_lookup_insert_Z. repeat case_decide; try done; lia.
Qed.

Lemma cstr_ext m m' s l : (forall i, 0 <= i <= Z.of_nat (length l) -> m' (s + i) = m (s + i)) -> cstr m s l -> cstr m' s l.
Proof.
  revert s. induction l as [|c l IH]; intros s Hag; cbn [cstr length] in *; pose proof (Hag 0 ltac:(lia)) as H0; rewrite Z.add_0_r in H0.
  - by rewrite H0.
  - rewrite H0. intros (? & ? & Hs). split; [done|]. split; [done|]. apply IH; [|done]. intros i Hi.
    replace (s + 1 + i) with (s + (1 + i)) by lia. apply Hag. lia.
Qed.

(** [strncpy] fills the whole field: the string, cut at [n], then zeros. *)
Lemma strncpy_spec d s n m l i :
  cstr m s l -> d + Z.of_nat n <= s \/ s + Z.of_nat (length l) < d -> (i < n)%nat ->
  strncpy d s n m (d + Z.of_nat i) = nth i l 0.
Proof.
  unfold strncpy. revert d s m l i. induction n as [|n IH]; intros d s m l i Hs Hap Hi; [lia|]. cbn [strncpy_from].
  destruct l as [|c l]; cbn [cstr length] in *.
  - rewrite Hs. cbn [Z.eqb]. rewrite strncpy_pad, fn_lookup_insert_Z. destruct i; cbn [nth]; repeat case_decide; try done; lia.
  - destruct Hs as (Hc & Hr & Hs). rewrite Hc, (proj2 (Z.eqb_neq c 0)) by lia.
    assert (Hs' : cstr (<[d := c]> m) (s + 1) l).
    { eapply cstr_ext; [|exact Hs]. intros j Hj. apply fn_lookup_insert_ne. lia. }
    destruct i as [|i]; cbn [nth].
    + rewrite Z.add_0_r. clear IH. revert Hs'. generalize (s + 1). assert (forall n d' s' m', d < d' -> strncpy_from d' s' n false m' d = m' d) as Hout.
      { clear. induction n as [|n IH]; intros d' s' m' Hd; cbn [strncpy_from]; [done|]. case_match.
        - rewrite strncpy_pad, decide_False by lia. apply fn_lookup_insert_ne. lia.
        - rewrite IH by lia. apply fn_lookup_insert_ne. lia. }
      intros s' _. rewrite Hout by lia. apply fn_lookup_insert.
    + replace (d + Z.of_nat (S i)) with (d + 1 + Z.of_nat i) by lia. apply IH; try done; lia.
Qed.

(** Two strings in memory, for the witness. *)
Definition two_words : bytes := fun a =>
  nth (Z.to_nat (a - 1000)) [99; 97; 116; 0; 99; 97; 114; 116; 0] 0.

(** An instance: "cat" comes after "cart". *)
Lemma strcmp_orders_witness :
  exists r, strcmp 5 1000 1004 two_words = Some r /\ ~ r < 0 /\ r <> 0.
Proof.
  destruct (strcmp_orders 5 two_words 1000 1004 [99; 97; 116] [99; 97; 114; 116]) as (r & E & H0 & Hn);
    [vm_compute; split_and!; done..|vm_compute; lia|].
  exists r. split; [done|]. split; [intros H%Hn; done|intros H%H0; done].
Defined.

End KString.
