(* ===== verification/UserMem.v ===== *)
(** User memory: [SYS_MMAP] and [SYS_MUNMAP] (src/syscall.c) and the address-space
    half of creating and destroying user tasks (sched/task.c), on the page tables,
    the ASID pool and the bytes of data pages. *)

From S2P Require Import Prelude.
From S2P Require Import FreeList Buddy BuddyInv BuddySpec PmmSpec PageDesc Vmm VmmTree VmmUser VmmTear Asid KString.

Module UserMem.
Import Buddy PageDesc Vmm.
Open Scope Z_scope.
Open Scope slm_scope.

(** ** State *)

(** [data] is the memory of data pages, by the byte. *)
Record umem := UMem { vm : vmm; asids : Asid.pool; data : Z -> Z }.

Definition with_vm (v : vmm) (u : umem) : umem := UMem v (asids u) (data u).
Definition with_asids (a : Asid.pool) (u : umem) : umem := UMem (vm u) a (data u).

(** The fields of [struct task] that concern user memory. *)
Record user_task := UserTask {
  is_user : bool;
  user_l1_pa : Z;
  user_asid : Z;
  user_va_next : Z
}.

Definition USER_TEXT_VA : Z := USER_VA_BASE.
Definition USER_STACK_PAGE_VA : Z := USER_VA_BASE + PAGE_SIZE.
Definition USER_MMAP_VA_START : Z := USER_VA_BASE + 0x100000.
Definition USER_ELF_STACK_PAGE_VA : Z := USER_MMAP_VA_START - PAGE_SIZE.

Definition PROT_READ : Z := 1.
Definition PROT_WRITE : Z := 2.
Definition PROT_EXEC : Z := 4.
Definition SYS_MMAP_MAX_LEN_BYTES : Z := 64 * 1024 * 1024.

Definition VMM_FLAGS_USER_CODE : Z := Z.lor (Z.lor VMM_FLAG_READ VMM_FLAG_EXEC) VMM_FLAG_USER.
Definition VMM_FLAGS_USER_DATA : Z := Z.lor (Z.lor VMM_FLAG_READ VMM_FLAG_WRITE) VMM_FLAG_USER.

(** ** A fresh page at a user address *)

(** The steps [sys_mmap_handler], [load_segment] and [task_create_user] have in
    common: take a page, [fill] it, map it at [va], and give it back when the
    mapping is refused.  The result says whether the page is mapped. *)
Definition map_fresh_page (l1_pa va flags : Z) (fill : Z -> (Z -> Z) -> Z -> Z) (u : umem) : option (bool * umem) :=
  '(page, v) ← alloc_frame (vm u);
  if page =? 0 then Some (false, with_vm v u)
  else
    let u := UMem v (asids u) (fill page (data u)) in
    '(rc, v) ← vmm_user_map_page l1_pa va page flags (vm u);
    if negb (rc =? 0) then v ← free_frame page v; Some (false, with_vm v u)
    else Some (true, with_vm v u).

(** [memset(page, 0, PAGE_SIZE)] *)
Definition zero_fill (page : Z) (d : Z -> Z) : Z -> Z := KString.memset page 0 (Z.to_nat PAGE_SIZE) d.

(** ** System calls *)

(** The page loop of [sys_mmap_handler] from page [i]; [n] pages are left. *)
Fixpoint mmap_pages (n : nat) (l1_pa base_va i flags : Z) (u : umem) : option (bool * umem) :=
  match n with
  | O => Some (true, u)
  | S n =>
      '(ok, u) ← map_fresh_page l1_pa (base_va +64 u64 (i * PAGE_SIZE)) flags zero_fill u;
      if (ok : bool) then mmap_pages n l1_pa base_va (i + 1) flags u
      else
        '(_, v) ← vmm_user_unmap_range l1_pa base_va i (vm u);
        Some (false, with_vm v u)
  end.

Definition mmap_flags (prot : Z) : Z :=
  let f := Z.lor VMM_FLAG_USER VMM_FLAG_PMM_OWNED in
  let f := or_if (has prot PROT_READ) VMM_FLAG_READ f in
  let f := or_if (has prot PROT_WRITE) VMM_FLAG_WRITE f in
  or_if (has prot PROT_EXEC) VMM_FLAG_EXEC f.

(** [task_current()] is the argument, [None] for NULL; the result is the return
    value, the task and the memory. *)
Definition sys_mmap_handler (t : option user_task) (len prot : Z) (u : umem) : option (Z * option user_task * umem) :=
  if (len =? 0) || (SYS_MMAP_MAX_LEN_BYTES <? len) then Some (-1, t, u)
  else
    match t with
    | None => Some (-1, t, u)
    | Some tk =>
        if negb (is_user tk) || (user_l1_pa tk =? 0) then Some (-1, t, u)
        else
          let pages := (len +64 (PAGE_SIZE - 1)) / PAGE_SIZE in
          let total := u64 (pages * PAGE_SIZE) in
          if (user_va_next tk <? USER_MMAP_VA_START) || (USER_VA_LIMIT <? user_va_next tk +64 total) then Some (-1, t, u)
          else
            let base_va := user_va_next tk in
            '(ok, u) ← mmap_pages (Z.to_nat pages) (user_l1_pa tk) base_va 0 (mmap_flags prot) u;
            if (ok : bool) then
              Some (base_va, Some (UserTask (is_user tk) (user_l1_pa tk) (user_asid tk) (base_va +64 total)), u)
            else Some (-1, t, u)
    end.

Definition sys_munmap_handler (t : option user_task) (addr len : Z) (u : umem) : option (Z * umem) :=
  if (len =? 0) || (SYS_MMAP_MAX_LEN_BYTES <? len) then Some (-1, u)
  else if negb (Z.land addr (PAGE_SIZE - 1) =? 0) then Some (-1, u)
  else
    match t with
    | None => Some (-1, u)
    | Some tk =>
        if negb (is_user tk) || (user_l1_pa tk =? 0) then Some (-1, u)
        else if (addr <? USER_MMAP_VA_START) || (USER_VA_LIMIT <=? addr) then Some (-1, u)
        else
          let pages := (len +64 (PAGE_SIZE - 1)) / PAGE_SIZE in
          if USER_VA_LIMIT <? addr +64 u64 (pages * PAGE_SIZE) then Some (-1, u)
          else
            '(rc, v) ← vmm_user_unmap_range (user_l1_pa tk) addr pages (vm u);
            Some (rc, with_vm v u)
    end.

(** ** The address space of a user task *)

(** [vmm_destroy_user_l1] and [vmm_free_asid], as every teardown path calls them. *)
Definition release_space (l1_pa asid : Z) (u : umem) : option umem :=
  v ← vmm_destroy_user_l1 l1_pa (vm u);
  Some (UMem v (Asid.vmm_free_asid asid (asids u)) (data u)).

(** The loop that maps [.text.user]; [n] pages are left from [off]. *)
Fixpoint map_text (n : nat) (l1_pa text_kva off : Z) (v : vmm) : option (bool * vmm) :=
  match n with
  | O => Some (true, v)
  | S n =>
      '(rc, v) ← vmm_user_map_page l1_pa (USER_TEXT_VA +64 off) (text_kva +64 off) VMM_FLAGS_USER_CODE v;
      if negb (rc =? 0) then Some (false, v) else map_text n l1_pa text_kva (off + PAGE_SIZE) v
  end.

(** [task_create_user] up to the creation of the kernel task.  [text_kva] and
    [text_bytes] are the linker's range of [.text.user].  [Some (l1, asid)] inside is
    the space that was built, with its stack page mapped. *)
Definition build_space (text_kva text_bytes : Z) (u : umem) : option (option (Z * Z) * umem) :=
  '(rc, l1, v) ← vmm_create_user_l1 true (vm u);
  let u := with_vm v u in
  if negb (rc =? 0) then Some (None, u)
  else
    let '(asid, a) := Asid.vmm_alloc_asid (asids u) in
    let u := with_asids a u in
    if asid =? 0 then v ← vmm_destroy_user_l1 l1 (vm u); Some (None, with_vm v u)
    else if negb (Z.land text_kva (PAGE_SIZE - 1) =? 0) || negb (Z.land text_bytes (PAGE_SIZE - 1) =? 0) || (text_bytes =? 0) then
      u ← release_space l1 asid u; Some (None, u)
    else
      '(ok, v) ← map_text (Z.to_nat (text_bytes / PAGE_SIZE)) l1 text_kva 0 (vm u);
      let u := with_vm v u in
      if negb ok then u ← release_space l1 asid u; Some (None, u)
      else
        '(ok, u) ← map_fresh_page l1 USER_STACK_PAGE_VA (Z.lor VMM_FLAGS_USER_DATA VMM_FLAG_PMM_OWNED) (fun _ d => d) u;
        if negb ok then u ← release_space l1 asid u; Some (None, u)
        else Some (Some (l1, asid), u).

(** The task [task_create_user] publishes for a space. *)
Definition user_task_of (l1 asid : Z) : user_task := UserTask true l1 asid USER_MMAP_VA_START.

(** [task_create_user] when no kernel task can be created: [stack_page] is freed,
    then the space that maps it. *)
Definition unwind_space (l1 asid stack_page : Z) (u : umem) : option umem :=
  v ← free_frame stack_page (vm u);
  release_space l1 asid (with_vm v u).

(** The user part of [task_destroy]. *)
Definition destroy_user_memory (t : user_task) (u : umem) : option umem :=
  u ← (if negb (user_l1_pa t =? 0) then v ← vmm_destroy_user_l1 (user_l1_pa t) (vm u); Some (with_vm v u) else Some u);
  Some (if negb (user_asid t =? 0) then with_asids (Asid.vmm_free_asid (user_asid t) (asids u)) u else u).

End UserMem.
