(* ===== verification/UserSpec.v ===== *)
(** User memory operations preserve the address-space invariant, account for every
    page, and do exactly what their callers are told. *)

From S2P Require Import Prelude.
From S2P Require Import FreeList Buddy BuddyInv BuddySpec PmmSpec PageDesc Vmm VmmTree VmmUser VmmTear Asid KString UserMem.

Module UserSpec.
Import Buddy BuddyInv BuddySpec PageDesc Vmm VmmTree VmmUser VmmTear UserMem.
Open Scope Z_scope.
Open Scope slm_scope.

Notation spaces_ok st Ls := (tables_ok (frames st) (words st) Ls settled).

(** ** Pages in the caller's hands *)

Lemma held_apart st Ls a x : spaces_ok st Ls -> held st Ls a -> in_block a 0 x -> ~ accounted st Ls x.
Proof.
  intros T [Ha Hno] Hx [Hf|(l1 & q & b & Hl & Hb & Hxb)].
  - destruct Ha as (_ & _ & _ & Hnf). by apply (Hnf x).
  - apply (Hno l1 q Hl). rewrite Hb. f_equal. apply (dyadic_eq _ _ 0 x); try done.
    + eapply allocated_aligned, (t_alloc _ _ _ _ T l1 q); done.
    + by destruct Ha.
Qed.

Lemma alloc_held st Ls :
  spaces_ok st Ls ->
  exists p st', alloc_frame st = Some (p, st') /\
    (p = 0 /\ st' = st /\ free_pages (frames st) = 0 \/
     p <> 0 /\ spaces_ok st' Ls /\ words st' = words st /\ statics st st' /\ trace st' = trace st /\ held st' Ls p /\
     allocated (frames st) (frames st') 0 p /\
     (forall x, accounted st Ls x <-> accounted st' Ls x \/ in_block p 0 x) /\
     (forall b, held st Ls b -> held st' Ls b /\ b <> p) /\ free_pages (frames st') = free_pages (frames st) - 1).
Proof.
  intros T. destruct (alloc_frame_spec st (t_inv _ _ _ _ T)) as (p & st' & E & [(-> & -> & Hz)|(Hp & Est & Hinv & Ha)]).
  { exists 0, st. split; [done|]. by left. }
  exists p, st'. split; [done|]. right. assert (words st' = words st /\ trace st' = trace st) as (Hw & Ht) by (by rewrite Est).
  pose proof (alloc_statics _ _ _ _ Est Ha) as Hs.
  pose proof (fresh_frame _ _ _ _ _ _ T Ha) as Hfresh. pose proof Ha as (_ & _ & _ & Hfr & Hf & _ & _ & Hfp).
  destruct (alloc_tables_ok _ _ _ (words st') _ _ p T Hinv Ha) as [T' _]; [by rewrite Hw|].
  split_and!; try done.
  - split; [by eapply alloc_is_allocated|]. by rewrite Hw.
  - intros x. unfold accounted. rewrite Hw, Hf. split.
    + intros [Hx|?]; [|by left; right]. destruct (decide (in_block p 0 x)); [by right|by left; left].
    + intros [[[? _]|?]|?]; [by left|by right|left; by apply Hfr].
  - intros b [Hb Hno]. destruct (alloc_keeps _ _ _ _ Ha Hb). split; [|done]. split; [done|]. by rewrite Hw.
Qed.

Lemma free_held st Ls a :
  spaces_ok st Ls -> held st Ls a ->
  exists st', free_frame a st = Some st' /\ spaces_ok st' Ls /\ statics st st' /\ kernel_half (words st) (words st') Ls /\
    (forall l1, l1 ∈ Ls -> same_tree (words st) (words st') l1) /\
    (forall x, is_free (frames st') x <-> is_free (frames st) x \/ in_block a 0 x) /\
    (forall x, accounted st' Ls x <-> accounted st Ls x \/ in_block a 0 x) /\
    (forall b, held st Ls b -> b <> a -> held st' Ls b).
Proof.
  intros T [Ha Hno]. destruct (free_frame_spec a st (t_inv _ _ _ _ T) Ha) as (st' & E & Hinv & Hst & Hs & He & Hf & Hw & _).
  exists st'. split; [done|]. pose proof (allocated_aligned _ _ Ha) as Hal.
  assert (Hag : forall l1 p t i, l1 ∈ Ls -> (length p <= 2)%nat -> node (words st) l1 p = Some t -> 0 <= i < 512 -> words st' (entry t i) = words st (entry t i)).
  { intros l1 p t i Hl Hp Hn Hi. apply Hw. by eapply (table_off _ _ _ _ _ l1 p). }
  assert (Hsame : forall l1, l1 ∈ Ls -> same_tree (words st) (words st') l1) by (intros l1 Hl; apply agree_tree; intros p t i; by apply (Hag l1 p)).
  split_and!; try done.
  - eapply (tables_agree _ _ _ _ T); try done. intros l1 p b Hl Hb. eapply (free_keeps (frames st)); try done; [by apply (t_alloc _ _ _ _ T l1 p)|].
    intros <-. by apply (Hno l1 p).
  - by eapply (kernel_half_outside _ _ _ _ _ a T).
  - intros x. unfold accounted, footprint. rewrite Hf.
    assert (Hfp : (exists l1 p b, l1 ∈ Ls /\ frame (words st') l1 p = Some b /\ in_block b 0 x) <-> exists l1 p b, l1 ∈ Ls /\ frame (words st) l1 p = Some b /\ in_block b 0 x).
    { split; intros (l1 & p & b & Hl & Hb & Hx); exists l1, p, b; split_and!; try done; [rewrite <- (tree_frame _ (words st')) by auto|rewrite (tree_frame (words st)) by auto]; done. }
    rewrite Hfp. tauto.
  - intros b [Hb Hnb] Hne. split; [by eapply (free_keeps (frames st))|]. intros l1 q Hl. rewrite (tree_frame (words st)) by auto. auto.
Qed.

(** ** A fresh page *)

(** [page] was free, has been filled, and is mapped at [va]. *)
Record fresh_mapped (u u' : umem) (Ls : list Z) (l1 va flags page : Z) (fill : Z -> (Z -> Z) -> Z -> Z) : Prop := {
  fm_ok : spaces_ok (vm u') Ls;
  fm_statics : statics (vm u) (vm u');
  fm_kernel : kernel_half (words (vm u)) (words (vm u')) Ls;
  fm_page : user_page va;
  fm_before : leafv (words (vm u)) l1 (path_of va) = 0;
  fm_leaf : forall l1' q, l1' ∈ Ls -> length q = 3%nat ->
    leafv (words (vm u')) l1' q = if decide (l1' = l1 /\ q = path_of va) then make_page_desc page flags else leafv (words (vm u)) l1' q;
  fm_acc : forall x, accounted (vm u') Ls x <-> accounted (vm u) Ls x;
  fm_held : forall a, held (vm u) Ls a -> held (vm u') Ls a;
  fm_mono : forall x, is_free (frames (vm u')) x -> is_free (frames (vm u)) x;
  fm_fresh : forall x, in_block page 0 x -> is_free (frames (vm u)) x;
  fm_addr : 0 < page < 2 ^ 48 /\ (PAGE_SIZE | page);
  fm_data : data u' = fill page (data u);
  fm_asids : asids u' = asids u
}.

Lemma map_fresh_page_spec u Ls l1 va flags fill :
  spaces_ok (vm u) Ls -> l1 ∈ Ls -> has flags VMM_FLAG_PMM_OWNED = true ->
  exists ok u', map_fresh_page l1 va flags fill u = Some (ok, u') /\
    (ok = true /\ (exists page, fresh_mapped u u' Ls l1 va flags page fill) /\
       free_pages (frames (vm u)) - 3 <= free_pages (frames (vm u')) \/
     ok = false /\ grown (vm u) (vm u') Ls /\ asids u' = asids u /\
       (data u' = data u \/ exists a, data u' = fill a (data u) /\ forall x, in_block a 0 x -> is_free (frames (vm u)) x) /\
       (~ user_page va \/ is_Some (translate (words (vm u)) l1 va) \/ free_pages (frames (vm u)) < 3)).
Proof.
  intros T Hl Ho. unfold map_fresh_page.
  destruct (alloc_held (vm u) Ls T) as (p & v1 & -> & [(-> & -> & Hz)|(Hp & T1 & Hw & Hst & _ & Hh & Hal & Hacc & Hk & Hfp)]).
  { cbn. exists false, u. split; [by destruct u|]. right. split_and!; try done; [by left|]. right. right. lia. }
  cbn [mbind option_bind]. rewrite (proj2 (Z.eqb_neq p 0)) by done. cbn [vm].
  assert (Hpd : 0 < p < 2 ^ 48 /\ (PAGE_SIZE | p)).
  { split; [by eapply (allocated_bounds _ _ _ _ T1), Hh|]. rewrite <- bsize_0. eapply allocated_aligned, Hh. }
  destruct (map_page_spec v1 Ls l1 va p flags T1 Hl) as (rc & v2 & -> & [(-> & M & Hcnt)|(-> & Hun & Hr)]); [by intros _|..]; cbn [mbind option_bind].
  - cbn [Z.eqb negb]. eexists _, _. split; [done|]. left. split; [done|]. split; [|cbn [with_vm vm]; lia]. exists p. destruct M as [M1 M2 M3 M4 M5 M6 M7 M8 M9].
    rewrite Hw in *. split; cbn [with_vm vm data asids]; try done; try apply Hpd; try apply M4.
    + by eapply statics_trans.
    + intros x. rewrite M7, Hacc. tauto.
    + intros a Ha. destruct (Hk a Ha). apply M8; [done|]. by intros [_ ?].
    + intros x Hx%M9. destruct Hal as (_ & _ & _ & _ & Hf & _). by apply Hf in Hx as [? _].
    + intros x Hx. destruct Hal as (_ & _ & _ & Hfr & _). by apply Hfr.
  - cbn [Z.eqb negb]. destruct (undone_grown _ _ _ Hun) as [T2 Hst2 Hk2 Hlf2 Hacc2 Hh2 Hm2].
    destruct (free_held v2 Ls p T2 (Hh2 p Hh)) as (v3 & -> & T3 & Hst3 & Hk3 & Hsame3 & Hf3 & Hacc3 & Hh3). cbn [mbind option_bind].
    eexists _, _. split; [done|]. right. cbn [with_vm vm asids]. split_and!; try done.
    + split; try done.
      * eapply statics_trans; [done|by eapply statics_trans].
      * rewrite <- Hw. by eapply kernel_half_trans.
      * intros l q Hl' Hq. rewrite (proj2 (Hsame3 l Hl')), Hlf2, Hw by done. done.
      * intros x. by rewrite Hacc3, Hacc2, Hacc.
      * intros b Hb. destruct (Hk b Hb). auto.
      * intros x Hx. destruct Hal as (_ & _ & _ & Hfr & Hf & _). apply Hf3 in Hx as [Hx%Hm2|Hx]; [by apply Hf in Hx as [? _]|by apply Hfr].
    + right. exists p. split; [done|]. intros x Hx. destruct Hal as (_ & _ & _ & Hfr & _). by apply Hfr.
    + destruct Hr as [Hbad|[Hm|Hfew]]; [left|right; left; by rewrite <- Hw|right; right; lia]. intros Hu. apply Hbad. split; [done|apply Hpd].
Qed.

(** ** [mmap] *)

Lemma zero_fill_spec page d x : zero_fill page d x = if decide (in_block page 0 x) then 0 else d x.
Proof.
  unfold zero_fill. rewrite KString.memset_spec. unfold in_block. rewrite bsize_0, Z2Nat.id by done. by repeat case_decide.
Qed.

(** The leaf of an owned page and the page itself. *)
Lemma owned_frame w l1 q page flags :
  length q = 3%nat -> leafv w l1 q = make_page_desc page flags -> has flags VMM_FLAG_PMM_OWNED = true ->
  0 < page < 2 ^ 48 -> (PAGE_SIZE | page) -> frame w l1 q = Some page.
Proof.
  intros Hq E Ho Hp Hd. rewrite frame_leaf, E, page_desc_owned, Ho, page_desc_addr, mask_page by (done || lia). done.
Qed.

Section mmap.
Context (u0 : umem) (Ls : list Z) (l1 base flags : Z).
Context (Hl1 : l1 ∈ Ls) (Hown : has flags VMM_FLAG_PMM_OWNED = true) (Hbase : 0 <= base).

Notation page i := (base + i * PAGE_SIZE).

(** Page [i] of the request: a page that was free, zeroed and mapped. *)
Definition mmap_page (u : umem) (i : Z) : Prop :=
  exists a, leafv (words (vm u)) l1 (path_of (page i)) = make_page_desc a flags /\ 0 < a < 2 ^ 48 /\ (PAGE_SIZE | a) /\
    (forall x, in_block a 0 x -> is_free (frames (vm u0)) x /\ data u x = 0).

(** The first [i] pages are mapped. *)
Record mmapped (u : umem) (i : Z) : Prop := {
  mm_ok : spaces_ok (vm u) Ls;
  mm_statics : statics (vm u0) (vm u);
  mm_kernel : kernel_half (words (vm u0)) (words (vm u)) Ls;
  mm_same : forall l q, l ∈ Ls -> length q = 3%nat -> ~ (l = l1 /\ seen base i q) -> leafv (words (vm u)) l q = leafv (words (vm u0)) l q;
  mm_new : forall i', 0 <= i' < i -> user_page (page i') /\ mmap_page u i';
  mm_acc : forall x, accounted (vm u) Ls x <-> accounted (vm u0) Ls x;
  mm_held : forall a, held (vm u0) Ls a -> held (vm u) Ls a;
  mm_mono : forall x, is_free (frames (vm u)) x -> is_free (frames (vm u0)) x;
  mm_data : forall x, ~ is_free (frames (vm u0)) x -> data u x = data u0 x;
  mm_asids : asids u = asids u0
}.

Lemma mmapped_start : spaces_ok (vm u0) Ls -> mmapped u0 0.
Proof. intros T. split; try done. lia. Qed.

(** One more page. *)
Lemma mmapped_step u u' i a :
  0 <= i -> mmapped u i -> fresh_mapped u u' Ls l1 (page i) flags a zero_fill -> mmapped u' (i + 1).
Proof.
  intros Hi [M1 M2 M3 M4 M5 M6 M7 M8 M9 M10] [F1 F2 F3 F4 F5 F6 F7 F8 F9 F10 F11 F12 F13].
  assert (Hd : forall x, data u' x = if decide (in_block a 0 x) then 0 else data u x) by (intros x; by rewrite F12, zero_fill_spec). clear F12.
  split; try done.
  - by eapply statics_trans.
  - by eapply kernel_half_trans.
  - intros l q Hl Hq Hn. rewrite seen_succ in Hn by done. rewrite F6 by done. rewrite decide_False by tauto. apply M4; tauto.
  - intros i' Hi'. destruct (decide (i' = i)) as [->|Hne].
    + split; [done|]. exists a. split_and!; try done; try apply F11; [rewrite F6 by done; by rewrite decide_True|].
      intros x Hx. split; [auto|]. by rewrite Hd, decide_True.
    + destruct (M5 i' ltac:(lia)) as [Hu (b & Hb & Hr & Hdv & Hz)]. split; [done|]. exists b. split_and!; try done; try lia.
      * rewrite F6 by done. rewrite decide_False; [done|]. intros [_ E]. apply path_of_inj in E; try done. unfold PAGE_SIZE in E. lia.
      * intros x Hx. split; [by apply Hz|]. rewrite Hd. rewrite decide_False; [by apply Hz|]. intros Hxa%F10.
        assert (Hfb : frame (words (vm u)) l1 (path_of (page i')) = Some b) by (by eapply owned_frame).
        destruct (t_alloc _ _ _ _ M1 l1 _ b Hl1 Hfb) as (_ & _ & _ & Hnf). by apply (Hnf x).
  - intros x. by rewrite F7, M6.
  - auto.
  - auto.
  - intros x Hx. rewrite Hd. rewrite decide_False; [by apply M9|]. intros ?%F10%M8. done.
  - congruence.
Qed.

(** What a refused request leaves: every translation as it was. *)
Definition mmap_failed (u : umem) : Prop :=
  grown (vm u0) (vm u) Ls /\ asids u = asids u0 /\ (forall x, ~ is_free (frames (vm u0)) x -> data u x = data u0 x).

Lemma mmap_roll_back u u' i :
  0 <= i -> page i < 2 ^ 64 -> mmapped u i -> grown (vm u) (vm u') Ls -> asids u' = asids u -> data u' = data u \/ (exists a, data u' = zero_fill a (data u) /\ forall x, in_block a 0 x -> is_free (frames (vm u)) x) ->
  (forall i', 0 <= i' < i -> leafv (words (vm u0)) l1 (path_of (page i')) = 0) ->
  exists rc v, vmm_user_unmap_range l1 base i (vm u') = Some (rc, v) /\ mmap_failed (with_vm v u').
Proof.
  intros Hi Hfit M G Ha Hd Hz. destruct (unmap_range_spec (vm u') Ls l1 base i (gr_ok _ _ _ G) Hl1 Hbase Hi Hfit) as (rc & v & E & U).
  exists rc, v. split; [done|]. pose proof U as [U1 U2 U3 U4 U5 U6 U7 _ _ _]. unfold mmap_failed. cbn [with_vm vm asids data]. split_and!.
  - split; try done.
    + eapply statics_trans; [apply M|]. eapply statics_trans; [apply G|done].
    + eapply kernel_half_trans; [apply M|]. eapply kernel_half_trans; [apply G|done].
    + intros l q Hl Hq. rewrite U4 by done. case_decide as D.
      * destruct D as [-> (i' & Hi' & _ & ->)]. symmetry. by apply Hz.
      * rewrite (gr_leaf _ _ _ G) by done. by apply (mm_same _ _ M).
    + intros x. rewrite U6, (gr_acc _ _ _ G). apply (mm_acc _ _ M).
    + intros a Hh. by apply U7, (gr_held _ _ _ G), (mm_held _ _ M).
    + intros x [Hx|(q & a & (i' & Hi' & Hu & ->) & Hq & Hx)]%U5; [by apply (mm_mono _ _ M), (gr_mono _ _ _ G)|].
      destruct (mm_new _ _ M i' Hi') as [_ (b & Hb & Hr & Hdv & Hfree)].
      erewrite owned_frame in Hq; [|done|rewrite (gr_leaf _ _ _ G) by done; exact Hb|done..]. injection Hq as <-. by apply Hfree.
  - rewrite Ha. apply M.
  - intros x Hx. destruct Hd as [->|(a & -> & Hfr)]; [by apply (mm_data _ _ M)|]. rewrite zero_fill_spec, decide_False; [by apply (mm_data _ _ M)|].
    intros ?%Hfr%(mm_mono _ _ M). done.
Qed.

Lemma mmap_pages_spec pages n i u :
  0 <= i -> i + Z.of_nat n = pages -> page pages < 2 ^ 64 ->
  (forall i', 0 <= i' < pages -> user_page (page i') /\ leafv (words (vm u0)) l1 (path_of (page i')) = 0) ->
  mmapped u i -> free_pages (frames (vm u0)) - 3 * i <= free_pages (frames (vm u)) ->
  exists ok u', mmap_pages n l1 base i flags u = Some (ok, u') /\
    (ok = true /\ mmapped u' pages \/ ok = false /\ mmap_failed u' /\ free_pages (frames (vm u0)) < 3 * pages).
Proof.
  intros Hi Hn Hfit Hpre. revert i u Hi Hn. induction n as [|n IH]; intros i u Hi Hn M Hc; cbn [mmap_pages].
  { exists true, u. split; [done|]. left. split; [done|]. by replace pages with i by lia. }
  assert (Hpi : base +64 u64 (i * PAGE_SIZE) = page i).
  { unfold PAGE_SIZE in *. rewrite (u64_small (i * 4096)), u64_small; [done|unfold is_u64; lia..]. }
  rewrite Hpi. destruct (Hpre i ltac:(lia)) as [Hu H0].
  destruct (map_fresh_page_spec u Ls l1 (page i) flags zero_fill (mm_ok _ _ M) Hl1 Hown) as (ok & u1 & -> & Hres). cbn [mbind option_bind].
  destruct Hres as [(-> & (a & F) & Hcnt)|(-> & G & Ha & Hd & Hwhy)].
  - apply IH; [lia|lia|by eapply mmapped_step|lia].
  - destruct (mmap_roll_back u u1 i Hi ltac:(unfold PAGE_SIZE in *; lia) M G Ha Hd) as (rc & v & -> & Hf).
    { intros i' Hi'. apply Hpre. lia. }
    cbn [mbind option_bind]. eexists _, _. split; [done|]. right. split_and!; [done|done|].
    destruct Hwhy as [?|[[e He]|?]]; [done| |lia]. unfold translate in He.
    rewrite (mm_same _ _ M), H0 in He; try done. intros [_ ?]. by eapply (not_seen base i).
Qed.

End mmap.

End UserSpec.
