(* ===== verification/Elf.v ===== *)
(** The ELF loader (include/elf.h, src/elf.c, src/elf_user.c): headers read from the
    image in memory, the kernel-space loader with its argument stack, and the loader
    of user address spaces. *)

From S2P Require Import Prelude.
From S2P Require Import FreeList Buddy PageDesc Vmm Asid KString UserMem Task Sys.

Module Elf.
Import Buddy PageDesc Vmm UserMem.
Open Scope Z_scope.
Open Scope slm_scope.

(** ** Constants *)

Definition ELF_MAGIC : Z := 0x464C457F.
Definition ELFCLASS64 : Z := 2.
Definition ELFDATA2LSB : Z := 1.
Definition ET_EXEC : Z := 2.
Definition ET_DYN : Z := 3.
Definition EM_AARCH64 : Z := 183.
Definition PT_LOAD : Z := 1.
Definition PF_X : Z := 1.
Definition PF_W : Z := 2.
Definition PF_R : Z := 4.
Definition ELF_MAX_SEGMENTS : nat := 8.
Definition ELF_MAX_ARGV : Z := 16.

Definition ELF_OK : Z := 0.
Definition ELF_ERR_INVALID : Z := -1.
Definition ELF_ERR_ARCH : Z := -2.
Definition ELF_ERR_TYPE : Z := -3.
Definition ELF_ERR_NOMEM : Z := -4.
Definition ELF_ERR_SEGMENTS : Z := -5.
Definition ELF_ERR_TRUNCATED : Z := -6.
Definition ELF_ERR_ARGV_TOO_LARGE : Z := -7.

Definition UINT64_MAX : Z := 2 ^ 64 - 1.

(** ** Integers in memory *)

Notation bytes := (Z -> Z).

(** The little-endian integer of [n] bytes at [a]. *)
Fixpoint le (n : nat) (a : Z) (m : bytes) : Z :=
  match n with
  | O => 0
  | S n => u8 (m a) + 256 * le n (a + 1) m
  end.

(** The store of such an integer. *)
Fixpoint put_le (n : nat) (a v : Z) (m : bytes) : bytes :=
  match n with
  | O => m
  | S n => put_le n (a + 1) (v / 256) (<[a := u8 v]> m)
  end.

(** ** Headers *)

(** The fields the loaders read. *)
Record Elf64_Ehdr := Ehdr {
  e_magic : Z; e_class : Z; e_data : Z;
  e_type : Z; e_machine : Z; e_entry : Z; e_phoff : Z; e_phentsize : Z; e_phnum : Z
}.

Record Elf64_Phdr := Phdr {
  p_type : Z; p_flags : Z; p_offset : Z; p_vaddr : Z; p_filesz : Z; p_memsz : Z
}.

Definition EHDR_SIZE : Z := 64.
Definition PHDR_SIZE : Z := 56.

Definition read_ehdr (a : Z) (m : bytes) : Elf64_Ehdr :=
  Ehdr (le 4 a m) (le 1 (a + 4) m) (le 1 (a + 5) m)
    (le 2 (a + 16) m) (le 2 (a + 18) m) (le 8 (a + 24) m) (le 8 (a + 32) m) (le 2 (a + 54) m) (le 2 (a + 56) m).

Definition read_phdr (a : Z) (m : bytes) : Elf64_Phdr :=
  Phdr (le 4 a m) (le 4 (a + 4) m) (le 8 (a + 8) m) (le 8 (a + 16) m) (le 8 (a + 32) m) (le 8 (a + 40) m).

(** [phdr[i]] of the image at [buffer]. *)
Definition phdr_at (buffer i : Z) (m : bytes) : Elf64_Phdr :=
  read_phdr (buffer + e_phoff (read_ehdr buffer m) + i * PHDR_SIZE) m.

Definition validate_header (buffer size : Z) (m : bytes) : Z :=
  if size <? EHDR_SIZE then ELF_ERR_TRUNCATED
  else
    let ehdr := read_ehdr buffer m in
    if negb (e_magic ehdr =? ELF_MAGIC) then ELF_ERR_INVALID
    else if negb (e_class ehdr =? ELFCLASS64) then ELF_ERR_INVALID
    else if negb (e_data ehdr =? ELFDATA2LSB) then ELF_ERR_INVALID
    else if negb (e_machine ehdr =? EM_AARCH64) then ELF_ERR_ARCH
    else if negb (e_type ehdr =? ET_EXEC) && negb (e_type ehdr =? ET_DYN) then ELF_ERR_TYPE
    else if negb (e_phentsize ehdr =? PHDR_SIZE) then ELF_ERR_INVALID
    else if size <? e_phoff ehdr then ELF_ERR_TRUNCATED
    else
      let phdr_bytes := u64 (e_phnum ehdr * PHDR_SIZE) in
      if size -64 e_phoff ehdr <? phdr_bytes then ELF_ERR_TRUNCATED else ELF_OK.

Definition elf_validate (buffer size : Z) (m : bytes) : Z := validate_header buffer size m.

(** ** The kernel-space loader *)

Record elf_segment := Segment { vaddr : Z; size : Z; flags : Z; data : Z }.

Record elf_info := Info {
  entry : Z; load_base : Z; load_size : Z; num_segments : nat; segments : list elf_segment
}.

(** The page allocator and the bytes of memory. *)
Record kmem := KMem { heap : pmm; ram : bytes }.

(** The first pass of [elf_load] from header [i]: an error, or [min_vaddr],
    [max_vaddr] and [loadable_count]. *)
Fixpoint scan_segments (n : nat) (buffer size i min_vaddr max_vaddr : Z) (count : nat) (m : bytes) : Z + (Z * Z * nat) :=
  match n with
  | O => inr (min_vaddr, max_vaddr, count)
  | S n =>
      let ph := phdr_at buffer i m in
      if negb (p_type ph =? PT_LOAD) then scan_segments n buffer size (i + 1) min_vaddr max_vaddr count m
      else if (ELF_MAX_SEGMENTS <? S count)%nat then inl ELF_ERR_SEGMENTS
      else if (size <? p_offset ph) || (size -64 p_offset ph <? p_filesz ph) then inl ELF_ERR_TRUNCATED
      else if UINT64_MAX -64 p_vaddr ph <? p_memsz ph then inl ELF_ERR_TRUNCATED
      else
        scan_segments n buffer size (i + 1) (Z.min (p_vaddr ph) min_vaddr) (Z.max (p_vaddr ph +64 p_memsz ph) max_vaddr) (S count) m
  end.

Definition set_data (v : Z) (s : elf_segment) : elf_segment := Segment (vaddr s) (size s) (flags s) v.

(** The pages of a segment of [sz] bytes. *)
Definition seg_pages (sz : Z) : Z := (sz +64 PAGE_SIZE -64 1) / PAGE_SIZE.

(** The loop of [elf_unload] from segment [i] with [n] to go. *)
Fixpoint unload_from (n i : nat) (segs : list elf_segment) (h : pmm) : option (list elf_segment * pmm) :=
  match n with
  | O => Some (segs, h)
  | S n =>
      seg ← segs !! i;
      if data seg =? 0 then unload_from n (S i) segs h
      else
        h ← pmm_free_pages (data seg) (seg_pages (size seg)) h;
        unload_from n (S i) (<[i := set_data 0 seg]> segs) h
  end.

Definition elf_unload (info : elf_info) (k : kmem) : option (elf_info * kmem) :=
  '(segs, h) ← unload_from (num_segments info) 0 (segments info) (heap k);
  Some (Info 0 (load_base info) (load_size info) 0 segs, KMem h (ram k)).

(** One segment of the second pass: [None] inside is success. *)
Definition load_one (buffer : Z) (ph : Elf64_Phdr) (info : elf_info) (k : kmem) : option (option Z * elf_info * kmem) :=
  let memsz := p_memsz ph in
  if UINT64_MAX - PAGE_SIZE <? memsz then
    '(info, k) ← elf_unload info k; Some (Some ELF_ERR_TRUNCATED, info, k)
  else
    let pages := seg_pages memsz in
    '(p, h) ← pmm_alloc_pages pages (heap k);
    if p =? 0 then '(info, k) ← elf_unload info (KMem h (ram k)); Some (Some ELF_ERR_NOMEM, info, k)
    else
      let m := KString.memset p 0 (Z.to_nat (u64 (pages * PAGE_SIZE))) (ram k) in
      let m := KString.memcpy p (buffer + p_offset ph) (Z.to_nat (p_filesz ph)) m in
      if (num_segments info <? length (segments info))%nat then
        let seg := Segment (p_vaddr ph) memsz (p_flags ph) p in
        Some (None, Info (entry info) (load_base info) (load_size info) (S (num_segments info)) (<[num_segments info := seg]> (segments info)), KMem h m)
      else None.

(** The second pass from header [i]. *)
Fixpoint load_segments (n : nat) (buffer i : Z) (info : elf_info) (k : kmem) : option (option Z * elf_info * kmem) :=
  match n with
  | O => Some (None, info, k)
  | S n =>
      let ph := phdr_at buffer i (ram k) in
      if negb (p_type ph =? PT_LOAD) then load_segments n buffer (i + 1) info k
      else
        '(err, info, k) ← load_one buffer ph info k;
        match err with
        | Some _ => Some (err, info, k)
        | None => load_segments n buffer (i + 1) info k
        end
  end.

(** [elf_load]; [None] is an access outside [info->segments]. *)
Definition elf_load (buffer size : Z) (info : elf_info) (k : kmem) : option (Z * elf_info * kmem) :=
  let info := Info 0 0 0 0 (set_data 0 <$> segments info) in
  let ret := validate_header buffer size (ram k) in
  if negb (ret =? ELF_OK) then Some (ret, info, k)
  else
    let phnum := Z.to_nat (e_phnum (read_ehdr buffer (ram k))) in
    match scan_segments phnum buffer size 0 UINT64_MAX 0 0 (ram k) with
    | inl err => Some (err, info, k)
    | inr (min_vaddr, max_vaddr, count) =>
        if (count =? 0)%nat then Some (ELF_ERR_INVALID, info, k)
        else
          let info := Info 0 min_vaddr (max_vaddr -64 min_vaddr) 0 (segments info) in
          '(err, info, k) ← load_segments phnum buffer 0 info k;
          match err with
          | Some e => Some (e, info, k)
          | None =>
              Some (ELF_OK, Info (e_entry (read_ehdr buffer (ram k))) (load_base info) (load_size info) (num_segments info) (segments info), k)
          end
    end.

(** The kernel address of [vaddr], from segment [i] on; 0 is NULL. *)
Fixpoint find_segment (n i : nat) (va : Z) (segs : list elf_segment) : option Z :=
  match n with
  | O => Some 0
  | S n =>
      seg ← segs !! i;
      if (vaddr seg <=? va) && (va <? vaddr seg +64 size seg) then Some (data seg +64 (va -64 vaddr seg))
      else find_segment n (S i) va segs
  end.

Definition vaddr_to_phys (info : elf_info) (va : Z) : option Z := find_segment (num_segments info) 0 va (segments info).

(** ** Arguments *)

(** [strlen] with fuel for every length a string can have here. *)
Definition STR_FUEL : nat := Z.to_nat (2 ^ 20).

(** The loop of [elf_copy_argv_strings] over the strings [argv]; the result is the
    return value, the locations written so far, in order, and the memory. *)
Fixpoint copy_strings (argv : list Z) (str_ptr remaining : Z) (m : bytes) : option (Z * list Z * bytes) :=
  match argv with
  | [] => Some (ELF_OK, [], m)
  | a :: argv =>
      if a =? 0 then Some (ELF_ERR_INVALID, [], m)
      else
        len ← KString.strlen STR_FUEL a m;
        let need := len +64 1 in
        if remaining <? need then Some (ELF_ERR_ARGV_TOO_LARGE, [], m)
        else
          let m := KString.memcpy str_ptr a (Z.to_nat need) m in
          '(rc, locs, m) ← copy_strings argv (str_ptr +64 need) (remaining -64 need) m;
          Some (rc, str_ptr :: locs, m)
  end.

(** [argv] and [arg_locations] are not NULL; [argv] has at least [argc] entries. *)
Definition elf_copy_argv_strings (dst dst_size argc : Z) (argv : list Z) (m : bytes) : option (Z * list Z * bytes) :=
  if (dst =? 0) || (argc <? 0) || (ELF_MAX_ARGV <? argc) then Some (ELF_ERR_INVALID, [], m)
  else copy_strings (take (Z.to_nat argc) argv) dst dst_size m.

(** The bytes the strings take, with their terminators. *)
Fixpoint strings_size (argv : list Z) (acc : Z) (m : bytes) : option Z :=
  match argv with
  | [] => Some acc
  | a :: argv => len ← KString.strlen STR_FUEL a m; strings_size argv (acc +64 (len +64 1)) m
  end.

(** The stores [argv_ptrs[i] = locs[i]]. *)
Fixpoint put_ptrs (a : Z) (locs : list Z) (m : bytes) : bytes :=
  match locs with
  | [] => m
  | l :: locs => put_ptrs (a + 8) locs (put_le 8 a l m)
  end.

(** [sp & ~15UL] *)
Definition align16 (sp : Z) : Z := Z.ldiff sp 15.

Definition INFO_SIZE : Z := 288.

(** What the layout of the new stack leaves: the registers and the saved [info]. *)
Record arg_frame := ArgFrame { af_sp : Z; af_argc : Z; af_argv : Z; af_info : Z }.

(** [elf_create_task_with_args] from the allocated [stack] to the final stack
    pointer.  [info] is the address of the caller's structure; [argv] is NULL, or
    the array.  A negative result is the error of the string copy. *)
Definition stack_args (info stack argc : Z) (argv : option (list Z)) (m : bytes) : option ((Z + arg_frame) * bytes) :=
  let stack_top := stack +64 Task.STACK_SIZE in
  let info_copy := align16 (stack_top -64 INFO_SIZE) in
  let m := KString.memcpy info_copy info (Z.to_nat INFO_SIZE) m in
  match argv with
  | Some argv =>
      if 0 <? argc then
        let argc := Z.min argc ELF_MAX_ARGV in
        let argv := take (Z.to_nat argc) argv in
        total ← strings_size argv 0 m;
        let total := Z.ldiff (total +64 7) 7 in
        let strings_area := info_copy -64 total in
        '(err, locs, m) ← elf_copy_argv_strings strings_area total argc argv m;
        if negb (err =? ELF_OK) then Some (inl err, m)
        else
          let sp := align16 (strings_area -64 u64 ((argc + 1) * 8)) in
          let m := put_ptrs sp (locs ++ [0]) m in
          Some (inr (ArgFrame (align16 sp) argc sp info_copy), m)
      else
        let sp := align16 (info_copy -64 8) in
        Some (inr (ArgFrame (align16 sp) 0 sp info_copy), put_ptrs sp [0] m)
  | None =>
      let sp := align16 (info_copy -64 8) in
      Some (inr (ArgFrame (align16 sp) 0 sp info_copy), put_ptrs sp [0] m)
  end.

(** ** The loader of user address spaces *)

Definition pf_to_vmm_flags (pflags : Z) : Z :=
  let f := Z.lor VMM_FLAG_USER VMM_FLAG_PMM_OWNED in
  let f := or_if (has pflags PF_R) VMM_FLAG_READ f in
  let f := or_if (has pflags PF_W) VMM_FLAG_WRITE f in
  or_if (has pflags PF_X) VMM_FLAG_EXEC f.

(** [memset] and [memcpy] of page [i] of a segment with its file bytes at [src]. *)
Definition segment_fill (src filesz i page : Z) (d : bytes) : bytes :=
  let d := zero_fill page d in
  let off_in_seg := u64 (i * PAGE_SIZE) in
  if off_in_seg <? filesz then
    KString.memcpy page (src +64 off_in_seg) (Z.to_nat (Z.min (filesz -64 off_in_seg) PAGE_SIZE)) d
  else d.

(** The page loop of [load_segment] from page [i]. *)
Fixpoint segment_pages (n : nat) (l1_pa src i : Z) (ph : Elf64_Phdr) (fl : Z) (u : umem) : option (Z * umem) :=
  match n with
  | O => Some (ELF_OK, u)
  | S n =>
      '(ok, u) ← map_fresh_page l1_pa (p_vaddr ph +64 u64 (i * PAGE_SIZE)) fl (segment_fill src (p_filesz ph) i) u;
      if (ok : bool) then segment_pages n l1_pa src (i + 1) ph fl u else Some (ELF_ERR_NOMEM, u)
  end.

Definition load_segment (blob blob_len : Z) (ph : Elf64_Phdr) (l1_pa : Z) (u : umem) : option (Z * umem) :=
  if p_memsz ph =? 0 then Some (ELF_OK, u)
  else if negb (Z.land (p_vaddr ph) (PAGE_SIZE - 1) =? 0) then Some (ELF_ERR_INVALID, u)
  else
    let seg_end := p_vaddr ph +64 p_memsz ph in
    if (p_vaddr ph <? USER_TEXT_VA) || (USER_ELF_STACK_PAGE_VA <? seg_end) then Some (ELF_ERR_INVALID, u)
    else if p_memsz ph <? p_filesz ph then Some (ELF_ERR_INVALID, u)
    else if (blob_len <? p_offset ph) || (blob_len -64 p_offset ph <? p_filesz ph) then Some (ELF_ERR_TRUNCATED, u)
    else segment_pages (Z.to_nat (seg_pages (p_memsz ph))) l1_pa (blob +64 p_offset ph) 0 ph (pf_to_vmm_flags (p_flags ph)) u.

(** The first pass of [elf_load_user] from header [i]: an error or the count. *)
Fixpoint count_loads (n : nat) (blob i loaded : Z) (m : bytes) : Z + Z :=
  match n with
  | O => inr loaded
  | S n =>
      let ph := phdr_at blob i m in
      if negb (p_type ph =? PT_LOAD) then count_loads n blob (i + 1) loaded m
      else if UINT64_MAX -64 p_vaddr ph <? p_memsz ph then inl ELF_ERR_TRUNCATED
      else count_loads n blob (i + 1) (loaded + 1) m
  end.

(** The second pass from header [i]. *)
Fixpoint install_loads (n : nat) (blob len i l1_pa : Z) (u : umem) : option (Z * umem) :=
  match n with
  | O => Some (ELF_OK, u)
  | S n =>
      let ph := phdr_at blob i (UserMem.data u) in
      if negb (p_type ph =? PT_LOAD) then install_loads n blob len (i + 1) l1_pa u
      else
        '(rc, u) ← load_segment blob len ph l1_pa u;
        if negb (rc =? ELF_OK) then Some (rc, u) else install_loads n blob len (i + 1) l1_pa u
  end.

(** The result is the return value, [*entry_out] (0 when it is not set) and the memory. *)
Definition elf_load_user (blob len l1_pa : Z) (u : umem) : option (Z * Z * umem) :=
  if (blob =? 0) || (l1_pa =? 0) then Some (ELF_ERR_INVALID, 0, u)
  else
    let rc := elf_validate blob len (UserMem.data u) in
    if negb (rc =? ELF_OK) then Some (rc, 0, u)
    else
      let phnum := Z.to_nat (e_phnum (read_ehdr blob (UserMem.data u))) in
      match count_loads phnum blob 0 0 (UserMem.data u) with
      | inl err => Some (err, 0, u)
      | inr loaded =>
          if loaded =? 0 then Some (ELF_ERR_INVALID, 0, u)
          else if Z.of_nat ELF_MAX_SEGMENTS <? loaded then Some (ELF_ERR_SEGMENTS, 0, u)
          else
            '(rc, u) ← install_loads phnum blob len 0 l1_pa u;
            if negb (rc =? ELF_OK) then Some (rc, 0, u)
            else
              let e := e_entry (read_ehdr blob (UserMem.data u)) in
              if (e <? USER_TEXT_VA) || (USER_ELF_STACK_PAGE_VA <=? e) then Some (ELF_ERR_INVALID, 0, u)
              else Some (ELF_OK, e, u)
      end.

(** [task_create_user_elf] up to the creation of the kernel task: [Some (l1, asid,
    entry_va)] inside is the space that was built, with its stack page mapped. *)
Definition build_elf_space (blob blob_len : Z) (u : umem) : option (option (Z * Z * Z) * umem) :=
  if (blob =? 0) || (blob_len =? 0) then Some (None, u)
  else
    '(rc, l1, v) ← vmm_create_user_l1 true (vm u);
    let u := with_vm v u in
    if negb (rc =? 0) then Some (None, u)
    else
      let '(asid, a) := Asid.vmm_alloc_asid (asids u) in
      let u := with_asids a u in
      if asid =? 0 then v ← vmm_destroy_user_l1 l1 (vm u); Some (None, with_vm v u)
      else
        '(rc, entry_va, u) ← elf_load_user blob blob_len l1 u;
        if negb (rc =? ELF_OK) then u ← release_space l1 asid u; Some (None, u)
        else
          '(ok, u) ← map_fresh_page l1 USER_ELF_STACK_PAGE_VA (Z.lor VMM_FLAGS_USER_DATA VMM_FLAG_PMM_OWNED) (fun _ d => d) u;
          if negb ok then u ← release_space l1 asid u; Some (None, u)
          else Some (Some (l1, asid, entry_va), u).

End Elf.
