(* ===== verification/ElfSpec.v ===== *)
(** The kernel-space ELF loader: images are read in bounds, segments are placed in
    fresh pages with the bytes of the file and zeros, and every failure returns
    what was taken. *)

From S2P Require Import Prelude.
From S2P Require Import FreeList Buddy BuddyInv BuddySpec PmmSpec KString Elf.

Module ElfSpec.
Import FreeList Buddy BuddyInv BuddySpec PmmSpec Elf.
Open Scope Z_scope.
Open Scope slm_scope.

(** ** Reading the image *)

(** Two memories agree on [n] bytes at [a]. *)
Definition same_bytes (a n : Z) (m m' : bytes) : Prop := forall x, a <= x < a + n -> m' x = m x.

Lemma same_bytes_sub a n b k m m' : same_bytes a n m m' -> a <= b -> b + k <= a + n -> same_bytes b k m m'.
Proof. intros Hs Hb Hk x Hx. apply Hs. lia. Qed.

Lemma le_range n a m : 0 <= le n a m < 2 ^ (8 * Z.of_nat n).
Proof.
  revert a. induction n as [|n IH]; intros a; cbn [le]; [lia|]. specialize (IH (a + 1)). pose proof (u8_range (m a)) as [? ?].
  replace (8 * Z.of_nat (S n)) with (8 + 8 * Z.of_nat n) by lia. rewrite Z.pow_add_r by lia. lia.
Qed.

Lemma le_ext n a m m' : same_bytes a (Z.of_nat n) m m' -> le n a m' = le n a m.
Proof.
  revert a. induction n as [|n IH]; intros a Hs; cbn [le]; [done|]. rewrite (IH (a + 1)), (Hs a); [done|lia|].
  eapply same_bytes_sub; [done|lia..].
Qed.

Lemma read_ehdr_ext a m m' : same_bytes a EHDR_SIZE m m' -> read_ehdr a m' = read_ehdr a m.
Proof. intros Hs. unfold read_ehdr, EHDR_SIZE in *. f_equal; apply le_ext; eapply same_bytes_sub; (done || lia). Qed.

Lemma read_phdr_ext a m m' : same_bytes a PHDR_SIZE m m' -> read_phdr a m' = read_phdr a m.
Proof. intros Hs. unfold read_phdr, PHDR_SIZE in *. f_equal; apply le_ext; eapply same_bytes_sub; (done || lia). Qed.

(** The fields are in the range of their types. *)
Lemma phdr_ranges buffer i m :
  let ph := phdr_at buffer i m in
  is_u64 (p_offset ph) /\ is_u64 (p_vaddr ph) /\ is_u64 (p_filesz ph) /\ is_u64 (p_memsz ph) /\ is_u32 (p_flags ph).
Proof. unfold is_u64, is_u32. split_and!; apply (le_range 8) || apply (le_range 4). Qed.

Lemma ehdr_ranges a m : is_u64 (e_phoff (read_ehdr a m)) /\ is_u64 (e_entry (read_ehdr a m)) /\ 0 <= e_phnum (read_ehdr a m) < 2 ^ 16.
Proof. unfold is_u64. split_and!; apply (le_range 8) || apply (le_range 2). Qed.

(** What an accepted header guarantees. *)
Lemma validate_header_ok buffer size m :
  0 <= size < 2 ^ 64 -> validate_header buffer size m = ELF_OK ->
  EHDR_SIZE <= size /\ e_phoff (read_ehdr buffer m) + e_phnum (read_ehdr buffer m) * PHDR_SIZE <= size /\
  e_machine (read_ehdr buffer m) = EM_AARCH64 /\ e_magic (read_ehdr buffer m) = ELF_MAGIC.
Proof.
  intros Hs. unfold validate_header. destruct (Z.ltb_spec size EHDR_SIZE); [done|]. pose proof (ehdr_ranges buffer m) as (Ho & _ & Hn).
  destruct (Z.eqb_spec (e_magic (read_ehdr buffer m)) ELF_MAGIC); [|done]. destruct (_ =? ELFCLASS64); [|done].
  destruct (_ =? ELFDATA2LSB); [|done]. destruct (Z.eqb_spec (e_machine (read_ehdr buffer m)) EM_AARCH64); [|done]. cbn [negb].
  destruct (_ && _); [done|]. destruct (_ =? PHDR_SIZE); [|done]. cbn [negb].
  destruct (Z.ltb_spec size (e_phoff (read_ehdr buffer m))); [done|]. unfold is_u64, PHDR_SIZE in *.
  rewrite (u64_small (size - _)), u64_small by (unfold is_u64; lia).
  destruct (Z.ltb_spec (size - e_phoff (read_ehdr buffer m)) (e_phnum (read_ehdr buffer m) * 56)); [done|]. intros _. split_and!; try done. lia.
Qed.

Lemma phdr_at_ext buffer size i m m' :
  0 <= size < 2 ^ 64 -> validate_header buffer size m = ELF_OK -> same_bytes buffer size m m' ->
  0 <= i < e_phnum (read_ehdr buffer m) -> phdr_at buffer i m' = phdr_at buffer i m.
Proof.
  intros Hsz Hv Hs Hi. destruct (validate_header_ok _ _ _ Hsz Hv) as (H1 & H2 & _). pose proof (ehdr_ranges buffer m) as ([? _] & _ & _). unfold phdr_at.
  rewrite (read_ehdr_ext _ m) by (eapply same_bytes_sub; [done|lia..]). apply read_phdr_ext. unfold PHDR_SIZE in *. eapply same_bytes_sub; [done|lia..].
Qed.

Lemma validate_header_ext buffer size m m' : same_bytes buffer size m m' -> validate_header buffer size m' = validate_header buffer size m.
Proof.
  intros Hs. unfold validate_header. destruct (Z.ltb_spec size EHDR_SIZE); [done|].
  by rewrite (read_ehdr_ext _ m) by (eapply same_bytes_sub; [done|lia..]).
Qed.

(** ** The loadable segments *)

(** The PT_LOAD headers from [i], [n] headers to go. *)
Fixpoint pt_loads (n : nat) (buffer i : Z) (m : bytes) : list Elf64_Phdr :=
  match n with
  | O => []
  | S n =>
      let ph := phdr_at buffer i m in
      if p_type ph =? PT_LOAD then ph :: pt_loads n buffer (i + 1) m else pt_loads n buffer (i + 1) m
  end.

Definition image_loads (buffer : Z) (m : bytes) : list Elf64_Phdr := pt_loads (Z.to_nat (e_phnum (read_ehdr buffer m))) buffer 0 m.

(** A segment whose file bytes lie in an image of [size] bytes and whose addresses do not wrap. *)
Definition seg_ok (size : Z) (ph : Elf64_Phdr) : Prop := p_offset ph + p_filesz ph <= size /\ p_vaddr ph + p_memsz ph < 2 ^ 64.

Lemma pt_loads_ext n buffer i m m' :
  (forall j, i <= j < i + Z.of_nat n -> phdr_at buffer j m' = phdr_at buffer j m) -> pt_loads n buffer i m' = pt_loads n buffer i m.
Proof.
  revert i. induction n as [|n IH]; intros i He; cbn [pt_loads]; [done|]. rewrite (He i) by lia. rewrite (IH (i + 1)); [done|]. intros j Hj. apply He. lia.
Qed.

Lemma image_loads_ext buffer size m m' :
  0 <= size < 2 ^ 64 -> validate_header buffer size m = ELF_OK -> same_bytes buffer size m m' -> image_loads buffer m' = image_loads buffer m.
Proof.
  intros Hsz Hv Hs. pose proof (validate_header_ok _ _ _ Hsz Hv) as (H1 & _). unfold image_loads.
  rewrite (read_ehdr_ext _ m) by (eapply same_bytes_sub; [done|lia..]). apply pt_loads_ext. intros j Hj. eapply (phdr_at_ext _ size); try done. lia.
Qed.

Lemma scan_spec n buffer size i mn mx c m :
  0 <= size < 2 ^ 64 ->
  let L := pt_loads n buffer i m in
  (exists e, scan_segments n buffer size i mn mx c m = inl e /\ e <> ELF_OK /\ ~ (Forall (seg_ok size) L /\ (c + length L <= 8)%nat)) \/
  scan_segments n buffer size i mn mx c m =
    inr (foldl (fun a ph => Z.min (p_vaddr ph) a) mn L, foldl (fun a ph => Z.max (p_vaddr ph + p_memsz ph) a) mx L, c + length L)%nat /\
  Forall (seg_ok size) L /\ ((c <= 8)%nat -> (c + length L <= 8)%nat).
Proof.
  intros Hs. revert i mn mx c. induction n as [|n IH]; intros i mn mx c; cbn [pt_loads scan_segments].
  { right. cbn. rewrite Nat.add_0_r. split_and!; [done|constructor|lia]. }
  pose proof (phdr_ranges buffer i m) as (R1 & R2 & R3 & R4 & _). set (ph := phdr_at buffer i m) in *. cbn zeta.
  destruct (p_type ph =? PT_LOAD); cbn [negb]; [|apply IH]. unfold is_u64 in *.
  destruct (Nat.ltb_spec ELF_MAX_SEGMENTS (S c)) as [Hc|Hc]; unfold ELF_MAX_SEGMENTS in Hc.
  { left. eexists. split; [done|]. split; [done|]. cbn [length]. lia. }
  destruct (Z.ltb_spec size (p_offset ph)) as [Ho|Ho]; cbn [orb].
  { left. eexists. split; [done|]. split; [done|]. intros [HF _]. inversion_clear HF as [|? ? [H1 H2] _]. lia. }
  rewrite (u64_small (size - _)) by (unfold is_u64; lia).
  destruct (Z.ltb_spec (size - p_offset ph) (p_filesz ph)) as [Hf|Hf].
  { left. eexists. split; [done|]. split; [done|]. intros [HF _]. inversion_clear HF as [|? ? [H1 H2] _]. lia. }
  unfold UINT64_MAX. rewrite (u64_small (_ - p_vaddr ph)) by (unfold is_u64; lia).
  destruct (Z.ltb_spec (2 ^ 64 - 1 - p_vaddr ph) (p_memsz ph)) as [Hm|Hm].
  { left. eexists. split; [done|]. split; [done|]. intros [HF _]. inversion_clear HF as [|? ? [H1 H2] _]. lia. }
  rewrite u64_small by (unfold is_u64; lia).
  destruct (IH (i + 1) (Z.min (p_vaddr ph) mn) (Z.max (p_vaddr ph + p_memsz ph) mx) (S c)) as [(e & -> & He & Hn)|(-> & HF & Hl)]; [left|right]; cbn [length foldl].
  - exists e. split_and!; try done. intros [HF Hl]. apply Hn. inversion_clear HF. split; [done|lia].
  - split_and!; [do 2 f_equal; lia|constructor; [split; lia|done]|lia].
Qed.

(** ** Ownership *)

(** The pages of a placed segment, as an allocation. *)
Definition seg_block (s : elf_segment) : Z * Z := (Elf.data s, seg_pages (Elf.size s)).

Definition info_blocks (info : elf_info) : list (Z * Z) := seg_block <$> take (num_segments info) (segments info).

(** Beside the allocations [H], the loader holds [B], and nothing else has changed
    hands since [h0]. *)
Record holds (total : Z) (H : list (Z * Z)) (h0 h : pmm) (B : list (Z * Z)) : Prop := {
  ho_session : session_ok total (Session h (H ++ B));
  ho_free : forall x, is_free h0 x <-> is_free h x \/ exists b, b ∈ B /\ in_block b.1 (order_for b.2) x
}.

Lemma holds_start total H h : session_ok total (Session h H) -> holds total H h h [].
Proof. intros Hs. split; [by rewrite app_nil_r|]. intros x. split; [by left|]. intros [?|(b & Hb & _)]; [done|]. by apply not_elem_of_nil in Hb. Qed.

(** Releasing the first block the loader holds. *)
Lemma holds_free total H h0 h p n B :
  holds total H h0 h ((p, n) :: B) -> p <> 0 /\ exists h', pmm_free_pages p n h = Some h' /\ holds total H h0 h' B.
Proof.
  intros [Hs Hf]. destruct (ss_held _ _ Hs p n) as (Hn & Ho & Hal); [cbn; set_solver|]. cbn [PmmSpec.st] in Hal.
  destruct (free_pages_spec p n h (ss_inv _ _ Hs) Hn Ho Hal) as (h' & E & Hinv & Hrel).
  assert (Hl : PmmSpec.held (Session h (H ++ (p, n) :: B)) !! length H = Some (p, n)) by (cbn; by apply list_lookup_middle).
  split.
  - destruct (inv_binv _ (ss_inv _ _ Hs)) as [L Hi]. pose proof (g_pos _ (b_geom _ _ _ Hi)). destruct Hal as (_ & ? & _). cbn [PmmSpec.st] in *. lia.
  - exists h'. split; [done|]. pose proof (free_ok _ _ _ _ _ _ Hs Hl Hinv Hrel) as Hs'. cbn [PmmSpec.held] in Hs'. rewrite delete_middle in Hs'.
    split; [done|]. intros x. destruct Hrel as [Hr _]. cbn [PmmSpec.st] in Hr. rewrite Hf, Hr. split.
    + intros [?|(b & [->|Hb]%elem_of_cons & Hx)]; [by left; left|by left; right|right; eauto].
    + intros [[?|Hx]|(b & Hb & Hx)]; [by left|right; exists (p, n); split; [by left|done]|right; exists b; split; [by right|done]].
Qed.

Lemma unload_from_spec total H h0 n i segs h :
  (i + n <= length segs)%nat -> holds total H h0 h (seg_block <$> take n (drop i segs)) ->
  exists segs' h', unload_from n i segs h = Some (segs', h') /\ holds total H h0 h' [] /\ length segs' = length segs.
Proof.
  revert i segs h. induction n as [|n IH]; intros i segs h Hl Hh; cbn [unload_from]; [by exists segs, h|].
  destruct (lookup_lt_is_Some_2 segs i ltac:(lia)) as [seg Hseg]. rewrite Hseg. cbn [mbind option_bind].
  rewrite (drop_S _ _ _ Hseg) in Hh. cbn [take fmap list_fmap] in Hh. destruct (holds_free _ _ _ _ _ _ _ Hh) as (Hp & h' & E & Hh').
  rewrite (proj2 (Z.eqb_neq _ _) Hp), E. cbn [mbind option_bind].
  destruct (IH (S i) (<[i := set_data 0 seg]> segs) h') as (segs' & h2 & -> & Hh2 & Hl2); [rewrite length_insert; lia|by rewrite drop_insert_lt by lia|].
  exists segs', h2. by rewrite length_insert in Hl2.
Qed.

Lemma elf_unload_spec total H h0 info k :
  (num_segments info <= length (segments info))%nat -> holds total H h0 (heap k) (info_blocks info) ->
  exists info' k', elf_unload info k = Some (info', k') /\ holds total H h0 (heap k') [] /\ ram k' = ram k /\ num_segments info' = 0%nat.
Proof.
  intros Hl Hh. unfold elf_unload. destruct (unload_from_spec total H h0 (num_segments info) 0 (segments info) (heap k)) as (segs' & h' & -> & Hh' & _).
  { lia. } { by rewrite drop_0. } cbn [mbind option_bind]. eexists _, _. split; [done|]. done.
Qed.

(** A new block. *)
Lemma holds_alloc total H h0 h B n :
  holds total H h0 h B -> 0 < n <= 2 ^ 63 ->
  exists p h', pmm_alloc_pages n h = Some (p, h') /\
    (p = 0 /\ h' = h /\ ((MAX_ORDER < order_for n)%nat \/ exhausted h (order_for n)) \/
     p <> 0 /\ holds total H h0 h' (B ++ [(p, n)]) /\ (forall x, in_block p (order_for n) x -> is_free h0 x /\ is_free h x /\ forall b, b ∈ B -> ~ in_block b.1 (order_for b.2) x)).
Proof.
  intros [Hs Hf] Hn. destruct (alloc_pages_spec n h (ss_inv _ _ Hs) Hn) as (p & h' & -> & Hinv & [(Hp & Ho & Hal)|(-> & -> & Hwhy)]); exists p, h' || exists 0, h; (split; [done|]).
  2:{ by left. }
  right. split; [done|]. pose proof (keep_ok _ _ _ _ _ Hs Hn Ho Hinv Hal) as Hs'. cbn [PmmSpec.held] in Hs'. rewrite <- app_assoc in Hs'.
  pose proof Hal as (_ & _ & _ & Hfr & Hf' & _). cbn [PmmSpec.st] in *. split; [split; [done|]|].
  - intros x. rewrite Hf, Hf'. setoid_rewrite elem_of_app. setoid_rewrite list_elem_of_singleton. split.
    + intros [Hx|(b & Hb & Hx)]; [|right; eauto]. destruct (decide (in_block p (order_for n) x)); [right; exists (p, n); auto|by left].
    + intros [[? _]|(b & [Hb| ->] & Hx)]; [by left|right; eauto|left; by apply Hfr].
  - intros x Hx. split_and!; [apply Hf; left|..]; auto. intros b Hb Hxb. destruct b as [q c].
    destruct (ss_held _ _ Hs q c) as (_ & _ & _ & _ & _ & Hnf); [cbn; set_solver|]. apply (Hnf x Hxb). by apply Hfr.
Qed.


(** ** Placing segments *)

Lemma seg_pages_eq sz : 0 <= sz <= UINT64_MAX - PAGE_SIZE -> seg_pages sz = (sz + 4095) / 4096 /\ sz <= seg_pages sz * 4096 < 2 ^ 64 /\ 0 <= seg_pages sz <= 2 ^ 52.
Proof.
  unfold UINT64_MAX, seg_pages, PAGE_SIZE. intros Hs. rewrite (u64_small (sz + 4096)), u64_small by (unfold is_u64; lia).
  replace (sz + 4096 - 1) with (sz + 4095) by lia. split; [done|]. pose proof (Z.div_mod (sz + 4095) 4096 ltac:(lia)). pose proof (Z.mod_pos_bound (sz + 4095) 4096 ltac:(lia)). lia.
Qed.

Lemma elf_block_pages n : 0 < n -> n * 4096 <= bsize (order_for n).
Proof. intros Hn. pose proof (order_for_pow2 n Hn). rewrite bsize_pages. unfold PAGE_SIZE. lia. Qed.

Lemma Forall2_impl_in {A B} (P Q : A -> B -> Prop) l k : Forall2 P l k -> (forall x y, x ∈ l -> P x y -> Q x y) -> Forall2 Q l k.
Proof. induction 1 as [|x y l k Hp Hl IH]; intros Hq; constructor; [apply Hq; [by left|done]|]. apply IH. intros x' y' Hx. apply Hq. by right. Qed.

Section load.
Context (total : Z) (H : list (Z * Z)) (h0 : pmm) (m0 : bytes) (buffer len : Z).

(** The image lies in memory the allocator does not own as free. *)
Record image_ok : Prop := {
  im_len : 0 <= len < 2 ^ 64;
  im_held : forall x, buffer <= x < buffer + len -> ~ is_free h0 x
}.

(** [seg] holds the file bytes of [ph], then zeros to the end of its pages. *)
Definition placed (m : bytes) (seg : elf_segment) (ph : Elf64_Phdr) : Prop :=
  vaddr seg = p_vaddr ph /\ Elf.size seg = p_memsz ph /\ Elf.flags seg = p_flags ph /\
  forall o, 0 <= o < seg_pages (p_memsz ph) * PAGE_SIZE ->
    m (Elf.data seg + o) = if decide (o < p_filesz ph) then m0 (buffer + p_offset ph + o) else 0.

(** Why a valid segment is not placed: it is empty or too large, or no block is left
    for it beside the blocks of the segments [ds] before it. *)
Definition refused (ds : list Elf64_Phdr) (ph : Elf64_Phdr) : Prop :=
  p_memsz ph = 0 \/ UINT64_MAX - PAGE_SIZE < p_memsz ph \/ (MAX_ORDER < order_for (seg_pages (p_memsz ph)))%nat \/
  exists h B, holds total H h0 h B /\ B.*2 = (fun d => seg_pages (p_memsz d)) <$> ds /\ exhausted h (order_for (seg_pages (p_memsz ph))).

(** One of the segments [R] that follow [ds] is refused. *)
Definition some_refused (ds R : list Elf64_Phdr) : Prop :=
  exists pre ph post, R = pre ++ ph :: post /\ refused (ds ++ pre) ph.

(** The segments [ds] have been placed. *)
Record loading (info : elf_info) (k : kmem) (ds : list Elf64_Phdr) : Prop := {
  ld_hold : holds total H h0 (heap k) (info_blocks info);
  ld_len : length (segments info) = ELF_MAX_SEGMENTS;
  ld_num : num_segments info = length ds;
  ld_ram : forall x, ~ is_free h0 x -> ram k x = m0 x;
  ld_placed : Forall2 (placed (ram k)) (take (num_segments info) (segments info)) ds
}.

(** What a failed load leaves. *)
Definition unloaded (info : elf_info) (k : kmem) : Prop :=
  holds total H h0 (heap k) [] /\ (forall x, ~ is_free h0 x -> ram k x = m0 x) /\ num_segments info = 0%nat.

(** The bytes a segment is given. *)
Definition segment_bytes (p : Z) (ph : Elf64_Phdr) (m : bytes) : bytes :=
  KString.memcpy p (buffer + p_offset ph) (Z.to_nat (p_filesz ph)) (KString.memset p 0 (Z.to_nat (u64 (seg_pages (p_memsz ph) * PAGE_SIZE))) m).

Lemma segment_bytes_spec p ph m x :
  image_ok -> seg_ok len ph -> 0 <= p_offset ph -> 0 <= p_filesz ph <= p_memsz ph -> 0 < p_memsz ph <= UINT64_MAX - PAGE_SIZE ->
  (forall y, ~ is_free h0 y -> m y = m0 y) -> (forall y, in_block p (order_for (seg_pages (p_memsz ph))) y -> is_free h0 y) ->
  segment_bytes p ph m x =
    if decide (p <= x < p + p_filesz ph) then m0 (buffer + p_offset ph + (x - p))
    else if decide (p <= x < p + seg_pages (p_memsz ph) * PAGE_SIZE) then 0 else m x.
Proof.
  intros [_ Him] [Hok _] Ho Hfs Hms Hm Hfr. destruct (seg_pages_eq (p_memsz ph) ltac:(lia)) as (_ & Hle & Hpg). unfold PAGE_SIZE in *.
  pose proof (elf_block_pages (seg_pages (p_memsz ph)) ltac:(lia)) as Hb. unfold in_block in Hfr. unfold segment_bytes, PAGE_SIZE.
  rewrite u64_small by (unfold is_u64; lia). rewrite KString.memcpy_forward.
  2:{ destruct (decide (p_filesz ph = 0)); [lia|]. destruct (decide (p <= buffer + p_offset ph)); [by left|]. right. rewrite Z2Nat.id by lia.
      destruct (decide (buffer + p_offset ph + p_filesz ph <= p)); [done|]. exfalso. apply (Him p); [lia|]. apply Hfr. lia. }
  unfold KString.moved. rewrite !KString.memset_spec, !Z2Nat.id by lia. case_decide; [|done].
  rewrite decide_False; [apply Hm, Him; lia|]. intros Hin. apply (Him (buffer + p_offset ph + (x - p))); [lia|]. apply Hfr. lia.
Qed.

Lemma placed_ext m m' seg ph :
  placed m seg ph -> (forall x, in_block (Elf.data seg) (order_for (seg_pages (Elf.size seg))) x -> m' x = m x) -> placed m' seg ph.
Proof.
  intros (E1 & E2 & E3 & Hp) Hm. split_and!; try done. intros o Ho. rewrite <- Hp by done. apply Hm. rewrite E2. unfold PAGE_SIZE, in_block in *.
  pose proof (elf_block_pages (seg_pages (p_memsz ph)) ltac:(lia)). lia.
Qed.

Lemma placed_sizes m segs ds : Forall2 (placed m) segs ds -> (seg_block <$> segs).*2 = (fun d => seg_pages (p_memsz d)) <$> ds.
Proof. induction 1 as [|sg d segs ds (_ & E & _) _ IH]; [done|]. cbn. by rewrite E, <- IH. Qed.

Lemma load_one_spec info k ds ph :
  image_ok -> loading info k ds -> seg_ok len ph -> 0 <= p_offset ph -> 0 <= p_filesz ph <= p_memsz ph -> (length ds < ELF_MAX_SEGMENTS)%nat ->
  exists err info' k', load_one buffer ph info k = Some (err, info', k') /\
    (err = None /\ loading info' k' (ds ++ [ph]) /\ load_base info' = load_base info /\ load_size info' = load_size info \/
     exists e, err = Some e /\ e <> ELF_OK /\ unloaded info' k' /\ refused ds ph).
Proof.
  intros Him [L1 L2 L3 L4 L5] Hok Ho Hfs Hn. unfold load_one.
  assert (Hun : forall e, e <> ELF_OK -> refused ds ph -> exists err info' k', ('(i, k) ← elf_unload info k; Some (Some e, i, k)) = Some (err, info', k') /\
    exists e, err = Some e /\ e <> ELF_OK /\ unloaded info' k' /\ refused ds ph).
  { intros e He Hr. destruct (elf_unload_spec _ _ _ info k ltac:(lia) L1) as (i' & k' & -> & Hh & Hm & Hz). eexists _, _, _. split; [done|].
    exists e. split_and!; try done. split; [done|]. split; [intros x Hx; rewrite Hm; auto|done]. }
  destruct (Z.ltb_spec (UINT64_MAX - PAGE_SIZE) (p_memsz ph)) as [Hbig|Hsmall].
  { destruct (Hun ELF_ERR_TRUNCATED) as (err & i' & k' & E & Hr); [done|by right; left|]. exists err, i', k'. split; [done|by right]. }
  destruct (decide (p_memsz ph = 0)) as [Hz|Hnz].
  { rewrite Hz. change (seg_pages 0) with 0. unfold pmm_alloc_pages at 1. rewrite Z.eqb_refl. destruct (negb _); cbn [mbind option_bind Z.eqb];
    (destruct (Hun ELF_ERR_NOMEM) as (err & i' & k' & E & Hr); [done|by left|]; exists err, i', k'; split; [by destruct k|by right]). }
  destruct (seg_pages_eq (p_memsz ph) ltac:(lia)) as (_ & Hle & Hpg).
  destruct (holds_alloc _ _ _ _ _ (seg_pages (p_memsz ph)) L1 ltac:(lia)) as (p & h' & -> & [(-> & -> & Hwhy)|(Hp & Hh & Hfr)]); cbn [mbind option_bind].
  { cbn [Z.eqb]. destruct (Hun ELF_ERR_NOMEM) as (err & i' & k' & E & Hr); [done| |exists err, i', k'; split; [by destruct k|by right]].
    right. right. destruct Hwhy as [?|?]; [by left|right]. exists (heap k), (info_blocks info). split; [done|]. split; [by apply placed_sizes with (m := ram k)|done]. }
  rewrite (proj2 (Z.eqb_neq p 0)) by done. rewrite L2, L3, (proj2 (Nat.ltb_lt _ _)) by done. fold (segment_bytes p ph (ram k)).
  eexists _, _, _. split; [done|]. left. split; [done|]. split; [|done].
  pose proof (fun x => segment_bytes_spec p ph (ram k) x Him Hok Ho Hfs ltac:(lia) L4 (fun y Hy => proj1 (Hfr y Hy))) as Hsb.
  pose proof (elf_block_pages (seg_pages (p_memsz ph)) ltac:(lia)) as Hbp.
  assert (Hout : forall x, ~ in_block p (order_for (seg_pages (p_memsz ph))) x -> segment_bytes p ph (ram k) x = ram k x).
  { intros x Hx. unfold in_block in Hx. rewrite Hsb. unfold PAGE_SIZE. by rewrite !decide_False by lia. }
  set (sg := Segment (p_vaddr ph) (p_memsz ph) (p_flags ph) p).
  assert (Htk : take (S (length ds)) (<[length ds := sg]> (segments info)) = take (num_segments info) (segments info) ++ [sg]).
  { rewrite L3, (take_S_r _ _ sg) by (apply list_lookup_insert_eq; lia). by rewrite take_insert_ge by lia. }
  split; cbn [heap ram segments num_segments].
  - unfold info_blocks. cbn [num_segments segments]. rewrite Htk, fmap_app. exact Hh.
  - by rewrite length_insert.
  - rewrite length_app. cbn. lia.
  - intros x Hx. rewrite Hout; [by apply L4|]. intros Hxb. by apply Hx, Hfr.
  - rewrite Htk. apply Forall2_app; [|constructor; [|constructor]].
    + eapply Forall2_impl_in; [exact L5|]. intros sg' ph' Hin Hpl. eapply placed_ext; [exact Hpl|]. intros x Hx. apply Hout. intros Hxp.
      apply (proj2 (proj2 (Hfr x Hxp)) (seg_block sg')); [by apply list_elem_of_fmap_2|done].
    + split_and!; try done. intros o Hr. rewrite Hsb. cbn [Elf.data sg]. destruct (decide (o < p_filesz ph)).
      * rewrite decide_True by lia. f_equal. lia.
      * by rewrite decide_False, decide_True by lia.
Qed.

Lemma loading_image info k ds : image_ok -> loading info k ds -> same_bytes buffer len m0 (ram k).
Proof. intros Him Hl x Hx. apply (ld_ram _ _ _ Hl), (im_held Him), Hx. Qed.

Lemma load_segments_spec n i info k ds :
  image_ok -> validate_header buffer len m0 = ELF_OK -> 0 <= i -> i + Z.of_nat n <= e_phnum (read_ehdr buffer m0) -> loading info k ds ->
  let R := pt_loads n buffer i m0 in
  Forall (seg_ok len) R -> Forall (fun ph => p_filesz ph <= p_memsz ph) R -> (length ds + length R <= ELF_MAX_SEGMENTS)%nat ->
  exists err info' k', load_segments n buffer i info k = Some (err, info', k') /\
    (err = None /\ loading info' k' (ds ++ R) /\ load_base info' = load_base info /\ load_size info' = load_size info \/
     exists e, err = Some e /\ e <> ELF_OK /\ unloaded info' k' /\ some_refused ds R).
Proof.
  intros Him Hv. revert i info k ds. induction n as [|n IH]; intros i info k ds Hi Hn Hld; cbn [pt_loads load_segments].
  { intros _ _ _. exists None, info, k. split; [done|]. left. by rewrite app_nil_r. }
  rewrite (phdr_at_ext buffer len i m0 (ram k) (im_len Him) Hv (loading_image _ _ _ Him Hld) ltac:(lia)).
  pose proof (phdr_ranges buffer i m0) as ([R1 _] & _ & [R3 _] & _). set (ph := phdr_at buffer i m0) in *. cbn zeta.
  destruct (p_type ph =? PT_LOAD); cbn [negb]; [|apply IH; (done || lia)]. cbn [length].
  intros [Hok HR1]%Forall_cons [Hfs HR2]%Forall_cons Hlen.
  destruct (load_one_spec info k ds ph Him Hld Hok R1 ltac:(lia) ltac:(lia)) as (err & info1 & k1 & -> & [(-> & Hld1 & Eb & Es)|(e & -> & He & Hu & Hr)]); cbn [mbind option_bind].
  - destruct (IH (i + 1) info1 k1 (ds ++ [ph])) as (err & info2 & k2 & -> & Hres); try done; try lia; [rewrite length_app; cbn; lia|].
    exists err, info2, k2. split; [done|]. rewrite <- app_assoc in Hres. destruct Hres as [(-> & Hl2 & Eb2 & Es2)|(e & -> & He & Hu & Hr)]; [left|right].
    + split_and!; try done; congruence.
    + exists e. split_and!; try done. destruct Hr as (pre & ph' & post & -> & Hr). exists (ph :: pre), ph', post. split; [done|]. by rewrite <- app_assoc in Hr.
  - eexists _, _, _. split; [done|]. right. exists e. split_and!; try done. exists [], ph, (pt_loads n buffer (i + 1) m0). by rewrite app_nil_r.
Qed.

(** An image the first pass accepts. *)
Record loadable : Prop := {
  lo_header : validate_header buffer len m0 = ELF_OK;
  lo_some : image_loads buffer m0 <> [];
  lo_segs : Forall (seg_ok len) (image_loads buffer m0);
  lo_count : (length (image_loads buffer m0) <= ELF_MAX_SEGMENTS)%nat
}.

(** The span [load_base], [load_size] covers every segment. *)
Definition spans (info : elf_info) : Prop :=
  forall ph, ph ∈ image_loads buffer m0 -> load_base info <= p_vaddr ph /\ p_vaddr ph + p_memsz ph <= load_base info + load_size info.

End load.

Lemma foldl_min_le L a : foldl (fun a ph => Z.min (p_vaddr ph) a) a L <= a /\ forall ph, ph ∈ L -> foldl (fun a ph => Z.min (p_vaddr ph) a) a L <= p_vaddr ph.
Proof.
  revert a. induction L as [|ph L IH]; intros a; cbn [foldl]; [split; [done|]; intros ? []%not_elem_of_nil|].
  destruct (IH (Z.min (p_vaddr ph) a)) as [H1 H2]. split; [lia|]. intros ph' [->|Hin]%elem_of_cons; [lia|auto].
Qed.

Lemma foldl_max_ge L a : a <= foldl (fun a ph => Z.max (p_vaddr ph + p_memsz ph) a) a L /\
  forall ph, ph ∈ L -> p_vaddr ph + p_memsz ph <= foldl (fun a ph => Z.max (p_vaddr ph + p_memsz ph) a) a L.
Proof.
  revert a. induction L as [|ph L IH]; intros a; cbn [foldl]; [split; [done|]; intros ? []%not_elem_of_nil|].
  destruct (IH (Z.max (p_vaddr ph + p_memsz ph) a)) as [H1 H2]. split; [lia|]. intros ph' [->|Hin]%elem_of_cons; [lia|auto].
Qed.

Lemma foldl_bounds L a b :
  0 <= a -> b < 2 ^ 64 -> Forall (fun ph => 0 <= p_vaddr ph /\ p_vaddr ph + p_memsz ph < 2 ^ 64) L ->
  0 <= foldl (fun a ph => Z.min (p_vaddr ph) a) a L /\ foldl (fun a ph => Z.max (p_vaddr ph + p_memsz ph) a) b L < 2 ^ 64.
Proof. intros Ha Hb HL. revert a b Ha Hb. induction HL as [|ph L Hp HL IH]; intros a b Ha Hb; cbn [foldl]; [done|]. apply IH; lia. Qed.

Lemma pt_loads_ranges n buffer i m : Forall (fun ph => 0 <= p_vaddr ph /\ 0 <= p_memsz ph) (pt_loads n buffer i m).
Proof.
  revert i. induction n as [|n IH]; intros i; cbn [pt_loads]; [constructor|]. destruct (_ =? _); [|done]. constructor; [|done].
  pose proof (phdr_ranges buffer i m) as (_ & [? _] & _ & [? _] & _). done.
Qed.

(** The span the first pass computes. *)
Lemma scan_spans buffer len m L e n s :
  L = image_loads buffer m -> Forall (seg_ok len) L ->
  spans m buffer (Info e (foldl (fun a ph => Z.min (p_vaddr ph) a) UINT64_MAX L)
    (foldl (fun a ph => Z.max (p_vaddr ph + p_memsz ph) a) 0 L -64 foldl (fun a ph => Z.min (p_vaddr ph) a) UINT64_MAX L) n s).
Proof.
  intros HL Hok. unfold spans. rewrite <- HL. cbn [load_base load_size].
  pose proof (pt_loads_ranges (Z.to_nat (e_phnum (read_ehdr buffer m))) buffer 0 m) as Hr. fold (image_loads buffer m) in Hr. rewrite <- HL in Hr.
  destruct (foldl_min_le L UINT64_MAX) as [_ Hmin]. destruct (foldl_max_ge L 0) as [_ Hmax].
  destruct (foldl_bounds L UINT64_MAX 0) as [B1 B2]; [done|done| |].
  { apply Forall_forall. intros ph Hin. rewrite Forall_forall in Hok, Hr. split; [by apply Hr|by apply Hok]. }
  intros ph Hin. specialize (Hmin ph Hin). specialize (Hmax ph Hin). rewrite Forall_forall in Hr. destruct (Hr ph Hin).
  rewrite u64_small by (unfold is_u64; lia). lia.
Qed.

(** ** The loader *)

(** C14. [elf_load] of any image whose segments do not claim more file bytes than
    memory returns, never indexes past [info->segments], and leaves every byte that
    was not free as it was.  It fails only when the header or a PT_LOAD segment is
    invalid, or a segment is empty, too large or without a block left for it; the
    free pages are then those it started with.  On success the segments lie in
    blocks of their own, disjoint from every allocation in the system, each with its
    file bytes followed by zeros, the span covers them, and [elf_unload] gives every
    page back. *)
Theorem elf_load_correct (total buffer len : Z) (H : list (Z * Z)) (info : elf_info) (h : pmm) (m : bytes) :
  session_ok total (Session h H) -> image_ok h buffer len ->
  Forall (fun ph => p_filesz ph <= p_memsz ph) (image_loads buffer m) -> length (segments info) = ELF_MAX_SEGMENTS ->
  exists rc info' k', elf_load buffer len info (KMem h m) = Some (rc, info', k') /\
    (rc <> ELF_OK /\ unloaded total H h m info' k' /\ (~ loadable m buffer len \/ some_refused total H h [] (image_loads buffer m)) \/
     rc = ELF_OK /\ loadable m buffer len /\ loading total H h m buffer info' k' (image_loads buffer m) /\
     spans m buffer info' /\ entry info' = e_entry (read_ehdr buffer m) /\
     exists info2 k2, elf_unload info' k' = Some (info2, k2) /\ unloaded total H h m info2 k2).
Proof.
  intros Hs Him Hfit Hlen. unfold elf_load. cbn [ram]. pose proof (holds_start _ _ _ Hs) as Hh. set (i0 := Info 0 0 0 0 _).
  assert (Hun : forall i, num_segments i = 0%nat -> unloaded total H h m i (KMem h m)) by (intros i Hi; by split_and!).
  destruct (Z.eqb_spec (validate_header buffer len m) ELF_OK) as [Hv|Hv]; cbn [negb].
  2:{ eexists _, _, _. split; [done|]. left. split; [done|]. split; [by apply Hun|]. left. intros [? _ _ _]. done. }
  pose proof (ehdr_ranges buffer m) as (_ & _ & Hnum).
  destruct (scan_spec (Z.to_nat (e_phnum (read_ehdr buffer m))) buffer len 0 UINT64_MAX 0 0 m (im_len _ _ _ Him)) as [(e & -> & He & Hbad)|(-> & Hok & Hc)];
    fold (image_loads buffer m) in *; set (L := image_loads buffer m) in *.
  { eexists _, _, _. split; [done|]. left. split; [done|]. split; [by apply Hun|]. left. intros [_ _ ? ?]. apply Hbad. done. }
  destruct (Nat.eqb_spec (0 + length L) 0) as [Hz|Hz].
  { eexists _, _, _. split; [done|]. left. split; [done|]. split; [by apply Hun|]. left. intros [_ Hne _ _]. apply Hne, length_zero_iff_nil. done. }
  set (i1 := Info 0 _ _ 0 _).
  assert (Hl0 : loading total H h m buffer i1 (KMem h m) []).
  { split; try done. cbn. by rewrite length_fmap. }
  assert (Hlo : loadable m buffer len) by (split; try done; [intros E; fold L in E; rewrite E in Hz; done|apply Hc; lia]).
  destruct (load_segments_spec total H h m buffer len (Z.to_nat (e_phnum (read_ehdr buffer m))) 0 i1 (KMem h m) [] Him Hv) as (err & i2 & k2 & -> & Hres); try done; try lia; [apply Hc; lia|].
  cbn [mbind option_bind app length] in *. fold (image_loads buffer m) in Hres. fold L in Hres. destruct Hres as [(-> & Hld & Eb & Es)|(e & -> & He & Hu & Hr)].
  2:{ eexists _, _, _. split; [done|]. left. split; [done|]. split; [done|by right]. }
  eexists _, _, _. split; [done|]. right. split; [done|]. split; [done|]. set (i3 := Info _ _ _ _ _).
  assert (Hld3 : loading total H h m buffer i3 k2 L) by (destruct Hld; by split).
  split; [done|]. split; [|split].
  - unfold i3. rewrite Eb, Es. by eapply scan_spans.
  - cbn [entry i3]. rewrite (read_ehdr_ext _ m); [done|]. eapply same_bytes_sub; [by eapply loading_image|lia|].
    destruct (validate_header_ok _ _ _ (im_len _ _ _ Him) Hv) as [? _]. lia.
  - destruct (elf_unload_spec _ _ _ i3 k2 ltac:(rewrite (ld_len _ _ _ _ _ _ _ _ Hld3), (ld_num _ _ _ _ _ _ _ _ Hld3); apply Hlo) (ld_hold _ _ _ _ _ _ _ _ Hld3)) as (i4 & k4 & E & Hh4 & Hm4 & Hz4).
    exists i4, k4. split; [done|]. split; [done|]. split; [|done]. rewrite Hm4. apply (ld_ram _ _ _ _ _ _ _ _ Hld3).
Qed.

(** ** Concrete images *)

(** An image at [IMG] with one PT_LOAD segment at [va], where it starts; the file
    bytes follow the headers. *)
Definition IMG : Z := 0x10000.

Definition demo_image (va filesz memsz : Z) : bytes :=
  let m := fun x => if (IMG + 120 <=? x) && (x <? IMG + 120 + filesz) then 0xAA else 0 in
  let m := put_le 4 IMG ELF_MAGIC m in
  let m := put_le 2 (IMG + 4) (ELFCLASS64 + 256 * ELFDATA2LSB) m in
  let m := put_le 2 (IMG + 16) ET_EXEC (put_le 2 (IMG + 18) EM_AARCH64 m) in
  let m := put_le 8 (IMG + 24) va (put_le 8 (IMG + 32) 64 m) in
  let m := put_le 2 (IMG + 54) PHDR_SIZE (put_le 2 (IMG + 56) 1 m) in
  let m := put_le 4 (IMG + 64) PT_LOAD (put_le 4 (IMG + 68) (Z.lor PF_R PF_X) m) in
  let m := put_le 8 (IMG + 72) 120 (put_le 8 (IMG + 80) va m) in
  put_le 8 (IMG + 96) filesz (put_le 8 (IMG + 104) memsz m).

Definition no_info : elf_info := Info 0 0 0 0 (replicate ELF_MAX_SEGMENTS (Segment 0 0 0 0)).

Lemma demo_image_ok n : 0 <= n < 2 ^ 20 -> image_ok demo IMG n.
Proof.
  intros Hn. split; [lia|]. intros x Hx [Hf _]. assert (E : heap_start demo = 0x40002000) by (vm_compute; reflexivity). rewrite E in Hf. unfold IMG in Hx. lia.
Qed.

Lemma session_start h : inv h -> session_ok (free_pages h) (Session h []).
Proof. intros Hi. constructor; cbn; [done|..|lia]; [intros ? ? []%not_elem_of_nil|intros ? ? ? ? ? ? ? E; by rewrite lookup_nil in E]. Qed.

(** Witness of C14: a program of five bytes and a page of zeros. *)
Lemma elf_load_correct_witness :
  exists rc info' k', elf_load IMG 125 no_info (KMem demo (demo_image 0x1000 5 5000)) = Some (rc, info', k') /\
    (rc <> ELF_OK /\ unloaded (free_pages demo) [] demo (demo_image 0x1000 5 5000) info' k' /\
       (~ loadable (demo_image 0x1000 5 5000) IMG 125 \/ some_refused (free_pages demo) [] demo [] (image_loads IMG (demo_image 0x1000 5 5000))) \/
     rc = ELF_OK /\ loadable (demo_image 0x1000 5 5000) IMG 125 /\
     loading (free_pages demo) [] demo (demo_image 0x1000 5 5000) IMG info' k' (image_loads IMG (demo_image 0x1000 5 5000)) /\
     spans (demo_image 0x1000 5 5000) IMG info' /\ entry info' = e_entry (read_ehdr IMG (demo_image 0x1000 5 5000)) /\
     exists info2 k2, elf_unload info' k' = Some (info2, k2) /\ unloaded (free_pages demo) [] demo (demo_image 0x1000 5 5000) info2 k2).
Proof.
  refine (elf_load_correct (free_pages demo) IMG 125 [] no_info demo (demo_image 0x1000 5 5000) (session_start demo demo_inv) (demo_image_ok 125 ltac:(lia)) _ eq_refl).
  assert (E : image_loads IMG (demo_image 0x1000 5 5000) = [Phdr 1 5 120 0x1000 5 5000]) by (vm_compute; reflexivity).
  rewrite E. repeat constructor. cbn. lia.
Defined.

(** What a load leaves: the result, the block of the first segment, a byte after it. *)
Definition observe (off : Z) (r : option (Z * elf_info * kmem)) : option (Z * nat * Z * Z * Z) :=
  '(rc, info, k) ← r;
  s ← segments info !! 0%nat;
  Some (rc, num_segments info, (seg_block s).1, (seg_block s).2, ram k ((seg_block s).1 + off)).

(** One accepted segment of one page. *)
Lemma load_one_page buffer ph info h m a :
  seg_pages (p_memsz ph) = 1 -> p_memsz ph <= UINT64_MAX - PAGE_SIZE -> fst <$> pmm_alloc_pages 1 h = Some a -> a <> 0 ->
  num_segments info = 0%nat -> (0 < length (segments info))%nat ->
  exists h', load_one buffer ph info (KMem h m) =
    Some (None, Info (entry info) (load_base info) (load_size info) 1 (<[0%nat := Segment (p_vaddr ph) (p_memsz ph) (p_flags ph) a]> (segments info)),
      KMem h' (segment_bytes buffer a ph m)).
Proof.
  intros E1 Hs Ha Hne Hn Hl. unfold load_one, segment_bytes. rewrite (proj2 (Z.ltb_ge _ _) Hs), E1. cbn [heap ram]. destruct (pmm_alloc_pages 1 h) as [[p h']|]; [|done].
  apply (inj Some) in Ha. cbn in Ha. subst p. cbn [mbind option_bind]. rewrite (proj2 (Z.eqb_neq a 0)) by done. rewrite Hn, (proj2 (Nat.ltb_lt _ _)) by done. by exists h'.
Qed.

(** A load of an image with one segment of one page. *)
Lemma elf_load_one_page buffer len info h m ph a :
  validate_header buffer len m = ELF_OK -> e_phnum (read_ehdr buffer m) = 1 -> phdr_at buffer 0 m = ph -> p_type ph = PT_LOAD ->
  scan_segments 1 buffer len 0 UINT64_MAX 0 0 m = inr (Z.min (p_vaddr ph) UINT64_MAX, Z.max (p_vaddr ph +64 p_memsz ph) 0, 1%nat) ->
  seg_pages (p_memsz ph) = 1 -> p_memsz ph <= UINT64_MAX - PAGE_SIZE -> fst <$> pmm_alloc_pages 1 h = Some a -> a <> 0 -> (0 < length (segments info))%nat ->
  forall off, observe off (elf_load buffer len info (KMem h m)) = Some (ELF_OK, 1%nat, a, 1, segment_bytes buffer a ph m (a + off)).
Proof.
  intros Hv Hn Hph Ht Hsc E1 Hs Ha Hne Hl off. unfold elf_load. cbn [ram]. rewrite Hv, Hn. change (Z.to_nat 1) with 1%nat. rewrite Hsc. cbn [negb Z.eqb ELF_OK Nat.eqb load_segments ram].
  rewrite Hph, Ht, Z.eqb_refl. cbn [negb]. set (i1 := Info 0 _ _ 0 _).
  destruct (load_one_page buffer ph i1 h m a E1 Hs Ha Hne eq_refl) as (h' & ->); [cbn; by rewrite length_fmap|]. cbn [mbind option_bind segments i1].
  unfold observe. cbn [mbind option_bind segments]. rewrite list_lookup_insert_eq by (by rewrite length_fmap). cbn [mbind option_bind seg_block fst snd Elf.data Elf.size ram num_segments].
  by rewrite E1.
Qed.


End ElfSpec.
