(* ===== verification/ElfArgs.v ===== *)
(** The argument stack of a kernel-space ELF task (src/elf.c): strings, the [argv]
    array and the saved [elf_info] at the top of a fresh stack. *)

From S2P Require Import Prelude.
From S2P Require Import KString Task Elf ElfSpec.

Module ElfArgs.
Import Elf ElfSpec.
Open Scope Z_scope.
Open Scope slm_scope.

(** ** Stores of integers *)

Lemma put_le_outside n a v m x : x < a \/ a + Z.of_nat n <= x -> put_le n a v m x = m x.
Proof.
  revert a v m. induction n as [|n IH]; intros a v m Hx; cbn [put_le]; [done|]. rewrite IH by lia. rewrite fn_lookup_insert_Z, decide_False by lia. done.
Qed.

Lemma le_put_le n a v m : le n a (put_le n a v m) = v mod 2 ^ (8 * Z.of_nat n).
Proof.
  revert a v m. induction n as [|n IH]; intros a v m; cbn [put_le le]; [by rewrite Z.mod_1_r|].
  rewrite IH, put_le_outside by lia. rewrite fn_lookup_insert_Z, decide_True by done. unfold u8. rewrite Z.mod_mod by done.
  replace (2 ^ (8 * Z.of_nat (S n))) with (256 * 2 ^ (8 * Z.of_nat n)).
  2:{ change 256 with (2 ^ 8). rewrite <- Z.pow_add_r by lia. f_equal. lia. }
  rewrite Z.rem_mul_r by (try apply Z.pow_pos_nonneg; lia). done.
Qed.

Lemma put_ptrs_outside locs a m x : x < a \/ a + 8 * Z.of_nat (length locs) <= x -> put_ptrs a locs m x = m x.
Proof.
  revert a m. induction locs as [|l locs IH]; intros a m Hx; cbn [put_ptrs]; [done|]. cbn [length] in Hx. rewrite IH by lia. apply put_le_outside. lia.
Qed.

Lemma put_ptrs_read locs a m i p : locs !! i = Some p -> is_u64 p -> le 8 (a + 8 * Z.of_nat i) (put_ptrs a locs m) = p.
Proof.
  revert a m i. induction locs as [|l locs IH]; intros a m i Hi Hp; [done|]. cbn [put_ptrs]. destruct i as [|i].
  - injection Hi as ->. rewrite (le_ext 8 _ (put_le 8 a p m)); [|intros x Hx; apply put_ptrs_outside; lia].
    replace (a + 8 * Z.of_nat 0) with a by lia. rewrite le_put_le. by apply Z.mod_small.
  - cbn in Hi. replace (a + 8 * Z.of_nat (S i)) with (a + 8 + 8 * Z.of_nat i) by lia. by apply IH.
Qed.

(** ** Strings *)

Lemma cstr_move m m' a d l : (forall i, 0 <= i <= Z.of_nat (length l) -> m' (d + i) = m (a + i)) -> KString.cstr m a l -> KString.cstr m' d l.
Proof.
  revert a d. induction l as [|c l IH]; intros a d Hm; cbn [KString.cstr length] in *.
  - specialize (Hm 0 ltac:(lia)). rewrite !Z.add_0_r in Hm. by rewrite Hm.
  - intros (Hc & Hr & Hl). split_and!; try done; try lia.
    + specialize (Hm 0 ltac:(lia)). rewrite !Z.add_0_r in Hm. by rewrite Hm.
    + eapply (IH (a + 1)); [|done]. intros i Hi. specialize (Hm (1 + i) ltac:(lia)). by rewrite !Z.add_assoc in Hm.
Qed.

(** The bytes of strings with their terminators. *)
Definition bytes_of (ls : list (list Z)) : Z := foldr (fun l acc => Z.of_nat (length l) + 1 + acc) 0 ls.

Lemma bytes_of_nonneg ls : 0 <= bytes_of ls.
Proof. unfold bytes_of. induction ls; cbn [foldr]; lia. Qed.

(** [a] points at the string [l], which lies outside [lo, hi). *)
Definition arg_ok (m : bytes) (lo hi a : Z) (l : list Z) : Prop :=
  a <> 0 /\ KString.cstr m a l /\ (length l < STR_FUEL)%nat /\ (a + Z.of_nat (length l) + 1 <= lo \/ hi <= a).

Lemma arg_ok_ext m m' lo hi a l : arg_ok m lo hi a l -> (forall x, x < lo \/ hi <= x -> m' x = m x) -> arg_ok m' lo hi a l.
Proof. intros (H1 & H2 & H3 & H4) Hm. split_and!; try done. eapply cstr_move; [|done]. intros i Hi. apply Hm. lia. Qed.

Lemma arg_ok_shrink m lo hi lo' hi' a l : arg_ok m lo hi a l -> lo <= lo' -> hi' <= hi -> arg_ok m lo' hi' a l.
Proof. intros (H1 & H2 & H3 & H4) ? ?. split_and!; try done. lia. Qed.

Lemma strings_size_spec lo hi argv ls acc m :
  Forall2 (arg_ok m lo hi) argv ls -> 0 <= acc -> acc + bytes_of ls < 2 ^ 64 -> strings_size argv acc m = Some (acc + bytes_of ls).
Proof.
  intros HF. revert acc. induction HF as [|a l argv ls (Ha & Hs & Hl & _) HF IH]; intros acc H0 Hb; cbn [strings_size bytes_of foldr] in *; [f_equal; lia|].
  fold (bytes_of ls) in *. rewrite (KString.strlen_spec _ _ _ _ Hs Hl). cbn [mbind option_bind]. pose proof (bytes_of_nonneg ls).
  rewrite !u64_small by (unfold is_u64; try rewrite u64_small by (unfold is_u64; lia); lia). rewrite IH by lia. f_equal. lia.
Qed.

Lemma copy_strings_spec lo hi argv ls dst room m :
  Forall2 (arg_ok m lo hi) argv ls -> 0 <= lo -> lo <= dst -> bytes_of ls <= room -> dst + room <= hi -> hi < 2 ^ 64 ->
  exists locs m', copy_strings argv dst room m = Some (ELF_OK, locs, m') /\
    (forall x, x < dst \/ dst + bytes_of ls <= x -> m' x = m x) /\
    Forall2 (fun p l => dst <= p /\ p + Z.of_nat (length l) + 1 <= dst + bytes_of ls /\ KString.cstr m' p l) locs ls.
Proof.
  intros HF Hlo. revert ls dst room m HF. induction argv as [|a argv IH]; intros ls dst room m HF Hd Hr Hhi Htop; inversion HF as [|? l ? ls' Ha HF' E1 E2]; subst.
  { exists [], m. split_and!; [done|done|constructor]. }
  destruct Ha as (Ha & Hs & Hl & Hap). cbn [copy_strings bytes_of foldr] in *. fold (bytes_of ls') in *. pose proof (bytes_of_nonneg ls') as Hnn.
  rewrite (proj2 (Z.eqb_neq a 0)), (KString.strlen_spec _ _ _ _ Hs Hl) by done. cbn [mbind option_bind].
  rewrite (u64_small (Z.of_nat (length l) + 1)) by (unfold is_u64; lia). rewrite (proj2 (Z.ltb_ge _ _)) by lia.
  set (need := Z.of_nat (length l) + 1) in *. set (m1 := KString.memcpy dst a (Z.to_nat need) m).
  assert (Hm1 : forall x, m1 x = if decide (dst <= x < dst + need) then m (a + (x - dst)) else m x).
  { intros x. unfold m1. rewrite KString.memcpy_forward by lia. unfold KString.moved. by rewrite Z2Nat.id by lia. }
  rewrite !u64_small by (unfold is_u64; lia).
  destruct (IH ls' (dst + need) (room - need) m1) as (locs & m' & -> & Hout & HL); try lia.
  { eapply Forall2_impl; [exact HF'|]. intros a' l' Hok. eapply arg_ok_ext; [exact Hok|]. intros x Hx. rewrite Hm1, decide_False by lia. done. }
  cbn [mbind option_bind]. exists (dst :: locs), m'. split; [done|]. split.
  - intros x Hx. rewrite Hout, Hm1, decide_False by lia. done.
  - constructor.
    + split_and!; try lia. eapply cstr_move; [|exact Hs]. intros i Hi. rewrite Hout, Hm1, decide_True by lia. f_equal. lia.
    + eapply Forall2_impl; [exact HL|]. intros p l' (H1 & H2 & H3). split_and!; (done || lia).
Qed.

(** ** The layout *)

Lemma align16_spec x : align16 x <= x < align16 x + 16 /\ (16 | align16 x).
Proof.
  unfold align16. change 15 with (Z.ones 4). rewrite Z.ldiff_ones_r, Z.shiftr_div_pow2, Z.shiftl_mul_pow2 by lia. change (2 ^ 4) with 16.
  pose proof (Z.div_mod x 16 ltac:(lia)). pose proof (Z.mod_pos_bound x 16 ltac:(lia)). split; [lia|]. by exists (x / 16).
Qed.

Lemma align16_idem x : align16 (align16 x) = align16 x.
Proof. destruct (align16_spec x) as [? [q ?]]. destruct (align16_spec (align16 x)) as [? [q' ?]]. lia. Qed.

Lemma ldiff7_spec x : 0 <= x -> x <= Z.ldiff (x + 7) 7 < x + 8 /\ (8 | Z.ldiff (x + 7) 7).
Proof.
  intros Hx. assert (E : Z.ldiff (x + 7) 7 = (x + 7) / 8 * 8).
  { change 7 with (Z.ones 3) at 2. by rewrite Z.ldiff_ones_r, Z.shiftr_div_pow2, Z.shiftl_mul_pow2 by lia. }
  rewrite E. pose proof (Z.div_mod (x + 7) 8 ltac:(lia)). pose proof (Z.mod_pos_bound (x + 7) 8 ltac:(lia)). split; [lia|]. by exists ((x + 7) / 8).
Qed.

(** The string area, rounded up. *)
Definition area (ls : list (list Z)) : Z := Z.ldiff (bytes_of ls + 7) 7.

(** The address of the saved [info] and the final stack pointer. *)
Definition info_addr (stack : Z) : Z := align16 (stack + Task.STACK_SIZE - INFO_SIZE).
Definition args_sp (stack : Z) (ls : list (list Z)) : Z := align16 (info_addr stack - area ls - 8 * (Z.of_nat (length ls) + 1)).

(** The task's view of the frame at the end of the layout. *)
Record args_placed (m m' : bytes) (info stack : Z) (ls : list (list Z)) (f : arg_frame) : Prop := {
  ap_sp : af_sp f = args_sp stack ls /\ af_argv f = args_sp stack ls /\ (16 | af_sp f);
  ap_argc : af_argc f = Z.of_nat (length ls);
  ap_strings : forall i l, ls !! i = Some l ->
    let p := le 8 (af_argv f + 8 * Z.of_nat i) m' in info_addr stack - area ls <= p /\ p + Z.of_nat (length l) + 1 <= info_addr stack /\ KString.cstr m' p l;
  ap_null : le 8 (af_argv f + 8 * Z.of_nat (length ls)) m' = 0;
  ap_info : af_info f = info_addr stack /\ forall o, 0 <= o < INFO_SIZE -> m' (af_info f + o) = m (info + o);
  ap_outside : forall x, x < af_sp f \/ stack + Task.STACK_SIZE <= x -> m' x = m x
}.

(** The frame is built whatever the strings measure. *)
Lemma stack_args_spec info stack argc argv ls m :
  let lo := args_sp stack ls in let hi := stack + Task.STACK_SIZE in
  0 <= stack -> hi < 2 ^ 64 -> 0 < lo -> 0 < argc <= ELF_MAX_ARGV -> Z.of_nat (length argv) = argc ->
  Forall2 (arg_ok m lo hi) argv ls -> info + INFO_SIZE <= lo \/ hi <= info ->
  exists f m', stack_args info stack argc (Some argv) m = Some (inr f, m') /\ args_placed m m' info stack ls f.
Proof.
  intros lo hi H0 Hhi Hlo Hargc Hlen HF Hinfo. unfold stack_args. rewrite (proj2 (Z.ltb_lt 0 argc)) by lia.
  rewrite (Z.min_l argc) by lia. rewrite take_ge by lia. pose proof (Forall2_length _ _ _ HF) as Hll.
  destruct (align16_spec (stack + Task.STACK_SIZE - INFO_SIZE)) as [Hi1 Hi2]. fold (info_addr stack) in Hi1, Hi2.
  destruct (ldiff7_spec (bytes_of ls) (bytes_of_nonneg ls)) as [Ha1 Ha2]. fold (area ls) in Ha1, Ha2.
  destruct (align16_spec (info_addr stack - area ls - 8 * (Z.of_nat (length ls) + 1))) as [Hs1 Hs2]. fold (args_sp stack ls) in Hs1, Hs2. fold lo in Hs1, Hs2.
  pose proof (bytes_of_nonneg ls) as Hnn. unfold INFO_SIZE, Task.STACK_SIZE in *. subst hi.
  rewrite (u64_small (stack + 0x40000)), (u64_small (_ - 288)) by (unfold is_u64; lia). change (align16 (stack + 262144 - 288)) with (info_addr stack).
  set (ia := info_addr stack) in *. set (m1 := KString.memcpy ia info (Z.to_nat 288) m).
  assert (Hm1 : forall x, m1 x = if decide (ia <= x < ia + 288) then m (info + (x - ia)) else m x).
  { intros x. unfold m1. rewrite KString.memcpy_forward by lia. unfold KString.moved. by rewrite Z2Nat.id by lia. }
  assert (HF1 : Forall2 (arg_ok m1 lo (stack + 0x40000)) argv ls).
  { eapply Forall2_impl; [exact HF|]. intros a l Hok. eapply arg_ok_ext; [exact Hok|]. intros x Hx. rewrite Hm1, decide_False by lia. done. }
  rewrite (strings_size_spec _ _ _ _ 0 _ HF1) by lia. cbn [mbind option_bind]. rewrite Z.add_0_l, (u64_small (bytes_of ls + 7)) by (unfold is_u64; lia). fold (area ls).
  rewrite (u64_small (ia - area ls)) by (unfold is_u64; lia). unfold elf_copy_argv_strings.
  rewrite (proj2 (Z.eqb_neq _ 0)), (proj2 (Z.ltb_ge argc 0)), (proj2 (Z.ltb_ge ELF_MAX_ARGV argc)) by lia. cbn [orb]. rewrite take_ge by lia.
  destruct (copy_strings_spec lo (stack + 0x40000) argv ls (ia - area ls) (area ls) m1 HF1) as (locs & m2 & -> & Hout & HL); try lia. cbn [mbind option_bind Z.eqb ELF_OK negb].
  unfold ELF_MAX_ARGV in *. rewrite (u64_small ((argc + 1) * 8)), (u64_small (_ - _ * 8)) by (unfold is_u64; lia).
  replace (ia - area ls - (argc + 1) * 8) with (ia - area ls - 8 * (Z.of_nat (length ls) + 1)) by lia. fold lo. change (align16 (ia - area ls - 8 * (Z.of_nat (length ls) + 1))) with lo.
  eexists _, _. split; [done|]. pose proof (Forall2_length _ _ _ HL) as Hlocs.
  assert (Hp : forall x, lo + 8 * (Z.of_nat (length ls) + 1) <= x -> put_ptrs lo (locs ++ [0]) m2 x = m2 x).
  { intros x Hx. apply put_ptrs_outside. rewrite length_app. cbn [length]. lia. }
  assert (El : align16 lo = lo) by apply align16_idem. rewrite El. split; cbn [af_sp af_argv af_argc af_info].
  - done.
  - lia.
  - intros i l Hl. destruct (Forall2_lookup_r _ _ _ _ _ HL Hl) as (p & Hpi & P1 & P2 & P3). rewrite (put_ptrs_read _ _ _ i p); [|by apply lookup_app_l_Some|unfold is_u64; lia].
    cbn zeta. split_and!; try lia. eapply cstr_move; [|exact P3]. intros j Hj. apply Hp. lia.
  - apply (put_ptrs_read _ _ _ (length ls) 0); [|done]. by rewrite lookup_app_r, <- Hlocs, Nat.sub_diag by lia.
  - split; [done|]. intros o Ho. unfold INFO_SIZE in Ho. rewrite Hp, Hout, Hm1, decide_True by lia. f_equal. lia.
  - unfold Task.STACK_SIZE. intros x Hx. rewrite put_ptrs_outside by (rewrite length_app; cbn [length]; lia). rewrite Hout, Hm1, decide_False by lia. done.
Qed.

(** C15. The arguments of an ELF task.  For any strings that the new stack does not
    overlap, the layout is built without an error: [argv] is the stack pointer,
    16-byte aligned, [argv[i]] points to a copy of string [i] with its terminator,
    [argv[argc]] is NULL, the saved [elf_info] is a copy of the caller's, and nothing
    outside the range from the stack pointer to the top of the stack is written.
    When the strings and the array fit, that range lies in the stack; no budget is
    checked, so strings of the size of the stack put it below the stack. *)
Theorem elf_args_correct (info stack argc : Z) (argv : list Z) (ls : list (list Z)) (m : bytes) :
  0 <= stack -> stack + Task.STACK_SIZE < 2 ^ 64 -> 0 < args_sp stack ls -> 0 < argc <= ELF_MAX_ARGV -> Z.of_nat (length argv) = argc ->
  Forall2 (arg_ok m (args_sp stack ls) (stack + Task.STACK_SIZE)) argv ls ->
  info + INFO_SIZE <= args_sp stack ls \/ stack + Task.STACK_SIZE <= info ->
  exists f m', stack_args info stack argc (Some argv) m = Some (inr f, m') /\ args_placed m m' info stack ls f /\
    (area ls + 8 * (argc + 1) + INFO_SIZE + 32 <= Task.STACK_SIZE -> stack <= af_sp f) /\
    (Task.STACK_SIZE <= bytes_of ls -> af_sp f < stack).
Proof.
  intros H0 Hhi Hlo Hargc Hlen HF Hinfo. destruct (stack_args_spec info stack argc argv ls m H0 Hhi Hlo Hargc Hlen HF Hinfo) as (f & m' & E & Hp).
  exists f, m'. split; [done|]. split; [done|]. pose proof (Forall2_length _ _ _ HF) as Hll. destruct (ap_sp _ _ _ _ _ _ Hp) as (-> & _ & _).
  destruct (align16_spec (stack + Task.STACK_SIZE - INFO_SIZE)) as [Hi1 _]. fold (info_addr stack) in Hi1.
  destruct (align16_spec (info_addr stack - area ls - 8 * (Z.of_nat (length ls) + 1))) as [Hs1 _]. fold (args_sp stack ls) in Hs1.
  destruct (ldiff7_spec (bytes_of ls) (bytes_of_nonneg ls)) as [Ha1 _]. fold (area ls) in Ha1. unfold INFO_SIZE, Task.STACK_SIZE in *. split; lia.
Qed.

(** Two strings at 0x1000 and 0x2000. *)
Definition two_args : bytes := fun x => if x =? 0x1000 then 108 else if x =? 0x1001 then 115 else if x =? 0x2000 then 47 else 0.

(** Witness of C15: the command [ls /]. *)
Lemma elf_args_correct_witness :
  exists f m', stack_args 0x3000 0x80000 2 (Some [0x1000; 0x2000]) two_args = Some (inr f, m') /\
    args_placed two_args m' 0x3000 0x80000 [[108; 115]; [47]] f /\ 0x80000 <= af_sp f.
Proof.
  assert (Hsp : args_sp 0x80000 [[108; 115]; [47]] = 0xBFEC0) by (vm_compute; reflexivity).
  destruct (elf_args_correct 0x3000 0x80000 2 [0x1000; 0x2000] [[108; 115]; [47]] two_args) as (f & m' & E & Hp & Hin & _); rewrite ?Hsp; unfold Task.STACK_SIZE, INFO_SIZE, ELF_MAX_ARGV; try lia.
  - reflexivity.
  - assert (Hf : (2 < STR_FUEL)%nat) by (unfold STR_FUEL; lia).
    constructor; [|constructor; [|constructor]]; (split; [lia|split; [vm_compute; split_and!; done|split; cbn [length]; lia]]).
  - exists f, m'. split; [exact E|]. split; [exact Hp|]. apply Hin. vm_compute. congruence.
Defined.

End ElfArgs.
