(* ===== verification/UserBuild.v ===== *)
(** Building the address space of a user task: the invariant of a space under
    construction, and that building one yields it whole or leaves nothing. *)

From S2P Require Import Prelude.
From S2P Require Import FreeList Buddy BuddyInv BuddySpec PmmSpec PageDesc Vmm VmmTree VmmUser VmmTear Asid KString UserMem UserSpec.

Module UserBuild.
Import Buddy BuddyInv BuddySpec PageDesc Vmm VmmTree VmmUser VmmTear UserMem UserSpec.
Open Scope Z_scope.
Open Scope slm_scope.

(** The linker's ranges of [.text.user] and of the embedded user ELF. *)
Class TextUser := { text_kva : Z; text_bytes : Z; elf_kva : Z; elf_bytes : Z }.

(** They lie in the kernel image, below 2^48; the text takes whole pages and ends
    below the [mmap] window. *)
Definition text_ok `{TextUser} : Prop :=
  0 <= text_kva /\ 0 < text_bytes <= 0x100000 /\ text_kva + text_bytes <= 2 ^ 48 /\ (PAGE_SIZE | text_kva) /\ (PAGE_SIZE | text_bytes).

Definition elf_ok `{TextUser} : Prop := 0 < elf_kva /\ 0 < elf_bytes /\ elf_kva + elf_bytes <= 2 ^ 48.

(** The addresses of both. *)
Definition kernel_image `{TextUser} (x : Z) : Prop := text_kva <= x < text_kva + text_bytes \/ elf_kva <= x < elf_kva + elf_bytes.

Section build.
Context `{TextUser} (Htext : text_ok).

(** What a leaf of a user space may be: nothing, a page of the shared program text,
    or a page of the space's own. *)
Definition leaf_ok (e : Z) : Prop :=
  e = 0 \/ exists a f, e = make_page_desc a f /\ 0 <= a < 2 ^ 48 /\ (PAGE_SIZE | a) /\ has f VMM_FLAG_USER = true /\
    (has f VMM_FLAG_PMM_OWNED = true \/ f = VMM_FLAGS_USER_CODE /\ text_kva <= a < text_kva + text_bytes).

(** A space under construction, on top of the spaces [Ls] and the ASIDs [As]. *)
Record building (u0 u : umem) (Ls As : list Z) (l1 asid : Z) : Prop := {
  bd_ok : spaces_ok (vm u) (l1 :: Ls);
  bd_new : l1 ∉ Ls;
  bd_pool : Asid.pool_ok (asids u) (asid :: As);
  bd_statics : statics (vm u0) (vm u);
  bd_kernel : kernel_half (words (vm u0)) (words (vm u)) Ls;
  bd_leaf : forall l q, l ∈ Ls -> length q = 3%nat -> leafv (words (vm u)) l q = leafv (words (vm u0)) l q;
  bd_own : forall q, length q = 3%nat -> leaf_ok (leafv (words (vm u)) l1 q);
  bd_above : forall va, user_page va -> USER_MMAP_VA_START <= va -> leafv (words (vm u)) l1 (path_of va) = 0;
  bd_acc : forall x, accounted (vm u) (l1 :: Ls) x <-> accounted (vm u0) Ls x
}.

(** What a failed construction leaves. *)
Record unbuilt (u0 u : umem) (Ls As : list Z) : Prop := {
  ub_ok : spaces_ok (vm u) Ls;
  ub_pool : Asid.pool_ok (asids u) As;
  ub_statics : statics (vm u0) (vm u);
  ub_leaf : forall l q, l ∈ Ls -> length q = 3%nat -> leafv (words (vm u)) l q = leafv (words (vm u0)) l q;
  ub_acc : forall x, accounted (vm u) Ls x <-> accounted (vm u0) Ls x
}.

Lemma others_new l1 Ls : l1 ∉ Ls -> others (l1 :: Ls) l1 = Ls.
Proof.
  intros Hn. unfold others. rewrite filter_cons_False by (intros E; by apply E). induction Ls as [|l Ls IH]; [done|].
  rewrite not_elem_of_cons in Hn. rewrite filter_cons_True by (intros ->; by destruct Hn). f_equal. apply IH, Hn.
Qed.

Lemma destroy_building u0 u Ls As l1 asid :
  building u0 u Ls As l1 asid ->
  exists v, vmm_destroy_user_l1 l1 (vm u) = Some v /\ spaces_ok v Ls /\ statics (vm u0) v /\
    (forall l q, l ∈ Ls -> length q = 3%nat -> leafv (words v) l q = leafv (words (vm u0)) l q) /\
    (forall x, accounted v Ls x <-> accounted (vm u0) Ls x).
Proof.
  intros B. destruct (user_destroy_spec (vm u) (l1 :: Ls) l1 (bd_ok _ _ _ _ _ _ B) ltac:(by left)) as (v & E & D).
  exists v. split; [done|]. destruct D as [D1 D2 D3 D4 D5 D6 D7]. rewrite others_new in * by apply B. split_and!; try done.
  - eapply statics_trans; [apply B|done].
  - intros l q Hl Hq. rewrite D4 by done. by apply (bd_leaf _ _ _ _ _ _ B).
  - intros x. rewrite D6. apply (bd_acc _ _ _ _ _ _ B).
Qed.

Lemma release_building u0 u Ls As l1 asid :
  building u0 u Ls As l1 asid -> exists u', release_space l1 asid u = Some u' /\ unbuilt u0 u' Ls As.
Proof.
  intros B. destruct (destroy_building _ _ _ _ _ _ B) as (v & E & T & Hs & Hl & Ha). unfold release_space. rewrite E. cbn [mbind option_bind].
  eexists. split; [done|]. split; cbn [vm asids]; try done. by apply (Asid.release_ok _ (asid :: As) 0 asid); [apply B|].
Qed.

(** A step that adds no translation. *)
Lemma building_grown u0 u u' Ls As l1 asid :
  building u0 u Ls As l1 asid -> grown (vm u) (vm u') (l1 :: Ls) -> asids u' = asids u -> building u0 u' Ls As l1 asid.
Proof.
  intros [B1 B2 B3 B4 B5 B6 B7 B8 B9] [G1 G2 G3 G4 G5 G6 G7] Ea. split; try done.
  - by rewrite Ea.
  - by eapply statics_trans.
  - eapply kernel_half_trans; [done|]. intros l k Hl Hk. apply G3; [by right|done].
  - intros l q Hl Hq. rewrite G4 by (done || by right). auto.
  - intros q Hq. rewrite G4 by (done || by left). auto.
  - intros va Hu Hva. rewrite G4 by (done || by left). auto.
  - intros x. by rewrite G5, B9.
Qed.

(** A step that adds one leaf below the [mmap] window. *)
Lemma building_leaf u0 u u' Ls As l1 asid va e :
  building u0 u Ls As l1 asid -> spaces_ok (vm u') (l1 :: Ls) -> asids u' = asids u -> statics (vm u) (vm u') ->
  kernel_half (words (vm u)) (words (vm u')) (l1 :: Ls) ->
  (forall l q, l ∈ l1 :: Ls -> length q = 3%nat ->
     leafv (words (vm u')) l q = if decide (l = l1 /\ q = path_of va) then e else leafv (words (vm u)) l q) ->
  (forall x, accounted (vm u') (l1 :: Ls) x <-> accounted (vm u) (l1 :: Ls) x) ->
  user_page va -> va < USER_MMAP_VA_START -> leaf_ok e -> building u0 u' Ls As l1 asid.
Proof.
  intros [B1 B2 B3 B4 B5 B6 B7 B8 B9] T Ea Hs Hk Hl Hacc Hu Hva He. split; try done.
  - by rewrite Ea.
  - by eapply statics_trans.
  - eapply kernel_half_trans; [done|]. intros l k Hl' Hk'. apply Hk; [by right|done].
  - intros l q Hl' Hq. rewrite Hl by (done || by right). rewrite decide_False by (intros [-> _]; done). auto.
  - intros q Hq. rewrite Hl by (done || by left). case_decide; auto.
  - intros va' Hu' Hva'. rewrite Hl by (done || by left). rewrite decide_False; [auto|]. intros [_ E]. apply path_of_inj in E; try done. lia.
  - intros x. by rewrite Hacc, B9.
Qed.

Lemma user_code_flags : has VMM_FLAGS_USER_CODE VMM_FLAG_USER = true /\ has VMM_FLAGS_USER_CODE VMM_FLAG_PMM_OWNED = false.
Proof. done. Qed.

Lemma map_text_spec n off u0 u Ls As l1 asid :
  building u0 u Ls As l1 asid -> 0 <= off -> (PAGE_SIZE | off) -> off + Z.of_nat n * PAGE_SIZE <= text_bytes ->
  exists ok v, map_text n l1 text_kva off (vm u) = Some (ok, v) /\ building u0 (with_vm v u) Ls As l1 asid.
Proof.
  destruct Htext as (Hk0 & Hb & Htop & Hka & _).
  revert off u. induction n as [|n IH]; intros off u B Hoff Hd Hle; cbn [map_text].
  { exists true, (vm u). split; [done|]. by destruct u. }
  unfold PAGE_SIZE in Hle.
  assert (E1 : USER_TEXT_VA +64 off = USER_TEXT_VA + off) by (apply u64_small; unfold is_u64, USER_TEXT_VA, USER_VA_BASE, USER_L1_FIRST, L1_BLOCK_SIZE; lia).
  assert (E2 : text_kva +64 off = text_kva + off) by (apply u64_small; unfold is_u64; lia). rewrite E1, E2.
  destruct (map_page_spec (vm u) (l1 :: Ls) l1 (USER_TEXT_VA + off) (text_kva + off) VMM_FLAGS_USER_CODE (bd_ok _ _ _ _ _ _ B) ltac:(by left))
    as (rc & v & -> & [(-> & M & _)|(-> & Hun & _)]); [done|..]; cbn [mbind option_bind Z.eqb negb].
  - destruct M as [M1 M2 M3 [M4 M4'] M5 M6 M7 M8 M9].
    destruct (IH (off + PAGE_SIZE) (with_vm v u)) as (ok & v' & E & B'); unfold PAGE_SIZE in *; try lia.
    + eapply (building_leaf u0 u _ _ _ _ _ (USER_TEXT_VA + off) (make_page_desc (text_kva + off) VMM_FLAGS_USER_CODE)); try done.
      * intros x. rewrite M7. destruct user_code_flags as [_ ->]. split; [by intros [?|[? _]]|by left].
      * unfold USER_TEXT_VA, USER_MMAP_VA_START. lia.
      * right. eexists _, _. split; [done|]. split_and!; try done; try lia; auto with lia.
    + apply Z.divide_add_r; [done|]. by exists 1.
    + exists ok, v'. done.
  - exists false, v. split; [done|]. eapply building_grown; [done| |done]. by apply undone_grown.
Qed.

Lemma created_building u v Ls As l1 asid p :
  created (vm u) v Ls l1 -> Asid.pool_ok p (asid :: As) -> building u (UMem v p (data u)) Ls As l1 asid.
Proof.
  intros [C1 [C2 _] C3 C4 C5 C6 C7 C8 C9 _ _] P. split; try done.
  - intros q Hq. left. by apply C4.
  - intros va Hu Hva. by apply C4.
Qed.

Lemma destroy_created u v Ls As l1 :
  created (vm u) v Ls l1 -> Asid.pool_ok (asids u) As ->
  exists v', vmm_destroy_user_l1 l1 v = Some v' /\ unbuilt u (with_vm v' u) Ls As.
Proof.
  intros C P. destruct (user_destroy_spec v (l1 :: Ls) l1 (cr_ok _ _ _ _ C) ltac:(by left)) as (v' & E & [D1 D2 D3 D4 D5 D6 D7]).
  exists v'. split; [done|]. rewrite others_new in * by apply C. split; cbn [with_vm vm asids]; try done.
  - eapply statics_trans; [apply C|done].
  - intros l q Hl Hq. rewrite D4 by done. by apply (cr_leaf _ _ _ _ C).
  - intros x. rewrite D6. apply (cr_acc _ _ _ _ C).
Qed.

Lemma stack_page_ok : user_page USER_STACK_PAGE_VA /\ USER_STACK_PAGE_VA < USER_MMAP_VA_START.
Proof. split; [split; [done|]|done]. by exists (USER_STACK_PAGE_VA / PAGE_SIZE). Qed.

Lemma fresh_building u0 u u' Ls As l1 asid va f a fill :
  building u0 u Ls As l1 asid -> fresh_mapped u u' (l1 :: Ls) l1 va f a fill -> va < USER_MMAP_VA_START ->
  has f VMM_FLAG_USER = true -> has f VMM_FLAG_PMM_OWNED = true -> building u0 u' Ls As l1 asid.
Proof.
  intros B [F1 F2 F3 F4 F5 F6 F7 F8 F9 F10 [F11 F11'] F12 F13] Hva Hu Ho. eapply building_leaf; try done.
  right. eexists _, _. split; [done|]. split_and!; try done; try lia. by left.
Qed.

(** Building a space either yields one, or leaves everything as it was. *)
Lemma build_space_spec u Ls As :
  spaces_ok (vm u) Ls -> boot_apart (vm u) -> Asid.pool_ok (asids u) As ->
  exists r u', build_space text_kva text_bytes u = Some (r, u') /\
    (r = None /\ unbuilt u u' Ls As \/ exists l1 asid, r = Some (l1, asid) /\ building u u' Ls As l1 asid).
Proof.
  intros T Hb P. unfold build_space.
  destruct (user_create_spec (vm u) Ls T Hb) as (rc & l1 & v & -> & [(-> & C)|(-> & -> & _)]); cbn [mbind option_bind Z.eqb negb].
  2:{ exists None, (with_vm (vm u) u). split; [done|]. left. by destruct u. }
  destruct (Asid.alloc_ok (asids u) As P) as (asid & p & Ep & Hp). cbn [with_vm asids]. rewrite Ep.
  destruct Hp as [(-> & -> & _)|(Hr & _ & _ & _ & P')].
  { destruct (destroy_created u v Ls As l1 C P) as (v' & E & Hu). cbn [Z.eqb with_asids vm with_vm]. rewrite E. cbn [mbind option_bind].
    exists None, (with_vm v' u). split; [done|]. by left. }
  rewrite (proj2 (Z.eqb_neq asid 0)) by lia. pose proof (created_building u v Ls As l1 asid p C P') as B.
  change (with_asids p (with_vm v u)) with (UMem v p (data u)). set (u1 := UMem v p (data u)) in *.
  assert (Hrel : forall u2, building u u2 Ls As l1 asid -> exists u', (u3 ← release_space l1 asid u2; Some (None, u3)) = Some (None : option (Z * Z), u') /\ unbuilt u u' Ls As).
  { intros u2 B2. destruct (release_building _ _ _ _ _ _ B2) as (u' & -> & Hu). by exists u'. }
  case_match; [destruct (Hrel u1 B) as (u' & -> & Hu); exists None, u'; split; [done|by left]|].
  pose proof Htext as (_ & Ht & _ & _ & Hd). destruct (map_text_spec (Z.to_nat (text_bytes / PAGE_SIZE)) 0 u u1 Ls As l1 asid B) as (ok & v1 & -> & B1).
  { done. } { by exists 0. } { rewrite Z2Nat.id by (apply Z.div_pos; unfold PAGE_SIZE; lia). pose proof (Z.mul_div_le text_bytes PAGE_SIZE). unfold PAGE_SIZE in *. lia. }
  cbn [mbind option_bind]. destruct ok; cbn [negb].
  2:{ destruct (Hrel _ B1) as (u' & -> & Hu). exists None, u'. split; [done|by left]. }
  destruct stack_page_ok as [Hsu Hsv].
  destruct (map_fresh_page_spec (with_vm v1 u1) (l1 :: Ls) l1 USER_STACK_PAGE_VA (Z.lor VMM_FLAGS_USER_DATA VMM_FLAG_PMM_OWNED) (fun _ d => d) (bd_ok _ _ _ _ _ _ B1) ltac:(by left) eq_refl)
    as (ok & u2 & -> & [(-> & (a & F) & _)|(-> & G & Ea & _)]); cbn [mbind option_bind negb].
  - exists (Some (l1, asid)), u2. split; [done|]. right. exists l1, asid. split; [done|]. by eapply fresh_building.
  - destruct (Hrel u2) as (u' & -> & Hu); [by eapply building_grown|]. exists None, u'. split; [done|by left].
Qed.

End build.

End UserBuild.
