(* ===== verification/ElfUser.v ===== *)
(** Loading an ELF image into a user address space: whatever the image holds, the
    space under construction stays well formed; a valid image that fits is loaded,
    page by page, with the bytes of the file and zeros. *)

From S2P Require Import Prelude.
From S2P Require Import FreeList Buddy BuddyInv BuddySpec PmmSpec PageDesc Vmm VmmTree VmmUser VmmTear Asid KString UserMem UserSpec UserBuild Elf ElfSpec.

Module ElfUser.
Import Buddy BuddyInv BuddySpec PageDesc Vmm VmmTree VmmUser VmmTear UserMem UserSpec UserBuild Elf ElfSpec.
Open Scope Z_scope.
Open Scope slm_scope.

Notation data := UserMem.data.

(** ** Pages of segments *)

(** The address of page [i] of a segment, and the pages of a list of segments. *)
Definition seg_va (ph : Elf64_Phdr) (i : Z) : Z := p_vaddr ph + i * PAGE_SIZE.

Definition pages_from (ph : Elf64_Phdr) (i : Z) (n : nat) : list (Elf64_Phdr * Z) := (fun j => (ph, j)) <$> seqZ i (Z.of_nat n).

Definition seg_list (ph : Elf64_Phdr) : list (Elf64_Phdr * Z) := pages_from ph 0 (Z.to_nat (seg_pages (p_memsz ph))).

(** A segment [load_segment] accepts. *)
Definition user_seg_ok (len : Z) (ph : Elf64_Phdr) : Prop :=
  p_memsz ph = 0 \/
  (PAGE_SIZE | p_vaddr ph) /\ USER_TEXT_VA <= p_vaddr ph /\ p_vaddr ph + p_memsz ph <= USER_ELF_STACK_PAGE_VA /\
  p_filesz ph <= p_memsz ph /\ p_offset ph + p_filesz ph <= len.

Lemma pages_from_S ph i n : pages_from ph i (S n) = (ph, i) :: pages_from ph (i + 1) n.
Proof. unfold pages_from. rewrite seqZ_cons by lia. cbn. do 3 f_equal; lia. Qed.

Lemma pf_flags_ok p :
  has (pf_to_vmm_flags p) VMM_FLAG_USER = true /\ has (pf_to_vmm_flags p) VMM_FLAG_PMM_OWNED = true /\
  has (pf_to_vmm_flags p) VMM_FLAG_WRITE = has p PF_W /\ has (pf_to_vmm_flags p) VMM_FLAG_EXEC = has p PF_X.
Proof. unfold pf_to_vmm_flags, or_if. destruct (has p PF_R), (has p PF_W), (has p PF_X); vm_compute; auto. Qed.

(** The bytes of a page. *)
Lemma segment_fill_spec src filesz i page d x :
  0 <= i -> is_u64 filesz -> 0 <= src -> src + filesz <= 2 ^ 64 -> i * PAGE_SIZE < 2 ^ 64 ->
  (forall y, src <= y < src + filesz -> ~ in_block page 0 y) ->
  segment_fill src filesz i page d x =
    if decide (in_block page 0 x) then if decide (i * PAGE_SIZE + (x - page) < filesz) then d (src + i * PAGE_SIZE + (x - page)) else 0 else d x.
Proof.
  intros Hi Hf Hs Hsf Hip Hdis. unfold is_u64 in Hf. unfold segment_fill. rewrite (u64_small (i * PAGE_SIZE)) by (unfold is_u64, PAGE_SIZE in *; lia).
  unfold in_block in *. rewrite bsize_0 in *. unfold PAGE_SIZE in *.
  destruct (Z.ltb_spec (i * 4096) filesz) as [Hlt|Hge].
  2:{ rewrite zero_fill_spec. unfold in_block. rewrite bsize_0. unfold PAGE_SIZE. case_decide; [|done]. by rewrite decide_False by lia. }
  rewrite !u64_small by (unfold is_u64; lia). set (n := Z.min (filesz - i * 4096) 4096). assert (Hn : 0 < n <= 4096) by lia.
  rewrite KString.memcpy_forward.
  2:{ rewrite Z2Nat.id by lia. destruct (decide (page <= src + i * 4096)); [by left|right]. destruct (decide (src + i * 4096 + n <= page)); [done|]. exfalso. apply (Hdis page); lia. }
  unfold KString.moved. rewrite Z2Nat.id by lia. rewrite !zero_fill_spec. unfold in_block. rewrite bsize_0. unfold PAGE_SIZE.
  destruct (decide (page <= x < page + n)).
  - rewrite decide_False by (apply Hdis; lia). by rewrite !decide_True by lia.
  - case_decide; [|done]. by rewrite decide_False by lia.
Qed.

Section load.
Context `{TextUser} (ub u0 : umem) (Ls As : list Z) (l1 asid blob len : Z).

(** The image is in memory the allocator does not hand out. *)
Definition blob_held : Prop := 0 < blob /\ 0 <= len /\ blob + len < 2 ^ 64 /\ forall x, blob <= x < blob + len -> ~ is_free (frames (vm u0)) x.

(** Page [i] of [ph] is mapped with the segment's permissions and holds its bytes. *)
Definition page_in (u : umem) (ph : Elf64_Phdr) (i : Z) : Prop :=
  user_page (seg_va ph i) /\
  exists a, leafv (words (vm u)) l1 (path_of (seg_va ph i)) = make_page_desc a (pf_to_vmm_flags (p_flags ph)) /\ 0 < a < 2 ^ 48 /\ (PAGE_SIZE | a) /\
    (forall x, in_block a 0 x -> is_free (frames (vm u0)) x) /\
    forall o, 0 <= o < PAGE_SIZE ->
      data u (a + o) = if decide (i * PAGE_SIZE + o < p_filesz ph) then data u0 (blob + p_offset ph + i * PAGE_SIZE + o) else 0.

(** The pages [ps] are loaded, and nothing else is mapped. *)
Record installed (u : umem) (ps : list (Elf64_Phdr * Z)) : Prop := {
  in_build : building ub u Ls As l1 asid;
  in_data : forall x, ~ is_free (frames (vm u0)) x -> data u x = data u0 x;
  in_mono : forall x, is_free (frames (vm u)) x -> is_free (frames (vm u0)) x;
  in_pages : forall ph i, (ph, i) ∈ ps -> page_in u ph i;
  in_only : forall q, length q = 3%nat -> leafv (words (vm u)) l1 q <> 0 -> exists ph i, (ph, i) ∈ ps /\ q = path_of (seg_va ph i);
  in_count : free_pages (frames (vm u0)) - 3 * Z.of_nat (length ps) <= free_pages (frames (vm u))
}.

(** What a refused page or segment leaves: a space that can be torn down. *)
Definition abandoned (u : umem) : Prop :=
  building ub u Ls As l1 asid /\ forall x, ~ is_free (frames (vm u0)) x -> data u x = data u0 x.

Lemma installed_step u u' ps ph i a :
  blob_held -> installed u ps -> fresh_mapped u u' (l1 :: Ls) l1 (seg_va ph i) (pf_to_vmm_flags (p_flags ph)) a (segment_fill (blob + p_offset ph) (p_filesz ph) i) ->
  free_pages (frames (vm u)) - 3 <= free_pages (frames (vm u')) -> seg_va ph i < USER_MMAP_VA_START ->
  0 <= i -> i * PAGE_SIZE < 2 ^ 64 -> 0 <= p_offset ph -> is_u64 (p_filesz ph) -> p_offset ph + p_filesz ph <= len ->
  installed u' (ps ++ [(ph, i)]).
Proof.
  intros (Hb & Hl & Htop & Hheld) [B D M P O C] F Hcnt Hva Hi Hip Ho Hf Hfit. destruct (pf_flags_ok (p_flags ph)) as (Hu & Hw & _).
  pose proof F as [F1 F2 F3 F4 F5 F6 F7 F8 F9 F10 F11 F12 F13].
  assert (Hd : forall x, data u' x = if decide (in_block a 0 x) then if decide (i * PAGE_SIZE + (x - a) < p_filesz ph) then data u (blob + p_offset ph + i * PAGE_SIZE + (x - a)) else 0 else data u x).
  { intros x. rewrite F12. apply segment_fill_spec; try done; try lia. intros y Hy Hin. apply (Hheld y); [lia|]. by apply M, F10. }
  split.
  - by eapply fresh_building.
  - intros x Hx. rewrite Hd, decide_False; [by apply D|]. intros ?%F10%M. done.
  - auto.
  - intros ph' i' [Hin|[= -> ->]%list_elem_of_singleton]%elem_of_app.
    + destruct (P ph' i' Hin) as (Hup & b & Hb' & Hbr & Hbd & Hbf & Hbytes). split; [done|]. exists b.
      assert (Hfb : frame (words (vm u)) l1 (path_of (seg_va ph' i')) = Some b) by (eapply owned_frame; try done; apply pf_flags_ok).
      split_and!; try done; try lia.
      * rewrite F6 by (done || by left). rewrite decide_False; [done|]. intros [_ E]. rewrite E, frame_leaf, F5 in Hfb by done. done.
      * intros o Ho'. rewrite Hd, decide_False; [by apply Hbytes|]. intros Hxa%F10.
        destruct (t_alloc _ _ _ _ (bd_ok _ _ _ _ _ _ B) l1 _ b ltac:(by left) Hfb) as (_ & _ & _ & Hnf). apply (Hnf (b + o)); [|done].
        unfold in_block. rewrite bsize_0. lia.
    + split; [done|]. exists a. split_and!; try done; try apply F11; [rewrite F6 by (done || by left); by rewrite decide_True| |].
      * intros x Hx. by apply M, F10.
      * intros o Ho'. rewrite Hd, decide_True by (unfold in_block; rewrite bsize_0; lia). replace (a + o - a) with o by lia.
        case_decide; [|done]. apply D. apply Hheld. unfold PAGE_SIZE in *. lia.
  - intros q Hq Hne. rewrite F6 in Hne by (done || by left). case_decide as E.
    + destruct E as [_ ->]. exists ph, i. split; [|done]. apply elem_of_app. right. by apply list_elem_of_singleton.
    + destruct (O q Hq Hne) as (ph' & i' & Hin & ->). exists ph', i'. split; [|done]. apply elem_of_app. by left.
  - rewrite length_app. cbn [length]. lia.
Qed.


Definition vas (ps : list (Elf64_Phdr * Z)) : list Z := (fun p => seg_va p.1 p.2) <$> ps.

(** Why pages are refused: two of them share an address, or memory may run out. *)
Definition crowded (ps : list (Elf64_Phdr * Z)) : Prop := ~ NoDup (vas ps) \/ free_pages (frames (vm u0)) < 3 * Z.of_nat (length ps).

Lemma crowded_app ps ps' : crowded ps -> crowded (ps ++ ps').
Proof.
  intros [Hd|Hc]; [left|right].
  - unfold vas. rewrite fmap_app. by intros [? _]%NoDup_app.
  - rewrite length_app. lia.
Qed.

(** A page that is mapped already is one of [ps]. *)
Lemma taken_crowded u ps ph i :
  installed u ps -> user_page (seg_va ph i) -> is_Some (translate (words (vm u)) l1 (seg_va ph i)) -> crowded (ps ++ [(ph, i)]).
Proof.
  intros I Hu [e He]. left. destruct (in_only _ _ I (path_of (seg_va ph i)) eq_refl) as (ph' & i' & Hin & Eq).
  { intros E0. unfold translate in He. by rewrite E0 in He. }
  apply path_of_inj in Eq; [|done|by apply (in_pages _ _ I)]. unfold vas. rewrite fmap_app. intros (_ & Hd & _)%NoDup_app.
  apply (Hd (seg_va ph i)); [rewrite Eq; apply (list_elem_of_fmap_2 (fun p => seg_va p.1 p.2) ps (ph', i') Hin)|by left].
Qed.

Lemma seg_page_ok ph i :
  user_seg_ok len ph -> 0 < p_memsz ph -> 0 <= i < seg_pages (p_memsz ph) ->
  p_vaddr ph +64 u64 (i * PAGE_SIZE) = seg_va ph i /\ user_page (seg_va ph i) /\ seg_va ph i < USER_ELF_STACK_PAGE_VA /\ i * PAGE_SIZE < 2 ^ 64.
Proof.
  intros [Hz|(Hd & Hlo & Hhi & _)] Hm Hi; [lia|]. unfold USER_TEXT_VA, USER_ELF_STACK_PAGE_VA, USER_MMAP_VA_START in *.
  assert (HB : USER_VA_BASE = 0x4000000000) by reflexivity. assert (HL : 0x4040000000 <= USER_VA_LIMIT) by (vm_compute; congruence).
  unfold PAGE_SIZE in *. destruct (seg_pages_eq (p_memsz ph)) as (Hp & _ & _); [unfold UINT64_MAX, PAGE_SIZE; lia|]. rewrite Hp in Hi.
  assert (Him : i * 4096 < p_memsz ph) by (pose proof (Z.mul_div_le (p_memsz ph + 4095) 4096 ltac:(lia)); lia).
  rewrite (u64_small (i * 4096)), u64_small by (unfold is_u64; lia). unfold seg_va, PAGE_SIZE. split_and!; try done; try lia. split; [lia|].
  apply Z.divide_add_r; [done|by exists i].
Qed.

Lemma segment_pages_spec n i ph u ps :
  blob_held -> user_seg_ok len ph -> 0 < p_memsz ph -> 0 <= p_offset ph -> is_u64 (p_filesz ph) -> p_offset ph + p_filesz ph <= len ->
  0 <= i -> i + Z.of_nat n = seg_pages (p_memsz ph) -> installed u ps ->
  exists rc u', segment_pages n l1 (blob + p_offset ph) i ph (pf_to_vmm_flags (p_flags ph)) u = Some (rc, u') /\
    (rc = ELF_OK /\ installed u' (ps ++ pages_from ph i n) \/ rc <> ELF_OK /\ abandoned u' /\ crowded (ps ++ pages_from ph i n)).
Proof.
  intros Hb Hok Hm Ho Hf Hfit. revert i u ps. induction n as [|n IH]; intros i u ps Hi Hn I; cbn [segment_pages].
  { exists ELF_OK, u. split; [done|]. left. by rewrite app_nil_r. }
  destruct (seg_page_ok ph i Hok Hm ltac:(lia)) as (-> & Hu & Hva & Hip). rewrite pages_from_S.
  destruct (map_fresh_page_spec u (l1 :: Ls) l1 (seg_va ph i) (pf_to_vmm_flags (p_flags ph)) (segment_fill (blob + p_offset ph) (p_filesz ph) i)
    (bd_ok _ _ _ _ _ _ (in_build _ _ I)) ltac:(by left) (proj1 (proj2 (pf_flags_ok _)))) as (ok & u1 & -> & Hres). cbn [mbind option_bind].
  change (?x ++ ?y :: ?z) with (x ++ [y] ++ z). rewrite app_assoc.
  destruct Hres as [(-> & (a & F) & Hcnt)|(-> & G & Ea & Hd & Hwhy)].
  - apply IH; [lia|lia|]. eapply installed_step; try done. unfold USER_ELF_STACK_PAGE_VA, PAGE_SIZE in Hva. lia.
  - exists ELF_ERR_NOMEM, u1. split; [done|]. right. split; [done|]. split.
    + split; [eapply building_grown; [apply I|done|done]|]. intros x Hx. destruct Hd as [->|(a & -> & Hfr)]; [by apply (in_data _ _ I)|].
      destruct Hb as (? & ? & ? & Hheld). rewrite segment_fill_spec; try done; try lia.
      * rewrite decide_False; [by apply (in_data _ _ I)|]. intros ?%Hfr%(in_mono _ _ I). done.
      * intros y Hy Hin. apply (Hheld y); [lia|]. by apply (in_mono _ _ I), Hfr.
    + apply crowded_app. destruct Hwhy as [?|[Ht|Hfew]]; [done|by eapply taken_crowded|]. right. pose proof (in_count _ _ I). rewrite length_app. cbn [length]. lia.
Qed.


(** ** Segments and images *)

Lemma installed_abandoned u ps : installed u ps -> abandoned u.
Proof. intros [B D _ _ _ _]. done. Qed.

Lemma load_segment_spec k ph u ps :
  blob_held -> ph = phdr_at blob k (data u0) -> p_vaddr ph + p_memsz ph < 2 ^ 64 -> installed u ps ->
  exists rc u', load_segment blob len ph l1 u = Some (rc, u') /\
    (rc = ELF_OK /\ user_seg_ok len ph /\ installed u' (ps ++ seg_list ph) \/
     rc <> ELF_OK /\ abandoned u' /\ (~ user_seg_ok len ph \/ crowded (ps ++ seg_list ph))).
Proof.
  intros Hb Eph Hw I. pose proof (phdr_ranges blob k (data u0)) as (R1 & R2 & R3 & R4 & _). rewrite <- Eph in *. clear Eph. pose proof Hb as (Hb1 & Hb2 & Hb3 & _).
  unfold load_segment. destruct (Z.eqb_spec (p_memsz ph) 0) as [Hz|Hz].
  { exists ELF_OK, u. split; [done|]. left. split; [done|]. split; [by left|]. unfold seg_list. rewrite Hz. by rewrite app_nil_r. }
  assert (Hbad : forall e, e <> ELF_OK -> ~ user_seg_ok len ph -> exists rc u', Some (e, u) = Some (rc, u') /\ (rc = ELF_OK /\ user_seg_ok len ph /\ installed u' (ps ++ seg_list ph) \/
     rc <> ELF_OK /\ abandoned u' /\ (~ user_seg_ok len ph \/ crowded (ps ++ seg_list ph)))).
  { intros e He Hn. exists e, u. split; [done|]. right. split; [done|]. split; [by eapply installed_abandoned|by left]. }
  unfold is_u64 in *. rewrite (u64_small (p_vaddr ph + p_memsz ph)) by (unfold is_u64; lia).
  destruct (negb (Z.land (p_vaddr ph) (PAGE_SIZE - 1) =? 0)) eqn:Hal.
  { apply Hbad; [done|]. intros [?|(Hd & _)]; [done|]. apply not_false_iff_true in Hal. apply Hal. by apply PmmSpec.page_aligned_land. }
  apply PmmSpec.page_aligned_land in Hal. unfold aligned in Hal. rewrite bsize_0 in Hal.
  destruct (Z.ltb_spec (p_vaddr ph) USER_TEXT_VA); cbn [orb]; [apply Hbad; [done|intros [?|(_ & ? & _)]; lia]|].
  destruct (Z.ltb_spec USER_ELF_STACK_PAGE_VA (p_vaddr ph + p_memsz ph)); [apply Hbad; [done|intros [?|(_ & _ & ? & _)]; lia]|].
  destruct (Z.ltb_spec (p_memsz ph) (p_filesz ph)); [apply Hbad; [done|intros [?|(_ & _ & _ & ? & _)]; lia]|].
  destruct (Z.ltb_spec len (p_offset ph)); cbn [orb]; [apply Hbad; [done|intros [?|(_ & _ & _ & _ & ?)]; lia]|].
  rewrite (u64_small (len - p_offset ph)) by (unfold is_u64; lia).
  destruct (Z.ltb_spec (len - p_offset ph) (p_filesz ph)); [apply Hbad; [done|intros [?|(_ & _ & _ & _ & ?)]; lia]|].
  rewrite (u64_small (blob + p_offset ph)) by (unfold is_u64; lia).
  assert (Hok : user_seg_ok len ph) by (right; split_and!; (done || lia)).
  destruct (seg_pages_eq (p_memsz ph)) as (_ & _ & Hp0 & _).
  { unfold USER_ELF_STACK_PAGE_VA in *. assert (USER_MMAP_VA_START < 2 ^ 40) by done. unfold UINT64_MAX, PAGE_SIZE in *. lia. }
  destruct (segment_pages_spec (Z.to_nat (seg_pages (p_memsz ph))) 0 ph u ps Hb Hok ltac:(lia) ltac:(lia) R3 ltac:(lia) ltac:(lia) ltac:(lia) I) as (rc & u' & -> & [(-> & I')|(Hrc & Ha & Hc)]);
    fold (seg_list ph) in *; eexists _, u'; (split; [done|]); [left|right]; split_and!; try done. by right.
Qed.

Definition no_wrap (ph : Elf64_Phdr) : Prop := p_vaddr ph + p_memsz ph < 2 ^ 64.

Lemma count_loads_spec n i c m :
  let L := pt_loads n blob i m in
  (exists e, count_loads n blob i c m = inl e /\ e <> ELF_OK /\ ~ Forall no_wrap L) \/
  count_loads n blob i c m = inr (c + Z.of_nat (length L)) /\ Forall no_wrap L.
Proof.
  revert i c. induction n as [|n IH]; intros i c; cbn [pt_loads count_loads]; [right; split; [cbn; f_equal; lia|constructor]|].
  pose proof (phdr_ranges blob i m) as (_ & R2 & _ & R4 & _). set (ph := phdr_at blob i m) in *. cbn zeta.
  destruct (p_type ph =? PT_LOAD); cbn [negb]; [|apply IH]. unfold is_u64 in *. unfold UINT64_MAX. rewrite u64_small by (unfold is_u64; lia).
  destruct (Z.ltb_spec (2 ^ 64 - 1 - p_vaddr ph) (p_memsz ph)).
  { left. eexists. split; [done|]. split; [done|]. intros HF. inversion_clear HF as [|? ? Hw _]. unfold no_wrap in Hw. lia. }
  destruct (IH (i + 1) (c + 1)) as [(e & -> & He & Hn)|(-> & HF)]; [left|right].
  - exists e. split_and!; try done. intros HF. by inversion_clear HF.
  - split; [cbn [length]; f_equal; lia|]. constructor; [unfold no_wrap; lia|done].
Qed.

Lemma install_loads_spec n i u ps :
  blob_held -> validate_header blob len (data u0) = ELF_OK -> 0 <= i -> i + Z.of_nat n <= e_phnum (read_ehdr blob (data u0)) -> installed u ps ->
  let R := pt_loads n blob i (data u0) in
  Forall no_wrap R ->
  exists rc u', install_loads n blob len i l1 u = Some (rc, u') /\
    (rc = ELF_OK /\ Forall (user_seg_ok len) R /\ installed u' (ps ++ (R ≫= seg_list)) \/
     rc <> ELF_OK /\ abandoned u' /\ (~ Forall (user_seg_ok len) R \/ crowded (ps ++ (R ≫= seg_list)))).
Proof.
  intros Hb Hv. revert i u ps. induction n as [|n IH]; intros i u ps Hi Hn I; cbn [pt_loads install_loads].
  { intros _. exists ELF_OK, u. split; [done|]. left. cbn. rewrite app_nil_r. split_and!; [done|constructor|done]. }
  pose proof Hb as (? & ? & ? & Hheld).
  rewrite (phdr_at_ext blob len i (data u0) (data u)); [|lia|done|intros x Hx; by apply (in_data _ _ I), Hheld|lia].
  destruct (p_type (phdr_at blob i (data u0)) =? PT_LOAD); cbn [negb]; [|apply IH; (done || lia)]. intros [Hw HR]%Forall_cons.
  destruct (load_segment_spec i _ u ps Hb eq_refl Hw I) as (rc & u1 & -> & [(-> & Hok & I1)|(Hrc & Ha & Hwhy)]); cbn [mbind option_bind list_bind].
  - cbn [Z.eqb ELF_OK negb]. destruct (IH (i + 1) u1 _ ltac:(lia) ltac:(lia) I1 HR) as (rc & u2 & -> & Hres). rewrite <- app_assoc in Hres. exists rc, u2. split; [done|].
    destruct Hres as [(-> & HF & I2)|(Hrc & Ha & Hwhy)]; [left|right]; split_and!; try done; [by constructor|].
    destruct Hwhy as [Hn'|?]; [left|by right]. intros HF. by inversion_clear HF.
  - rewrite (proj2 (Z.eqb_neq rc ELF_OK)) by done. cbn [negb]. exists rc, u1. split; [done|]. right. split_and!; try done.
    destruct Hwhy as [Hn'|Hc]; [left|right]; [intros HF; by inversion_clear HF|]. rewrite app_assoc. by apply crowded_app.
Qed.

(** The images [elf_load_user] accepts, memory permitting. *)
Record user_loadable : Prop := {
  ul_header : validate_header blob len (data u0) = ELF_OK;
  ul_count : (0 < length (image_loads blob (data u0)) <= ELF_MAX_SEGMENTS)%nat;
  ul_wrap : Forall no_wrap (image_loads blob (data u0));
  ul_segs : Forall (user_seg_ok len) (image_loads blob (data u0));
  ul_entry : USER_TEXT_VA <= e_entry (read_ehdr blob (data u0)) < USER_ELF_STACK_PAGE_VA
}.

Definition image_pages : list (Elf64_Phdr * Z) := image_loads blob (data u0) ≫= seg_list.

Lemma elf_load_user_spec :
  blob_held -> l1 <> 0 -> installed u0 [] ->
  exists rc e u', elf_load_user blob len l1 u0 = Some (rc, e, u') /\
    (rc = ELF_OK /\ user_loadable /\ e = e_entry (read_ehdr blob (data u0)) /\ installed u' image_pages \/
     rc <> ELF_OK /\ abandoned u' /\ (~ user_loadable \/ crowded image_pages)).
Proof.
  intros Hb Hl1 I. pose proof Hb as (? & ? & ? & Hheld). unfold elf_load_user. rewrite (proj2 (Z.eqb_neq blob 0)), (proj2 (Z.eqb_neq l1 0)) by lia. cbn [orb].
  pose proof (installed_abandoned _ _ I) as Ha.
  assert (Hbad : forall e, e <> ELF_OK -> ~ user_loadable -> exists rc e' u', Some (e, 0, u0) = Some (rc, e', u') /\
    (rc = ELF_OK /\ user_loadable /\ e' = e_entry (read_ehdr blob (data u0)) /\ installed u' image_pages \/ rc <> ELF_OK /\ abandoned u' /\ (~ user_loadable \/ crowded image_pages))).
  { intros e He Hn. exists e, 0, u0. split; [done|]. right. split; [done|]. split; [done|by left]. }
  unfold elf_validate. destruct (Z.eqb_spec (validate_header blob len (data u0)) ELF_OK) as [Hv|Hv]; cbn [negb]; [|apply Hbad; [done|by intros [? _ _ _ _]]].
  pose proof (ehdr_ranges blob (data u0)) as (_ & _ & Hnum).
  destruct (count_loads_spec (Z.to_nat (e_phnum (read_ehdr blob (data u0)))) 0 0 (data u0)) as [(e & -> & He & Hn)|(-> & HF)]; [apply Hbad; [done|by intros [_ _ ? _ _]]|].
  fold (image_loads blob (data u0)) in *. set (L := image_loads blob (data u0)) in *.
  destruct (Z.eqb_spec (0 + Z.of_nat (length L)) 0); [apply Hbad; [done|intros [_ Hct _ _ _]; fold L in Hct; lia]|].
  destruct (Z.ltb_spec (Z.of_nat ELF_MAX_SEGMENTS) (0 + Z.of_nat (length L))); [apply Hbad; [done|intros [_ Hct _ _ _]; fold L in Hct; lia]|].
  destruct (install_loads_spec (Z.to_nat (e_phnum (read_ehdr blob (data u0)))) 0 u0 [] Hb Hv ltac:(lia) ltac:(lia) I HF) as (rc & u1 & -> & Hres). cbn [mbind option_bind app] in *.
  fold (image_loads blob (data u0)) in Hres. fold L in Hres. destruct Hres as [(-> & Hsegs & I1)|(Hrc & Ha1 & Hwhy)].
  2:{ rewrite (proj2 (Z.eqb_neq rc ELF_OK)) by done. cbn [negb]. exists rc, 0, u1. split; [done|]. right. split_and!; try done. destruct Hwhy as [Hn|?]; [left|by right]. by intros [_ _ _ ? _]. }
  cbn [Z.eqb ELF_OK negb]. rewrite (read_ehdr_ext blob (data u0)).
  2:{ destruct (validate_header_ok blob len (data u0) ltac:(lia) Hv) as [? _]. intros x Hx. apply (in_data _ _ I1), Hheld. lia. }
  set (ent := e_entry (read_ehdr blob (data u0))) in *. destruct (Z.ltb_spec ent USER_TEXT_VA); cbn [orb].
  { exists ELF_ERR_INVALID, 0, u1. split; [done|]. right. split; [done|]. split; [by eapply installed_abandoned|]. left. intros [_ _ _ _ ?]. lia. }
  destruct (Z.leb_spec USER_ELF_STACK_PAGE_VA ent).
  { exists ELF_ERR_INVALID, 0, u1. split; [done|]. right. split; [done|]. split; [by eapply installed_abandoned|]. left. intros [_ _ _ _ ?]. lia. }
  exists ELF_OK, ent, u1. split; [done|]. left. split; [done|]. split; [|done]. split; try done. fold L. lia.
Qed.

End load.

(** ** The address space of an ELF task *)

Lemma page_in_mono l1 blob u1 u2 u ph i :
  (forall x, is_free (frames (vm u1)) x -> is_free (frames (vm u2)) x) -> data u1 = data u2 -> page_in u1 l1 blob u ph i -> page_in u2 l1 blob u ph i.
Proof. intros Hm Hd (Hu & a & H1 & H2 & H3 & H4 & H5). split; [done|]. exists a. rewrite <- Hd. split_and!; try done; try lia. auto. Qed.

Lemma created_installed `{TextUser} u v Ls As l1 asid p blob :
  created (vm u) v Ls l1 -> Asid.pool_ok p (asid :: As) -> installed u (UMem v p (data u)) Ls As l1 asid blob (UMem v p (data u)) [].
Proof.
  intros C P. split; try done.
  - by apply created_building.
  - intros ph i []%not_elem_of_nil.
  - intros q Hq Hne. by destruct Hne; apply C.
  - cbn. lia.
Qed.

Lemma elf_stack_page : user_page USER_ELF_STACK_PAGE_VA /\ USER_ELF_STACK_PAGE_VA < USER_MMAP_VA_START.
Proof. split; [split; [done|]|done]. by exists (USER_ELF_STACK_PAGE_VA / PAGE_SIZE). Qed.

Definition STACK_FLAGS : Z := Z.lor VMM_FLAGS_USER_DATA VMM_FLAG_PMM_OWNED.

(** Why no space is built for an image: it is invalid or its segments overlap, no
    ASID is left, or the free pages may not be enough. *)
Definition elf_refused (u : umem) (As : list Z) (blob len : Z) : Prop :=
  ~ user_loadable u blob len \/ ~ NoDup (vas (image_pages u blob)) \/ (forall b, 1 <= b <= Asid.VMM_USER_ASID_MAX -> b ∈ As) \/
  free_pages (frames (vm u)) < 3 * Z.of_nat (length (image_pages u blob)) + 4.

(** A space with the image loaded and its stack page mapped. *)
Record elf_built `{TextUser} (u u' : umem) (Ls As : list Z) (l1 asid blob len : Z) : Prop := {
  eb_build : building u u' Ls As l1 asid;
  eb_image : user_loadable u blob len;
  eb_pages : forall ph i, ph ∈ image_loads blob (data u) -> 0 <= i < seg_pages (p_memsz ph) -> page_in u l1 blob u' ph i;
  eb_stack : exists a, leafv (words (vm u')) l1 (path_of USER_ELF_STACK_PAGE_VA) = make_page_desc a STACK_FLAGS;
  eb_data : forall x, ~ accounted (vm u) Ls x -> data u' x = data u x
}.

(** The stack page leaves the loaded pages alone. *)
Lemma stack_keeps_page `{TextUser} ub u0 u u' Ls As l1 asid blob ps ph i a :
  installed ub u0 Ls As l1 asid blob u ps -> (ph, i) ∈ ps -> seg_va ph i < USER_ELF_STACK_PAGE_VA ->
  fresh_mapped u u' (l1 :: Ls) l1 USER_ELF_STACK_PAGE_VA STACK_FLAGS a (fun _ d => d) -> page_in u0 l1 blob u' ph i.
Proof.
  intros I Hin Hva [F1 F2 F3 F4 F5 F6 F7 F8 F9 F10 F11 F12 F13]. destruct (in_pages _ _ _ _ _ _ _ _ _ I ph i Hin) as (Hu & b & Hb & Hr & Hd & Hf & Hbytes).
  split; [done|]. exists b. rewrite F12. split_and!; try done; try lia. rewrite F6 by (done || by left). rewrite decide_False; [done|].
  intros [_ E]. apply path_of_inj in E; [lia|done|apply elf_stack_page].
Qed.
Lemma image_page_elem u blob ph i : (ph, i) ∈ image_pages u blob <-> ph ∈ image_loads blob (data u) /\ 0 <= i < seg_pages (p_memsz ph).
Proof.
  unfold image_pages. rewrite list_elem_of_bind. unfold seg_list, pages_from. split.
  - intros (ph' & (j & [= <- <-] & Hj%elem_of_seqZ)%list_elem_of_fmap & Hin). split; [done|lia].
  - intros [Hin Hi]. exists ph. split; [|done]. apply list_elem_of_fmap. exists i. split; [done|]. apply elem_of_seqZ. lia.
Qed.

(** Every image page of an accepted image lies below the stack page. *)
Lemma image_page_below u blob len ph i : user_loadable u blob len -> (ph, i) ∈ image_pages u blob -> user_page (seg_va ph i) /\ seg_va ph i < USER_ELF_STACK_PAGE_VA.
Proof.
  intros U [Hin Hi]%image_page_elem. pose proof (ul_segs _ _ _ U) as HF. rewrite Forall_forall in HF. specialize (HF ph Hin).
  assert (Hm : 0 < p_memsz ph).
  { destruct HF as [E|(_ & Hlo & Hhi & _)]; [rewrite E in Hi; change (seg_pages 0) with 0 in Hi; lia|].
    destruct (decide (0 < p_memsz ph)); [done|]. unfold image_loads in Hin. pose proof (pt_loads_ranges (Z.to_nat (e_phnum (read_ehdr blob (data u)))) blob 0 (data u)) as HR.
    rewrite Forall_forall in HR. destruct (HR ph Hin). assert (E : p_memsz ph = 0) by lia. rewrite E in Hi. change (seg_pages 0) with 0 in Hi. lia. }
  by destruct (seg_page_ok len ph i HF Hm Hi) as (_ & ? & ? & _).
Qed.

Section build.
Context `{TextUser} (u : umem) (Ls As : list Z) (blob len : Z).
Context (T : spaces_ok (vm u) Ls) (Hboot : boot_apart (vm u)) (P : Asid.pool_ok (asids u) As).
Context (Hblob : 0 < blob /\ 0 < len /\ blob + len < 2 ^ 64) (Hheld : forall x, blob <= x < blob + len -> ~ accounted (vm u) Ls x).

Lemma build_elf_space_spec :
  exists r u', build_elf_space blob len u = Some (r, u') /\
    (r = None /\ unbuilt u u' Ls As /\ elf_refused u As blob len \/
     exists l1 asid, r = Some (l1, asid, e_entry (read_ehdr blob (data u))) /\ elf_built u u' Ls As l1 asid blob len).
Proof.
  destruct Hblob as (Hb0 & Hl0 & Htop). unfold build_elf_space. rewrite (proj2 (Z.eqb_neq blob 0)), (proj2 (Z.eqb_neq len 0)) by lia. cbn [orb].
  destruct (user_create_spec (vm u) Ls T Hboot) as (rc & l1 & v & -> & [(-> & C)|(-> & -> & Hz)]); cbn [mbind option_bind Z.eqb negb].
  2:{ exists None, (with_vm (vm u) u). split; [done|]. left. split; [done|]. split; [by destruct u|]. right. right. right. lia. }
  destruct (Asid.alloc_ok (asids u) As P) as (asid & p & Ep & Hp). cbn [with_vm asids]. rewrite Ep.
  destruct Hp as [(-> & -> & Hall)|(Hr & _ & _ & _ & P')].
  { destruct (destroy_created u v Ls As l1 C P) as (v' & E & Hu). cbn [Z.eqb with_asids vm with_vm]. rewrite E. cbn [mbind option_bind].
    exists None, (with_vm v' u). split; [done|]. left. split; [done|]. split; [done|]. right. right. by left. }
  rewrite (proj2 (Z.eqb_neq asid 0)) by lia. pose proof (created_installed u v Ls As l1 asid p blob C P') as I0.
  change (with_asids p (with_vm v u)) with (UMem v p (data u)). set (u1 := UMem v p (data u)) in *.
  assert (Hrel : forall u2, building u u2 Ls As l1 asid -> exists u', (u3 ← release_space l1 asid u2; Some (None, u3)) = Some (None : option (Z * Z * Z), u') /\ unbuilt u u' Ls As).
  { intros u2 B2. destruct (release_building _ _ _ _ _ _ B2) as (u' & -> & Hu). by exists u'. }
  assert (Hb : blob_held u1 blob len).
  { split_and!; try lia. intros x Hx Hf. apply (Hheld x Hx). left. by apply (cr_mono _ _ _ _ C). }
  assert (Hcnt : free_pages (frames (vm u1)) = free_pages (frames (vm u)) - 1) by apply C.
  destruct (elf_load_user_spec u u1 Ls As l1 asid blob len Hb (proj2 (cr_new _ _ _ _ C)) I0) as (rc & e & u2 & -> & [(-> & U & -> & I2)|(Hrc & Ha & Hwhy)]); cbn [mbind option_bind].
  2:{ rewrite (proj2 (Z.eqb_neq rc ELF_OK)) by done. cbn [negb]. destruct (Hrel u2 (proj1 Ha)) as (u' & -> & Hu). exists None, u'. split; [done|]. left. split; [done|]. split; [done|].
      destruct Hwhy as [Hn|[Hd|Hc]]; [left; intros U; by apply Hn; destruct U|right; left; exact Hd|right; right; right]. change (image_pages u blob) with (image_pages u1 blob). lia. }
  cbn [Z.eqb ELF_OK negb]. destruct elf_stack_page as [Hsu Hsv].
  destruct (map_fresh_page_spec u2 (l1 :: Ls) l1 USER_ELF_STACK_PAGE_VA STACK_FLAGS (fun _ d => d) (bd_ok _ _ _ _ _ _ (in_build _ _ _ _ _ _ _ _ _ I2)) ltac:(by left) eq_refl)
    as (ok & u3 & E3 & Hres). unfold STACK_FLAGS in E3. rewrite E3. fold STACK_FLAGS in E3. cbn [mbind option_bind]. destruct Hres as [(-> & (a & F) & _)|(-> & G & Ea & _ & Hwhy)]; cbn [negb].
  - exists (Some (l1, asid, e_entry (read_ehdr blob (data u1)))), u3. split; [done|]. right. exists l1, asid. split; [done|]. split.
    + eapply fresh_building; try done. apply I2.
    + by destruct U.
    + intros ph i Hin Hi. assert (Hp : (ph, i) ∈ image_pages u1 blob) by (by apply image_page_elem). destruct (image_page_below _ _ _ _ _ U Hp) as [_ Hlow].
      apply (page_in_mono l1 blob u1 u); [apply C|done|]. by eapply stack_keeps_page.
    + exists a. rewrite (fm_leaf _ _ _ _ _ _ _ _ F) by (done || by left). by rewrite decide_True.
    + intros x Hx. rewrite (fm_data _ _ _ _ _ _ _ _ F). apply (in_data _ _ _ _ _ _ _ _ _ I2). intros Hf. apply Hx. left. by apply (cr_mono _ _ _ _ C).
  - destruct (Hrel u3) as (u' & -> & Hu); [eapply building_grown; [apply I2|done|done]|]. exists None, u'. split; [done|]. left. split; [done|]. split; [done|].
    destruct Hwhy as [?|[[d Hd]|Hfew]]; [done|exfalso|right; right; right].
    + destruct (in_only _ _ _ _ _ _ _ _ _ I2 (path_of USER_ELF_STACK_PAGE_VA) eq_refl) as (ph & i & Hin & Eq); [intros E0; unfold translate in Hd; by rewrite E0 in Hd|].
      destruct (image_page_below _ _ _ _ _ U Hin) as [Hup Hlow]. apply path_of_inj in Eq; [lia|done|done].
    + pose proof (in_count _ _ _ _ _ _ _ _ _ I2). change (image_pages u blob) with (image_pages u1 blob). lia.
Qed.
End build.
End ElfUser.
