(* ===== verification/UserSessions.v ===== *)
(** Sessions of user tasks: any history of task creation, [mmap], [munmap], exit
    and kernel allocations keeps the address spaces apart and loses no page. *)

From S2P Require Import Prelude.
From S2P Require Import FreeList Buddy BuddyInv BuddySpec PmmSpec PageDesc Vmm VmmTree VmmUser VmmTear Asid KString UserMem UserSpec UserBuild Elf ElfSpec ElfUser.

Module UserSessions.
Import Buddy BuddyInv BuddySpec PageDesc Vmm VmmTree VmmUser VmmTear UserMem UserSpec UserBuild ElfUser.
Open Scope Z_scope.
Open Scope slm_scope.

Section sessions.
Context `{TextUser} (Htext : text_ok) (Helf : elf_ok).

(** ** The machine *)

(** User memory, the user tasks, and the blocks the rest of the kernel holds, each
    with its address and page count. *)
Record machine := Machine { mem : umem; tasks : list user_task; kheld : list (Z * Z) }.

Inductive ucall :=
  | Spawn
  | SpawnElf
  | Mmap (k : nat) (len prot : Z)
  | Munmap (k : nat) (addr len : Z)
  | Switch (k : nat)
  | Exit (k : nat)
  | KAlloc (count : Z)
  | KFree (j : nat).

(** One call; [k] and [j] name a task and a kernel block, a name of none does
    nothing. *)
Definition exec (c : ucall) (m : machine) : option machine :=
  match c with
  | Spawn =>
      '(r, u) ← build_space text_kva text_bytes (mem m);
      match r with
      | None => Some (Machine u (tasks m) (kheld m))
      | Some (l1, asid) => Some (Machine u (user_task_of l1 asid :: tasks m) (kheld m))
      end
  | SpawnElf =>
      '(r, u) ← Elf.build_elf_space elf_kva elf_bytes (mem m);
      match r with
      | None => Some (Machine u (tasks m) (kheld m))
      | Some (l1, asid, _) => Some (Machine u (user_task_of l1 asid :: tasks m) (kheld m))
      end
  | Mmap k len prot =>
      match tasks m !! k with
      | None => Some m
      | Some t =>
          '(_, t', u) ← sys_mmap_handler (Some t) len prot (mem m);
          Some (Machine u (<[k := default t t']> (tasks m)) (kheld m))
      end
  | Munmap k addr len =>
      match tasks m !! k with
      | None => Some m
      | Some t => '(_, u) ← sys_munmap_handler (Some t) addr len (mem m); Some (Machine u (tasks m) (kheld m))
      end
  | Switch k =>
      match tasks m !! k with
      | None => Some m
      | Some t => Some (Machine (with_asids (Asid.vmm_user_addrspace_switch (user_asid t) (asids (mem m))) (mem m)) (tasks m) (kheld m))
      end
  | Exit k =>
      match tasks m !! k with
      | None => Some m
      | Some t => u ← destroy_user_memory t (mem m); Some (Machine u (delete k (tasks m)) (kheld m))
      end
  | KAlloc n =>
      '(p, h) ← pmm_alloc_pages n (frames (vm (mem m)));
      let u := with_vm (with_frames h (vm (mem m))) (mem m) in
      Some (Machine u (tasks m) (if p =? 0 then kheld m else (p, n) :: kheld m))
  | KFree j =>
      match kheld m !! j with
      | None => Some m
      | Some (p, n) =>
          h ← pmm_free_pages p n (frames (vm (mem m)));
          Some (Machine (with_vm (with_frames h (vm (mem m))) (mem m)) (tasks m) (delete j (kheld m)))
      end
  end.

Fixpoint run (cs : list ucall) (m : machine) : option machine :=
  match cs with
  | [] => Some m
  | c :: cs => m ← exec c m; run cs m
  end.

(** Arguments in the range of their C types. *)
Definition ucall_ok (c : ucall) : Prop :=
  match c with
  | Mmap _ len _ => is_u64 len
  | Munmap _ addr len => is_u64 addr /\ is_u64 len
  | KAlloc n => 0 < n <= 2 ^ 63
  | _ => True
  end.

(** ** The invariant *)

Definition kblock (b : Z * Z) (x : Z) : Prop := in_block b.1 (order_for b.2) x.

(** The pages that were free at the start, [F], are now free, owned by a space or
    held by the kernel, each in one way only. *)
Record kernel_ok (F : Z -> Prop) (v : vmm) (Ls : list Z) (kh : list (Z * Z)) : Prop := {
  ko_boot : aligned 0 (l1_table v) /\ forall x, in_block (l1_table v) 0 x -> ~ F x;
  ko_text : forall x, kernel_image x -> ~ F x;
  ko_acc : forall x, F x <-> accounted v Ls x \/ exists b, b ∈ kh /\ kblock b x;
  ko_block : forall b, b ∈ kh -> 0 < b.2 <= 2 ^ 63 /\ (order_for b.2 <= FreeList.MAX_ORDER)%nat /\ aligned (order_for b.2) b.1 /\
    heap_start (frames v) <= b.1 /\ b.1 + bsize (order_for b.2) <= heap_end (frames v) /\
    forall x, kblock b x -> ~ accounted v Ls x;
  ko_sep : forall j j' b b' x, kh !! j = Some b -> kh !! j' = Some b' -> kblock b x -> kblock b' x -> j = j'
}.

Notation l1s ts := (user_l1_pa <$> ts).
Notation asids_of ts := (user_asid <$> ts).

Record task_ok (v : vmm) (t : user_task) : Prop := {
  tk_user : is_user t = true;
  tk_next : (PAGE_SIZE | user_va_next t) /\ USER_MMAP_VA_START <= user_va_next t <= USER_VA_LIMIT;
  tk_above : forall va, user_page va -> user_va_next t <= va -> leafv (words v) (user_l1_pa t) (path_of va) = 0;
  tk_leaf : forall q, length q = 3%nat -> leaf_ok (leafv (words v) (user_l1_pa t) q)
}.

Record machine_ok (F : Z -> Prop) (m : machine) : Prop := {
  mo_spaces : spaces_ok (vm (mem m)) (l1s (tasks m));
  mo_nodup : NoDup (l1s (tasks m));
  mo_pool : Asid.pool_ok (asids (mem m)) (asids_of (tasks m));
  mo_tasks : forall t, t ∈ tasks m -> task_ok (vm (mem m)) t;
  mo_kernel : kernel_ok F (vm (mem m)) (l1s (tasks m)) (kheld m)
}.

Lemma kernel_ok_step F v v' Ls Ls' kh :
  kernel_ok F v Ls kh -> statics v v' -> (forall x, accounted v' Ls' x <-> accounted v Ls x) -> kernel_ok F v' Ls' kh.
Proof.
  intros [K1 K2 K3 K4 K5] (E1 & _ & _ & _ & E2 & E3) Ha. split; try done.
  - by rewrite E1.
  - intros x. by rewrite Ha, K3.
  - intros b Hb. rewrite E2, E3. destruct (K4 b Hb) as (? & ? & ? & ? & ? & Hx). split_and!; try done; try lia. intros x. rewrite Ha. auto.
Qed.

Lemma kernel_ok_boot F v Ls kh : kernel_ok F v Ls kh -> boot_apart v.
Proof. intros [[K1 K1'] _ K3 _ _]. split; [done|]. intros x Hx Hf. apply (K1' x Hx), K3. left. by left. Qed.

Lemma task_ok_leaf v v' t :
  task_ok v t -> (forall q, length q = 3%nat -> leafv (words v') (user_l1_pa t) q = leafv (words v) (user_l1_pa t) q) -> task_ok v' t.
Proof.
  intros [T1 T2 T3 T4] Hl. split; try done.
  - intros va Hu Hva. rewrite Hl by done. auto.
  - intros q Hq. rewrite Hl by done. auto.
Qed.

Lemma task_l1 (ts : list user_task) t : t ∈ ts -> user_l1_pa t ∈ l1s ts.
Proof. apply list_elem_of_fmap_2. Qed.

(** ** [mmap] and [munmap] *)

Lemma mmap_flags_ok prot :
  has (mmap_flags prot) VMM_FLAG_USER = true /\ has (mmap_flags prot) VMM_FLAG_PMM_OWNED = true /\
  has (mmap_flags prot) VMM_FLAG_WRITE = has prot PROT_WRITE /\ has (mmap_flags prot) VMM_FLAG_EXEC = has prot PROT_EXEC.
Proof. unfold mmap_flags, or_if. destruct (has prot PROT_READ), (has prot PROT_WRITE), (has prot PROT_EXEC); vm_compute; auto. Qed.

(** The pages of a request. *)
Definition pages_of (len : Z) : Z := (len + (PAGE_SIZE - 1)) / PAGE_SIZE.

Lemma pages_of_bounds len : 0 < len <= SYS_MMAP_MAX_LEN_BYTES -> 0 < pages_of len <= 0x4000 /\ (len +64 (PAGE_SIZE - 1)) / PAGE_SIZE = pages_of len.
Proof.
  intros Hl. unfold SYS_MMAP_MAX_LEN_BYTES in Hl. rewrite u64_small by (unfold is_u64, PAGE_SIZE; lia).
  split; [|done]. unfold pages_of, PAGE_SIZE. split; [apply Z.div_str_pos|apply Z.lt_succ_r, Z.div_lt_upper_bound]; lia.
Qed.

(** The pages of a range inside the window. *)
Lemma range_pages base pages i :
  (PAGE_SIZE | base) -> USER_VA_BASE <= base -> base + pages * PAGE_SIZE <= USER_VA_LIMIT -> 0 <= i < pages -> user_page (base + i * PAGE_SIZE).
Proof.
  intros Hd Hlo Hhi Hi. split; [unfold PAGE_SIZE in *; lia|]. apply Z.divide_add_r; [done|by exists i].
Qed.

(** Why a request is refused. *)
Definition mmap_refused (u : umem) (t : user_task) (len : Z) : Prop :=
  len = 0 \/ SYS_MMAP_MAX_LEN_BYTES < len \/ USER_VA_LIMIT < user_va_next t + pages_of len * PAGE_SIZE \/
  free_pages (frames (vm u)) < 3 * pages_of len.

Lemma sys_mmap_spec u Ls t len prot :
  spaces_ok (vm u) Ls -> user_l1_pa t ∈ Ls -> task_ok (vm u) t -> is_u64 len ->
  exists ret t' u', sys_mmap_handler (Some t) len prot u = Some (ret, Some t', u') /\
    (ret = -1 /\ t' = t /\ mmap_failed u Ls u' /\ mmap_refused u t len \/
     ret = user_va_next t /\ t' = UserTask true (user_l1_pa t) (user_asid t) (user_va_next t + pages_of len * PAGE_SIZE) /\
     user_va_next t + pages_of len * PAGE_SIZE <= USER_VA_LIMIT /\
     mmapped u Ls (user_l1_pa t) (user_va_next t) (mmap_flags prot) u' (pages_of len)).
Proof.
  intros T Hl [K1 [K2 K2'] K3 K4] Hlen. unfold sys_mmap_handler.
  assert (Hfail : mmap_failed u Ls u) by (unfold mmap_failed; split_and!; try done; by apply grown_refl).
  destruct (Z.eqb_spec len 0) as [E0|N0]; cbn [orb].
  { exists (-1), t, u. split; [done|]. left. split_and!; try done. by left. }
  destruct (Z.ltb_spec SYS_MMAP_MAX_LEN_BYTES len) as [Hbig|Hsmall].
  { exists (-1), t, u. split; [done|]. left. split_and!; try done. right. by left. }
  pose proof (allocated_bounds _ _ _ _ T _ (node_allocated _ _ _ _ T (user_l1_pa t) [] _ Hl ltac:(cbn; lia) eq_refl)) as Hnz.
  rewrite K1, (proj2 (Z.eqb_neq (user_l1_pa t) 0)) by lia. cbn [negb orb].
  unfold is_u64 in Hlen. destruct (pages_of_bounds len ltac:(lia)) as [Hp ->]. set (pages := pages_of len) in *.
  assert (Htot : u64 (pages * PAGE_SIZE) = pages * PAGE_SIZE) by (apply u64_small; unfold is_u64, PAGE_SIZE; lia). rewrite Htot.
  assert (USER_VA_LIMIT = 0x8000000000 /\ USER_MMAP_VA_START = 0x4000100000 /\ USER_VA_BASE = 0x4000000000) as (L1 & L2 & L3) by done.
  assert (Hnx : user_va_next t +64 pages * PAGE_SIZE = user_va_next t + pages * PAGE_SIZE) by (apply u64_small; unfold is_u64, PAGE_SIZE; lia). rewrite Hnx.
  rewrite (proj2 (Z.ltb_ge _ USER_MMAP_VA_START)) by lia. cbn [orb].
  destruct (Z.ltb_spec USER_VA_LIMIT (user_va_next t + pages * PAGE_SIZE)) as [Hover|Hfit].
  { exists (-1), t, u. split; [done|]. left. split_and!; try done. right. right. by left. }
  destruct (mmap_flags_ok prot) as (_ & Ho & _).
  destruct (mmap_pages_spec u Ls (user_l1_pa t) (user_va_next t) (mmap_flags prot) Hl Ho ltac:(lia) pages (Z.to_nat pages) 0 u)
    as (ok & u' & -> & Hres); try lia.
  { intros i Hi. assert (Hu : user_page (user_va_next t + i * PAGE_SIZE)) by (by apply (range_pages _ pages); [|lia|..]).
    split; [done|]. apply K3; [done|]. unfold PAGE_SIZE. lia. }
  { by apply mmapped_start. }
  cbn [mbind option_bind]. destruct Hres as [[-> M]|(-> & Hf & Hfew)].
  - eexists _, _, _. split; [done|]. right. split_and!; done.
  - exists (-1), t, u'. split; [done|]. left. split_and!; try done. right. right. by right.
Qed.

Lemma sys_munmap_spec u Ls t addr len :
  spaces_ok (vm u) Ls -> user_l1_pa t ∈ Ls -> is_user t = true -> is_u64 addr -> is_u64 len ->
  exists ret u', sys_munmap_handler (Some t) addr len u = Some (ret, u') /\ asids u' = asids u /\ data u' = data u /\
    (ret = -1 /\ u' = u /\ (len = 0 \/ SYS_MMAP_MAX_LEN_BYTES < len \/ ~ (PAGE_SIZE | addr) \/ addr < USER_MMAP_VA_START \/
       USER_VA_LIMIT < addr + pages_of len * PAGE_SIZE) \/
     USER_MMAP_VA_START <= addr /\ (PAGE_SIZE | addr) /\ addr + pages_of len * PAGE_SIZE <= USER_VA_LIMIT /\
     unmapped (vm u) Ls (user_l1_pa t) addr (pages_of len) ret (vm u')).
Proof.
  intros T Hl Hus Ha Hlen. unfold sys_munmap_handler. unfold is_u64 in Hlen, Ha.
  assert (Hbad : forall P : Prop, P -> exists ret u', Some (-1, u) = Some (ret, u') /\ asids u' = asids u /\ data u' = data u /\ (ret = -1 /\ u' = u /\ P \/
     USER_MMAP_VA_START <= addr /\ (PAGE_SIZE | addr) /\ addr + pages_of len * PAGE_SIZE <= USER_VA_LIMIT /\
     unmapped (vm u) Ls (user_l1_pa t) addr (pages_of len) ret (vm u'))).
  { intros P HP. exists (-1), u. split_and!; try done. by left. }
  destruct (Z.eqb_spec len 0) as [E0|N0]; cbn [orb]; [by apply Hbad; left|].
  destruct (Z.ltb_spec SYS_MMAP_MAX_LEN_BYTES len) as [Hbig|Hsmall]; [by apply Hbad; right; left|].
  destruct (negb (Z.land addr (PAGE_SIZE - 1) =? 0)) eqn:Eal.
  { apply Hbad. right. right. left. intros Hd. rewrite <- bsize_0 in Hd. apply PmmSpec.page_aligned_land in Hd. congruence. }
  apply PmmSpec.page_aligned_land in Eal. unfold aligned in Eal. rewrite bsize_0 in Eal.
  pose proof (allocated_bounds _ _ _ _ T _ (node_allocated _ _ _ _ T (user_l1_pa t) [] _ Hl ltac:(cbn; lia) eq_refl)) as Hnz.
  rewrite Hus, (proj2 (Z.eqb_neq (user_l1_pa t) 0)) by lia. cbn [negb orb].
  destruct (pages_of_bounds len ltac:(lia)) as [Hp ->]. set (pages := pages_of len) in *.
  assert (USER_VA_LIMIT = 0x8000000000 /\ USER_MMAP_VA_START = 0x4000100000) as (L1 & L2) by done.
  destruct (Z.ltb_spec addr USER_MMAP_VA_START) as [Hlo|Hlo]; cbn [orb]; [by apply Hbad; auto|].
  destruct (Z.leb_spec USER_VA_LIMIT addr) as [Hhi|Hhi]; [apply Hbad; do 4 right; unfold PAGE_SIZE; lia|].
  assert (Htot : u64 (pages * PAGE_SIZE) = pages * PAGE_SIZE) by (apply u64_small; unfold is_u64, PAGE_SIZE; lia). rewrite Htot.
  rewrite (u64_small (addr + pages * PAGE_SIZE)) by (unfold is_u64, PAGE_SIZE; lia).
  destruct (Z.ltb_spec USER_VA_LIMIT (addr + pages * PAGE_SIZE)) as [Hover|Hfit]; [by apply Hbad; do 4 right|].
  destruct (unmap_range_spec (vm u) Ls (user_l1_pa t) addr pages T Hl ltac:(lia) ltac:(lia) ltac:(lia)) as (rc & v & -> & U).
  cbn [mbind option_bind]. eexists _, _. split; [done|]. split_and!; [done..|]. right. split_and!; done.
Qed.

(** ** Every call keeps the invariant *)

Lemma accounted_members v A B x : (forall l, l ∈ A <-> l ∈ B) -> accounted v A x <-> accounted v B x.
Proof.
  intros E. unfold accounted, footprint. split; (intros [?|(l & q & a & Hl & ?)]; [by left|right; exists l, q, a; split; [by apply E|done]]).
Qed.

(** A new task on a new space; a space that was not built. *)
Lemma spawned_ok F m u l1 asid :
  machine_ok F m -> building (mem m) u (l1s (tasks m)) (asids_of (tasks m)) l1 asid ->
  machine_ok F (Machine u (user_task_of l1 asid :: tasks m) (kheld m)).
Proof.
  intros [M1 M2 M3 M4 M5] [B1 B2 B3 B4 B5 B6 B7 B8 B9]. split; cbn [mem tasks kheld]; rewrite ?fmap_cons; try done.
  - by constructor.
  - intros t [->|Ht]%elem_of_cons.
    + split; try done. split; [by exists (USER_MMAP_VA_START / PAGE_SIZE)|done].
    + eapply task_ok_leaf; [by apply M4|]. intros q Hq. apply B6; [by apply task_l1|done].
  - by eapply kernel_ok_step.
Qed.

Lemma unspawned_ok F m u :
  machine_ok F m -> unbuilt (mem m) u (l1s (tasks m)) (asids_of (tasks m)) -> machine_ok F (Machine u (tasks m) (kheld m)).
Proof.
  intros [M1 M2 M3 M4 M5] [U1 U2 U3 U4 U5]. split; cbn [mem tasks kheld]; try done.
  - intros t Ht. eapply task_ok_leaf; [by apply M4|]. intros q Hq. apply U4; [by apply task_l1|done].
  - by eapply kernel_ok_step.
Qed.

Lemma spawn_ok F m : machine_ok F m -> exists m', exec Spawn m = Some m' /\ machine_ok F m'.
Proof.
  intros Hm. pose proof Hm as [M1 _ M3 _ M5]. cbn [exec].
  destruct (build_space_spec Htext (mem m) (l1s (tasks m)) (asids_of (tasks m)) M1 (kernel_ok_boot _ _ _ _ M5) M3)
    as (r & u & -> & [(-> & U)|(l1 & asid & -> & B)]); cbn [mbind option_bind]; eexists; (split; [done|]); [by apply unspawned_ok|by apply spawned_ok].
Qed.

(** The image of the embedded program is in no page of the pool. *)
Lemma image_apart F m x : machine_ok F m -> elf_kva <= x < elf_kva + elf_bytes -> ~ accounted (vm (mem m)) (l1s (tasks m)) x.
Proof. intros [_ _ _ _ [_ K2 K3 _ _]] Hx Ha. apply (K2 x); [by right|]. apply K3. by left. Qed.

Lemma elf_space F m :
  machine_ok F m ->
  exists r u', Elf.build_elf_space elf_kva elf_bytes (mem m) = Some (r, u') /\
    (r = None /\ unbuilt (mem m) u' (l1s (tasks m)) (asids_of (tasks m)) /\ elf_refused (mem m) (asids_of (tasks m)) elf_kva elf_bytes \/
     exists l1 asid, r = Some (l1, asid, Elf.e_entry (Elf.read_ehdr elf_kva (data (mem m)))) /\
       elf_built (mem m) u' (l1s (tasks m)) (asids_of (tasks m)) l1 asid elf_kva elf_bytes).
Proof.
  intros Hm. pose proof Hm as [M1 _ M3 _ M5]. destruct Helf as (He1 & He2 & He3).
  apply build_elf_space_spec; [done|by eapply kernel_ok_boot|done|lia|]. intros x Hx. by eapply image_apart.
Qed.

Lemma spawn_elf_ok F m : machine_ok F m -> exists m', exec SpawnElf m = Some m' /\ machine_ok F m'.
Proof.
  intros Hm. cbn [exec]. destruct (elf_space F m Hm) as (r & u & -> & [(-> & U & _)|(l1 & asid & -> & B)]); cbn [mbind option_bind];
    eexists; (split; [done|]); [by apply unspawned_ok|apply spawned_ok; [done|by eapply eb_build]].
Qed.

Lemma l1s_insert (ts : list user_task) k t t' :
  ts !! k = Some t -> user_l1_pa t' = user_l1_pa t -> user_asid t' = user_asid t -> l1s (<[k := t']> ts) = l1s ts /\ asids_of (<[k := t']> ts) = asids_of ts.
Proof.
  intros Hk E1 E2. rewrite !list_fmap_insert, E1, E2. split; apply list_insert_id; by rewrite list_lookup_fmap, Hk.
Qed.

Lemma mmap_failed_ok F u ts kh u' :
  machine_ok F (Machine u ts kh) -> mmap_failed u (l1s ts) u' -> machine_ok F (Machine u' ts kh).
Proof.
  intros [M1 M2 M3 M4 M5] [[G1 G2 G3 G4 G5 G6 G7] [Ea _]]. cbn [mem tasks kheld] in *. split; cbn [mem tasks kheld]; try done.
  - by rewrite Ea.
  - intros t Ht. eapply task_ok_leaf; [by apply M4|]. intros q Hq. apply G4; [by apply task_l1|done].
  - by eapply kernel_ok_step.
Qed.

(** The leaves of a space after an [mmap]. *)
Lemma mmapped_task u Ls t prot u' pages :
  user_l1_pa t ∈ Ls -> task_ok (vm u) t -> 0 <= pages -> user_va_next t + pages * PAGE_SIZE <= USER_VA_LIMIT ->
  mmapped u Ls (user_l1_pa t) (user_va_next t) (mmap_flags prot) u' pages ->
  task_ok (vm u') (UserTask true (user_l1_pa t) (user_asid t) (user_va_next t + pages * PAGE_SIZE)).
Proof.
  intros Hl [K1 [K2 K2'] K3 K4] Hp Hfit M. destruct (mmap_flags_ok prot) as (Hu & Ho & _). split; cbn [is_user user_va_next user_l1_pa]; try done.
  - split; [apply Z.divide_add_r; [done|by exists pages]|]. unfold PAGE_SIZE in *. lia.
  - intros va Hva Hge. rewrite (mm_same _ _ _ _ _ _ _ M); try done; [apply K3; [done|]; unfold PAGE_SIZE in *; lia|].
    intros [_ (i & Hi & Hui & E)]. apply path_of_inj in E; try done. unfold PAGE_SIZE in *. lia.
  - intros q Hq. destruct (decide (seen (user_va_next t) pages q)) as [(i & Hi & Hui & ->)|Hn].
    + destruct (mm_new _ _ _ _ _ _ _ M i Hi) as [_ (a & -> & Ha & Hd & _)]. right. exists a, (mmap_flags prot). split_and!; try done; try lia. by left.
    + rewrite (mm_same _ _ _ _ _ _ _ M); try done; [by apply K4|]. by intros [_ ?].
Qed.

Lemma mmap_ok F m k len prot :
  machine_ok F m -> is_u64 len -> exists m', exec (Mmap k len prot) m = Some m' /\ machine_ok F m'.
Proof.
  intros Hm Hlen. cbn [exec]. destruct (tasks m !! k) as [t|] eqn:Hk; [|by exists m]. destruct m as [u ts kh]. cbn [mem tasks kheld] in *.
  pose proof Hm as [M1 M2 M3 M4 M5]. cbn [mem tasks kheld] in *.
  assert (Ht : t ∈ ts) by (by eapply list_elem_of_lookup_2).
  destruct (sys_mmap_spec u (l1s ts) t len prot M1 (task_l1 _ _ Ht) (M4 t Ht) Hlen) as (ret & t' & u' & -> & Hres). cbn [mbind option_bind default].
  eexists. split; [done|]. destruct Hres as [(_ & -> & Hf & _)|(_ & Et & Hfit & M)]; cbn [default].
  { rewrite list_insert_id by done. by eapply mmap_failed_ok. }
  destruct (l1s_insert ts k t t' Hk) as [E1 E2]; [by rewrite Et..|].
  assert (Hp : 0 <= pages_of len) by (unfold is_u64 in Hlen; apply Z.div_pos; unfold PAGE_SIZE; lia).
  split; cbn [mem tasks kheld]; change (id t') with t'; rewrite ?E1, ?E2; try done.
  - apply M.
  - by rewrite (mm_asids _ _ _ _ _ _ _ M).
  - intros s Hs. apply list_elem_of_lookup in Hs as [j Hj]. destruct (decide (j = k)) as [->|Hne].
    + rewrite list_lookup_insert_eq in Hj by (by eapply lookup_lt_Some). injection Hj as <-. rewrite Et. eapply mmapped_task; try done; [by apply task_l1|by apply M4].
    + rewrite list_lookup_insert_ne in Hj by done. assert (Hs : s ∈ ts) by (by eapply list_elem_of_lookup_2).
      eapply task_ok_leaf; [by apply M4|]. intros q Hq. apply (mm_same _ _ _ _ _ _ _ M); [by apply task_l1|done|]. intros [E _]. apply Hne.
      eapply (NoDup_lookup (l1s ts)); [done|by rewrite list_lookup_fmap, Hj|rewrite list_lookup_fmap, Hk; cbn; by rewrite E].
  - eapply kernel_ok_step; [done|apply M|]. intros x. apply (mm_acc _ _ _ _ _ _ _ M).
Qed.

Lemma munmap_ok F m k addr len :
  machine_ok F m -> is_u64 addr -> is_u64 len -> exists m', exec (Munmap k addr len) m = Some m' /\ machine_ok F m'.
Proof.
  intros Hm Ha Hlen. cbn [exec]. destruct (tasks m !! k) as [t|] eqn:Hk; [|by exists m].
  assert (Ht : t ∈ tasks m) by (by eapply list_elem_of_lookup_2). pose proof Hm as [M1 M2 M3 M4 M5].
  destruct (sys_munmap_spec (mem m) (l1s (tasks m)) t addr len M1 (task_l1 _ _ Ht) (tk_user _ _ (M4 t Ht)) Ha Hlen)
    as (ret & u' & -> & Ea & _ & Hres). cbn [mbind option_bind]. eexists. split; [done|].
  destruct Hres as [(_ & -> & _)|(_ & _ & _ & [U1 U2 U3 U4 U5 U6 U7 _ _ _])]; [by destruct m|].
  split; cbn [mem tasks kheld]; try done.
  - by rewrite Ea.
  - intros s Hs. destruct (M4 s Hs) as [K1 K2 K3 K4]. pose proof (task_l1 _ _ Hs). split; try done.
    + intros va Hu Hva. rewrite U4 by done. case_decide; [done|auto].
    + intros q Hq. rewrite U4 by done. case_decide; [by left|auto].
  - by eapply kernel_ok_step.
Qed.

Lemma switch_task_ok F m k : machine_ok F m -> exists m', exec (Switch k) m = Some m' /\ machine_ok F m'.
Proof.
  intros Hm. cbn [exec]. destruct (tasks m !! k) as [t|] eqn:Hk; [|by exists m]. eexists. split; [done|].
  destruct Hm as [M1 M2 M3 M4 M5]. split; cbn [mem tasks kheld with_asids vm asids]; try done.
  apply Asid.switch_ok; [done|]. eapply list_elem_of_fmap_2. by eapply list_elem_of_lookup_2.
Qed.

Lemma delete_member (ts : list user_task) k t :
  NoDup (l1s ts) -> ts !! k = Some t -> forall l, l ∈ l1s (delete k ts) <-> l ∈ others (l1s ts) (user_l1_pa t).
Proof.
  intros Hnd Hk l. rewrite list_fmap_delete, elem_of_others.
  assert (Hp : l1s ts ≡ₚ user_l1_pa t :: delete k (l1s ts)) by (apply delete_Permutation; by rewrite list_lookup_fmap, Hk).
  assert (Hm : l ∈ l1s ts <-> l = user_l1_pa t \/ l ∈ delete k (l1s ts)) by (rewrite <- elem_of_cons; by apply elem_of_Permutation_proper).
  pose proof Hnd as Hnd'. rewrite Hp in Hnd'. apply NoDup_cons in Hnd' as [Hn _]. rewrite Hm. split.
  - intros Hl. split; [by right|]. by intros ->.
  - by intros [[->|?] ?].
Qed.

Lemma delete_subset {A} (ts : list A) k t : t ∈ delete k ts -> t ∈ ts.
Proof.
  intros [j Hj]%list_elem_of_lookup. destruct (decide (j < k)%nat).
  - rewrite list_lookup_delete_lt in Hj by done. by eapply list_elem_of_lookup_2.
  - rewrite list_lookup_delete_ge in Hj by lia. by eapply list_elem_of_lookup_2.
Qed.

Lemma exit_ok F m k : machine_ok F m -> exists m', exec (Exit k) m = Some m' /\ machine_ok F m'.
Proof.
  intros [M1 M2 M3 M4 M5]. cbn [exec]. destruct (tasks m !! k) as [t|] eqn:Hk; [|by exists m].
  assert (Ht : t ∈ tasks m) by (by eapply list_elem_of_lookup_2). pose proof (task_l1 _ _ Ht) as Hl.
  pose proof (allocated_bounds _ _ _ _ M1 _ (node_allocated _ _ _ _ M1 (user_l1_pa t) [] _ Hl ltac:(cbn; lia) eq_refl)) as Hnz.
  assert (Has : 1 <= user_asid t) by (apply (Asid.po_held _ _ M3); by eapply list_elem_of_fmap_2).
  unfold destroy_user_memory. rewrite (proj2 (Z.eqb_neq (user_l1_pa t) 0)), (proj2 (Z.eqb_neq (user_asid t) 0)) by lia. cbn [negb].
  destruct (user_destroy_spec (vm (mem m)) (l1s (tasks m)) (user_l1_pa t) M1 Hl) as (v & -> & [D1 D2 D3 D4 D5 D6 D7]). cbn [mbind option_bind].
  pose proof (delete_member (tasks m) k t M2 Hk) as Hmem.
  eexists. split; [done|]. split; cbn [mem tasks kheld with_asids with_vm vm asids]; try done.
  - eapply tables_sub; [exact D1|]. intros l. by rewrite Hmem.
  - rewrite list_fmap_delete. eapply sublist_NoDup; [exact M2|]. apply sublist_delete.
  - rewrite list_fmap_delete. apply Asid.release_ok; [done|]. by rewrite list_lookup_fmap, Hk.
  - intros s Hs. eapply task_ok_leaf; [by apply M4, (delete_subset _ k)|]. intros q Hq. apply D4; [|done]. by apply Hmem, task_l1.
  - eapply kernel_ok_step; [done|done|]. intros x. rewrite (accounted_members _ _ _ _ Hmem). apply D6.
Qed.

(** Pages the kernel takes and gives back leave the spaces alone. *)
Lemma frames_change v h Ls :
  spaces_ok v Ls -> inv h -> heap_start h = heap_start (frames v) -> heap_end h = heap_end (frames v) ->
  (forall x, footprint (words v) Ls x -> ~ is_free h x) -> spaces_ok (with_frames h v) Ls.
Proof.
  intros T Hinv Hs He Hf. eapply (tables_agree _ _ _ _ T); try done. intros l p a Hl Ha.
  destruct (t_alloc _ _ _ _ T l p a Hl Ha) as (? & ? & ? & _). unfold is_allocated. cbn [with_frames frames]. rewrite Hs, He. split_and!; try done.
  intros x Hx. apply Hf. by exists l, p, a.
Qed.

Lemma footprint_not_free v Ls x : spaces_ok v Ls -> footprint (words v) Ls x -> ~ is_free (frames v) x.
Proof. intros T (l & p & a & Hl & Ha & Hx). destruct (t_alloc _ _ _ _ T l p a Hl Ha) as (_ & _ & _ & Hnf). by apply Hnf. Qed.

Lemma kalloc_ok F m n : machine_ok F m -> 0 < n <= 2 ^ 63 -> exists m', exec (KAlloc n) m = Some m' /\ machine_ok F m'.
Proof.
  intros [M1 M2 M3 M4 M5] Hn. cbn [exec].
  destruct (PmmSpec.alloc_pages_spec n (frames (vm (mem m))) (t_inv _ _ _ _ M1) Hn) as (p & h & -> & Hinv & Hres). cbn [mbind option_bind].
  destruct Hres as [(Hp & Ho & (Hal & Hlo & Hhi & Hfr & Hf & Hs & He & _))|(-> & -> & _)].
  2:{ eexists. split; [done|]. cbn [Z.eqb]. destruct m as [[[] ? ?] ? ?]. done. }
  rewrite (proj2 (Z.eqb_neq p 0)) by done. eexists. split; [done|]. set (v := vm (mem m)) in *.
  assert (Hacc : forall x, accounted (with_frames h v) (l1s (tasks m)) x <-> accounted v (l1s (tasks m)) x /\ ~ in_block p (order_for n) x).
  { intros x. unfold accounted. cbn [with_frames frames words]. rewrite Hf. split; [|tauto]. intros [?|Hfp]; [tauto|]. split; [by right|].
    intros Hx. eapply footprint_not_free; eauto. }
  split; cbn [mem tasks kheld with_vm vm asids]; try done.
  - apply frames_change; try done. intros x Hx [? _]%Hf. by eapply footprint_not_free.
  - intros t Ht. eapply task_ok_leaf; [by apply M4|]. done.
  - destruct M5 as [K1 K2 K3 K4 K5]. split; try done.
    + intros x. rewrite Hacc, K3. setoid_rewrite elem_of_cons. split.
      * intros [Hx|(b & Hb & Hx)]; [|right; exists b; auto]. destruct (decide (in_block p (order_for n) x)) as [Hin|Hin]; [right; exists (p, n); auto|by left].
      * intros [[? _]|(b & [->|Hb] & Hx)]; [by left|left; left; by apply Hfr|right; by exists b].
    + intros b [->|Hb]%elem_of_cons; cbn [fst snd with_frames frames].
      * split_and!; try done; try lia. intros x Hx. rewrite Hacc. by intros [_ ?].
      * destruct (K4 b Hb) as (? & ? & ? & ? & ? & Hx). split_and!; try done; try lia. intros x Hxb. rewrite Hacc. intros [? _]. by apply (Hx x).
    + assert (Hd : forall j b x, kheld m !! j = Some b -> kblock (p, n) x -> kblock b x -> False).
      { intros j b x Hj Hx Hxb. destruct (K4 b) as (_ & _ & _ & _ & _ & Hna); [by eapply list_elem_of_lookup_2|]. apply (Hna x Hxb). left. by apply Hfr. }
      intros [|j] [|j'] b b' x Hb Hb' Hx Hx'; cbn in Hb, Hb'; simplify_eq; [done|by destruct (Hd j' b' x)|by destruct (Hd j b x)|]. f_equal. by eapply K5.
Qed.

Lemma kfree_ok F m j : machine_ok F m -> exists m', exec (KFree j) m = Some m' /\ machine_ok F m'.
Proof.
  intros [M1 M2 M3 M4 M5]. cbn [exec]. destruct (kheld m !! j) as [[p n]|] eqn:Hj; [|by exists m].
  set (v := vm (mem m)) in *. pose proof M5 as [K1 K2 K3 K4 K5].
  destruct (K4 (p, n)) as (Hn & Ho & Hal & Hlo & Hhi & Hna); [by eapply list_elem_of_lookup_2|]. cbn [fst snd] in *.
  destruct (PmmSpec.free_pages_spec p n (frames v) (t_inv _ _ _ _ M1) Hn Ho) as (h & -> & Hinv & Hrel & Hs & He & _).
  { split_and!; try done. intros x Hx Hfx. apply (Hna x Hx). by left. }
  cbn [mbind option_bind]. eexists. split; [done|].
  assert (Hacc : forall x, accounted (with_frames h v) (l1s (tasks m)) x <-> accounted v (l1s (tasks m)) x \/ in_block p (order_for n) x).
  { intros x. unfold accounted. cbn [with_frames frames words]. rewrite Hrel. tauto. }
  assert (Hperm : kheld m ≡ₚ (p, n) :: delete j (kheld m)) by (by apply delete_Permutation).
  assert (Hin : forall b, b ∈ kheld m <-> b = (p, n) \/ b ∈ delete j (kheld m)) by (intros b; rewrite <- elem_of_cons; by apply elem_of_Permutation_proper).
  split; cbn [mem tasks kheld with_vm vm asids]; try done.
  - apply frames_change; try done. intros x Hx [?|Hxp]%Hrel; [by eapply footprint_not_free|]. apply (Hna x Hxp). by right.
  - intros t Ht. eapply task_ok_leaf; [by apply M4|]. done.
  - split; try done.
    + intros x. rewrite Hacc, K3. setoid_rewrite Hin. split.
      * intros [?|(b & [->|Hb] & Hx)]; [by left; left|by left; right|right; by exists b].
      * intros [[?|Hx]|(b & Hb & Hx)]; [by left|right; exists (p, n); auto|right; exists b; auto].
    + intros b Hb. apply list_elem_of_lookup in Hb as [i Hi].
      set (i' := if decide (i < j)%nat then i else S i).
      assert (kheld m !! i' = Some b /\ i' <> j) as [Hi' Hne].
      { unfold i'. case_decide; [rewrite list_lookup_delete_lt in Hi by done|rewrite list_lookup_delete_ge in Hi by lia]; (split; [done|lia]). }
      destruct (K4 b) as (? & ? & ? & ? & ? & Hx); [by eapply list_elem_of_lookup_2|]. cbn [with_frames frames]. rewrite Hs, He. split_and!; try done; try lia.
      intros x Hxb. rewrite Hacc. intros [?|Hxp]; [by apply (Hx x)|]. apply Hne. by eapply (K5 i' j b (p, n) x).
    + intros i i' b b' x Hi Hi' Hx Hx'.
      set (d := fun i => if decide (i < j)%nat then i else S i).
      assert (Hd : forall i b, delete j (kheld m) !! i = Some b -> kheld m !! d i = Some b).
      { intros i0 b0 Hi0. unfold d. case_decide; [by rewrite list_lookup_delete_lt in Hi0|by rewrite list_lookup_delete_ge in Hi0 by lia]. }
      assert (E : d i = d i') by (eapply (K5 (d i) (d i') b b' x); auto). unfold d in E. repeat case_decide; lia.
Qed.

Lemma machine_run_ok F cs m : machine_ok F m -> Forall ucall_ok cs -> exists m', run cs m = Some m' /\ machine_ok F m'.
Proof.
  intros Hm Hcs. revert m Hm. induction Hcs as [|c cs Hc Hcs IH]; intros m Hm; [by exists m|]. cbn [run].
  assert (exists m', exec c m = Some m' /\ machine_ok F m') as (m' & -> & Hm').
  { destruct c; cbn [ucall_ok] in Hc; [by apply spawn_ok|by apply spawn_elf_ok|by apply mmap_ok|destruct Hc; by apply munmap_ok|by apply switch_task_ok|by apply exit_ok|by apply kalloc_ok|by apply kfree_ok]. }
  cbn [mbind option_bind]. by apply IH.
Qed.

(** ** Properties *)

(** The state [vmm_init] leaves to the first user task: no user memory yet, the boot
    L1 and the program text outside the pages the allocator hands out. *)
Record boot_ok (m : machine) : Prop := {
  bo_tasks : tasks m = [];
  bo_kheld : kheld m = [];
  bo_inv : inv (frames (vm (mem m)));
  bo_top : heap_end (frames (vm (mem m))) <= 2 ^ 48;
  bo_l1 : aligned 0 (l1_table (vm (mem m)));
  bo_l1_held : forall x, in_block (l1_table (vm (mem m))) 0 x -> ~ is_free (frames (vm (mem m))) x;
  bo_text : forall x, kernel_image x -> ~ is_free (frames (vm (mem m))) x;
  bo_asids : Asid.pool_ok (asids (mem m)) []
}.

Lemma boot_machine_ok m : boot_ok m -> machine_ok (is_free (frames (vm (mem m)))) m.
Proof.
  intros [B1 B2 B3 B4 B5 B6 B7 B8]. split; rewrite ?B1, ?B2; cbn [fmap list_fmap]; try done.
  - split; try done; intros; exfalso; by eapply not_elem_of_nil.
  - constructor.
  - by intros t ?%not_elem_of_nil.
  - split; try done.
    + intros x. split; [by left; left|]. intros [[?|(l & p & a & Hl & _)]|(b & Hb & _)]; [done|by apply not_elem_of_nil in Hl|by apply not_elem_of_nil in Hb].
    + by intros b ?%not_elem_of_nil.
Qed.

(** C4. Sessions of user tasks.  From boot, any sequence of task creation from the
    linked text or from the embedded ELF image, whatever bytes that image holds, of
    [mmap], [munmap], context switches, task exit and kernel page allocations runs to its end, keeps the invariant of the page tables, the ASIDs and the page ownership,
    and loses no page: when the last task has exited and the kernel has given back
    its blocks, the free memory is exactly what it was at boot. *)
Theorem user_sessions_sound (cs : list ucall) (m0 : machine) :
  boot_ok m0 -> Forall ucall_ok cs ->
  exists m, run cs m0 = Some m /\ machine_ok (is_free (frames (vm (mem m0)))) m /\
    (tasks m = [] -> kheld m = [] -> forall x, is_free (frames (vm (mem m))) x <-> is_free (frames (vm (mem m0))) x).
Proof.
  intros Hb Hcs. destruct (machine_run_ok _ cs m0 (boot_machine_ok _ Hb) Hcs) as (m & E & Hm). exists m. split_and!; [done|done|].
  intros Ht Hk x. destruct Hm as [_ _ _ _ [_ _ K _ _]]. rewrite K, Ht, Hk. split; [by left; left|].
  intros [[?|(l & p & a & Hl & _)]|(b & Hb' & _)]; [done|by apply not_elem_of_nil in Hl|by apply not_elem_of_nil in Hb'].
Qed.


(** A page EL0 can write is the space's own. *)
Lemma writable_frame F m t va e :
  machine_ok F m -> t ∈ tasks m -> translate (words (vm (mem m))) (user_l1_pa t) va = Some e -> el0_can_write e = true ->
  frame (words (vm (mem m))) (user_l1_pa t) (path_of va) = Some (pte_addr e).
Proof.
  intros [_ _ _ M4 _] Ht He Hw. unfold translate in He. case_match eqn:Ety; [|done]. apply (inj Some) in He.
  rewrite frame_leaf, He by done. destruct (tk_leaf _ _ (M4 t Ht) (path_of va) eq_refl) as [E|(a & f & E & Ha & Hd & Hu & Ho)].
  { rewrite E in Ety. discriminate. }
  rewrite He in E. rewrite E, page_desc_owned. destruct Ho as [->|[-> _]]; [reflexivity|].
  destruct (page_desc_perms a VMM_FLAGS_USER_CODE) as (_ & P & _). rewrite E, P in Hw. discriminate.
Qed.

(** C1. Isolation.  In every state reached from boot, a physical page some user task
    can write at EL0 is reachable through that one virtual page of that one task
    only.  No part of it is free, held by the kernel, program text or the boot L1
    table, and it is no table of any task: no task can write into another, into the
    allocator's memory or into a page table. *)
Theorem user_tasks_isolated (cs : list ucall) (m0 m : machine) (t t' : user_task) (va va' e e' : Z) :
  boot_ok m0 -> Forall ucall_ok cs -> run cs m0 = Some m ->
  t ∈ tasks m -> user_page va -> translate (words (vm (mem m))) (user_l1_pa t) va = Some e -> el0_can_write e = true ->
  (t' ∈ tasks m -> user_page va' -> translate (words (vm (mem m))) (user_l1_pa t') va' = Some e' -> pte_addr e' = pte_addr e ->
     user_l1_pa t' = user_l1_pa t /\ va' = va) /\
  (t' ∈ tasks m -> forall p, (length p <= 2)%nat -> node (words (vm (mem m))) (user_l1_pa t') p <> Some (pte_addr e)) /\
  (forall x, in_block (pte_addr e) 0 x ->
     ~ is_free (frames (vm (mem m))) x /\ ~ kernel_image x /\ ~ in_block (l1_table (vm (mem m))) 0 x /\
     forall b, b ∈ kheld m -> ~ kblock b x).
Proof.
  intros Hb Hcs Hrun Ht Hu He Hw. destruct (machine_run_ok _ cs m0 (boot_machine_ok _ Hb) Hcs) as (m' & E & Hm). simplify_eq.
  pose proof (writable_frame _ _ _ _ _ Hm Ht He Hw) as Hf. pose proof Hm as [M1 _ _ M4 [K1 K2 K3 K4 K5]].
  assert (Hacc : forall x, in_block (pte_addr e) 0 x -> accounted (vm (mem m)) (l1s (tasks m)) x).
  { intros x Hx. right. exists (user_l1_pa t), (path_of va), (pte_addr e). split_and!; try done. by apply task_l1. }
  split_and!.
  - intros Ht' Hu' He' Ea. unfold translate in He'. case_match eqn:Ety; [|done]. apply (inj Some) in He'.
    destruct (tk_leaf _ _ (M4 t' Ht') (path_of va') eq_refl) as [E0|(a & f & E0 & Ha & Hd & _ & Ho)]; [rewrite E0 in Ety; discriminate|rewrite He' in E0].
    assert (Hae : pte_addr e' = a) by (by rewrite E0, page_desc_addr, mask_page).
    destruct Ho as [Ho|[-> Htx]].
    + assert (Hf' : frame (words (vm (mem m))) (user_l1_pa t') (path_of va') = Some (pte_addr e)).
      { rewrite frame_leaf, He', E0, page_desc_owned, Ho, <- E0, Ea by done. done. }
      destruct (t_inj _ _ _ _ M1 _ _ _ _ _ (task_l1 _ _ Ht') (task_l1 _ _ Ht) Hf' Hf) as [? ?]. split; [done|]. by apply path_of_inj.
    + destruct (K2 a (or_introl Htx)). apply K3. left. apply Hacc. rewrite <- Ea, Hae. unfold in_block. pose proof (bsize_pos 0). lia.
  - intros Ht' p Hp Hn. assert (Hf' : frame (words (vm (mem m))) (user_l1_pa t') p = Some (pte_addr e)).
    { unfold frame. by rewrite (proj2 (Nat.leb_le _ _) Hp). }
    destruct (t_inj _ _ _ _ M1 _ _ _ _ _ (task_l1 _ _ Ht') (task_l1 _ _ Ht) Hf' Hf) as [_ ->]. cbn in Hp. lia.
  - intros x Hx. assert (HF : is_free (frames (vm (mem m0))) x) by (apply K3; left; by apply Hacc). split_and!.
    + eapply footprint_not_free; [exact M1|]. exists (user_l1_pa t), (path_of va), (pte_addr e). split_and!; try done. by apply task_l1.
    + intros Hx'. by apply (K2 x).
    + intros Hx'. by apply (proj2 K1 x).
    + intros b Hb' Hx'. destruct (K4 b Hb') as (_ & _ & _ & _ & _ & Hna). by apply (Hna x), Hacc.
Qed.


(** C7. [SYS_MUNMAP].  On any task of a sound machine the call returns.  Bad
    arguments change nothing.  Otherwise no page of the range is translated any
    more, every other translation is as before, the pages that backed the range are
    free again and nothing else became free, and the result is 0 exactly when the
    whole range was mapped.  And the order of the steps is safe: at each moment a
    page is given back, neither the tables nor the TLB of any CPU, whatever it held
    before, can translate any page of the range. *)
Theorem sys_munmap_correct (F : Z -> Prop) (m : machine) (t : user_task) (addr len : Z) :
  machine_ok F m -> t ∈ tasks m -> is_u64 addr -> is_u64 len ->
  exists ret u, sys_munmap_handler (Some t) addr len (mem m) = Some (ret, u) /\ data u = data (mem m) /\
    (ret = -1 /\ u = mem m /\
       (len = 0 \/ SYS_MMAP_MAX_LEN_BYTES < len \/ ~ (PAGE_SIZE | addr) \/ addr < USER_MMAP_VA_START \/ USER_VA_LIMIT < addr + pages_of len * PAGE_SIZE) \/
     (forall s va, s ∈ tasks m -> user_page va ->
        translate (words (vm u)) (user_l1_pa s) va =
          if decide (user_l1_pa s = user_l1_pa t /\ addr <= va < addr + pages_of len * PAGE_SIZE) then None
          else translate (words (vm (mem m))) (user_l1_pa s) va) /\
     (forall x, is_free (frames (vm u)) x <-> is_free (frames (vm (mem m))) x \/
        exists va e, user_page va /\ addr <= va < addr + pages_of len * PAGE_SIZE /\
          translate (words (vm (mem m))) (user_l1_pa t) va = Some e /\ pmm_owned e = true /\ in_block (pte_addr e) 0 x) /\
     (ret = 0 <-> forall i, 0 <= i < pages_of len -> is_Some (translate (words (vm (mem m))) (user_l1_pa t) (addr + i * PAGE_SIZE))) /\
     exists tr, trace (vm u) = tr ++ trace (vm (mem m)) /\
       forall newer p older, tr = newer ++ Freed p :: older -> forall tlb i, 0 <= i < pages_of len ->
         quiet tlb (words (vm (mem m))) (user_l1_pa t) older (addr + i * PAGE_SIZE)).
Proof.
  intros [M1 M2 M3 M4 M5] Ht Ha Hlen. pose proof (task_l1 _ _ Ht) as Hl.
  destruct (sys_munmap_spec (mem m) _ t addr len M1 Hl (tk_user _ _ (M4 t Ht)) Ha Hlen) as (ret & u & E & _ & Hd & Hres).
  exists ret, u. split_and!; [done|done|]. destruct Hres as [(-> & -> & Hr)|(Hlo & Hal & Hfit & [U1 U2 U3 U4 U5 U6 U7 U8 U9 U10])]; [by left|right].
  assert (Hup : forall i, 0 <= i < pages_of len -> user_page (addr + i * PAGE_SIZE)).
  { intros i Hi. split; [|apply Z.divide_add_r; [done|by exists i]]. assert (USER_VA_BASE <= USER_MMAP_VA_START) by done. unfold PAGE_SIZE in *. lia. }
  assert (Hseen : forall va, user_page va -> seen addr (pages_of len) (path_of va) <-> addr <= va < addr + pages_of len * PAGE_SIZE).
  { intros va Hu. split.
    - intros (i & Hi & Hui & Ep). apply path_of_inj in Ep; [|done|done]. unfold PAGE_SIZE in *. lia.
    - intros Hr. assert (exists i, va = addr + i * PAGE_SIZE) as [i ->].
      { destruct (Z.divide_sub_r _ va addr (proj2 Hu) Hal) as [i Hi]. exists i. lia. }
      exists i. split_and!; try done; unfold PAGE_SIZE in *; lia. }
  split_and!.
  - intros s va Hs Hu. unfold translate. rewrite U4 by (done || by apply task_l1). specialize (Hseen va Hu).
    repeat case_decide; try done; tauto.
  - intros x. rewrite U5. apply or_iff_compat_l. split.
    + intros (q & a & (i & Hi & Hui & ->) & Hf & Hx). rewrite frame_leaf in Hf by done. case_match eqn:Eo; [|done]. apply (inj Some) in Hf as <-.
      exists (addr + i * PAGE_SIZE), (leafv (words (vm (mem m))) (user_l1_pa t) (path_of (addr + i * PAGE_SIZE))).
      split_and!; try done; [unfold PAGE_SIZE in *; lia..|]. unfold translate.
      destruct (t_leaf _ _ _ _ M1 _ (path_of (addr + i * PAGE_SIZE)) Hl eq_refl) as [E0|[E0|[_ []]]]; [by rewrite E0 in Eo|by rewrite E0].
    + intros (va & e & Hu & Hr & He & Ho & Hx). unfold translate in He. case_match; [|done]. apply (inj Some) in He.
      exists (path_of va), (pte_addr e). split_and!; [by apply Hseen| |done]. by rewrite frame_leaf, He, Ho.
  - rewrite U9. split; [intros Hall i Hi; by apply Hall|]. intros Hall i Hi. split; auto.
  - destruct U10 as (tr & Etr & Hord). exists tr. split; [done|]. intros newer p older Eo tlb i Hi. eapply Hord; eauto.
Qed.

End sessions.

(** ** Witnesses: a machine with 62 pages of heap, the boot L1 and one page of
    program text below it, and a small ELF image. *)

Definition demo_text : TextUser := {| text_kva := 0x40001000; text_bytes := 0x1000; elf_kva := ElfSpec.IMG; elf_bytes := 125 |}.

Lemma demo_text_ok : text_ok (H := demo_text).
Proof. unfold text_ok; cbn. split_and!; try lia; [by exists 0x40001|by exists 1]. Qed.

Lemma demo_elf_ok : elf_ok (H := demo_text).
Proof. unfold elf_ok; cbn. unfold ElfSpec.IMG. lia. Qed.

Definition demo_machine : machine :=
  Machine (UMem (Vmm PmmSpec.demo (fun _ => 0) 0x40000000 true 0 (fun _ _ => 0xFF) []) Asid.pool_zero (ElfSpec.demo_image USER_TEXT_VA 5 5000)) [] [].

Definition demo_calls : list ucall := [Spawn; Mmap 0 5000 3; Spawn; Switch 1; KAlloc 3; Mmap 0 1 1].


Lemma demo_boot : boot_ok (H := demo_text) demo_machine.
Proof.
  assert (Hs : heap_start PmmSpec.demo = 0x40002000) by (vm_compute; reflexivity).
  split; cbn [demo_machine mem tasks kheld vm frames l1_table asids text_kva text_bytes demo_text]; try reflexivity.
  - apply PmmSpec.demo_inv.
  - vm_compute. congruence.
  - exists 0x40000. reflexivity.
  - intros x Hx [Hf _]. rewrite Hs in Hf. unfold in_block in Hx. rewrite bsize_0 in Hx. unfold PAGE_SIZE in Hx. lia.
  - intros x [Hx|Hx] [Hf _]; rewrite Hs in Hf; cbn in Hx; unfold ElfSpec.IMG in *; lia.
  - apply Asid.pool_zero_ok.
Qed.

Lemma demo_calls_ok : Forall ucall_ok demo_calls.
Proof. repeat constructor; unfold is_u64; cbn [ucall_ok]; try lia; done. Qed.

Definition demo_task : user_task := UserTask true 0x40011000 1 (USER_MMAP_VA_START + 0x2000).

(** The second page of the first task's mapping. *)
Lemma demo_reached :
  exists m, run (H := demo_text) demo_calls demo_machine = Some m /\
    machine_ok (H := demo_text) (is_free (frames (vm (mem demo_machine)))) m /\ demo_task ∈ tasks m /\
    translate (words (vm (mem m))) (user_l1_pa demo_task) (USER_MMAP_VA_START + 0x1000) = Some 0x460000040014f4f.
Proof.
  destruct (machine_run_ok (H := demo_text) demo_text_ok demo_elf_ok _ _ _ (boot_machine_ok (H := demo_text) _ demo_boot) demo_calls_ok) as (m & E & Hm).
  exists m. split; [exact E|]. split; [exact Hm|]. split.
  - assert (Ht : (m ← run (H := demo_text) demo_calls demo_machine; Some (tasks m)) = Some [UserTask true 0x40015000 2 (USER_MMAP_VA_START + 0x1000); demo_task])
      by (vm_compute; reflexivity). rewrite E in Ht. cbn [mbind option_bind] in Ht. apply (inj Some) in Ht as ->. right. left.
  - assert (Ht : (m ← run (H := demo_text) demo_calls demo_machine; translate (words (vm (mem m))) (user_l1_pa demo_task) (USER_MMAP_VA_START + 0x1000)) = Some 0x460000040014f4f)
      by (vm_compute; reflexivity). rewrite E in Ht. exact Ht.
Qed.

Lemma demo_page : user_page (USER_MMAP_VA_START + 0x1000).
Proof. split; [vm_compute; split; congruence|exists 0x4000101; reflexivity]. Qed.

Lemma demo_in_page : in_block (pte_addr 0x460000040014f4f) 0 0x40014000.
Proof. vm_compute. split; congruence. Qed.

Definition demo_leaving : list ucall := [Spawn; Mmap 0 5000 3; KAlloc 3; Munmap 0 USER_MMAP_VA_START 1; Exit 0; KFree 0].

Lemma demo_left : (m ← run (H := demo_text) demo_leaving demo_machine; Some (tasks m, kheld m)) = Some ([], []).
Proof. vm_compute. reflexivity. Qed.

(** Witness of C4: a task maps two pages, unmaps one and exits; the kernel frees its block. *)
Lemma user_sessions_sound_witness :
  exists m, run (H := demo_text) demo_leaving demo_machine = Some m /\
    forall x, is_free (frames (vm (mem m))) x <-> is_free (frames (vm (mem demo_machine))) x.
Proof.
  destruct (user_sessions_sound (H := demo_text) demo_text_ok demo_elf_ok demo_leaving demo_machine demo_boot)
    as (m & E & _ & Hfree).
  - repeat constructor; vm_compute; done.
  - exists m. split; [exact E|].
    pose proof demo_left as Ht.
    rewrite E in Ht. cbn [mbind option_bind] in Ht. apply (inj Some), pair_equal_spec in Ht as [Ht Hk]. exact (Hfree Ht Hk).
Defined.

Lemma demo_image_accepted : ~ elf_refused (mem demo_machine) [] ElfSpec.IMG 125.
Proof.
  assert (EL : ElfSpec.image_loads ElfSpec.IMG (data (mem demo_machine)) = [Elf.Phdr 1 5 120 USER_TEXT_VA 5 5000]) by (vm_compute; reflexivity).
  intros [Hn|[Hn|[Hn|Hn]]].
  - apply Hn. split; rewrite ?EL.
    + vm_compute. reflexivity.
    + cbn. unfold Elf.ELF_MAX_SEGMENTS. lia.
    + repeat constructor.
    + constructor; [right|constructor]. cbn. split_and!; try (vm_compute; congruence). exists 0x4000000. reflexivity.
    + vm_compute. split; congruence.
  - apply Hn. assert (E : vas (image_pages (mem demo_machine) ElfSpec.IMG) = [USER_TEXT_VA; USER_TEXT_VA + 4096]) by (vm_compute; reflexivity).
    rewrite E. apply (bool_decide_unpack _). vm_compute. done.
  - destruct (not_elem_of_nil 1). apply Hn. vm_compute. split; congruence.
  - revert Hn. vm_compute. congruence.
Qed.


(** Witness of C1: the writable page of the first task's mapping is no other page of that task's. *)
Lemma user_tasks_isolated_witness :
  exists m, run (H := demo_text) demo_calls demo_machine = Some m /\ ~ is_free (frames (vm (mem m))) 0x40014000 /\
    forall va' e', user_page va' -> translate (words (vm (mem m))) (user_l1_pa demo_task) va' = Some e' -> pte_addr e' = 0x40014000 ->
      va' = USER_MMAP_VA_START + 0x1000.
Proof.
  destruct demo_reached as (m & E & _ & Ht & He). exists m. split; [exact E|]. pose proof demo_page as Hu. split.
  - destruct (user_tasks_isolated (H := demo_text) demo_text_ok demo_elf_ok demo_calls demo_machine m demo_task demo_task _ 0 _ 0 demo_boot demo_calls_ok E Ht Hu He eq_refl)
      as (_ & _ & Hx). apply Hx. exact demo_in_page.
  - intros va' e' Hu' He' Ea.
    apply (user_tasks_isolated (H := demo_text) demo_text_ok demo_elf_ok demo_calls demo_machine m demo_task demo_task _ va' _ e' demo_boot demo_calls_ok E Ht Hu He eq_refl); assumption.
Defined.


(** Witness of C7: the two pages of the first task's mapping go. *)
Lemma sys_munmap_correct_witness :
  exists m, run (H := demo_text) demo_calls demo_machine = Some m /\
    exists ret u, sys_munmap_handler (Some demo_task) USER_MMAP_VA_START 8192 (mem m) = Some (ret, u).
Proof.
  destruct demo_reached as (m & E & Hm & Ht & _). exists m. split; [exact E|].
  destruct (sys_munmap_correct (H := demo_text) _ m demo_task USER_MMAP_VA_START 8192 Hm Ht ltac:(vm_compute; split; congruence) ltac:(vm_compute; split; congruence)) as (ret & u & Eq & _).
  exists ret, u. exact Eq.
Defined.

End UserSessions.
