(* ===== verification/VmmKernel.v ===== *)
(** The kernel's own mappings (mm/vmm.c): 2 MB blocks under the boot L1 table, seen
    as one map from block numbers to L2 entries, and what mapping, unmapping,
    region mapping and the lazy installation of L2 tables do to it. *)

From S2P Require Import Prelude.
From S2P Require Import Buddy BuddyInv BuddySpec PmmSpec PageDesc Vmm VmmTree VmmUser.

Module VmmKernel.
Import Buddy BuddyInv BuddySpec PageDesc Vmm VmmTree VmmUser.
Open Scope Z_scope.
Open Scope slm_scope.

(** ** Block numbers *)

(** Of the 39 bits of a kernel address, the upper 18 number the 2 MB block. *)
Definition BLOCKS : Z := 2 ^ 18.
Definition bidx (va : Z) : Z := (va / BLOCK_SIZE) mod BLOCKS.

Lemma bidx_range va : 0 <= bidx va < BLOCKS.
Proof. apply Z.mod_pos_bound. done. Qed.

Lemma bidx_L1 va : L1_INDEX va = bidx va / 512.
Proof.
  rewrite L1_INDEX_eq. unfold bidx, BLOCKS, BLOCK_SIZE. change (2 ^ 30) with (0x200000 * 512). rewrite <- Z.div_div by lia.
  generalize (va / 0x200000). intros a. change (2 ^ 18) with 262144. Z.div_mod_to_equations. lia.
Qed.

Lemma bidx_L2 va : L2_INDEX va = bidx va mod 512.
Proof.
  rewrite L2_INDEX_eq. unfold bidx, BLOCKS, BLOCK_SIZE. change (2 ^ 21) with 0x200000. generalize (va / 0x200000). intros a.
  change (2 ^ 18) with 262144. Z.div_mod_to_equations. lia.
Qed.

Lemma block_split b b' : b / 512 = b' / 512 -> b mod 512 = b' mod 512 -> b = b'.
Proof. intros. rewrite (Z.div_mod b 512), (Z.div_mod b' 512) by lia. lia. Qed.

Lemma block_L1 b : 0 <= b < BLOCKS -> 0 <= b / 512 < 512.
Proof. unfold BLOCKS. intros. split; [apply Z.div_pos|apply Z.div_lt_upper_bound]; lia. Qed.

Lemma block_L2 b : 0 <= b mod 512 < 512.
Proof. apply Z.mod_pos_bound. lia. Qed.

(** ** The map *)

Definition l1e (st : vmm) (i : Z) : Z := words st (entry (l1_table st) i).

(** The L2 entry of block [b], if there is an L2 table for it. *)
Definition kent (st : vmm) (b : Z) : option Z :=
  if pte_type (l1e st (b / 512)) =? PTE_TYPE_TABLE then Some (words st (entry (pte_addr (l1e st (b / 512))) (b mod 512))) else None.

(** The L2 tables are pages of their own, in reach of the kernel's addresses. *)
Record ktables (st : vmm) : Prop := {
  kt_l1 : aligned 0 (l1_table st);
  kt_low : forall i, 0 <= i < 512 -> pte_type (l1e st i) = PTE_TYPE_TABLE -> pte_addr (l1e st i) < 2 ^ 39;
  kt_apart : forall i, 0 <= i < 512 -> pte_type (l1e st i) = PTE_TYPE_TABLE -> pte_addr (l1e st i) <> l1_table st;
  kt_inj : forall i j, 0 <= i < 512 -> 0 <= j < 512 -> pte_type (l1e st i) = PTE_TYPE_TABLE -> pte_type (l1e st j) = PTE_TYPE_TABLE ->
    pte_addr (l1e st i) = pte_addr (l1e st j) -> i = j
}.

Lemma pte_addr_nonneg e : 0 <= pte_addr e.
Proof. unfold pte_addr. apply Z.land_nonneg. right. unfold PTE_ADDR_MASK. lia. Qed.

Lemma pte_addr_aligned e : aligned 0 (pte_addr e).
Proof.
  unfold aligned. rewrite bsize_0. unfold pte_addr, PTE_ADDR_MASK, PAGE_SIZE.
  change 0x0000FFFFFFFFF000 with (Z.shiftl (Z.ones 36) 12). exists (Z.land (Z.shiftr e 12) (Z.ones 36)).
  change 4096 with (2 ^ 12). rewrite <- Z.shiftl_mul_pow2 by lia. apply Z.bits_inj'. intros n Hn.
  rewrite Z.land_spec, !Z.shiftl_spec by lia. destruct (Z.ltb_spec n 12).
  - rewrite !(Z.testbit_neg_r _ (n - 12)) by lia. apply andb_false_r.
  - rewrite Z.land_spec, Z.shiftr_spec by lia. by replace (n - 12 + 12) with n by lia.
Qed.

(** Going to a kernel virtual address and back. *)
Lemma kva_round_trip a : 0 <= a < 2 ^ 39 -> KVA_TO_PA (PA_TO_KVA a) = a.
Proof.
  intros Ha. unfold KVA_TO_PA, PA_TO_KVA. change KERNEL_VA_BASE with (Z.shiftl (Z.ones 25) 39).
  apply Z.bits_inj'. intros n Hn. rewrite Z.ldiff_spec, Z.lor_spec, Z.shiftl_spec by lia. destruct (Z.ltb_spec n 39).
  - rewrite (Z.testbit_neg_r _ (n - 39)) by lia. by rewrite orb_false_r, andb_true_r.
  - rewrite (Z.bits_above_log2 a n).
    + cbn [orb]. by destruct (Z.testbit _ _).
    + lia.
    + destruct (decide (a = 0)) as [->|]; [cbn; lia|]. apply Z.log2_lt_pow2; [lia|]. pose proof (Z.pow_le_mono_r 2 39 n). lia.
Qed.

Lemma kva_nonzero a : 0 <= a -> PA_TO_KVA a <> 0.
Proof. intros Ha E. unfold PA_TO_KVA in E. apply Z.lor_eq_0_iff in E as [_ E]. done. Qed.

(** The table walk of the mapping operations. *)
Lemma get_l2_none va st : kent st (bidx va) = None -> get_l2_table va st = 0.
Proof. unfold kent, get_l2_table, l1e. rewrite bidx_L1. by case_match. Qed.

Lemma get_l2_some va st e :
  ktables st -> kent st (bidx va) = Some e ->
  get_l2_table va st <> 0 /\ kva_entry (get_l2_table va st) (L2_INDEX va) = entry (pte_addr (l1e st (bidx va / 512))) (bidx va mod 512) /\
  words st (kva_entry (get_l2_table va st) (L2_INDEX va)) = e.
Proof.
  intros K. unfold kent, get_l2_table. rewrite bidx_L1, bidx_L2. fold (l1e st (bidx va / 512)). case_match eqn:Et; [|done].
  intros [= E]. apply Z.eqb_eq in Et. pose proof (block_L1 _ (bidx_range va)) as Hi. cbn [negb].
  unfold kva_entry. rewrite kva_round_trip by (split; [apply pte_addr_nonneg|by apply kt_low]).
  split_and!; [apply kva_nonzero, pte_addr_nonneg|done|done].
Qed.

(** ** One entry changes *)

Record kset (st st' : vmm) (b d : Z) : Prop := {
  ks_tables : ktables st';
  ks_l1 : l1_table st' = l1_table st;
  ks_init : vmm_initialized st' = vmm_initialized st;
  ks_frames : frames st' = frames st;
  ks_l1e : forall i, 0 <= i < 512 -> l1e st' i = l1e st i;
  ks_ent : forall b', 0 <= b' < BLOCKS -> kent st' b' = if decide (b' = b) then Some d else kent st b'
}.

Lemma ktables_same st st' :
  ktables st -> l1_table st' = l1_table st -> (forall i, 0 <= i < 512 -> l1e st' i = l1e st i) -> ktables st'.
Proof.
  intros [K1 K2 K3 K4] E El. split.
  - by rewrite E.
  - intros i Hi. rewrite El by done. auto.
  - intros i Hi. rewrite El, E by done. auto.
  - intros i j Hi Hj. rewrite !El by done. auto.
Qed.

Lemma store_entry st st' b d e0 :
  ktables st -> 0 <= b < BLOCKS -> kent st b = Some e0 -> l1_table st' = l1_table st -> vmm_initialized st' = vmm_initialized st -> frames st' = frames st ->
  words st' = <[entry (pte_addr (l1e st (b / 512))) (b mod 512) := d]> (words st) -> kset st st' b d.
Proof.
  intros K Hb He E1 E2 E3 Ew. unfold kent in He. case_match eqn:Et; [|done]. apply Z.eqb_eq in Et. clear He.
  pose proof (block_L1 _ Hb) as Hi. pose proof (block_L2 b) as Hj.
  assert (El : forall i, 0 <= i < 512 -> l1e st' i = l1e st i).
  { intros i Hi'. unfold l1e. rewrite E1, Ew. apply fn_lookup_insert_ne. intros E.
    apply entry_inj in E as [E _]; [by apply (kt_apart _ K _ Hi Et)|apply pte_addr_aligned|by apply kt_l1|done|done]. }
  split; try done; [by eapply ktables_same|]. intros b' Hb'. pose proof (block_L1 _ Hb') as Hi'. pose proof (block_L2 b').
  unfold kent. rewrite El by done. case_decide as D.
  - subst b'. by rewrite Et, Ew, fn_lookup_insert.
  - case_match eqn:Et'; [|done]. apply Z.eqb_eq in Et'. rewrite Ew, fn_lookup_insert_ne; [done|]. intros E. apply D.
    apply entry_inj in E as [Ea Ej]; [|apply pte_addr_aligned|apply pte_addr_aligned|done|done].
    apply block_split; [|done]. symmetry. by eapply kt_inj.
Qed.

Definition is_invalid (e : Z) : bool := pte_type e =? PTE_TYPE_INVALID.

Lemma map_block_locked_spec virt phys flags st :
  ktables st -> has flags VMM_FLAG_USER = false ->
  exists rc st', vmm_map_block_locked virt phys flags st = Some (rc, st') /\
    (rc = -1 /\ st' = st /\ (forall e, kent st (bidx virt) = Some e -> is_invalid e = false) \/
     rc = 0 /\ (exists e, kent st (bidx virt) = Some e /\ is_invalid e = true) /\ blocks_mapped st' = blocks_mapped st +32 1 /\
     exists d, make_block_desc phys flags = Some d /\ kset st st' (bidx virt) d).
Proof.
  intros K Hu. unfold vmm_map_block_locked. destruct (kent st (bidx virt)) as [e|] eqn:He.
  - destruct (get_l2_some virt st e K He) as (Hn & Ea & Ew). rewrite (proj2 (Z.eqb_neq _ _) Hn), Ew. fold (is_invalid e).
    destruct (is_invalid e) eqn:Hi; cbn [negb].
    + destruct (proj2 (block_desc_defined phys flags) Hu) as [d Hd]. rewrite Hd. cbn [mbind option_bind]. eexists _, _. split; [done|]. right.
      split_and!; [done|by exists e|done|]. exists d. split; [done|]. eapply store_entry; try done; [apply bidx_range|]. cbn. by rewrite Ea.
    + exists (-1), st. split; [done|]. left. split_and!; try done. intros e' [= <-]. done.
  - rewrite get_l2_none by done. exists (-1), st. split; [done|]. left. done.
Qed.

Lemma unmap_block_locked_spec virt st :
  ktables st ->
  let '(rc, st') := vmm_unmap_block_locked virt st in
  (rc = -1 /\ st' = st /\ (forall e, kent st (bidx virt) = Some e -> is_invalid e = true) \/
   rc = 0 /\ (exists e, kent st (bidx virt) = Some e /\ is_invalid e = false) /\ blocks_mapped st' = blocks_mapped st -32 1 /\
   kset st st' (bidx virt) 0).
Proof.
  intros K. unfold vmm_unmap_block_locked. destruct (kent st (bidx virt)) as [e|] eqn:He.
  - destruct (get_l2_some virt st e K He) as (Hn & Ea & Ew). rewrite (proj2 (Z.eqb_neq _ _) Hn), Ew. fold (is_invalid e).
    destruct (is_invalid e) eqn:Hi.
    + left. split_and!; try done. intros e' [= <-]. done.
    + right. split_and!; [done|by exists e|done|]. eapply store_entry; try done; [apply bidx_range|]. cbn. by rewrite Ea.
  - rewrite get_l2_none by done. by left.
Qed.

(** ** Regions *)

(** An entry that was invalid may have become the invalid entry 0. *)
Definition same_entry (o o' : option Z) : Prop := o' = o \/ exists e, o = Some e /\ is_invalid e = true /\ o' = Some 0.

Lemma same_entry_trans o1 o2 o3 : same_entry o1 o2 -> same_entry o2 o3 -> same_entry o1 o3.
Proof.
  intros [->|(e & -> & He & ->)] [->|(e' & E & He' & ->)]; [by left|right; eauto|right; eauto|right; eauto].
Qed.

Section region.
Context (virt phys flags : Z) (Hvirt : (BLOCK_SIZE | virt)) (Huser : has flags VMM_FLAG_USER = false).

(** The number of the [k]-th block of the region. *)
Definition blk (k : Z) : Z := (bidx virt + k) mod BLOCKS.

Lemma blk_range k : 0 <= blk k < BLOCKS.
Proof. apply Z.mod_pos_bound. done. Qed.

Lemma blk_va k : 0 <= k -> bidx (virt +64 k * BLOCK_SIZE) = blk k.
Proof.
  intros Hk. pose proof Hvirt as [q Hq]. unfold blk, bidx, u64. rewrite Hq. replace (q * BLOCK_SIZE + k * BLOCK_SIZE) with ((q + k) * BLOCK_SIZE) by lia.
  change (2 ^ 64) with (2 ^ 43 * BLOCK_SIZE). rewrite Z.mul_mod_distr_r by done. rewrite !Z.div_mul by done.
  rewrite Zplus_mod_idemp_l. apply Z.mod_mod_divide. by exists (2 ^ 25).
Qed.

Lemma blk_inj j k : 0 <= j < BLOCKS -> 0 <= k < BLOCKS -> blk j = blk k -> j = k.
Proof.
  unfold blk, BLOCKS. intros Hj Hk E. pose proof (Z.div_mod (bidx virt + j) (2 ^ 18) ltac:(lia)). pose proof (Z.div_mod (bidx virt + k) (2 ^ 18) ltac:(lia)).
  nia.
Qed.

(** Blocks [i] to [m] of the region are mapped, the earlier ones were and are not any
    more, and the rest is as at the start. *)
Record kblocks (st0 st : vmm) (i m : Z) : Prop := {
  kb_tables : ktables st;
  kb_l1 : l1_table st = l1_table st0;
  kb_init : vmm_initialized st = vmm_initialized st0;
  kb_frames : frames st = frames st0;
  kb_l1e : forall i, 0 <= i < 512 -> l1e st i = l1e st0 i;
  kb_in : forall j, i <= j < m -> exists d, make_block_desc (phys +64 j * BLOCK_SIZE) flags = Some d /\ kent st (blk j) = Some d;
  kb_was : forall j, 0 <= j < m -> exists e, kent st0 (blk j) = Some e /\ is_invalid e = true;
  kb_out : forall b, 0 <= b < BLOCKS -> (forall j, i <= j < m -> b <> blk j) -> same_entry (kent st0 b) (kent st b);
  kb_count : blocks_mapped st = u32 (blocks_mapped st0 + (m - i))
}.

Lemma kblocks_start st : ktables st -> is_u32 (blocks_mapped st) -> kblocks st st 0 0.
Proof. intros K Hb. split; try done; try lia; [by left|]. by rewrite Z.add_0_r, u32_small. Qed.

Lemma kblocks_map st0 st st' m e d :
  0 <= m < BLOCKS -> kblocks st0 st 0 m -> kent st (blk m) = Some e -> is_invalid e = true -> blocks_mapped st' = blocks_mapped st +32 1 ->
  make_block_desc (phys +64 m * BLOCK_SIZE) flags = Some d -> kset st st' (blk m) d -> kblocks st0 st' 0 (m + 1).
Proof.
  intros Hm [B1 B2 B3 B4 B5 B6 B7 B8 B9] He Hi Hc Hd [S1 S2 S3 S4 S5 S6].
  assert (Hno : forall j, 0 <= j < m -> blk m <> blk j) by (intros j Hj E; apply blk_inj in E; lia).
  split; [done|congruence|congruence|congruence|..].
  - intros i Hi'. rewrite S5, B5; done.
  - intros j Hj. rewrite S6 by apply blk_range. destruct (decide (j = m)) as [->|].
    + rewrite decide_True by done. by exists d.
    + rewrite decide_False; [apply B6; lia|]. intros E. apply (Hno j); [lia|done].
  - intros j Hj. destruct (decide (j = m)) as [->|]; [|apply B7; lia].
    destruct (B8 (blk m) (blk_range m) Hno) as [E|(e' & E & Hi' & _)]; [rewrite E in He; by exists e|by exists e'].
  - intros b Hb Hout. rewrite S6, decide_False by (done || apply Hout; lia). apply B8; [done|]. intros j Hj. apply Hout. lia.
  - rewrite Hc, B9. unfold u32. rewrite Zplus_mod_idemp_l. f_equal. lia.
Qed.

Lemma kblocks_undo st0 st st' i m :
  0 <= i < m -> m <= BLOCKS -> kblocks st0 st i m -> blocks_mapped st' = blocks_mapped st -32 1 -> kset st st' (blk i) 0 -> kblocks st0 st' (i + 1) m.
Proof.
  intros Hi Hm [B1 B2 B3 B4 B5 B6 B7 B8 B9] Hc [S1 S2 S3 S4 S5 S6].
  split; [done|congruence|congruence|congruence|..].
  - intros k Hk. rewrite S5, B5; done.
  - intros j Hj. rewrite S6, decide_False; [apply B6; lia|intros E; apply blk_inj in E; lia|apply blk_range].
  - done.
  - intros b Hb Hout. rewrite S6 by done. case_decide as D.
    + subst b. destruct (B7 i ltac:(lia)) as (e & He & Hinv). right. by exists e.
    + apply B8; [done|]. intros j Hj E. destruct (decide (j = i)) as [->|]; [done|]. apply (Hout j); [lia|done].
  - rewrite Hc, B9. unfold u32. rewrite Zminus_mod_idemp_l. f_equal. lia.
Qed.

Lemma unmap_undo_spec n st0 st i m :
  0 <= i -> i + Z.of_nat n = m -> m <= BLOCKS -> kblocks st0 st i m -> kblocks st0 (unmap_undo n virt (i * BLOCK_SIZE) st) m m.
Proof.
  revert i st. induction n as [|n IH]; intros i st Hi Hn Hm B; cbn [unmap_undo]; [by replace i with m in B by lia|].
  pose proof (unmap_block_locked_spec (virt +64 i * BLOCK_SIZE) st (kb_tables _ _ _ _ B)) as Hu.
  destruct (vmm_unmap_block_locked (virt +64 i * BLOCK_SIZE) st) as [rc st'] eqn:E. rewrite blk_va in Hu by done. cbn [snd].
  destruct (kb_in _ _ _ _ B i ltac:(lia)) as (d & Hd & He). destruct (block_desc_spec _ _ _ Hd) as [Ht _].
  destruct Hu as [(_ & _ & Hinv)|(_ & _ & Hc & S)]; [specialize (Hinv d He); unfold is_invalid in Hinv; by rewrite Ht in Hinv|].
  replace (i * BLOCK_SIZE + BLOCK_SIZE) with ((i + 1) * BLOCK_SIZE) by lia. apply IH; [lia|lia|done|]. eapply kblocks_undo; try done. lia.
Qed.

(** No L2 table, or an entry in use. *)
Definition blocked (st : vmm) (b : Z) : Prop := forall e, kent st b = Some e -> is_invalid e = false.

Lemma map_blocks_spec n st0 st k :
  0 <= k -> k + Z.of_nat n <= BLOCKS -> kblocks st0 st 0 k ->
  exists rc st', map_blocks n virt phys flags (k * BLOCK_SIZE) st = Some (rc, st') /\
    (rc = 0 /\ kblocks st0 st' 0 (k + Z.of_nat n) \/
     rc = -1 /\ (exists m, kblocks st0 st' m m) /\ exists j, k <= j < k + Z.of_nat n /\ blocked st0 (blk j)).
Proof.
  revert k st. induction n as [|n IH]; intros k st Hk Hn B; cbn [map_blocks].
  { exists 0, st. split; [done|]. left. by rewrite Z.add_0_r. }
  destruct (map_block_locked_spec (virt +64 k * BLOCK_SIZE) (phys +64 k * BLOCK_SIZE) flags st (kb_tables _ _ _ _ B) Huser) as (rc & st' & -> & Hres).
  rewrite blk_va in Hres by done. cbn [mbind option_bind]. destruct Hres as [(-> & -> & Hno)|(-> & (e & He & Hi) & Hc & d & Hd & Hset)]; cbn [Z.eqb negb].
  - eexists _, _. split; [done|]. right. rewrite Z.div_mul by done. split_and!; [done| |].
    + exists k. apply (unmap_undo_spec _ st0 st 0 k); try done; lia.
    + exists k. split; [lia|]. intros e He. destruct (kb_out _ _ _ _ B (blk k) (blk_range k)) as [E|(e' & E & Hi & E')].
      * intros j Hj E. apply blk_inj in E; lia.
      * apply Hno. by rewrite E.
      * by specialize (Hno 0 E').
  - replace (k * BLOCK_SIZE + BLOCK_SIZE) with ((k + 1) * BLOCK_SIZE) by lia.
    destruct (IH (k + 1) st' ltac:(lia) ltac:(lia)) as (rc & st'' & -> & Hres).
    { eapply kblocks_map; try done. lia. }
    exists rc, st''. split; [done|]. replace (k + Z.of_nat (S n)) with (k + 1 + Z.of_nat n) by lia.
    destruct Hres as [?|(? & ? & j & ? & ?)]; [by left|right]. split_and!; try done. exists j. split; [lia|done].
Qed.

End region.

(** ** Lookups *)

(** What [vmm_virt_to_phys] and [vmm_is_mapped] read. *)
Lemma lookup_block va st e :
  ktables st -> kent st (bidx va) = Some e ->
  vmm_virt_to_phys va st = (if pte_type e =? PTE_TYPE_BLOCK then Z.lor (Z.land e BLOCK_ADDR_MASK) (Z.land va (BLOCK_SIZE - 1)) else 0) /\
  vmm_is_mapped va st = negb (is_invalid e).
Proof.
  intros K He. destruct (get_l2_some va st e K He) as (Hn & _ & Ew). unfold vmm_virt_to_phys, vmm_is_mapped.
  rewrite bidx_L1. fold (l1e st (bidx va / 512)). unfold kent in He. case_match eqn:Et; [|done]. apply Z.eqb_eq in Et. rewrite Et.
  change (PTE_TYPE_TABLE =? PTE_TYPE_BLOCK) with false. cbv iota. rewrite (proj2 (Z.eqb_neq _ _) Hn), Ew. split; [by destruct (_ =? _)|done].
Qed.

Lemma lookup_same va st st' :
  ktables st -> ktables st' -> (forall i, 0 <= i < 512 -> l1e st' i = l1e st i) -> same_entry (kent st (bidx va)) (kent st' (bidx va)) ->
  vmm_virt_to_phys va st' = vmm_virt_to_phys va st /\ vmm_is_mapped va st' = vmm_is_mapped va st.
Proof.
  intros K K' El Hs. pose proof (block_L1 _ (bidx_range va)) as Hi. destruct (kent st (bidx va)) as [e|] eqn:He.
  - destruct (lookup_block va st e K He) as [-> ->]. destruct Hs as [He'|(e' & [= <-] & Hinv & He')].
    + destruct (lookup_block va st' e K' He') as [-> ->]. done.
    + destruct (lookup_block va st' 0 K' He') as [-> ->]. unfold is_invalid in *. apply Z.eqb_eq in Hinv. by rewrite Hinv.
  - destruct Hs as [He'|(? & ? & _)]; [|done]. unfold vmm_virt_to_phys, vmm_is_mapped. rewrite !get_l2_none by done.
    rewrite !bidx_L1. fold (l1e st (bidx va / 512)) (l1e st' (bidx va / 512)). by rewrite El.
Qed.

Lemma block_offset pa x : (BLOCK_SIZE | pa) -> pa + x mod BLOCK_SIZE = Z.lor pa (x mod BLOCK_SIZE).
Proof.
  intros [q ->]. change BLOCK_SIZE with (2 ^ 21). rewrite <- Z.land_ones, <- Z.shiftl_mul_pow2 by lia.
  assert (E : Z.land (Z.shiftl q 21) (Z.land x (Z.ones 21)) = 0).
  { apply Z.bits_inj'. intros n Hn. rewrite !Z.land_spec, Z.shiftl_spec, Z.bits_0, Z.testbit_ones_nonneg by lia.
    destruct (Z.ltb_spec n 21); [by rewrite (Z.testbit_neg_r q) by lia|]. by rewrite !andb_false_r. }
  by rewrite Z.add_nocarry_lxor, Z.lxor_lor.
Qed.

(** The bytes of a mapped block follow each other. *)
Lemma lookup_mapped va st pa flags d :
  ktables st -> kent st (bidx va) = Some d -> make_block_desc pa flags = Some d -> 0 <= pa < 2 ^ 48 -> (BLOCK_SIZE | pa) ->
  vmm_virt_to_phys va st = pa + va mod BLOCK_SIZE /\ vmm_is_mapped va st = true.
Proof.
  intros K He Hd Hpa Hal. destruct (lookup_block va st d K He) as [-> ->]. destruct (block_desc_spec _ _ _ Hd) as [Ht Hm]. unfold is_invalid.
  rewrite Ht, Hm, mask_block by done. split; [|done]. cbv iota beta. change (PTE_TYPE_BLOCK =? PTE_TYPE_BLOCK) with true. cbv iota.
  change (BLOCK_SIZE - 1) with (Z.ones 21). rewrite Z.land_ones by lia. change (2 ^ 21) with BLOCK_SIZE.
  symmetry. by apply block_offset.
Qed.

(** The public calls: the checks, then the locked operation. *)
Lemma block_mask x : (BLOCK_SIZE | x) -> Z.land x (BLOCK_SIZE - 1) =? 0 = true.
Proof. intros [q ->]. change (BLOCK_SIZE - 1) with (Z.ones 21). rewrite Z.land_ones by lia. apply Z.eqb_eq, Z.mod_mul. done. Qed.

Lemma map_block_eq virt phys flags st :
  vmm_initialized st = true -> (BLOCK_SIZE | virt) -> (BLOCK_SIZE | phys) -> vmm_map_block virt phys flags st = vmm_map_block_locked virt phys flags st.
Proof. intros Hi Hv Hp. unfold vmm_map_block. by rewrite Hi, (block_mask virt Hv), (block_mask phys Hp). Qed.

Lemma unmap_block_eq virt st : vmm_initialized st = true -> (BLOCK_SIZE | virt) -> vmm_unmap_block virt st = vmm_unmap_block_locked virt st.
Proof. intros Hi Hv. unfold vmm_unmap_block. by rewrite Hi, (block_mask virt Hv). Qed.

(** ** Lazily installed L2 tables *)

(** The pages of the kernel's tables. *)
Definition table_page (st : vmm) (t : Z) : Prop :=
  t = l1_table st \/ exists i, 0 <= i < 512 /\ pte_type (l1e st i) = PTE_TYPE_TABLE /\ t = pte_addr (l1e st i).

Definition tables_apart (st : vmm) (P : Z -> Prop) : Prop := forall t x, table_page st t -> in_block t 0 x -> ~ P x.

Lemma table_page_aligned st t : ktables st -> table_page st t -> aligned 0 t.
Proof. intros K [->|(i & _ & _ & ->)]; [apply K|apply pte_addr_aligned]. Qed.

(** The page [p] has become the empty L2 table of L1 entry [i]. *)
Record l2_added (st st' : vmm) (i p : Z) : Prop := {
  la_tables : ktables st';
  la_invalid : pte_type (l1e st i) = PTE_TYPE_INVALID;
  la_inv : inv (frames st');
  la_alloc : allocated (frames st) (frames st') 0 p;
  la_l1e : forall j, 0 <= j < 512 -> l1e st' j = if decide (j = i) then make_table_desc p else l1e st j;
  la_pages : forall t, table_page st' t <-> table_page st t \/ t = p;
  la_ent : forall b, 0 <= b < BLOCKS -> kent st' b = if decide (b / 512 = i) then Some 0 else kent st b
}.

Lemma add_l2 st st' h i p :
  ktables st -> tables_apart st (is_free (frames st)) -> heap_end (frames st) <= 2 ^ 39 -> 0 < heap_start (frames st) -> 0 <= i < 512 ->
  pte_type (l1e st i) = PTE_TYPE_INVALID -> inv h -> allocated (frames st) h 0 p ->
  frames st' = h -> l1_table st' = l1_table st ->
  (forall j, 0 <= j < 512 -> words st' (entry p j) = 0) -> words st' (entry (l1_table st) i) = make_table_desc p ->
  (forall x, ~ in_block p 0 x -> x <> entry (l1_table st) i -> words st' x = words st x) ->
  l2_added st st' i p.
Proof.
  intros K Hap Hend Hst Hi Hty Hinv Hal Ef El Hz He Hw. pose proof Hal as (Hpa & Hlo & Hhi & Hfr & _). rewrite bsize_0 in Hhi.
  assert (Hne : forall t, table_page st t -> t <> p).
  { intros t Ht ->. apply (Hap p p Ht); [|apply Hfr]; unfold in_block; rewrite bsize_0; unfold PAGE_SIZE; lia. }
  assert (Hin : forall t j, table_page st t -> 0 <= j < 512 -> ~ in_block p 0 (entry t j)).
  { intros t j Ht Hj Hx. apply (Hap t (entry t j) Ht); [by apply entry_in_page|by apply Hfr]. }
  assert (Haddr : pte_addr (make_table_desc p) = p).
  { rewrite table_desc_addr. apply mask_page; [unfold PAGE_SIZE in *; lia|]. rewrite <- bsize_0. exact Hpa. }
  assert (Hl1 : forall j, 0 <= j < 512 -> l1e st' j = if decide (j = i) then make_table_desc p else l1e st j).
  { intros j Hj. unfold l1e. rewrite El. case_decide as D; [by subst j|]. apply Hw; [apply Hin; [by left|done]|].
    intros E. apply entry_inj in E as [_ E]; [done|apply K|apply K|done|done]. }
  assert (Hold : forall j, 0 <= j < 512 -> pte_type (l1e st j) = PTE_TYPE_TABLE -> j <> i /\ l1e st' j = l1e st j /\ pte_addr (l1e st j) <> p).
  { intros j Hj Ht. assert (j <> i) by (intros ->; by rewrite Hty in Ht). rewrite Hl1, decide_False by done. split_and!; try done.
    apply Hne. right. by exists j. }
  split; try done.
  - assert (Hcase : forall j, 0 <= j < 512 -> pte_type (l1e st' j) = PTE_TYPE_TABLE ->
      j = i /\ pte_addr (l1e st' j) = p \/ j <> i /\ pte_type (l1e st j) = PTE_TYPE_TABLE /\ l1e st' j = l1e st j).
    { intros j Hj. rewrite Hl1 by done. case_decide as D; [left; by rewrite Haddr|by right]. }
    split.
    + rewrite El. apply K.
    + intros j Hj Ht. destruct (Hcase j Hj Ht) as [(-> & ->)|(_ & Ht' & ->)]; [unfold PAGE_SIZE in *; lia|by apply K].
    + intros j Hj Ht. rewrite El. destruct (Hcase j Hj Ht) as [(-> & ->)|(_ & Ht' & ->)]; [|by apply K]. intros E. apply (Hne (l1_table st)); [by left|done].
    + intros j k Hj Hk Htj Htk E. destruct (Hcase j Hj Htj) as [(-> & Ej)|(_ & Htj' & Ej)], (Hcase k Hk Htk) as [(-> & Ek)|(_ & Htk' & Ek)]; [done|..].
      * exfalso. destruct (Hold k Hk Htk') as (_ & _ & H). congruence.
      * exfalso. destruct (Hold j Hj Htj') as (_ & _ & H). congruence.
      * rewrite Ej, Ek in E. by apply (kt_inj _ K).
  - by rewrite Ef.
  - by rewrite Ef.
  - intros t. unfold table_page. rewrite El. split.
    + intros [->|(j & Hj & Ht & ->)]; [by left; left|]. revert Ht. rewrite Hl1 by done. case_decide; [right; by rewrite Haddr|]. intros Ht. left. right. by exists j.
    + intros [[->|(j & Hj & Ht & ->)]| ->]; [by left|..]; right.
      * destruct (Hold j Hj Ht) as (_ & E & _). exists j. by rewrite E.
      * exists i. rewrite Hl1, decide_True, Haddr, table_desc_type by done. done.
  - intros b Hb. pose proof (block_L1 b Hb) as Hbi. pose proof (block_L2 b) as Hbj. unfold kent. case_decide as D.
    + rewrite Hl1, decide_True, table_desc_type, Haddr by done. cbn [Z.eqb]. change (PTE_TYPE_TABLE =? PTE_TYPE_TABLE) with true. by rewrite Hz.
    + rewrite Hl1, decide_False by done. case_match eqn:Et; [|done]. apply Z.eqb_eq in Et. f_equal. apply Hw; [apply Hin; [right; by exists (b / 512)|done]|].
      intros E. apply entry_inj in E as [E _]; [by apply (kt_apart _ K _ Hbi Et)|apply pte_addr_aligned|apply K|done|done].
Qed.

Lemma ensure_l2_spec virt st :
  ktables st -> vmm_initialized st = true -> inv (frames st) -> heap_end (frames st) <= 2 ^ 39 -> tables_apart st (is_free (frames st)) ->
  exists rc st', vmm_ensure_kernel_l2_table virt st = Some (rc, st') /\ statics st st' /\
    (rc = -1 /\ st' = st /\ kent st (bidx virt) = None /\ (pte_type (l1e st (bidx virt / 512)) <> PTE_TYPE_INVALID \/ free_pages (frames st) = 0) \/
     rc = 0 /\ is_Some (kent st' (bidx virt)) /\ (st' = st \/ exists p, l2_added st st' (bidx virt / 512) p)).
Proof.
  intros K Hini Hinv Hend Hap. unfold vmm_ensure_kernel_l2_table. rewrite Hini. cbn [negb]. rewrite bidx_L1. fold (l1e st (bidx virt / 512)).
  pose proof (block_L1 _ (bidx_range virt)) as Hi. set (i := bidx virt / 512) in *.
  destruct (Z.eqb_spec (pte_type (l1e st i)) PTE_TYPE_TABLE) as [Et|Nt].
  { exists 0, st. split_and!; try done. right. split_and!; [done| |by left]. unfold kent. fold i. rewrite Et. by eexists. }
  assert (Hnone : kent st (bidx virt) = None) by (unfold kent; fold i; by rewrite (proj2 (Z.eqb_neq _ _) Nt)).
  destruct (Z.eqb_spec (pte_type (l1e st i)) PTE_TYPE_INVALID) as [Ei|Ni]; cbn [negb].
  2:{ exists (-1), st. split_and!; try done. left. split_and!; try done. by left. }
  destruct (alloc_frame_spec st Hinv) as (p & st1 & -> & [(-> & -> & H0)|(Hp & E1 & Hinv1 & Hal)]); cbn [mbind option_bind].
  { exists (-1), st. split_and!; try done. left. split_and!; try done. by right. }
  rewrite (proj2 (Z.eqb_neq p 0)) by done. pose proof (clear_table_spec p st1) as HC. cbv zeta in HC. revert HC.
  generalize (clear_entries ENTRIES_PER_TABLE p 0 st1). intros st2 (F2 & S2 & Z2 & W2).
  assert (S1 : statics st st1) by (rewrite E1; unfold statics; destruct Hal as (_ & _ & _ & _ & _ & ? & ? & _); done).
  assert (Ew1 : words st1 = words st) by (by rewrite E1).
  pose proof (statics_trans _ _ _ S1 S2) as S12. eexists 0, _. split; [done|]. split; [exact S12|]. right.
  assert (A : l2_added st (vmm_invalidate_tlb virt (store (entry (l1_table st) i) (make_table_desc p) st2)) i p).
  { destruct (inv_binv _ Hinv) as [L HL]. pose proof Hal as (Hpa & _ & _ & Hfr & _).
    assert (Hout : forall j, 0 <= j < 512 -> entry p j <> entry (l1_table st) i).
    { intros j Hj E. apply (Hap (l1_table st) (entry p j)); [by left|rewrite E; by apply entry_in_page|by apply Hfr, entry_in_page]. }
    eapply (add_l2 _ _ (frames st1)); try done; [apply (g_pos _ (b_geom _ _ _ HL))|apply S12|..]; cbn [vmm_invalidate_tlb emit store with_words words].
    - intros j Hj. rewrite fn_lookup_insert_ne; [by apply Z2|]. intros E. by apply (Hout j).
    - apply fn_lookup_insert.
    - intros x Hx Hne. rewrite fn_lookup_insert_ne by done. by rewrite W2, Ew1. }
  split_and!; [done| |right; by exists p]. rewrite (la_ent _ _ _ _ A) by apply bidx_range. rewrite decide_True by done. by eexists.
Qed.

(** ** Properties *)

(** C12. Region mapping is all or nothing.  [vmm_map_region] on block-aligned
    addresses and any size up to the kernel's whole address range returns.  Either it
    reports success, every byte of the region translates to the byte at the same
    offset from [phys], every other address translates as before and the block count
    grows by the region's blocks.  Or it reports -1, every address translates as
    before and the count is unchanged, and then some block of the region was in use
    or had no L2 table. *)
Theorem vmm_map_region_all_or_nothing (virt phys size flags : Z) (st : vmm) :
  ktables st -> vmm_initialized st = true -> is_u32 (blocks_mapped st) -> has flags VMM_FLAG_USER = false ->
  (BLOCK_SIZE | virt) -> (BLOCK_SIZE | phys) -> 0 <= size <= 2 ^ 39 -> 0 <= phys -> phys + size <= 2 ^ 48 ->
  let n := (size + BLOCK_SIZE - 1) / BLOCK_SIZE in
  exists rc st', vmm_map_region virt phys size flags st = Some (rc, st') /\ ktables st' /\ frames st' = frames st /\
    (rc = 0 /\ blocks_mapped st' = blocks_mapped st +32 n /\
       (forall k x, 0 <= k < n -> 0 <= x < BLOCK_SIZE -> vmm_virt_to_phys (virt + k * BLOCK_SIZE + x) st' = phys + k * BLOCK_SIZE + x) /\
       (forall va, (forall k, 0 <= k < n -> bidx va <> blk virt k) ->
          vmm_virt_to_phys va st' = vmm_virt_to_phys va st /\ vmm_is_mapped va st' = vmm_is_mapped va st) \/
     rc = -1 /\ blocks_mapped st' = blocks_mapped st /\
       (forall va, vmm_virt_to_phys va st' = vmm_virt_to_phys va st /\ vmm_is_mapped va st' = vmm_is_mapped va st) /\
       exists k, 0 <= k < n /\ blocked st (blk virt k)).
Proof.
  intros K Hini Hc Hu Hv Hp Hs Hp0 Hp1 n. unfold vmm_map_region. rewrite Hini. cbn [negb].
  assert (Hn : 0 <= n <= BLOCKS /\ (size = 0 -> n = 0) /\ n * BLOCK_SIZE < size + BLOCK_SIZE).
  { unfold n, BLOCKS, BLOCK_SIZE. Z.div_mod_to_equations. lia. }
  assert (Hsz : Z.ldiff (size +64 BLOCK_SIZE -64 1) (BLOCK_SIZE - 1) / BLOCK_SIZE = n).
  { rewrite (u64_small (size + BLOCK_SIZE)), u64_small by (unfold is_u64, BLOCK_SIZE in *; lia).
    change (BLOCK_SIZE - 1) with (Z.ones 21). rewrite Z.ldiff_ones_r, Z.shiftl_mul_pow2, Z.shiftr_div_pow2 by lia.
    change (2 ^ 21) with BLOCK_SIZE. rewrite Z.div_mul by done. done. }
  rewrite Hsz. destruct (map_blocks_spec virt phys flags Hv Hu (Z.to_nat n) st st 0 ltac:(lia) ltac:(lia)) as (rc & st' & E & Hres).
  { by apply kblocks_start. }
  rewrite Z2Nat.id, Z.add_0_l in Hres by lia. exists rc, st'. split; [exact E|].
  destruct Hres as [(-> & B)|(-> & (m & B) & j & Hj & Hb)]; pose proof B as [B1 B2 B3 B4 B5 B6 B7 B8 B9]; (split_and!; [done|done|]).
  - left. split_and!; [done|by rewrite B9, Z.sub_0_r| |].
    + intros k x Hk Hx. destruct (B6 k Hk) as (d & Hd & He).
      assert (Hpa : phys +64 k * BLOCK_SIZE = phys + k * BLOCK_SIZE) by (apply u64_small; unfold is_u64, BLOCK_SIZE in *; lia). rewrite Hpa in Hd.
      pose proof Hv as [q Hq]. assert (Hbi : bidx (virt + k * BLOCK_SIZE + x) = blk virt k).
      { unfold blk, bidx. rewrite Zplus_mod_idemp_l, Hq. replace (q * BLOCK_SIZE + k * BLOCK_SIZE + x) with (x + (q + k) * BLOCK_SIZE) by lia.
        rewrite Z.div_add, Z.div_mul, (Z.div_small x) by done. f_equal. }
      destruct (lookup_mapped (virt + k * BLOCK_SIZE + x) st' (phys + k * BLOCK_SIZE) flags d) as [-> _]; try done; [by rewrite Hbi|unfold BLOCK_SIZE in *; lia| |].
      * apply Z.divide_add_r; [done|by exists k].
      * replace (virt + k * BLOCK_SIZE + x) with (x + (q + k) * BLOCK_SIZE) by lia. rewrite Z.mod_add, Z.mod_small by done. lia.
    + intros va Hva. apply lookup_same; try done. apply B8; [apply bidx_range|done].
  - right. split_and!; [done|by rewrite B9, Z.sub_diag, Z.add_0_r, u32_small| |by exists j].
    intros va. apply lookup_same; try done. apply B8; [apply bidx_range|lia].
Qed.

(** One L2 table, for the gigabyte 32 GB above the kernel's base. *)
Definition one_table : vmm :=
  Vmm PmmSpec.demo (<[entry 0x40000000 32 := make_table_desc 0x40001000]> (fun _ => 0)) 0x40000000 true 0 (fun _ _ => 0) [].

Lemma one_table_l1e i : l1e one_table i = if decide (i = 32) then make_table_desc 0x40001000 else 0.
Proof.
  unfold l1e, one_table. cbn [words l1_table]. rewrite fn_lookup_insert_Z. unfold entry. repeat case_decide; try done; lia.
Qed.

Lemma one_table_ok : ktables one_table.
Proof.
  assert (H : forall i, pte_type (l1e one_table i) = PTE_TYPE_TABLE -> i = 32 /\ pte_addr (l1e one_table i) = 0x40001000).
  { intros i. rewrite one_table_l1e. case_decide as D; [|done]. intros _. subst i. split; [done|vm_compute; reflexivity]. }
  split.
  - by exists 0x40000.
  - intros i _ Ht. destruct (H i Ht) as [_ ->]. lia.
  - intros i _ Ht. destruct (H i Ht) as [_ ->]. done.
  - intros i j _ _ Hi Hj _. destruct (H i Hi) as [-> _], (H j Hj) as [-> _]. done.
Qed.

(** Witness of C12: three megabytes, two blocks. *)
Lemma vmm_map_region_all_or_nothing_witness :
  exists rc st', vmm_map_region 0xFFFFFF8800000000 0x80000000 0x300000 VMM_FLAG_WRITE one_table = Some (rc, st') /\ ktables st'.
Proof.
  destruct (vmm_map_region_all_or_nothing 0xFFFFFF8800000000 0x80000000 0x300000 VMM_FLAG_WRITE one_table one_table_ok) as (rc & st' & E & K & _);
    [reflexivity|vm_compute; split; congruence|reflexivity|exists 0x7FFFFFC4000; reflexivity|exists 0x400; reflexivity|lia|lia|lia|].
  exists rc, st'. split; assumption.
Defined.

End VmmKernel.
