(* ===== verification/Kbuf.v ===== *)
(** The virtually contiguous kernel buffers of mm/kbuf.c: one block of the page
    allocator when there is one, else 2 MB chunks mapped side by side in the kernel's
    buffer window. *)

From S2P Require Import Prelude.
From S2P Require Import Buddy PageDesc Vmm.

Module Kbuf.
Import Buddy PageDesc Vmm.
Open Scope Z_scope.
Open Scope slm_scope.

Definition KBUF_MAX_REGIONS : nat := 8.
Definition KBUF_MAX_CHUNKS_PER_REGION : Z := 2048.
Definition KBUF_VA_BASE : Z := 0xFFFFFF8800000000.
Definition KBUF_VA_LIMIT : Z := 0xFFFFFF9000000000.
Definition KBUF_CHUNK_BYTES : Z := 2 * 1024 * 1024.
Definition KBUF_CHUNK_PAGES : Z := KBUF_CHUNK_BYTES / 4096.
Definition VMM_FLAGS_KERNEL_DATA : Z := Z.lor VMM_FLAG_READ VMM_FLAG_WRITE.

Inductive kbuf_slow_err :=
  | KBUF_SLOW_OK
  | KBUF_SLOW_OUT_OF_VA
  | KBUF_SLOW_L2_INSTALL_FAIL
  | KBUF_SLOW_PMM_EXHAUSTION
  | KBUF_SLOW_VMM_MAP_FAIL.

Record kbuf_slow_diag := KbufSlowDiag {
  err : kbuf_slow_err;
  failed_chunk : Z;
  total_chunks : Z;
  failed_va : Z;
  failed_phys : Z;
  vmm_rc : Z
}.

(** The union of [phys_single] and [phys_chunks]: the former is entry 0. *)
Record kbuf_region := KbufRegion {
  va_base : Z;
  va_end : Z;
  total_bytes : Z;
  n_chunks : Z;
  phys_chunks : Z -> Z
}.

Definition phys_single (r : kbuf_region) : Z := phys_chunks r 0.

(** [memset(r, 0, sizeof( *r))] *)
Definition region_zero : kbuf_region := KbufRegion 0 0 0 0 (fun _ => 0).

Record kbuf := KbufState {
  kvm : vmm;
  g_regions : list kbuf_region;
  g_next_va : Z;
  g_total_bytes_allocated : Z;
  g_region_count : Z;
  g_force_slow_path : bool
}.

Definition with_kvm (v : vmm) (k : kbuf) : kbuf :=
  KbufState v (g_regions k) (g_next_va k) (g_total_bytes_allocated k) (g_region_count k) (g_force_slow_path k).

Definition with_regions (rs : list kbuf_region) (k : kbuf) : kbuf :=
  KbufState (kvm k) rs (g_next_va k) (g_total_bytes_allocated k) (g_region_count k) (g_force_slow_path k).

Definition with_next_va (va : Z) (k : kbuf) : kbuf :=
  KbufState (kvm k) (g_regions k) va (g_total_bytes_allocated k) (g_region_count k) (g_force_slow_path k).

Definition with_counters (bytes count : Z) (k : kbuf) : kbuf :=
  KbufState (kvm k) (g_regions k) (g_next_va k) bytes count (g_force_slow_path k).

(** [pmm_alloc_pages] and [pmm_free_pages] on the frames below the tables; what the
    next owners write into freed pages is arbitrary. *)
Definition alloc_block (count : Z) (st : vmm) : option (Z * vmm) :=
  '(p, h) ← pmm_alloc_pages count (frames st);
  Some (p, with_frames h st).

Definition free_block_at (p count : Z) (st : vmm) : option vmm :=
  h ← pmm_free_pages p count (frames st);
  let w := fun a => if (p <=? a) && (a <? p + count * PAGE_SIZE) then junk st (length (trace st)) a else words st a in
  Some (emit (Freed p) (with_words w (with_frames h st))).

Definition round_up_chunk (bytes : Z) : Z := Z.ldiff (bytes +64 KBUF_CHUNK_BYTES -64 1) (KBUF_CHUNK_BYTES - 1).

(** The first slot whose [va_base] is [va]. *)
Fixpoint find_slot (va : Z) (rs : list kbuf_region) : option nat :=
  match rs with
  | [] => None
  | r :: rs => if va_base r =? va then Some O else S <$> find_slot va rs
  end.

Definition find_free_slot_locked (k : kbuf) : option nat := find_slot 0 (g_regions k).
Definition find_region_by_va_locked (va : Z) (k : kbuf) : option nat := find_slot va (g_regions k).

Definition try_fast_path (r : kbuf_region) (total : Z) (k : kbuf) : option (Z * kbuf_region * kbuf) :=
  if g_force_slow_path k then Some (0, r, k)
  else
    '(p, v) ← alloc_block (total / PAGE_SIZE) (kvm k);
    let k := with_kvm v k in
    if p =? 0 then Some (0, r, k)
    else Some (p, KbufRegion p (p +64 total) total 0 (<[0 := p]> (phys_chunks r)), k).

(** The loop over the gigabytes of the request; [n] are left.  The result is the
    address whose L2 table could not be installed. *)
Fixpoint ensure_tables (n : nat) (base off : Z) (v : vmm) : option (option Z * vmm) :=
  match n with
  | O => Some (None, v)
  | S n =>
      '(rc, v) ← vmm_ensure_kernel_l2_table (base +64 off) v;
      if negb (rc =? 0) then Some (Some (base +64 off), v) else ensure_tables n base (off + L1_BLOCK_SIZE) v
  end.

(** The loop that unmaps and frees chunks from [j] on; [n] are left. *)
Fixpoint release_chunks (n : nat) (base j : Z) (chunks : Z -> Z) (v : vmm) : option vmm :=
  match n with
  | O => Some v
  | S n =>
      let v := (vmm_unmap_block (base +64 j * KBUF_CHUNK_BYTES) v).2 in
      v ← free_block_at (chunks j) KBUF_CHUNK_PAGES v;
      release_chunks n base (j + 1) chunks v
  end.

(** The loop that allocates and maps chunks from [i] on; [n] are left.  [None] inside
    is success. *)
Fixpoint map_chunks (n : nat) (base i total_n : Z) (chunks : Z -> Z) (v : vmm) : option (option kbuf_slow_diag * (Z -> Z) * vmm) :=
  match n with
  | O => Some (None, chunks, v)
  | S n =>
      '(phys, v) ← alloc_block KBUF_CHUNK_PAGES v;
      if phys =? 0 then
        v ← release_chunks (Z.to_nat i) base 0 chunks v;
        Some (Some (KbufSlowDiag KBUF_SLOW_PMM_EXHAUSTION i total_n 0 0 0), chunks, v)
      else
        let chunk_va := base +64 i * KBUF_CHUNK_BYTES in
        '(rc, v) ← vmm_map_block chunk_va phys VMM_FLAGS_KERNEL_DATA v;
        if negb (rc =? 0) then
          v ← free_block_at phys KBUF_CHUNK_PAGES v;
          v ← release_chunks (Z.to_nat i) base 0 chunks v;
          Some (Some (KbufSlowDiag KBUF_SLOW_VMM_MAP_FAIL i total_n chunk_va phys rc), chunks, v)
        else map_chunks n base (i + 1) total_n (<[i := phys]> chunks) v
  end.

Definition diag_ok : kbuf_slow_diag := KbufSlowDiag KBUF_SLOW_OK 0 0 0 0 0.

Definition try_slow_path (r : kbuf_region) (total : Z) (k : kbuf) : option (Z * kbuf_slow_diag * kbuf_region * kbuf) :=
  let n := u32 (total / KBUF_CHUNK_BYTES) in
  if (n =? 0) || (KBUF_MAX_CHUNKS_PER_REGION <? n) then Some (0, diag_ok, r, k)
  else if KBUF_VA_LIMIT <? g_next_va k +64 total then Some (0, KbufSlowDiag KBUF_SLOW_OUT_OF_VA 0 n 0 0 0, r, k)
  else
    let base := g_next_va k in
    '(bad, v) ← ensure_tables (Z.to_nat ((total + L1_BLOCK_SIZE - 1) / L1_BLOCK_SIZE)) base 0 (kvm k);
    let k := with_kvm v k in
    match bad with
    | Some va => Some (0, KbufSlowDiag KBUF_SLOW_L2_INSTALL_FAIL 0 n va 0 0, r, k)
    | None =>
        '(failed, chunks, v) ← map_chunks (Z.to_nat n) base 0 n (phys_chunks r) (kvm k);
        let k := with_kvm v k in
        match failed with
        | Some diag => Some (0, diag, KbufRegion (va_base r) (va_end r) (total_bytes r) (n_chunks r) chunks, k)
        | None => Some (base, diag_ok, KbufRegion base (base +64 total) total n chunks, with_next_va (g_next_va k +64 total) k)
        end
    end.

(** The diagnostics are printed after the lock is dropped; they are part of the
    result here. *)
Definition kbuf_alloc (bytes : Z) (k : kbuf) : option (Z * kbuf_slow_diag * kbuf) :=
  if bytes =? 0 then Some (0, diag_ok, k)
  else
    let total := round_up_chunk bytes in
    match find_free_slot_locked k with
    | None => Some (0, diag_ok, k)
    | Some i =>
        '(p, r, k) ← try_fast_path region_zero total k;
        '(p, diag, r, k) ← (if p =? 0 then try_slow_path r total k else Some (p, diag_ok, r, k));
        if negb (p =? 0) then
          let k := with_regions (<[i := r]> (g_regions k)) k in
          Some (p, diag, with_counters (g_total_bytes_allocated k +64 total) (g_region_count k +64 1) k)
        else Some (0, diag, with_regions (<[i := region_zero]> (g_regions k)) k)
    end.

Definition kbuf_free (va : Z) (k : kbuf) : option kbuf :=
  if va =? 0 then Some k
  else
    match find_region_by_va_locked va k with
    | None => Some k
    | Some i =>
        let r := nth i (g_regions k) region_zero in
        v ← (if n_chunks r =? 0 then free_block_at (phys_single r) (total_bytes r / PAGE_SIZE) (kvm k)
             else release_chunks (Z.to_nat (n_chunks r)) (va_base r) 0 (phys_chunks r) (kvm k));
        let k := with_counters (g_total_bytes_allocated k -64 total_bytes r) (g_region_count k -64 1) (with_kvm v k) in
        Some (with_regions (<[i := region_zero]> (g_regions k)) k)
    end.

Definition kbuf_owns_va (va : Z) (k : kbuf) : bool :=
  if va =? 0 then false
  else match find_region_by_va_locked va k with Some _ => true | None => false end.

Definition kbuf_total_bytes_allocated (k : kbuf) : Z := g_total_bytes_allocated k.
Definition kbuf_region_count (k : kbuf) : Z := g_region_count k.

Definition kbuf_test_set_force_slow_path (on : bool) (k : kbuf) : kbuf :=
  KbufState (kvm k) (g_regions k) (g_next_va k) (g_total_bytes_allocated k) (g_region_count k) on.

(** The static initial values. *)
Definition kbuf_boot (v : vmm) : kbuf := KbufState v (replicate KBUF_MAX_REGIONS region_zero) KBUF_VA_BASE 0 0 false.

End Kbuf.
