(* ===== verification/KbufSpec.v ===== *)
(** Kernel buffers: the ownership of the memory behind them, what allocation and
    release do on every path, and that any history of calls keeps the buffers
    apart and loses no memory. *)

From S2P Require Import Prelude.
From S2P Require Import FreeList Buddy BuddyInv BuddySpec PmmSpec PageDesc Vmm VmmTree VmmUser VmmKernel Kbuf.

Module KbufSpec.
Import Buddy BuddyInv BuddySpec PageDesc Vmm VmmTree VmmUser VmmKernel Kbuf.
Open Scope Z_scope.
Open Scope slm_scope.

(** ** Held blocks, in any order *)

Notation sess total h l := (PmmSpec.session_ok total (PmmSpec.Session h l)).

Lemma held_pages_perm l l' : l ≡ₚ l' -> PmmSpec.held_pages l = PmmSpec.held_pages l'.
Proof. unfold PmmSpec.held_pages. induction 1 as [|[] ? ? ? IH|[] [] ?|]; cbn [foldr]; try lia. Qed.

Lemma sess_perm total h l l' : l ≡ₚ l' -> sess total h l -> sess total h l'.
Proof.
  intros Hp [S1 S2 S3 S4]. cbn [PmmSpec.st PmmSpec.held] in *. split; cbn [PmmSpec.st PmmSpec.held].
  - done.
  - intros p n Hin. apply S2. by rewrite Hp.
  - pose proof (Permutation_sym Hp) as Hp'. apply Permutation_inj in Hp' as [_ (f & Hf & E)]. intros i j p n q m x Hi Hj Hx Hx'.
    rewrite E in Hi, Hj. apply Hf. by eapply S3.
  - pose proof (held_pages_perm l l' Hp). lia.
Qed.

Lemma sess_alloc total h h' l n p :
  sess total h l -> 0 < n <= 2 ^ 63 -> (order_for n <= FreeList.MAX_ORDER)%nat -> inv h' -> allocated h h' (order_for n) p -> sess total h' ((p, n) :: l).
Proof.
  intros S Hn Ho Hinv Hal. eapply sess_perm; [|by eapply (PmmSpec.keep_ok total (PmmSpec.Session h l))]. cbn. by rewrite Permutation_app_comm.
Qed.

Lemma sess_free total h l n p :
  sess total h ((p, n) :: l) -> exists h', pmm_free_pages p n h = Some h' /\ sess total h' l /\ released h h' (order_for n) p.
Proof.
  intros S. destruct (PmmSpec.ss_held _ _ S p n) as (Hn & Ho & Hal); [by left|]. cbn in *.
  destruct (PmmSpec.free_pages_spec p n h (PmmSpec.ss_inv _ _ S) Hn Ho Hal) as (h' & E & Hinv & Hrel). exists h'. split_and!; try done.
  by apply (PmmSpec.free_ok total (PmmSpec.Session h ((p, n) :: l)) 0 p n h').
Qed.

(** ** The memory under the kernel's tables

    [l] are the blocks in use by anybody but the tables, [T] the pages that became
    L2 tables; the other tables lie outside the heap. *)
Record kmem (total : Z) (st : vmm) (l T : list (Z * Z)) : Prop := {
  km_tables : ktables st;
  km_init : vmm_initialized st = true;
  km_top : heap_end (frames st) <= 2 ^ 39;
  km_sess : sess total (frames st) (l ++ T);
  km_static : forall t, table_page st t ->
    (t, 1) ∈ T \/ forall x, in_block t 0 x -> ~ (heap_start (frames st) <= x < heap_end (frames st));
  km_added : forall b, b ∈ T -> b.2 = 1 /\ table_page st b.1
}.

Lemma kmem_perm total st l l' T : l ≡ₚ l' -> kmem total st l T -> kmem total st l' T.
Proof. intros Hp [K1 K2 K3 K4 K5 K6]. split; try done. eapply sess_perm; [|exact K4]. by rewrite Hp. Qed.

(** Tables are not free. *)
Lemma tables_held total st l T : kmem total st l T -> tables_apart st (is_free (frames st)).
Proof.
  intros [K1 K2 K3 K4 K5 K6] t x Ht Hx Hf. destruct (K5 t Ht) as [Hin|Hout].
  - destruct (PmmSpec.ss_held _ _ K4 t 1) as (_ & _ & _ & _ & _ & Hnf); [cbn; apply elem_of_app; by right|]. by apply (Hnf x).
  - apply (Hout x Hx). destruct (inv_binv _ (PmmSpec.ss_inv _ _ K4)) as [L HL]. by apply (is_free_bound _ (b_geom _ _ _ HL)).
Qed.

(** No table lies in a block in use. *)
Lemma tables_off total st p n l T : kmem total st ((p, n) :: l) T -> tables_apart st (in_block p (order_for n)).
Proof.
  intros [K1 K2 K3 K4 K5 K6] t x Ht Hx Hb. destruct (PmmSpec.ss_held _ _ K4 p n) as (_ & _ & _ & Hlo & Hhi & _); [by left|]. cbn in Hlo, Hhi.
  destruct (K5 t Ht) as [Hin|Hout]; [|apply (Hout x Hx); unfold in_block in Hb; lia].
  apply list_elem_of_lookup in Hin as [i Hi].
  assert (E : O = S (length l + i)); [|done]. eapply (PmmSpec.ss_disj _ _ K4 0 (S (length l + i)) p n t 1 x); try done.
  change ((l ++ T) !! (length l + i)%nat = Some (t, 1)). rewrite lookup_app_r by lia. by replace (length l + i - length l)%nat with i by lia.
Qed.

(** The tables say the same. *)
Record same_map (st st' : vmm) : Prop := {
  sm_statics : statics st st';
  sm_l1e : forall i, 0 <= i < 512 -> l1e st' i = l1e st i;
  sm_ent : forall b, 0 <= b < BLOCKS -> kent st' b = kent st b
}.

Lemma same_map_words st st' :
  ktables st -> statics st st' -> (forall t i, table_page st t -> 0 <= i < 512 -> words st' (entry t i) = words st (entry t i)) ->
  same_map st st' /\ ktables st' /\ forall t, table_page st' t <-> table_page st t.
Proof.
  intros K S Hw. pose proof S as (E1 & _). assert (El : forall i, 0 <= i < 512 -> l1e st' i = l1e st i).
  { intros i Hi. unfold l1e. rewrite E1. apply Hw; [by left|done]. }
  split; [|split; [by eapply ktables_same|]].
  - split; [done|done|]. intros b Hb. pose proof (block_L1 b Hb). pose proof (block_L2 b). unfold kent. rewrite El by done. case_match eqn:Et; [|done].
    f_equal. apply Hw; [|done]. right. exists (b / 512). by apply Z.eqb_eq in Et.
  - intros t. unfold table_page. rewrite E1. split; (intros [?|(i & Hi & Ht)]; [by left|right; exists i; split; [done|]]); revert Ht; by rewrite El.
Qed.

Lemma km_alloc total st l T n :
  kmem total st l T -> 0 < n <= 2 ^ 63 ->
  exists p st', alloc_block n st = Some (p, st') /\
    (p = 0 /\ st' = st /\ ((FreeList.MAX_ORDER < order_for n)%nat \/ exhausted (frames st) (order_for n)) \/
     0 < p < 2 ^ 39 /\ p + bsize (order_for n) <= 2 ^ 39 /\ aligned (order_for n) p /\ kmem total st' ((p, n) :: l) T /\ same_map st st').
Proof.
  intros [K1 K2 K3 K4 K5 K6] Hn. unfold alloc_block. pose proof (PmmSpec.ss_inv _ _ K4) as Hinv. cbn in Hinv.
  destruct (PmmSpec.alloc_pages_spec n (frames st) Hinv Hn) as (p & h & -> & Hinv' & Hres). cbn [mbind option_bind].
  exists p, (with_frames h st). split; [done|]. destruct Hres as [(Hp & Ho & Hal)|(-> & -> & Hex)]; [right|left; by destruct st].
  pose proof Hal as (Ha & Hlo & Hhi & _ & _ & Hs & He & _). destruct (inv_binv _ Hinv) as [L HL]. pose proof (g_pos _ (b_geom _ _ _ HL)). pose proof (bsize_pos (order_for n)).
  assert (S : statics st (with_frames h st)) by done.
  destruct (same_map_words st (with_frames h st) K1 S) as (HM & HK & HT); [done|]. split_and!; try done; try lia.
  split; try done; cbn [with_frames frames].
  - by rewrite He.
  - by apply (sess_alloc _ (frames st)).
  - intros t Ht. rewrite Hs, He. apply K5. exact Ht.
Qed.

Lemma km_free total st l T n p :
  kmem total st ((p, n) :: l) T -> exists st', free_block_at p n st = Some st' /\ kmem total st' l T /\ same_map st st'.
Proof.
  intros K. pose proof K as [K1 K2 K3 K4 K5 K6]. unfold free_block_at. destruct (sess_free _ _ _ _ _ K4) as (h & -> & S & Hrel & Hs & He & _). cbn [mbind option_bind].
  eexists. split; [done|]. set (st' := emit _ _). destruct (PmmSpec.ss_held _ _ K4 p n) as (Hn & Ho & _); [by left|].
  assert (Hst : statics st st') by done. destruct (same_map_words st st' K1 Hst) as (HM & HK & HT).
  { intros t i Ht Hi. cbn [st' emit with_words words]. destruct ((p <=? entry t i) && (entry t i <? p + n * PAGE_SIZE)) eqn:E; [|done]. exfalso.
    apply (tables_off _ _ _ _ _ _ K t (entry t i)); [done|by apply entry_in_page|]. unfold in_block, bsize. rewrite Z.pow_add_r by lia. change (2 ^ 12) with PAGE_SIZE. pose proof (order_for_pow2 n ltac:(lia)). unfold PAGE_SIZE in *. lia. }
  split; [|done]. split; try done; cbn [st' emit with_words with_frames frames].
  - by rewrite He.
  - intros t. rewrite HT, Hs, He. apply K5.
  - intros b Hb. rewrite HT. by apply K6.
Qed.

(** One entry of a block changes. *)
Lemma km_set total st st' l T b d : kmem total st l T -> kset st st' b d -> kmem total st' l T.
Proof.
  intros [K1 K2 K3 K4 K5 K6] [S1 S2 S3 S4 S5 S6]. split; try done; rewrite ?S4, ?S3; try done.
  - assert (HT : forall t, table_page st' t <-> table_page st t).
    { intros t. unfold table_page. rewrite S2. split; (intros [?|(i & Hi & Ht)]; [by left|right]; exists i; split; [done|]; revert Ht; by rewrite S5). }
    intros t. rewrite HT. apply K5.
  - intros x Hx. destruct (K6 x Hx) as [? Ht]. split; [done|]. revert Ht. unfold table_page. rewrite S2.
    intros [?|(i & Hi & Ht)]; [by left|right]. exists i. split; [done|]. revert Ht. by rewrite S5.
Qed.

(** L2 tables may have been added for addresses that had none. *)
Record grown_map (st st' : vmm) : Prop := {
  gm_statics : statics st st';
  gm_l1e : forall i, 0 <= i < 512 -> l1e st' i = l1e st i \/ pte_type (l1e st i) = PTE_TYPE_INVALID /\ pte_type (l1e st' i) = PTE_TYPE_TABLE;
  gm_ent : forall b, 0 <= b < BLOCKS -> kent st' b = kent st b \/ kent st b = None /\ kent st' b = Some 0
}.

Lemma grown_map_refl st : grown_map st st.
Proof. split; [apply statics_refl|by left|by left]. Qed.

Lemma grown_map_trans st1 st2 st3 : grown_map st1 st2 -> grown_map st2 st3 -> grown_map st1 st3.
Proof.
  intros [S1 L1 G1] [S2 L2 G2]. split; [by eapply statics_trans|..].
  - intros i Hi. destruct (L1 i Hi) as [E1|[E1 E1']], (L2 i Hi) as [E2|[E2 E2']]; [left|right|right|by rewrite E1' in E2]; try split; congruence.
  - intros b Hb. destruct (G1 b Hb) as [E1|[E1 E1']], (G2 b Hb) as [E2|[E2 E2']]; [left|right|right|]; try split; congruence.
Qed.

Lemma grown_some st st' b : grown_map st st' -> 0 <= b < BLOCKS -> is_Some (kent st b) -> is_Some (kent st' b).
Proof. intros [_ _ G] Hb [e He]. destruct (G b Hb) as [E|[E _]]; [rewrite E; by exists e|congruence]. Qed.

Lemma km_ensure total st l T virt :
  kmem total st l T ->
  exists rc st' N, vmm_ensure_kernel_l2_table virt st = Some (rc, st') /\ kmem total st' l (N ++ T) /\ grown_map st st' /\ (length N <= 1)%nat /\
    (forall b, 0 <= b < BLOCKS -> kent st b = None -> is_Some (kent st' b) -> b / 512 = bidx virt / 512) /\
    (rc = -1 /\ N = [] /\ st' = st /\ kent st (bidx virt) = None /\ (pte_type (l1e st (bidx virt / 512)) <> PTE_TYPE_INVALID \/ free_pages (frames st) = 0) \/
     rc = 0 /\ is_Some (kent st' (bidx virt))).
Proof.
  intros K. pose proof K as [K1 K2 K3 K4 K5 K6].
  destruct (ensure_l2_spec virt st K1 K2 (PmmSpec.ss_inv _ _ K4) K3 (tables_held _ _ _ _ K)) as (rc & st' & E & S & Hres).
  destruct Hres as [(-> & -> & Hwhy)|(-> & Hs & [->|(p & A)])].
  - exists (-1), st, []. split_and!; try done; [by apply grown_map_refl|cbn; lia| |by left]. intros b _ -> [? ?]. done.
  - exists 0, st, []. split_and!; try done; [by apply grown_map_refl|cbn; lia| |by right]. intros b _ -> [? ?]. done.
  - exists 0, st', [(p, 1)]. pose proof A as [A1 A2 A3 A4 A7 A5 A6]. pose proof S as (S1 & S2 & _ & _ & S5 & S6). split; [done|]. split; [|split; [|split; [cbn; lia|split; [|by right]]]].
    + split; try done; [by rewrite S2|by rewrite S6|..].
      * eapply sess_perm; [|apply (sess_alloc _ _ (frames st') _ 1 p K4); [lia|rewrite order_page; lia|done|done]].
        cbn [app]. by rewrite Permutation_middle.
      * intros t. rewrite S5, S6. intros [Ht| ->]%A5; [|left; by left]. destruct (K5 t Ht) as [?|?]; [left; by right|by right].
      * intros x [->|Hx]%elem_of_cons; [split; [done|]; apply A5; by right|]. destruct (K6 x Hx) as [? Ht]. split; [done|]. apply A5. by left.
    + split; [done|..].
      { intros j Hj. rewrite A7 by done. case_decide as D; [right; subst j; by rewrite table_desc_type|by left]. }
      intros b Hb. rewrite A6 by done. case_decide as D; [|by left]. right. split; [|done]. unfold kent. by rewrite D, A2.
    + intros b Hb E0. rewrite A6 by done. case_decide as D; [done|]. rewrite E0. by intros [? ?].
Qed.

Lemma ensure_tables_spec n total st l T base off :
  kmem total st l T ->
  exists bad st' N, ensure_tables n base off st = Some (bad, st') /\ kmem total st' l (N ++ T) /\ grown_map st st' /\ (length N <= n)%nat /\
    (forall b, 0 <= b < BLOCKS -> kent st b = None -> is_Some (kent st' b) ->
       exists m, 0 <= m < Z.of_nat n /\ b / 512 = bidx (base +64 (off + m * L1_BLOCK_SIZE)) / 512) /\
    match bad with
    | None => forall m, 0 <= m < Z.of_nat n -> is_Some (kent st' (bidx (base +64 (off + m * L1_BLOCK_SIZE))))
    | Some va => exists m, 0 <= m < Z.of_nat n /\ va = base +64 (off + m * L1_BLOCK_SIZE) /\ kent st' (bidx va) = None /\
        (pte_type (l1e st' (bidx va / 512)) <> PTE_TYPE_INVALID \/ free_pages (frames st') = 0)
    end.
Proof.
  revert st T off. induction n as [|n IH]; intros st T off K; cbn [ensure_tables].
  { exists None, st, []. split_and!; try done; [apply grown_map_refl| |lia]. intros b _ -> [? ?]. done. }
  destruct (km_ensure total st l T (base +64 off) K) as (rc & st1 & N1 & -> & K1 & G1 & L1 & A1 & Hres). cbn [mbind option_bind].
  destruct Hres as [(-> & -> & -> & Hwhy)|(-> & Hs)]; cbn [Z.eqb negb].
  { eexists _, st, []. split_and!; try done; [cbn; lia|intros b _ -> [? ?]; done|]. exists 0. rewrite Z.mul_0_l, Z.add_0_r. split; [lia|done]. }
  destruct (IH st1 (N1 ++ T) (off + L1_BLOCK_SIZE) K1) as (bad & st' & N & -> & K' & G' & L' & A' & Hall).
  exists bad, st', (N ++ N1). rewrite <- app_assoc, length_app. split; [done|]. split; [done|]. split; [by eapply grown_map_trans|]. split; [lia|]. split.
  { intros b Hb E0 Hs'. destruct (kent st1 b) eqn:E1.
    - exists 0. split; [lia|]. rewrite Z.mul_0_l, Z.add_0_r. apply A1; [done|done|by rewrite E1].
    - destruct (A' b Hb E1 Hs') as (m & Hm & Eb). exists (m + 1). split; [lia|].
      by replace (off + (m + 1) * L1_BLOCK_SIZE) with (off + L1_BLOCK_SIZE + m * L1_BLOCK_SIZE) by lia. }
  destruct bad as [va|].
  { destruct Hall as (m & Hm & -> & Hwhy). exists (m + 1). split; [lia|]. split; [f_equal; lia|done]. }
  intros m Hm. destruct (decide (m = 0)) as [->|].
  - rewrite Z.mul_0_l, Z.add_0_r. eapply grown_some; [exact G'|apply bidx_range|done].
  - specialize (Hall (m - 1) ltac:(lia)). by replace (off + L1_BLOCK_SIZE + (m - 1) * L1_BLOCK_SIZE) with (off + m * L1_BLOCK_SIZE) in Hall by lia.
Qed.

(** ** Chunks *)

(** The window has room for so many chunks; [wblk j] is the number of the [j]-th. *)
Definition WINDOW : Z := (KBUF_VA_LIMIT - KBUF_VA_BASE) / KBUF_CHUNK_BYTES.
Notation wblk := (blk KBUF_VA_BASE).
Notation window_va a := (KBUF_VA_BASE + a * KBUF_CHUNK_BYTES).

Lemma window_aligned a : (BLOCK_SIZE | window_va a).
Proof. exists (0x7FFFFFC4000 + a). unfold KBUF_VA_BASE, KBUF_CHUNK_BYTES, BLOCK_SIZE. lia. Qed.

Lemma window_sum a i : 0 <= a -> 0 <= i -> a + i <= WINDOW -> window_va a +64 i * KBUF_CHUNK_BYTES = window_va (a + i).
Proof. unfold WINDOW, KBUF_VA_LIMIT, KBUF_VA_BASE, KBUF_CHUNK_BYTES. intros Ha Hi Hw. change ((_ - _) / _) with 16384 in Hw. rewrite u64_small; [lia|unfold is_u64; lia]. Qed.

Lemma window_bidx a : 0 <= a <= WINDOW -> bidx (window_va a) = wblk a.
Proof.
  intros Ha. rewrite <- blk_va by (try lia; by exists 0x7FFFFFC4000). f_equal. symmetry. apply (window_sum 0 a); lia.
Qed.

Lemma wblk_inj a b : 0 <= a <= WINDOW -> 0 <= b <= WINDOW -> wblk a = wblk b -> a = b.
Proof. intros Ha Hb. change WINDOW with 16384 in *. apply blk_inj; unfold BLOCKS; lia. Qed.

(** The blocks of chunks [i] to [m]. *)
Definition chunk_list (chunks : Z -> Z) (i m : Z) : list (Z * Z) := (fun j => (chunks j, KBUF_CHUNK_PAGES)) <$> seqZ i (m - i).

Lemma chunk_list_nil chunks i : chunk_list chunks i i = [].
Proof. unfold chunk_list. by rewrite Z.sub_diag. Qed.

Lemma chunk_list_cons chunks i m : i < m -> chunk_list chunks i m = (chunks i, KBUF_CHUNK_PAGES) :: chunk_list chunks (i + 1) m.
Proof. intros. unfold chunk_list. rewrite seqZ_cons by lia. cbn [fmap list_fmap]. do 3 f_equal; lia. Qed.

Lemma chunk_list_snoc chunks m p :
  0 <= m -> chunk_list (<[m := p]> chunks) 0 (m + 1) ≡ₚ (p, KBUF_CHUNK_PAGES) :: chunk_list chunks 0 m.
Proof.
  intros Hm. unfold chunk_list. rewrite !Z.sub_0_r, seqZ_app by lia. assert (seqZ (0 + m) 1 = [m]) as -> by (cbn; f_equal; lia).
  rewrite fmap_app, Permutation_app_comm. cbn [fmap list_fmap app]. rewrite fn_lookup_insert.
  apply Permutation_cons; [done|]. apply reflexive_eq, list_fmap_ext. intros i x Hx. apply lookup_seqZ in Hx as [-> ?].
  rewrite fn_lookup_insert_Z, decide_False by lia. done.
Qed.

(** Chunks [i] to [m] of the run of blocks from [a] are mapped, the earlier ones are
    not any more, and the map is otherwise that of [st0]. *)
Record chunks_up (st0 st : vmm) (chunks : Z -> Z) (a i m : Z) : Prop := {
  cu_l1 : l1_table st = l1_table st0;
  cu_heap : heap_start (frames st) = heap_start (frames st0) /\ heap_end (frames st) = heap_end (frames st0);
  cu_l1e : forall j, 0 <= j < 512 -> l1e st j = l1e st0 j;
  cu_in : forall j, i <= j < m -> 0 < chunks j < 2 ^ 39 /\ (BLOCK_SIZE | chunks j) /\
    exists d, make_block_desc (chunks j) VMM_FLAGS_KERNEL_DATA = Some d /\ kent st (wblk (a + j)) = Some d;
  cu_gone : forall j, 0 <= j < i -> kent st (wblk (a + j)) = Some 0;
  cu_out : forall b, 0 <= b < BLOCKS -> (forall j, 0 <= j < m -> b <> wblk (a + j)) -> kent st b = kent st0 b
}.

Lemma chunks_up_same st0 st st' chunks a i m : chunks_up st0 st chunks a i m -> same_map st st' -> chunks_up st0 st' chunks a i m.
Proof.
  intros [C2 C3 C4 C5 C6 C7] [(E1 & _ & _ & _ & E5 & E6) E7 E8]. split.
  - congruence.
  - destruct C3. split; congruence.
  - intros j Hj. rewrite E7, C4; done.
  - intros j Hj. rewrite E8 by apply blk_range. by apply C5.
  - intros j Hj. rewrite E8 by apply blk_range. by apply C6.
  - intros b Hb Hout. rewrite E8, C7; done.
Qed.

Lemma chunks_release_one total st0 st chunks a i m l T :
  0 <= a -> 0 <= i < m -> a + m <= WINDOW -> chunks_up st0 st chunks a i m -> kmem total st (chunk_list chunks i m ++ l) T ->
  exists st', free_block_at (chunks i) KBUF_CHUNK_PAGES (vmm_unmap_block (window_va a +64 i * KBUF_CHUNK_BYTES) st).2 = Some st' /\
    chunks_up st0 st' chunks a (i + 1) m /\ kmem total st' (chunk_list chunks (i + 1) m ++ l) T.
Proof.
  intros Ha Hi Hm [C2 C3 C4 C5 C6 C7] K. rewrite window_sum by lia.
  rewrite unmap_block_eq by (apply K || apply window_aligned). pose proof (unmap_block_locked_spec (window_va (a + i)) st (km_tables _ _ _ _ K)) as Hu.
  rewrite window_bidx in Hu by lia. destruct (vmm_unmap_block_locked (window_va (a + i)) st) as [rc st1]. cbn [snd].
  destruct (C5 i ltac:(lia)) as (_ & _ & d & Hd & He). destruct (block_desc_spec _ _ _ Hd) as [Ht _].
  destruct Hu as [(_ & _ & Hinv)|(_ & _ & _ & S)]; [specialize (Hinv d He); unfold is_invalid in Hinv; by rewrite Ht in Hinv|].
  pose proof (km_set _ _ _ _ _ _ _ K S) as K1. rewrite chunk_list_cons in K1 by lia. cbn [app] in K1.
  destruct (km_free _ _ _ _ _ _ K1) as (st' & E & K' & M). exists st'. split_and!; [done| |done].
  assert (Hne : forall j, 0 <= j < m -> j <> i -> wblk (a + j) <> wblk (a + i)) by (intros j Hj Hji E'; apply wblk_inj in E'; lia).
  apply (chunks_up_same _ st1); [|exact M]. destruct S as [S1 S2 S3 S4 S5 S6]. split.
  - congruence.
  - by rewrite S4.
  - intros j Hj. rewrite S5, C4; done.
  - intros j Hj. rewrite S6, decide_False by (apply blk_range || apply Hne; lia). apply C5. lia.
  - intros j Hj. rewrite S6 by apply blk_range. case_decide as D; [done|]. apply C6. destruct (decide (j = i)) as [->|]; [done|lia].
  - intros b Hb Hout. rewrite S6, decide_False by (done || apply Hout; lia). by apply C7.
Qed.

Lemma release_chunks_spec n total st0 st chunks a i m l T :
  0 <= a -> 0 <= i -> i + Z.of_nat n = m -> a + m <= WINDOW -> chunks_up st0 st chunks a i m -> kmem total st (chunk_list chunks i m ++ l) T ->
  exists st', release_chunks n (window_va a) i chunks st = Some st' /\ chunks_up st0 st' chunks a m m /\ kmem total st' l T.
Proof.
  revert i st. induction n as [|n IH]; intros i st Ha Hi Hn Hm C K; cbn [release_chunks].
  { assert (i = m) as -> by lia. exists st. rewrite chunk_list_nil in K. done. }
  destruct (chunks_release_one total st0 st chunks a i m l T) as (st1 & -> & C1 & K1); try done; [lia|]. cbn [mbind option_bind].
  apply IH; (done || lia).
Qed.

Lemma chunks_map_one st0 st st' chunks a m p d :
  0 <= a -> 0 <= m -> a + m < WINDOW -> chunks_up st0 st chunks a 0 m -> kset st st' (wblk (a + m)) d ->
  make_block_desc p VMM_FLAGS_KERNEL_DATA = Some d -> 0 < p < 2 ^ 39 -> (BLOCK_SIZE | p) -> chunks_up st0 st' (<[m := p]> chunks) a 0 (m + 1).
Proof.
  intros Ha Hm Hw [C2 C3 C4 C5 C6 C7] [S1 S2 S3 S4 S5 S6] Hd Hp Hal.
  assert (Hne : forall j, 0 <= j < m -> wblk (a + j) <> wblk (a + m)) by (intros j Hj E'; apply wblk_inj in E'; lia). split.
  - congruence.
  - by rewrite S4.
  - intros j Hj. rewrite S5, C4; done.
  - intros j Hj. rewrite S6 by apply blk_range. rewrite fn_lookup_insert_Z. destruct (decide (j = m)) as [->|].
    + rewrite decide_True by done. split; [done|]. split; [done|]. by exists d.
    + rewrite decide_False by (apply Hne; lia). apply C5. lia.
  - lia.
  - intros b Hb Hout. rewrite S6, decide_False by (done || apply Hout; lia). apply C7; [done|]. intros j Hj. apply Hout. lia.
Qed.

(** Why the mapping loop gives up at chunk [m]. *)
Definition chunk_failure (total : Z) (st0 : vmm) (a m total_n : Z) (l T : list (Z * Z)) (diag : kbuf_slow_diag) : Prop :=
  failed_chunk diag = m /\ total_chunks diag = total_n /\
  (err diag = KBUF_SLOW_PMM_EXHAUSTION /\
     (exists st chunks, chunks_up st0 st chunks a 0 m /\ kmem total st (chunk_list chunks 0 m ++ l) T /\ exhausted (frames st) (order_for KBUF_CHUNK_PAGES)) \/
   err diag = KBUF_SLOW_VMM_MAP_FAIL /\ failed_va diag = window_va (a + m) /\ blocked st0 (wblk (a + m))).

Lemma chunk_order : order_for KBUF_CHUNK_PAGES = 9%nat.
Proof. reflexivity. Qed.

Lemma chunk_aligned p : aligned (order_for KBUF_CHUNK_PAGES) p -> (BLOCK_SIZE | p).
Proof. rewrite chunk_order. done. Qed.

Lemma map_chunks_spec n total st0 st chunks a i total_n l T :
  0 <= a -> 0 <= i -> a + i + Z.of_nat n <= WINDOW -> chunks_up st0 st chunks a 0 i -> kmem total st (chunk_list chunks 0 i ++ l) T ->
  exists failed chunks' st', map_chunks n (window_va a) i total_n chunks st = Some (failed, chunks', st') /\
    (failed = None /\ chunks_up st0 st' chunks' a 0 (i + Z.of_nat n) /\ kmem total st' (chunk_list chunks' 0 (i + Z.of_nat n) ++ l) T /\
       (forall j, i <= j < i + Z.of_nat n -> ~ blocked st0 (wblk (a + j))) \/
     exists diag m, failed = Some diag /\ i <= m < i + Z.of_nat n /\ chunks_up st0 st' chunks' a m m /\ kmem total st' l T /\ chunk_failure total st0 a m total_n l T diag /\
       (forall j, i <= j < m -> ~ blocked st0 (wblk (a + j)))).
Proof.
  revert i st chunks. induction n as [|n IH]; intros i st chunks Ha Hi Hw C K; cbn [map_chunks].
  { exists None, chunks, st. split; [done|]. left. rewrite Z.add_0_r. split_and!; try done. lia. }
  destruct (km_alloc _ _ _ _ KBUF_CHUNK_PAGES K ltac:(by vm_compute)) as (p & st1 & -> & Hres). cbn [mbind option_bind].
  destruct Hres as [(-> & -> & Hex)|(Hp & _ & Hal & K1 & M)].
  { cbn [Z.eqb]. destruct (release_chunks_spec (Z.to_nat i) total st0 st chunks a 0 i l T) as (st' & -> & C' & K'); try done; try lia. cbn [mbind option_bind].
    eexists _, _, _. split; [done|]. right. eexists _, i. split_and!; try done; try lia. split_and!; try done. left. split; [done|]. exists st, chunks.
    destruct Hex as [Hex|Hex]; [vm_compute in Hex; lia|]. done. }
  rewrite (proj2 (Z.eqb_neq p 0)) by lia. rewrite window_sum by lia. pose proof (chunks_up_same _ _ _ _ _ _ _ C M) as C1.
  rewrite map_block_eq by (apply K1 || apply window_aligned || by apply chunk_aligned).
  destruct (map_block_locked_spec (window_va (a + i)) p VMM_FLAGS_KERNEL_DATA st1 (km_tables _ _ _ _ K1) eq_refl) as (rc & st2 & -> & Hres).
  rewrite window_bidx in Hres by lia. cbn [mbind option_bind].
  assert (E0 : kent st1 (wblk (a + i)) = kent st0 (wblk (a + i))).
  { apply C1; [apply blk_range|]. intros j Hj E. apply wblk_inj in E; lia. }
  destruct Hres as [(-> & -> & Hno)|(-> & (e & He & Hinv) & _ & d & Hd & Hset)]; cbn [Z.eqb negb].
  - destruct (km_free _ _ _ _ _ _ K1) as (st2 & -> & K2 & M2). cbn [mbind option_bind].
    destruct (release_chunks_spec (Z.to_nat i) total st0 st2 chunks a 0 i l T) as (st' & -> & C' & K'); try done; try lia; [by eapply chunks_up_same|]. cbn [mbind option_bind].
    eexists _, _, _. split; [done|]. right. eexists _, i. split_and!; try done; try lia. split_and!; try done. right. split_and!; [done|done|].
    intros e He. apply Hno. by rewrite E0.
  - destruct (IH (i + 1) st2 (<[i := p]> chunks)) as (failed & chunks' & st' & -> & Hres); try lia.
    { eapply chunks_map_one; try done; try lia. }
    { eapply kmem_perm; [|eapply km_set; [exact K1|exact Hset]]. by rewrite chunk_list_snoc. }
    assert (Hnb : ~ blocked st0 (wblk (a + i))) by (intros Hb; rewrite E0 in He; specialize (Hb e He); congruence).
    assert (Hall : forall k, (forall j, i + 1 <= j < k -> ~ blocked st0 (wblk (a + j))) -> forall j, i <= j < k -> ~ blocked st0 (wblk (a + j))).
    { intros k Hk j Hj. destruct (decide (j = i)) as [->|]; [done|apply Hk; lia]. }
    eexists _, _, _. split; [done|]. replace (i + Z.of_nat (S n)) with (i + 1 + Z.of_nat n) by lia.
    destruct Hres as [(-> & ? & ? & ?)|(diag & m & -> & ? & ? & ? & ? & ?)]; [left; do 3 (split; [done|])|right; exists diag, m; do 5 (split; [done || lia|])]; by apply Hall.
Qed.

End KbufSpec.
