(* ===== verification/KbufSessions.v ===== *)
(** The table of kernel buffers: its invariant, what [kbuf_alloc] and [kbuf_free] do
    to it, and sessions of calls. *)

From S2P Require Import Prelude.
From S2P Require Import FreeList Buddy BuddyInv BuddySpec PmmSpec PageDesc Vmm VmmTree VmmUser VmmKernel Kbuf KbufSpec.

Module KbufSessions.
Import Buddy BuddyInv BuddySpec PageDesc Vmm VmmTree VmmUser VmmKernel Kbuf KbufSpec.
Open Scope Z_scope.
Open Scope slm_scope.

Notation wblk := (blk KBUF_VA_BASE).
Notation window_va a := (KBUF_VA_BASE + a * KBUF_CHUNK_BYTES).

(** ** The region table *)

Definition used (r : kbuf_region) : bool := negb (va_base r =? 0).

(** The blocks behind a region. *)
Definition blocks_of (r : kbuf_region) : list (Z * Z) :=
  if used r then
    if n_chunks r =? 0 then [(phys_single r, total_bytes r / PAGE_SIZE)] else chunk_list (phys_chunks r) 0 (n_chunks r)
  else [].

Definition kbuf_blocks (rs : list kbuf_region) : list (Z * Z) := concat (blocks_of <$> rs).

Lemma kbuf_blocks_insert rs i r : (i < length rs)%nat -> kbuf_blocks (<[i := r]> rs) ≡ₚ blocks_of r ++ kbuf_blocks (delete i rs).
Proof.
  intros Hi. unfold kbuf_blocks. rewrite insert_take_drop, delete_take_drop by done. rewrite !fmap_app, !concat_app. cbn [fmap list_fmap concat].
  rewrite !app_assoc. apply Permutation_app_tail, Permutation_app_comm.
Qed.

Lemma kbuf_blocks_lookup rs i r : rs !! i = Some r -> kbuf_blocks rs ≡ₚ blocks_of r ++ kbuf_blocks (delete i rs).
Proof.
  intros Hi. rewrite <- (list_insert_id rs i r Hi) at 1. apply kbuf_blocks_insert. by eapply lookup_lt_Some.
Qed.

(** Sums over the used regions. *)
Definition wsum (w : kbuf_region -> Z) (rs : list kbuf_region) : Z := foldr (fun r acc => (if used r then w r else 0) + acc) 0 rs.

Lemma wsum_app w rs rs' : wsum w (rs ++ rs') = wsum w rs + wsum w rs'.
Proof. unfold wsum. induction rs as [|r rs IH]; cbn [foldr app]; [done|]. rewrite IH. lia. Qed.

Lemma wsum_insert w rs i r r0 :
  rs !! i = Some r0 -> wsum w (<[i := r]> rs) = wsum w rs - (if used r0 then w r0 else 0) + (if used r then w r else 0).
Proof.
  intros Hi. rewrite <- (take_drop_middle _ _ _ Hi) at 2. rewrite insert_take_drop by (by eapply lookup_lt_Some). rewrite !wsum_app.
  unfold wsum at 2 4. cbn [foldr]. fold (wsum w (drop (S i) rs)). lia.
Qed.

Lemma find_slot_some va rs i : find_slot va rs = Some i -> exists r, rs !! i = Some r /\ va_base r = va.
Proof.
  revert i. induction rs as [|r rs IH]; intros i; cbn [find_slot]; [done|]. case_match eqn:E.
  - intros [= <-]. exists r. apply Z.eqb_eq in E. done.
  - destruct (find_slot va rs) as [j|]; [|done]. intros [= <-]. by apply IH.
Qed.

Lemma find_slot_none va rs r : find_slot va rs = None -> r ∈ rs -> va_base r <> va.
Proof.
  induction rs as [|r' rs IH]; cbn [find_slot]; [intros _ ?%not_elem_of_nil; done|]. case_match eqn:E; [done|].
  destruct (find_slot va rs) eqn:Ef; [done|]. intros _ [->|Hr]%elem_of_cons; [by apply Z.eqb_neq|by apply IH].
Qed.

(** ** The invariant *)

(** A buffer that is one block of the allocator. *)
Record fast_region (r : kbuf_region) : Prop := {
  fr_chunks : n_chunks r = 0;
  fr_base : va_base r = phys_single r /\ 0 < va_base r;
  fr_end : va_end r = va_base r + total_bytes r /\ va_end r <= 2 ^ 39;
  fr_bytes : (KBUF_CHUNK_BYTES | total_bytes r) /\ 0 < total_bytes r
}.

(** A buffer of mapped chunks, below [c] in the window. *)
Record slow_region (st : vmm) (c : Z) (r : kbuf_region) (a : Z) : Prop := {
  sr_base : va_base r = window_va a /\ 0 <= a /\ a + n_chunks r <= c;
  sr_chunks : 0 < n_chunks r <= KBUF_MAX_CHUNKS_PER_REGION;
  sr_bytes : total_bytes r = n_chunks r * KBUF_CHUNK_BYTES /\ va_end r = va_base r + total_bytes r;
  sr_map : forall j, 0 <= j < n_chunks r -> 0 < phys_chunks r j < 2 ^ 39 /\ (BLOCK_SIZE | phys_chunks r j) /\
    exists d, make_block_desc (phys_chunks r j) VMM_FLAGS_KERNEL_DATA = Some d /\ kent st (wblk (a + j)) = Some d
}.

Definition region_ok (st : vmm) (c : Z) (r : kbuf_region) : Prop := fast_region r \/ exists a, slow_region st c r a.

Definition vacant (o : option Z) : Prop := forall e, o = Some e -> is_invalid e = true.

(** [R] are the blocks the rest of the kernel holds, [T] the pages that became L2
    tables; [c] chunks of the window have been used up. *)
Record kbuf_ok (total : Z) (k : kbuf) (R T : list (Z * Z)) (c : Z) : Prop := {
  ko_len : length (g_regions k) = KBUF_MAX_REGIONS;
  ko_mem : kmem total (kvm k) (kbuf_blocks (g_regions k) ++ R) T;
  ko_next : g_next_va k = window_va c /\ 0 <= c <= WINDOW;
  ko_vacant : forall j, c <= j < WINDOW -> vacant (kent (kvm k) (wblk j));
  ko_region : forall i r, g_regions k !! i = Some r -> used r = true -> region_ok (kvm k) c r;
  ko_sep : forall i j r r', g_regions k !! i = Some r -> g_regions k !! j = Some r' -> used r = true -> used r' = true -> i <> j ->
    va_end r <= va_base r' \/ va_end r' <= va_base r;
  ko_total : g_total_bytes_allocated k = u64 (wsum total_bytes (g_regions k));
  ko_count : g_region_count k = u64 (wsum (fun _ => 1) (g_regions k))
}.

Lemma used_spec r : used r = false <-> va_base r = 0.
Proof. unfold used. rewrite negb_false_iff. apply Z.eqb_eq. Qed.

Lemma fast_used r : fast_region r -> used r = true.
Proof. intros [_ [_ ?] _ _]. unfold used. apply negb_true_iff, Z.eqb_neq. lia. Qed.

Lemma window_bounds a : 0 <= a <= WINDOW -> KBUF_VA_BASE <= window_va a <= KBUF_VA_LIMIT /\ 2 ^ 39 < KBUF_VA_BASE.
Proof. change WINDOW with 16384. unfold KBUF_VA_BASE, KBUF_VA_LIMIT, KBUF_CHUNK_BYTES. lia. Qed.

Lemma slow_used st c r a : slow_region st c r a -> used r = true.
Proof. intros [(E & ? & ?) ? _ _]. unfold used. apply negb_true_iff, Z.eqb_neq. rewrite E. unfold KBUF_VA_BASE, KBUF_CHUNK_BYTES. lia. Qed.

(** Growing the map, or the part of the window in use, keeps the regions. *)
Lemma region_ok_mono st st' c c' r :
  region_ok st c r -> c <= c' ->
  (forall a, slow_region st c r a -> forall j, 0 <= j < n_chunks r -> kent st' (wblk (a + j)) = kent st (wblk (a + j))) -> region_ok st' c' r.
Proof.
  intros [?|[a S]] Hc Hk; [by left|right]. exists a. specialize (Hk a S). destruct S as [(? & ? & ?) S2 S3 S4]. split; try done; [split_and!; (done || lia)|].
  intros j Hj. rewrite Hk by done. by apply S4.
Qed.

Lemma round_up_spec bytes :
  0 < bytes < 2 ^ 53 -> (KBUF_CHUNK_BYTES | round_up_chunk bytes) /\ bytes <= round_up_chunk bytes < bytes + KBUF_CHUNK_BYTES.
Proof.
  intros Hb. unfold round_up_chunk. rewrite (u64_small (bytes + KBUF_CHUNK_BYTES)), u64_small by (unfold is_u64, KBUF_CHUNK_BYTES; lia).
  change (KBUF_CHUNK_BYTES - 1) with (Z.ones 21). rewrite Z.ldiff_ones_r, Z.shiftl_mul_pow2, Z.shiftr_div_pow2 by lia. change (2 ^ 21) with KBUF_CHUNK_BYTES.
  split; [by eexists|]. unfold KBUF_CHUNK_BYTES. Z.div_mod_to_equations. lia.
Qed.

(** ** The two paths *)

(** The kernel's map changes at the blocks in [P] only; elsewhere empty L2 tables may
    appear and unused entries may be cleared. *)
Record remapped (st st' : vmm) (P : Z -> Prop) : Prop := {
  rm_l1e : forall i, 0 <= i < 512 -> l1e st' i = l1e st i \/ pte_type (l1e st i) = PTE_TYPE_INVALID /\ pte_type (l1e st' i) = PTE_TYPE_TABLE;
  rm_ent : forall b, 0 <= b < BLOCKS -> ~ P b -> kent st' b = kent st b \/ vacant (kent st b) /\ kent st' b = Some 0
}.

Lemma remapped_lookup st st' P va :
  ktables st -> ktables st' -> remapped st st' P -> ~ P (bidx va) ->
  vmm_virt_to_phys va st' = vmm_virt_to_phys va st /\ vmm_is_mapped va st' = vmm_is_mapped va st.
Proof.
  intros K K' [Rl Re] HP. pose proof (bidx_range va) as Hb. specialize (Re _ Hb HP). pose proof (block_L1 _ Hb) as Hi. destruct (kent st (bidx va)) as [e|] eqn:He.
  - destruct (lookup_block va st e K He) as [-> ->]. destruct Re as [He'|[Hv He']].
    + destruct (lookup_block va st' e K' He') as [-> ->]. done.
    + destruct (lookup_block va st' 0 K' He') as [-> ->]. specialize (Hv e eq_refl). unfold is_invalid in *. apply Z.eqb_eq in Hv. by rewrite Hv.
  - assert (Hl : l1e st' (bidx va / 512) = l1e st (bidx va / 512) /\ kent st' (bidx va) = None \/
      pte_type (l1e st (bidx va / 512)) = PTE_TYPE_INVALID /\ kent st' (bidx va) = Some 0).
    { destruct (Rl _ Hi) as [El|[El El']]; [left|right]; (split; [done|]).
      - revert He. unfold kent. rewrite El. by case_match.
      - destruct Re as [Re|[_ Re]]; [|done]. revert Re. unfold kent. by rewrite El'. }
    destruct Hl as [[El He']|[El He']].
    + unfold vmm_virt_to_phys, vmm_is_mapped. rewrite !get_l2_none by done. rewrite !bidx_L1. fold (l1e st (bidx va / 512)) (l1e st' (bidx va / 512)). by rewrite El.
    + destruct (lookup_block va st' 0 K' He') as [-> ->]. unfold vmm_virt_to_phys, vmm_is_mapped. rewrite get_l2_none by done. rewrite bidx_L1.
      fold (l1e st (bidx va / 512)). by rewrite El.
Qed.

Lemma remapped_same st st' P : same_map st st' -> remapped st st' P.
Proof. intros [_ El Ee]. split; [intros i Hi; left; by apply El|intros b Hb _; left; by apply Ee]. Qed.

Lemma chunk_pages tb : (KBUF_CHUNK_BYTES | tb) -> tb / PAGE_SIZE * PAGE_SIZE = tb.
Proof. intros [n ->]. replace (n * KBUF_CHUNK_BYTES) with (n * 512 * PAGE_SIZE) by (unfold KBUF_CHUNK_BYTES, PAGE_SIZE; lia). by rewrite Z.div_mul. Qed.

Lemma with_kvm_same k : with_kvm (kvm k) k = k.
Proof. by destruct k. Qed.

Lemma fast_path_spec total k l T tb :
  kmem total (kvm k) l T -> (KBUF_CHUNK_BYTES | tb) -> 0 < tb <= 2 ^ 53 ->
  exists p r v, try_fast_path region_zero tb k = Some (p, r, with_kvm v k) /\
    (p = 0 /\ r = region_zero /\ v = kvm k \/
     p = va_base r /\ fast_region r /\ total_bytes r = tb /\ kmem total v (blocks_of r ++ l) T /\ same_map (kvm k) v).
Proof.
  intros K Hal Htb. unfold try_fast_path. destruct (g_force_slow_path k).
  { exists 0, region_zero, (kvm k). rewrite with_kvm_same. split; [done|by left]. }
  pose proof (chunk_pages tb Hal) as Hpg. assert (Hn : 0 < tb / PAGE_SIZE <= 2 ^ 63) by (unfold PAGE_SIZE in *; lia).
  destruct (km_alloc total (kvm k) l T (tb / PAGE_SIZE) K Hn) as (p & v & -> & Hres). cbn [mbind option_bind].
  destruct Hres as [(-> & -> & _)|(Hp & Hend & _ & K' & M)]; [exists 0, region_zero, (kvm k); split; [done|by left]|].
  rewrite (proj2 (Z.eqb_neq p 0)) by lia. eexists p, _, v. split; [done|]. right.
  assert (Hsz : tb <= bsize (order_for (tb / PAGE_SIZE))).
  { unfold bsize. rewrite Z.pow_add_r by lia. change (2 ^ 12) with PAGE_SIZE. pose proof (order_for_pow2 (tb / PAGE_SIZE) ltac:(lia)). unfold PAGE_SIZE in *. lia. }
  assert (Hpe : p +64 tb = p + tb) by (apply u64_small; unfold is_u64; lia). rewrite Hpe.
  assert (Hf : fast_region (KbufRegion p (p + tb) tb 0 (<[0 := p]> (phys_chunks region_zero)))).
  { split; unfold phys_single; cbn [n_chunks va_base va_end total_bytes phys_chunks]; [done|rewrite fn_lookup_insert; lia|lia|split; [done|lia]]. }
  split_and!; try done. unfold blocks_of. rewrite (fast_used _ Hf). cbn [n_chunks Z.eqb]. unfold phys_single. cbn [phys_chunks total_bytes app]. by rewrite fn_lookup_insert.
Qed.

(** What the slow path found wrong. *)
Definition slow_failure (total : Z) (st : vmm) (c n : Z) (l T : list (Z * Z)) (diag : kbuf_slow_diag) : Prop :=
  match err diag with
  | KBUF_SLOW_OK => n = 0 \/ KBUF_MAX_CHUNKS_PER_REGION < n
  | KBUF_SLOW_OUT_OF_VA => WINDOW < c + n
  | KBUF_SLOW_L2_INSTALL_FAIL => exists st' m, grown_map st st' /\ 0 <= m * L1_BLOCK_SIZE < n * KBUF_CHUNK_BYTES /\
      failed_va diag = window_va c + m * L1_BLOCK_SIZE /\ kent st' (bidx (failed_va diag)) = None /\
      (pte_type (l1e st' (bidx (failed_va diag) / 512)) <> PTE_TYPE_INVALID \/ free_pages (frames st') = 0)
  | KBUF_SLOW_PMM_EXHAUSTION | KBUF_SLOW_VMM_MAP_FAIL => exists st' T' m, grown_map st st' /\ 0 <= m < n /\ chunk_failure total st' c m n l T' diag
  end.

Lemma gigabytes tb m : 0 < tb -> 0 <= m < Z.of_nat (Z.to_nat ((tb + L1_BLOCK_SIZE - 1) / L1_BLOCK_SIZE)) -> 0 <= m * L1_BLOCK_SIZE < tb.
Proof. unfold L1_BLOCK_SIZE. intros Htb Hm. Z.div_mod_to_equations. lia. Qed.

Lemma grown_remapped st st' P : grown_map st st' -> remapped st st' P.
Proof. intros [_ Gl Ge]. split; [done|]. intros b Hb _. destruct (Ge b Hb) as [?|[E ?]]; [by left|right]. by rewrite E. Qed.

(** A block lies in a run of chunks or not. *)
Lemma run_case c m b : (exists j, 0 <= j < m /\ b = wblk (c + j)) \/ (forall j, 0 <= j < m -> b <> wblk (c + j)).
Proof.
  destruct (decide (b ∈ ((fun j => wblk (c + j)) <$> seqZ 0 m))) as [Hin|Hno].
  - left. apply list_elem_of_fmap in Hin as (j & -> & Hj). apply elem_of_seqZ in Hj. exists j. split; [lia|done].
  - right. intros j Hj ->. apply Hno. apply list_elem_of_fmap. exists j. split; [done|]. apply elem_of_seqZ. lia.
Qed.

(** Tables first, then chunks. *)
Lemma grown_chunks st st1 st2 chunks c m (P : Z -> Prop) :
  grown_map st st1 -> chunks_up st1 st2 chunks c m m -> (forall j, c <= j < c + m -> vacant (kent st (wblk j))) -> remapped st st2 P.
Proof.
  intros [_ Gl Ge] [_ _ Cl _ Cg Co] Hv. split.
  - intros i Hi. rewrite Cl by done. by apply Gl.
  - intros b Hb _. destruct (run_case c m b) as [(j & Hj & ->)|Hno].
    + right. split; [apply Hv; lia|by apply Cg].
    + rewrite Co by done. destruct (Ge b Hb) as [?|[E ?]]; [by left|right]. by rewrite E.
Qed.

Lemma slow_path_spec total k l T c tb :
  kmem total (kvm k) l T -> g_next_va k = window_va c -> 0 <= c <= WINDOW -> (forall j, c <= j < WINDOW -> vacant (kent (kvm k) (wblk j))) ->
  (KBUF_CHUNK_BYTES | tb) -> 0 < tb < 2 ^ 53 ->
  let n := tb / KBUF_CHUNK_BYTES in
  exists va diag r v N nx, try_slow_path region_zero tb k = Some (va, diag, r, with_next_va nx (with_kvm v k)) /\
    (va = 0 /\ nx = g_next_va k /\ kmem total v l (N ++ T) /\ remapped (kvm k) v (fun _ => False) /\ slow_failure total (kvm k) c n l T diag \/
     va = window_va c /\ nx = window_va (c + n) /\ c + n <= WINDOW /\ va_base r = va /\ n_chunks r = n /\ slow_region v (c + n) r c /\
     kmem total v (blocks_of r ++ l) (N ++ T) /\ remapped (kvm k) v (fun b => exists j, 0 <= j < n /\ b = wblk (c + j)) /\
     (forall b, 0 <= b < BLOCKS -> kent (kvm k) b = None -> is_Some (kent v b) ->
        exists m, 0 <= m * L1_BLOCK_SIZE < tb /\ b / 512 = bidx (window_va c +64 m * L1_BLOCK_SIZE) / 512)).
Proof.
  intros K Hnx Hc Hv Hal Htb n. assert (Hn : 0 < n < 2 ^ 32 /\ tb = n * KBUF_CHUNK_BYTES).
  { pose proof Hal as [q Hq]. assert (En : n = q) by (unfold n; by rewrite Hq, Z.div_mul). rewrite En. unfold KBUF_CHUNK_BYTES in *. lia. }
  unfold try_slow_path. fold n. clearbody n. rewrite u32_small by (unfold is_u32; lia).
  assert (Hkeep : forall v, with_next_va (g_next_va k) (with_kvm v k) = with_kvm v k) by (by destruct k).
  assert (Hsame : with_next_va (g_next_va k) (with_kvm (kvm k) k) = k) by (by destruct k).
  destruct ((n =? 0) || (KBUF_MAX_CHUNKS_PER_REGION <? n)) eqn:Enc.
  { exists 0, diag_ok, region_zero, (kvm k), [], (g_next_va k). rewrite Hsame. split; [done|]. left. split_and!; try done; [by apply remapped_same|].
    unfold slow_failure. cbn [err diag_ok]. lia. }
  assert (Hn' : 0 < n <= KBUF_MAX_CHUNKS_PER_REGION) by lia. unfold KBUF_MAX_CHUNKS_PER_REGION in Hn'.
  assert (Hsum : g_next_va k +64 tb = window_va (c + n)).
  { rewrite Hnx. destruct Hn as [_ ->]. change WINDOW with 16384 in *. unfold KBUF_VA_BASE, KBUF_CHUNK_BYTES in *. rewrite u64_small; [lia|unfold is_u64; lia]. }
  rewrite Hsum. destruct (Z.ltb_spec KBUF_VA_LIMIT (window_va (c + n))) as [Hbig|Hfit].
  { eexists 0, _, region_zero, (kvm k), [], (g_next_va k). rewrite Hsame. split; [done|]. left. split_and!; try done; [by apply remapped_same|].
    unfold slow_failure. cbn [err]. change WINDOW with 16384. unfold KBUF_VA_LIMIT, KBUF_VA_BASE, KBUF_CHUNK_BYTES in *. lia. }
  assert (Hw : c + n <= WINDOW) by (change WINDOW with 16384; unfold KBUF_VA_LIMIT, KBUF_VA_BASE, KBUF_CHUNK_BYTES in *; lia).
  destruct (ensure_tables_spec (Z.to_nat ((tb + L1_BLOCK_SIZE - 1) / L1_BLOCK_SIZE)) total (kvm k) l T (g_next_va k) 0 K) as (bad & v1 & N & -> & K1 & G & _ & A1 & Hall).
  cbn [mbind option_bind]. destruct bad as [va|].
  { destruct Hall as (m & Hm & Eva & Hwhy). apply gigabytes in Hm; [|lia]. rewrite Z.add_0_l in Eva.
    assert (Eva' : va = window_va c + m * L1_BLOCK_SIZE).
    { rewrite Eva, Hnx. change WINDOW with 16384 in *. unfold KBUF_VA_BASE, KBUF_CHUNK_BYTES, L1_BLOCK_SIZE in *. rewrite u64_small; [lia|unfold is_u64; lia]. }
    eexists 0, _, region_zero, v1, N, (g_next_va k). rewrite Hkeep. split; [done|]. left. split_and!; try done; [by apply grown_remapped|].
    unfold slow_failure. cbn [err failed_va]. exists v1, m. destruct Hn as [_ <-], Hwhy. split_and!; try done; lia. }
  cbn [kvm with_kvm]. rewrite Hnx.
  destruct (map_chunks_spec (Z.to_nat n) total v1 v1 (phys_chunks region_zero) c 0 n l (N ++ T)) as (failed & chunks & v2 & -> & Hres); try lia.
  { split; try done; lia. }
  { by rewrite chunk_list_nil. }
  rewrite Z2Nat.id, Z.add_0_l in Hres by lia. cbn [mbind option_bind].
  destruct Hres as [(-> & C & K2 & Hnb)|(diag & m & -> & Hm & C & K2 & Hf & _)].
  - eexists _, _, (KbufRegion _ _ _ _ chunks), v2, N, _. cbn [g_next_va with_kvm]. rewrite <- Hnx, Hsum, Hnx. split; [done|]. right.
    destruct Hn as [_ Htbn]. assert (Hr : slow_region v2 (c + n) (KbufRegion (window_va c) (window_va (c + n)) tb n chunks) c).
    { destruct C as [_ _ _ Ci _ _]. split; cbn [va_base va_end total_bytes n_chunks phys_chunks]; [|done|lia|done]. split_and!; (done || lia). }
    split_and!; try done.
    + unfold blocks_of. rewrite (slow_used _ _ _ _ Hr). cbn [n_chunks phys_chunks]. by rewrite (proj2 (Z.eqb_neq n 0)) by lia.
    + clear A1. destruct G as [_ Gl Ge], C as [_ _ Cl _ _ Co]. split; [intros i Hi; rewrite Cl by done; by apply Gl|].
      intros b Hb Hout. destruct (run_case c n b) as [?|Hno]; [done|]. rewrite Co by done. destruct (Ge b Hb) as [?|[E ?]]; [by left|right]. by rewrite E.
    + intros b Hb E0 Hs. assert (Hs1 : is_Some (kent v1 b)).
      { destruct (run_case c n b) as [(j & Hj & ->)|Hno]; [|by rewrite <- (cu_out _ _ _ _ _ _ C b Hb Hno)].
        destruct (kent v1 (wblk (c + j))) eqn:E1; [done|]. destruct (Hnb j Hj). intros e He. by rewrite E1 in He. }
      destruct (A1 b Hb E0 Hs1) as (m & Hm & Eb). exists m. split; [by apply gigabytes in Hm; [|lia]|]. by rewrite Z.add_0_l, Hnx in Eb.
  - exists 0, diag, (KbufRegion 0 0 0 0 chunks), v2, N, (g_next_va k). rewrite Hkeep. split; [done|]. left. split_and!; try done.
    + eapply grown_chunks; [exact G|exact C|]. intros j Hj. apply Hv. lia.
    + assert (Hs : exists st' T' m, grown_map (kvm k) st' /\ 0 <= m < n /\ chunk_failure total st' c m n l T' diag) by (by exists v1, (N ++ T), m).
      unfold slow_failure. destruct Hf as (_ & _ & [[-> _]|[-> _]]); exact Hs.
Qed.

(** ** Updating the table *)

Definition apart (r r' : kbuf_region) : Prop := va_end r <= va_base r' \/ va_end r' <= va_base r.

(** Slot [i] gets [r], the map becomes that of [v]. *)
Lemma kbuf_ok_update total k R T T' c c' v i r0 r tot cnt force :
  kbuf_ok total k R T c -> g_regions k !! i = Some r0 -> c <= c' <= WINDOW ->
  kmem total v (blocks_of r ++ kbuf_blocks (delete i (g_regions k)) ++ R) T' ->
  (used r = true -> region_ok v c' r) ->
  (forall j r', g_regions k !! j = Some r' -> used r' = true -> j <> i -> used r = true -> apart r r') ->
  (forall j r' a, g_regions k !! j = Some r' -> used r' = true -> j <> i -> slow_region (kvm k) c r' a ->
     forall x, 0 <= x < n_chunks r' -> kent v (wblk (a + x)) = kent (kvm k) (wblk (a + x))) ->
  (forall j, c' <= j < WINDOW -> vacant (kent v (wblk j))) ->
  tot = u64 (g_total_bytes_allocated k - (if used r0 then total_bytes r0 else 0) + (if used r then total_bytes r else 0)) ->
  cnt = u64 (g_region_count k - (if used r0 then 1 else 0) + (if used r then 1 else 0)) ->
  kbuf_ok total (KbufState v (<[i := r]> (g_regions k)) (window_va c') tot cnt force) R T' c'.
Proof.
  intros [O1 O2 O3 O4 O5 O6 O7 O8] Hi Hc K Hr Hap Hmap Hvac -> ->. pose proof (lookup_lt_Some _ _ _ Hi) as Hlt.
  assert (Hget : forall j r', <[i := r]> (g_regions k) !! j = Some r' -> j = i /\ r' = r \/ j <> i /\ g_regions k !! j = Some r').
  { intros j r' Hj. destruct (decide (j = i)) as [->|Hne]; [rewrite list_lookup_insert_eq in Hj by done; left; by simplify_eq|].
    rewrite list_lookup_insert_ne in Hj by done. by right. }
  split; cbn [g_regions kvm g_next_va g_total_bytes_allocated g_region_count].
  - by rewrite length_insert.
  - eapply kmem_perm; [|exact K]. by rewrite kbuf_blocks_insert, app_assoc by done.
  - split; [done|lia].
  - done.
  - intros j r' [[-> ->]|[Hne Hj]]%Hget Hu; [by apply Hr|]. eapply region_ok_mono; [by eapply O5|lia|]. intros a S. by eapply Hmap.
  - intros j j' r1 r2 [[-> ->]|[Hne Hj]]%Hget [[-> ->]|[Hne' Hj']]%Hget Hu Hu' Hjj; [done|by eapply Hap| |by eapply O6].
    destruct (Hap j r1 Hj Hu Hne Hu'); [by right|by left].
  - rewrite (wsum_insert _ _ _ _ _ Hi), O7. unfold u64. rewrite <- Zplus_mod_idemp_l, Zminus_mod_idemp_l, Zplus_mod_idemp_l. done.
  - rewrite (wsum_insert _ _ _ _ _ Hi), O8. unfold u64. rewrite <- Zplus_mod_idemp_l, Zminus_mod_idemp_l, Zplus_mod_idemp_l. done.
Qed.

(** A block in use is apart from the others. *)
Lemma sess_apart total h p n l q m x : PmmSpec.session_ok total (PmmSpec.Session h ((p, n) :: l)) -> (q, m) ∈ l -> in_block p (order_for n) x -> ~ in_block q (order_for m) x.
Proof.
  intros S Hin Hx Hx'. apply list_elem_of_lookup in Hin as [j Hj]. pose proof (PmmSpec.ss_disj _ _ S 0 (Datatypes.S j) p n q m x eq_refl Hj Hx Hx'). done.
Qed.

Lemma chunk_bytes_fit tb : (KBUF_CHUNK_BYTES | tb) -> 0 < tb -> tb <= bsize (order_for (tb / PAGE_SIZE)).
Proof.
  intros Hal Htb. pose proof (chunk_pages tb Hal) as Hpg. unfold bsize. rewrite Z.pow_add_r by lia. change (2 ^ 12) with PAGE_SIZE.
  pose proof (order_for_pow2 (tb / PAGE_SIZE) ltac:(unfold PAGE_SIZE in *; lia)). unfold PAGE_SIZE in *. lia.
Qed.

(** Two buffers backed by single blocks. *)
Lemma fast_apart total v r r' l T :
  kmem total v (blocks_of r ++ l) T -> fast_region r -> fast_region r' -> (phys_single r', total_bytes r' / PAGE_SIZE) ∈ l -> apart r r'.
Proof.
  intros K F F' Hin. pose proof (km_sess _ _ _ _ K) as S. unfold blocks_of in S. rewrite (fast_used _ F), (fr_chunks _ F) in S. cbn [Z.eqb app] in S.
  destruct F as [_ [B1 B2] [E1 _] [A1 A2]], F' as [_ [B1' B2'] [E1' _] [A1' A2']].
  pose proof (chunk_bytes_fit _ A1 A2) as H1. pose proof (chunk_bytes_fit _ A1' A2') as H2.
  assert (Hin' : (phys_single r', total_bytes r' / PAGE_SIZE) ∈ l ++ T) by (apply elem_of_app; by left).
  pose proof (sess_apart _ _ _ _ _ _ _ (va_base r) S Hin') as D1. pose proof (sess_apart _ _ _ _ _ _ _ (va_base r') S Hin') as D2.
  unfold apart, in_block in *. rewrite <- B1, <- B1' in *. lia.
Qed.

Lemma kbuf_blocks_elem rs j r b : rs !! j = Some r -> b ∈ blocks_of r -> b ∈ kbuf_blocks rs.
Proof. intros Hj Hb. unfold kbuf_blocks. apply list_elem_of_In, in_concat. exists (blocks_of r). split; apply list_elem_of_In; [|done]. eapply list_elem_of_fmap_2. by eapply list_elem_of_lookup_2. Qed.

(** A free slot holds no block. *)
Lemma free_slot_blocks rs i r : rs !! i = Some r -> used r = false -> kbuf_blocks rs ≡ₚ kbuf_blocks (delete i rs).
Proof. intros Hi Hu. rewrite (kbuf_blocks_lookup _ _ _ Hi). unfold blocks_of. by rewrite Hu. Qed.

(** ** Allocation *)

(** The chunks [c] to [c'] of the window. *)
Definition chunk_run (c c' b : Z) : Prop := exists j, c <= j < c' /\ b = wblk j.

Lemma not_in_run c c' j : 0 <= j <= WINDOW -> 0 <= c -> c' <= WINDOW -> j < c \/ c' <= j -> ~ chunk_run c c' (wblk j).
Proof. intros Hj Hc Hc' Hout (i & Hi & E). apply wblk_inj in E; lia. Qed.

(** Chunks in use below the run stay as they are. *)
Lemma run_keeps_region st v c c' r a :
  slow_region st c r a -> remapped st v (chunk_run c c') -> c <= c' <= WINDOW ->
  forall x, 0 <= x < n_chunks r -> kent v (wblk (a + x)) = kent st (wblk (a + x)).
Proof.
  intros [(_ & Ha & Hac) _ _ Sm] [_ Re] Hc x Hx. destruct (Sm x Hx) as (_ & _ & d & Hd & He).
  destruct (Re (wblk (a + x)) (blk_range _ _)) as [E|[Hv _]]; [apply not_in_run; lia|done|].
  rewrite He in Hv. specialize (Hv d eq_refl). destruct (block_desc_spec _ _ _ Hd) as [Ht _]. unfold is_invalid in Hv. by rewrite Ht in Hv.
Qed.

(** The window behind the run stays unused. *)
Lemma run_keeps_vacant st v c c' :
  (forall j, c <= j < WINDOW -> vacant (kent st (wblk j))) -> remapped st v (chunk_run c c') -> 0 <= c <= c' -> c' <= WINDOW ->
  forall j, c' <= j < WINDOW -> vacant (kent v (wblk j)).
Proof.
  intros Hv [_ Re] Hc Hw j Hj. destruct (Re (wblk j) (blk_range _ _)) as [-> |[_ ->]]; [apply not_in_run; lia|apply Hv; lia|]. by intros e [= <-].
Qed.

(** Why a request is refused. *)
Definition kbuf_refused (total : Z) (k : kbuf) (R T : list (Z * Z)) (c bytes : Z) (diag : kbuf_slow_diag) : Prop :=
  bytes = 0 \/ (forall r, r ∈ g_regions k -> used r = true) \/
  slow_failure total (kvm k) c (round_up_chunk bytes / KBUF_CHUNK_BYTES) (kbuf_blocks (g_regions k) ++ R) T diag.

Record kbuf_failed (total : Z) (k : kbuf) (R T : list (Z * Z)) (c bytes : Z) (diag : kbuf_slow_diag) (k' : kbuf) (c' : Z) : Prop := {
  kf_map : remapped (kvm k) (kvm k') (fun _ => False);
  kf_regions : forall i r, used r = true -> g_regions k' !! i = Some r <-> g_regions k !! i = Some r;
  kf_window : c' = c;
  kf_why : kbuf_refused total k R T c bytes diag
}.

Record kbuf_granted (k : kbuf) (c bytes va : Z) (k' : kbuf) (c' : Z) (i : nat) (r : kbuf_region) : Prop := {
  kg_slot : exists r0, g_regions k !! i = Some r0 /\ used r0 = false;
  kg_regions : g_regions k' = <[i := r]> (g_regions k);
  kg_base : va_base r = va /\ used r = true;
  kg_bytes : total_bytes r = round_up_chunk bytes;
  kg_region : region_ok (kvm k') c' r;
  kg_window : c <= c';
  kg_map : remapped (kvm k) (kvm k') (chunk_run c c')
}.

Lemma ok_u64_total total k R T c : kbuf_ok total k R T c -> u64 (g_total_bytes_allocated k) = g_total_bytes_allocated k /\ u64 (g_region_count k) = g_region_count k.
Proof. intros [_ _ _ _ _ _ -> ->]. split; apply u64_small, u64_range. Qed.

Lemma remapped_weaken st v (P Q : Z -> Prop) : remapped st v P -> (forall b, P b -> Q b) -> remapped st v Q.
Proof. intros [Rl Re] HPQ. split; [done|]. intros b Hb HQ. apply Re; [done|]. auto. Qed.

(** The part every successful path shares: a region for a free slot. *)
Lemma kbuf_grant total k R T N c c' v i r0 r bytes :
  kbuf_ok total k R T c -> g_regions k !! i = Some r0 -> used r0 = false -> used r = true -> total_bytes r = round_up_chunk bytes ->
  kmem total v (blocks_of r ++ kbuf_blocks (g_regions k) ++ R) (N ++ T) -> c <= c' <= WINDOW -> remapped (kvm k) v (chunk_run c c') -> region_ok v c' r ->
  (forall j r', g_regions k !! j = Some r' -> used r' = true -> apart r r') ->
  let k' := KbufState v (<[i := r]> (g_regions k)) (window_va c') (g_total_bytes_allocated k +64 total_bytes r) (g_region_count k +64 1) (g_force_slow_path k) in
  kbuf_ok total k' R (N ++ T) c' /\ kbuf_granted k c bytes (va_base r) k' c' i r.
Proof.
  intros O Hi Hu0 Hu Hb K Hc M Hr Hap k'. pose proof (ko_next _ _ _ _ _ O) as [_ Hc0]. split; [|by split; eauto; lia].
  eapply (kbuf_ok_update _ _ _ _ _ _ _ _ _ _ _ _ _ _ O Hi); try done.
  - eapply kmem_perm; [|exact K]. by rewrite (free_slot_blocks _ _ _ Hi Hu0).
  - intros j r' Hj Hu' _ _. by eapply Hap.
  - intros j r' a Hj Hu' _ S. by eapply run_keeps_region.
  - eapply run_keeps_vacant; [apply O|exact M|lia|lia].
  - rewrite Hu0, Hu, Z.sub_0_r. done.
  - rewrite Hu0, Hu, Z.sub_0_r. done.
Qed.

Lemma slow_apart total k R T c v n r :
  kbuf_ok total k R T c -> slow_region v (c + n) r c -> forall j r', g_regions k !! j = Some r' -> used r' = true -> apart r r'.
Proof.
  intros O S j r' Hj Hu. destruct S as [(E & _ & _) _ _ _]. pose proof (ko_next _ _ _ _ _ O) as [_ Hc0]. pose proof (window_bounds c Hc0).
  right. rewrite E. destruct (ko_region _ _ _ _ _ O j r' Hj Hu) as [[_ _ [_ ?] _]|[a' [(E' & ? & ?) ? [E'' ->] _]]]; [lia|].
  rewrite E', E''. unfold KBUF_CHUNK_BYTES. lia.
Qed.

Lemma fast_apart_all total k R T c v r l' T' :
  kbuf_ok total k R T c -> fast_region r -> kmem total v (blocks_of r ++ kbuf_blocks (g_regions k) ++ l') T' ->
  forall j r', g_regions k !! j = Some r' -> used r' = true -> apart r r'.
Proof.
  intros O F K j r' Hj Hu. pose proof (ko_next _ _ _ _ _ O) as [_ Hc0]. destruct (ko_region _ _ _ _ _ O j r' Hj Hu) as [F'|[a' [(E' & ? & ?) ? _ _]]].
  - eapply fast_apart; [exact K|done|done|]. apply elem_of_app. left. eapply kbuf_blocks_elem; [exact Hj|]. unfold blocks_of. rewrite Hu, (fr_chunks _ F'). by left.
  - left. destruct F as [_ _ [_ ?] _]. pose proof (window_bounds a' ltac:(lia)). rewrite E'. lia.
Qed.

(** A failed request: the slot is cleared again. *)
Lemma kbuf_refuse total k R T N c v i r0 bytes diag :
  kbuf_ok total k R T c -> g_regions k !! i = Some r0 -> used r0 = false -> kmem total v (kbuf_blocks (g_regions k) ++ R) (N ++ T) ->
  remapped (kvm k) v (fun _ => False) -> kbuf_refused total k R T c bytes diag ->
  let k' := KbufState v (<[i := region_zero]> (g_regions k)) (window_va c) (g_total_bytes_allocated k) (g_region_count k) (g_force_slow_path k) in
  kbuf_ok total k' R (N ++ T) c /\ kbuf_failed total k R T c bytes diag k' c.
Proof.
  intros O Hi Hu0 K M Hr k'. pose proof (ko_next _ _ _ _ _ O) as [_ Hc0]. destruct (ok_u64_total _ _ _ _ _ O) as [Et Ec].
  assert (M' : remapped (kvm k) v (chunk_run c c)) by (eapply remapped_weaken; [exact M|done]). split.
  - eapply (kbuf_ok_update _ _ _ _ _ _ _ _ _ _ _ _ _ _ O Hi); try done; try lia.
    + eapply kmem_perm; [|exact K]. cbn. by rewrite (free_slot_blocks _ _ _ Hi Hu0).
    + intros j r' a Hj Hu' _ S. eapply run_keeps_region; [exact S|exact M'|lia].
    + eapply run_keeps_vacant; [apply O|exact M'|lia|lia].
    + rewrite Hu0, Z.sub_0_r. cbn. by rewrite Z.add_0_r.
    + rewrite Hu0, Z.sub_0_r. cbn. by rewrite Z.add_0_r.
  - split; try done. intros j r Hu. cbn [k' g_regions]. destruct (decide (j = i)) as [->|].
    + rewrite list_lookup_insert_eq by (by eapply lookup_lt_Some). split; intros E; [by apply (inj Some) in E as <-|congruence].
    + by rewrite list_lookup_insert_ne.
Qed.

Lemma kbuf_alloc_spec total k R T c bytes :
  kbuf_ok total k R T c -> 0 <= bytes <= 2 ^ 52 ->
  exists va diag k' N c', kbuf_alloc bytes k = Some (va, diag, k') /\ kbuf_ok total k' R (N ++ T) c' /\
    (va = 0 /\ kbuf_failed total k R T c bytes diag k' c' \/ va <> 0 /\ exists i r, kbuf_granted k c bytes va k' c' i r).
Proof.
  intros O Hb. pose proof (ko_next _ _ _ _ _ O) as [Hnx Hc0]. unfold kbuf_alloc.
  assert (Hsame : forall why, kbuf_refused total k R T c bytes why -> exists va diag k' N c', Some (0, why, k) = Some (va, diag, k') /\ kbuf_ok total k' R (N ++ T) c' /\
    (va = 0 /\ kbuf_failed total k R T c bytes diag k' c' \/ va <> 0 /\ exists i r, kbuf_granted k c bytes va k' c' i r)).
  { intros why Hw. exists 0, why, k, [], c. split_and!; try done. left. split; [done|]. split; try done. split; [by left|by left]. }
  destruct (Z.eqb_spec bytes 0) as [->|Hb0]; [apply Hsame; by left|].
  unfold find_free_slot_locked. destruct (find_slot 0 (g_regions k)) as [i|] eqn:Hf.
  2:{ apply Hsame. right. left. intros r Hr. apply (find_slot_none _ _ _ Hf) in Hr. apply negb_true_iff. by apply Z.eqb_neq. }
  apply find_slot_some in Hf as (r0 & Hi & Hu0). apply used_spec in Hu0.
  destruct (round_up_spec bytes ltac:(lia)) as [Hal Htb]. set (tb := round_up_chunk bytes) in *. unfold KBUF_CHUNK_BYTES in Htb.
  pose proof (ko_mem _ _ _ _ _ O) as K.
  destruct (fast_path_spec total k _ T tb K Hal ltac:(lia)) as (p & r & v & -> & Hres). cbn [mbind option_bind].
  destruct Hres as [(-> & -> & ->)|(-> & F & Ht & K' & M)].
  - cbn [Z.eqb]. rewrite with_kvm_same.
    destruct (slow_path_spec total k _ T c tb K Hnx Hc0 (ko_vacant _ _ _ _ _ O) Hal ltac:(lia)) as (va & diag & r & v & N & nx & -> & Hres). cbn [mbind option_bind].
    destruct Hres as [(-> & -> & K' & M & Hwhy)|(-> & -> & Hw & Eb & En & S & K' & M & _)].
    + cbn [Z.eqb negb]. destruct (kbuf_refuse total k R T N c v i r0 bytes diag O Hi Hu0 K' M) as [O' Hfail]; [by right; right|].
      eexists 0, diag, _, N, c. split; [done|]. rewrite <- Hnx in O', Hfail. split; [exact O'|]. left. split; [done|exact Hfail].
    + assert (Hne : window_va c <> 0) by (unfold KBUF_VA_BASE, KBUF_CHUNK_BYTES; lia). rewrite (proj2 (Z.eqb_neq _ _) Hne). cbn [negb].
      set (n := tb / KBUF_CHUNK_BYTES) in *. pose proof S as [_ Sc [Sb _] _].
      assert (Etb : total_bytes r = tb) by (rewrite Sb, En; unfold n; destruct Hal as [q ->]; by rewrite Z.div_mul).
      destruct (kbuf_grant total k R T N c (c + n) v i r0 r bytes O Hi Hu0 (slow_used _ _ _ _ S) Etb K') as [O' G]; try done; [lia| |by right; exists c|by eapply slow_apart|].
      { eapply remapped_weaken; [exact M|]. intros b (j & Hj & ->). exists (c + j). split; [lia|done]. }
      rewrite Eb, Etb in *. eexists _, _, _, N, _. split; [done|]. split; [exact O'|]. right. split; [done|]. by exists i, r.
  - assert (Hne : va_base r <> 0) by (pose proof (fast_used _ F) as Hu; unfold used in Hu; by apply negb_true_iff, Z.eqb_neq in Hu).
    rewrite (proj2 (Z.eqb_neq _ _) Hne). cbn [mbind option_bind]. rewrite (proj2 (Z.eqb_neq _ _) Hne). cbn [negb].
    destruct (kbuf_grant total k R T [] c c v i r0 r bytes O Hi Hu0 (fast_used _ F) Ht K') as [O' G]; try done; [lia|by apply remapped_same|by left|by eapply fast_apart_all|].
    rewrite Ht, <- Hnx in *. eexists _, _, _, [], c. split; [done|]. split; [exact O'|]. right. split; [done|]. by exists i, r.
Qed.

(** ** Release *)

(** The blocks of the window a region is mapped at. *)
Definition region_run (r : kbuf_region) (b : Z) : Prop :=
  exists a, va_base r = window_va a /\ chunk_run a (a + n_chunks r) b.

Record kbuf_released (k k' : kbuf) (va : Z) (i : nat) (r : kbuf_region) : Prop := {
  kr_slot : g_regions k !! i = Some r /\ used r = true /\ va_base r = va;
  kr_regions : g_regions k' = <[i := region_zero]> (g_regions k);
  kr_map : remapped (kvm k) (kvm k') (region_run r);
  kr_gone : forall a x, slow_region (kvm k) WINDOW r a -> 0 <= x < n_chunks r -> kent (kvm k') (wblk (a + x)) = Some 0
}.

Lemma slow_region_top st c r a : slow_region st c r a -> c <= WINDOW -> slow_region st WINDOW r a.
Proof. intros [(? & ? & ?) S2 S3 S4] Hc. split; try done. split_and!; (done || lia). Qed.

Lemma window_va_inj a b : window_va a = window_va b -> a = b.
Proof. unfold KBUF_CHUNK_BYTES. lia. Qed.

(** The chunks of two buffers are different. *)
Lemma apart_chunks st c c' r r' a a' x x' :
  slow_region st c r a -> slow_region st c' r' a' -> c <= WINDOW -> c' <= WINDOW -> apart r r' -> 0 <= x < n_chunks r -> 0 <= x' < n_chunks r' -> wblk (a + x) <> wblk (a' + x').
Proof.
  intros [(E & ? & ?) _ [Eb Ee] _] [(E' & ? & ?) _ [Eb' Ee'] _] Hc Hc' Hap Hx Hx' Hw. apply wblk_inj in Hw; [|lia|lia].
  unfold apart in Hap. rewrite E, E', Ee, Ee', E, E', Eb, Eb' in Hap. unfold KBUF_CHUNK_BYTES in Hap. lia.
Qed.

(** The pages of one region go back. *)
Lemma release_region total k R T c i r :
  kbuf_ok total k R T c -> g_regions k !! i = Some r -> used r = true ->
  exists v, (if n_chunks r =? 0 then free_block_at (phys_single r) (total_bytes r / PAGE_SIZE) (kvm k)
             else release_chunks (Z.to_nat (n_chunks r)) (va_base r) 0 (phys_chunks r) (kvm k)) = Some v /\
    kmem total v (kbuf_blocks (delete i (g_regions k)) ++ R) T /\
    (fast_region r /\ same_map (kvm k) v \/ exists a, slow_region (kvm k) c r a /\ chunks_up (kvm k) v (phys_chunks r) a (n_chunks r) (n_chunks r)).
Proof.
  intros O Hi Hu. pose proof (ko_next _ _ _ _ _ O) as [_ Hc0].
  assert (K : kmem total (kvm k) (blocks_of r ++ kbuf_blocks (delete i (g_regions k)) ++ R) T).
  { eapply kmem_perm; [|apply O]. by rewrite (kbuf_blocks_lookup _ _ _ Hi), app_assoc. }
  unfold blocks_of in K. rewrite Hu in K. destruct (ko_region _ _ _ _ _ O i r Hi Hu) as [F|[a S]].
  - rewrite (fr_chunks _ F) in *. cbn [Z.eqb] in *. cbn [app] in K. destruct (km_free _ _ _ _ _ _ K) as (v & -> & K' & M). exists v. split_and!; try done. by left.
  - pose proof S as [(E & Ha & Hac) Sn _ Sm]. rewrite (proj2 (Z.eqb_neq (n_chunks r) 0)) in * by lia. rewrite E.
    destruct (release_chunks_spec (Z.to_nat (n_chunks r)) total (kvm k) (kvm k) (phys_chunks r) a 0 (n_chunks r) (kbuf_blocks (delete i (g_regions k)) ++ R) T Ha) as (v & -> & C & K'); try done; try lia.
    { split; try done. lia. }
    exists v. split_and!; try done. right. by exists a.
Qed.

Lemma kbuf_free_spec total k R T c va :
  kbuf_ok total k R T c ->
  exists k', kbuf_free va k = Some k' /\ kbuf_ok total k' R T c /\
    (k' = k /\ (va = 0 \/ forall r, r ∈ g_regions k -> va_base r <> va) \/ exists i r, kbuf_released k k' va i r).
Proof.
  intros O. pose proof (ko_next _ _ _ _ _ O) as [Hnx Hc0]. unfold kbuf_free. destruct (Z.eqb_spec va 0) as [->|Hva].
  { exists k. split_and!; try done. left. split; [done|by left]. }
  unfold find_region_by_va_locked. destruct (find_slot va (g_regions k)) as [i|] eqn:Hf.
  2:{ exists k. split_and!; try done. left. split; [done|right]. intros r Hr. by eapply find_slot_none. }
  apply find_slot_some in Hf as (r & Hi & Eb). rewrite (nth_lookup_Some _ _ _ _ Hi).
  assert (Hu : used r = true) by (unfold used; apply negb_true_iff, Z.eqb_neq; by rewrite Eb).
  destruct (release_region _ _ _ _ _ _ _ O Hi Hu) as (v & -> & K & Hmap). cbn [mbind option_bind]. eexists. split; [done|].
  assert (Hcase : remapped (kvm k) v (region_run r) /\ (forall a x, slow_region (kvm k) WINDOW r a -> 0 <= x < n_chunks r -> kent v (wblk (a + x)) = Some 0)).
  { destruct Hmap as [[F M]|(a & S & [_ _ Cl _ Cg Co])].
    - split; [by apply remapped_same|]. intros a x [_ ? _ _]. rewrite (fr_chunks _ F) in *. lia.
    - destruct S as [(E & _ & _) _ _ _]. split.
      + split; [intros j Hj; left; by apply Cl|]. intros b Hb Hout. left. apply Co; [done|]. intros j Hj ->. apply Hout. exists a. split; [done|]. exists (a + j). split; [lia|done].
      + intros a' x [(E' & _ & _) _ _ _] Hx. rewrite E in E'. apply window_va_inj in E' as <-. by apply Cg. }
  destruct Hcase as [Hrm Hgone]. split; [|right; exists i, r; by split].
  cut (kbuf_ok total (KbufState v (<[i := region_zero]> (g_regions k)) (window_va c) (g_total_bytes_allocated k -64 total_bytes r) (g_region_count k -64 1)
    (g_force_slow_path k)) R T c); [by rewrite <- Hnx|].
  eapply (kbuf_ok_update _ _ _ _ _ _ _ _ _ _ _ _ _ _ O Hi); try done; try lia.
  - intros j r' a' Hj Hu' Hne S' x Hx. destruct Hmap as [[_ M]|(a & S & [_ _ _ _ _ Co])]; [apply M, blk_range|]. apply Co; [apply blk_range|].
    intros x0 Hx0 E. refine (apart_chunks (kvm k) c c r' r a' a x x0 S' S _ _ _ Hx Hx0 E); [lia|lia|]. by eapply (ko_sep _ _ _ _ _ O j i).
  - intros j Hj. destruct Hmap as [[_ M]|(a & S & [_ _ _ _ _ Co])].
    + rewrite (sm_ent _ _ M) by apply blk_range. by apply (ko_vacant _ _ _ _ _ O).
    + rewrite Co; [by apply (ko_vacant _ _ _ _ _ O)|apply blk_range|]. destruct S as [(_ & ? & ?) _ _ _]. intros x Hx E. apply wblk_inj in E; lia.
  - rewrite Hu. cbn. by rewrite Z.add_0_r.
  - rewrite Hu. cbn. by rewrite Z.add_0_r.
Qed.

(** ** Sessions *)

Inductive kbuf_call :=
  | KbufAlloc (bytes : Z)
  | KbufFree (va : Z)
  | KbufForce (on : bool).

Definition kbuf_exec (c : kbuf_call) (k : kbuf) : option kbuf :=
  match c with
  | KbufAlloc bytes => '(_, _, k) ← kbuf_alloc bytes k; Some k
  | KbufFree va => kbuf_free va k
  | KbufForce on => Some (kbuf_test_set_force_slow_path on k)
  end.

Fixpoint kbuf_run (cs : list kbuf_call) (k : kbuf) : option kbuf :=
  match cs with
  | [] => Some k
  | c :: cs => k ← kbuf_exec c k; kbuf_run cs k
  end.

Definition kbuf_call_ok (c : kbuf_call) : Prop := match c with KbufAlloc bytes => 0 <= bytes <= 2 ^ 52 | _ => True end.

Lemma kbuf_exec_ok total k R T c x :
  kbuf_ok total k R T c -> kbuf_call_ok x -> exists k' N c', kbuf_exec x k = Some k' /\ kbuf_ok total k' R (N ++ T) c'.
Proof.
  intros O Hx. destruct x as [bytes|va|on]; cbn [kbuf_exec].
  - destruct (kbuf_alloc_spec _ _ _ _ _ bytes O Hx) as (va & diag & k' & N & c' & -> & O' & _). by exists k', N, c'.
  - destruct (kbuf_free_spec _ _ _ _ _ va O) as (k' & -> & O' & _). by exists k', [], c.
  - eexists _, [], c. split; [done|]. destruct O as [O1 O2 O3 O4 O5 O6 O7 O8]. by split.
Qed.

Lemma kbuf_run_ok total R cs k T c :
  kbuf_ok total k R T c -> Forall kbuf_call_ok cs -> exists k' N c', kbuf_run cs k = Some k' /\ kbuf_ok total k' R (N ++ T) c'.
Proof.
  intros O Hcs. revert k T c O. induction Hcs as [|x cs Hx Hcs IH]; intros k T c O; cbn [kbuf_run]; [by exists k, [], c|].
  destruct (kbuf_exec_ok _ _ _ _ _ x O Hx) as (k1 & N1 & c1 & -> & O1). cbn [mbind option_bind].
  destruct (IH k1 (N1 ++ T) c1 O1) as (k' & N & c' & -> & O'). exists k', (N ++ N1), c'. by rewrite <- app_assoc.
Qed.

(** At boot the window is empty. *)
Lemma kbuf_boot_ok total v R T :
  kmem total v R T -> (forall j, 0 <= j < WINDOW -> vacant (kent v (wblk j))) -> kbuf_ok total (kbuf_boot v) R T 0.
Proof.
  intros K Hv. assert (Hno : forall i r, g_regions (kbuf_boot v) !! i = Some r -> used r = false).
  { intros i r Hi. cbn [kbuf_boot g_regions] in Hi. apply lookup_replicate in Hi as [-> _]. done. }
  split; try done.
  - intros i r Hi Hu. rewrite (Hno i r Hi) in Hu. done.
  - intros i j r r' Hi Hj Hu. rewrite (Hno i r Hi) in Hu. done.
Qed.

Lemma table_pages_held T : (forall b, b ∈ T -> b.2 = 1) -> PmmSpec.held_pages T = Z.of_nat (length T).
Proof.
  induction T as [|[p n] T IH]; intros HT; cbn [PmmSpec.held_pages foldr length]; [done|]. pose proof (HT (p, n) ltac:(by left)) as Hn. cbn in Hn. subst n.
  fold (PmmSpec.held_pages T). rewrite IH by (intros b Hb; apply HT; by right). rewrite order_page. lia.
Qed.

Lemma unused_sums rs : (forall r, r ∈ rs -> used r = false) -> kbuf_blocks rs = [] /\ forall w, wsum w rs = 0.
Proof.
  induction rs as [|r rs IH]; intros Hno; [done|]. destruct IH as [Eb Ew]; [intros r' Hr'; apply Hno; by right|].
  assert (Hr : used r = false) by (apply Hno; by left). split.
  - unfold kbuf_blocks in *. cbn [fmap list_fmap concat]. rewrite Eb. unfold blocks_of. by rewrite Hr.
  - intros w. unfold wsum in *. cbn [foldr]. by rewrite Hr, Ew.
Qed.

(** ** Properties *)


(** A granted buffer is one contiguous run of addresses. *)
Lemma region_translates total k R T c r x :
  kbuf_ok total k R T c -> region_ok (kvm k) c r -> n_chunks r <> 0 -> 0 <= x < total_bytes r ->
  vmm_virt_to_phys (va_base r + x) (kvm k) = phys_chunks r (x / KBUF_CHUNK_BYTES) + x mod KBUF_CHUNK_BYTES.
Proof.
  intros O [F|[a S]] Hn Hx; [by destruct F|]. pose proof (ko_next _ _ _ _ _ O) as [_ Hc0]. destruct S as [(E & Ha & Hac) Sn [Eb _] Sm]. rewrite Eb in Hx.
  set (j := x / KBUF_CHUNK_BYTES). assert (Hj : 0 <= j < n_chunks r) by (unfold j, KBUF_CHUNK_BYTES in *; Z.div_mod_to_equations; lia).
  destruct (Sm j Hj) as (Hp & Hal & d & Hd & He). rewrite E.
  assert (Ex : window_va a + x = x mod KBUF_CHUNK_BYTES + (0x7FFFFFC4000 + a + j) * BLOCK_SIZE).
  { unfold j. pose proof (Z.div_mod x KBUF_CHUNK_BYTES ltac:(done)). unfold KBUF_VA_BASE, KBUF_CHUNK_BYTES, BLOCK_SIZE in *. lia. }
  pose proof (Z.mod_pos_bound x KBUF_CHUNK_BYTES ltac:(done)) as Hm.
  assert (Hb : bidx (window_va a + x) = wblk (a + j)).
  { rewrite <- window_bidx by lia. unfold bidx. rewrite Ex, Z.div_add, (Z.div_small (x mod KBUF_CHUNK_BYTES)) by done.
    replace (window_va (a + j)) with ((0x7FFFFFC4000 + a + j) * BLOCK_SIZE) by (unfold KBUF_VA_BASE, KBUF_CHUNK_BYTES, BLOCK_SIZE; lia). by rewrite Z.div_mul. }
  destruct (lookup_mapped (window_va a + x) (kvm k) (phys_chunks r j) VMM_FLAGS_KERNEL_DATA d) as [-> _]; [apply O|by rewrite Hb|done|lia|done|].
  rewrite Ex, Z.mod_add, Z.mod_small by done. done.
Qed.


Lemma wblk_eq a : 0 <= a <= WINDOW -> wblk a = 16384 + a.
Proof. change WINDOW with 16384. intros Ha. unfold blk. change (bidx KBUF_VA_BASE) with 16384. unfold BLOCKS. apply Z.mod_small. lia. Qed.

(** C36. The slow path does not install every L2 table it needs.  When the buffer
    window is in use up to the middle of a gigabyte and the next gigabyte has no L2
    table yet, a request of one gigabyte that no single block satisfies is refused,
    however much memory is free: the loop that installs tables steps from the middle
    of one gigabyte to the end of the request and misses the second one. *)
Theorem kbuf_gigabyte_crossing_fails (total : Z) (k : kbuf) (R T : list (Z * Z)) (c : Z) :
  kbuf_ok total k R T c -> try_fast_path region_zero L1_BLOCK_SIZE k = Some (0, region_zero, k) ->
  c mod 512 <> 0 -> kent (kvm k) (wblk (c / 512 * 512 + 512)) = None ->
  exists diag k', kbuf_alloc L1_BLOCK_SIZE k = Some (0, diag, k').
Proof.
  intros O Hf Hc Hnone. pose proof (ko_next _ _ _ _ _ O) as [Hnx Hc0]. unfold kbuf_alloc.
  change (L1_BLOCK_SIZE =? 0) with false. change (round_up_chunk L1_BLOCK_SIZE) with L1_BLOCK_SIZE. cbv iota zeta.
  destruct (find_free_slot_locked k) as [i|]; [|by eexists _, _]. rewrite Hf. cbn [mbind option_bind Z.eqb].
  destruct (slow_path_spec total k _ T c L1_BLOCK_SIZE (ko_mem _ _ _ _ _ O) Hnx Hc0 (ko_vacant _ _ _ _ _ O)) as (va & diag & r & v & N & nx & -> & Hres);
    [by exists 512|unfold L1_BLOCK_SIZE; lia|]. cbn [mbind option_bind]. change (L1_BLOCK_SIZE / KBUF_CHUNK_BYTES) with 512 in Hres.
  destruct Hres as [(-> & _)|(_ & _ & Hw & _ & En & [_ _ _ Sm] & _ & _ & Hadd)]; [by eexists _, _|exfalso].
  pose proof (Z.div_mod c 512 ltac:(lia)) as Hdm. pose proof (Z.mod_pos_bound c 512 ltac:(lia)) as Hmb.
  set (b := c / 512 * 512 + 512) in *. assert (Hb : c < b < c + 512) by lia.
  destruct (Hadd (wblk b) (blk_range _ _) Hnone) as (m & Hm & E).
  { destruct (Sm (b - c) ltac:(lia)) as (_ & _ & d & _ & He). replace (c + (b - c)) with b in He by lia. by exists d. }
  assert (m = 0) as -> by (unfold L1_BLOCK_SIZE in Hm; lia). revert E. change (0 * L1_BLOCK_SIZE) with (0 * KBUF_CHUNK_BYTES). rewrite window_sum, Z.add_0_r, window_bidx, !wblk_eq by lia.
  replace (16384 + b) with (0 + (32 + c / 512 + 1) * 512) by (unfold b; lia). replace (16384 + c) with (c mod 512 + (32 + c / 512) * 512) by lia.
  rewrite !Z.div_add, (Z.div_small (c mod 512)) by lia. change (0 / 512) with 0. intros E. lia.
Qed.

(** ** Witnesses: a small machine whose kernel has no L2 table yet. *)

Definition bare (h : pmm) : vmm := Vmm h (fun _ => 0) 0x40000000 true 0 (fun _ _ => 0) [].

Lemma bare_l1e h i : l1e (bare h) i = 0.
Proof. reflexivity. Qed.

Lemma bare_kent h b : kent (bare h) b = None.
Proof. reflexivity. Qed.

Lemma bare_mem h : inv h -> heap_end h <= 2 ^ 39 -> 0x40001000 <= heap_start h -> kmem (free_pages h) (bare h) [] [].
Proof.
  intros Hinv Hend Hs. assert (Ht : forall i, pte_type (l1e (bare h) i) = PTE_TYPE_TABLE -> False) by (intros i; rewrite bare_l1e; discriminate).
  split; try reflexivity.
  - split; [exists 0x40000; reflexivity|..]; intros; exfalso; eauto.
  - exact Hend.
  - split; cbn [PmmSpec.st PmmSpec.held app frames bare]; [exact Hinv|by intros p n ?%not_elem_of_nil|intros i j p n q m x Hi; by rewrite lookup_nil in Hi|cbn; lia].
  - intros t [->|(i & _ & Hi & _)]; [right|by destruct (Ht i)]. intros x Hx Hr. cbn [l1_table bare frames] in *. unfold in_block in Hx. rewrite bsize_0 in Hx. unfold PAGE_SIZE in Hx. lia.
  - by intros b ?%not_elem_of_nil.
Qed.

Lemma demo_mem : kmem (free_pages PmmSpec.demo) (bare PmmSpec.demo) [] [].
Proof. apply bare_mem; [apply PmmSpec.demo_inv|vm_compute; congruence|vm_compute; congruence]. Qed.

Lemma bare_vacant h j : vacant (kent (bare h) j).
Proof. intros e He. rewrite bare_kent in He. discriminate. Qed.



(** The first chunk of the window has been used and given back. *)
Definition one_used (h : pmm) : kbuf := KbufState (bare h) (replicate KBUF_MAX_REGIONS region_zero) (window_va 1) 0 0 true.

Lemma one_used_ok total h : kmem total (bare h) [] [] -> kbuf_ok total (one_used h) [] [] 1.
Proof.
  intros K. assert (Hno : forall i r, g_regions (one_used h) !! i = Some r -> used r = true -> False).
  { intros i r Hi. cbn [one_used g_regions] in Hi. apply lookup_replicate in Hi as [-> _]. discriminate. }
  split; [reflexivity|exact K|split; [reflexivity|vm_compute; split; congruence]|intros j _; apply bare_vacant|..|reflexivity|reflexivity]; intros; exfalso; eauto.
Qed.

(** Witness of C36: the gigabyte after the one in use has no L2 table. *)
Lemma kbuf_gigabyte_crossing_fails_witness : exists diag k', kbuf_alloc L1_BLOCK_SIZE (one_used PmmSpec.demo) = Some (0, diag, k').
Proof.
  apply (kbuf_gigabyte_crossing_fails _ (one_used PmmSpec.demo) [] [] 1 (one_used_ok _ _ demo_mem)); [reflexivity|discriminate|apply bare_kent].
Defined.

End KbufSessions.
