(* ===== verification/SharedBuf.v ===== *)
(** Shared buffers (ipc/ipc.c): descriptors, reference counts and per-task mappings
    on the page allocator, with the memory side of the GPU layer they can use
    (gpu/gpu.c, gpu/gpu_stub.c). *)

From S2P Require Import Prelude.
From S2P Require Import FreeList Buddy PageDesc KString Task MsgQueue.

Module SharedBuf.
Import Buddy PageDesc MsgQueue.
Open Scope Z_scope.
Open Scope slm_scope.

(** ** Constants *)

Definition SHM_READ : Z := Z.shiftl 1 0.
Definition SHM_WRITE : Z := Z.shiftl 1 1.
Definition SHM_GPU_ACCESSIBLE : Z := Z.shiftl 1 2.
Definition SHM_BUFFER_MAX : nat := 64.

Definition GPU_OK : Z := 0.
Definition GPU_ERR_NOT_INIT : Z := -1.
Definition GPU_ERR_NO_MEMORY : Z := -3.
Definition GPU_ERR_INVALID_PARAM : Z := -4.
Definition GPU_MEM_READ : Z := 1.
Definition GPU_MEM_WRITE : Z := 2.
Definition GPU_MEM_READWRITE : Z := Z.lor GPU_MEM_READ GPU_MEM_WRITE.
Definition GPU_MEM_ALIGN_2MB : Z := 0x10.

(** ** The GPU layer with the stub driver *)

Record gpu_buffer := GpuBuffer { cpu_addr : Z; gpu_addr : Z; gpu_size : Z; gpu_flags : Z }.

Definition no_gpu_buffer : gpu_buffer := GpuBuffer 0 0 0 0.

Definition stub_alloc (size fl : Z) (h : pmm) : option (Z * gpu_buffer * pmm) :=
  if size =? 0 then Some (GPU_ERR_INVALID_PARAM, no_gpu_buffer, h)
  else
    let page_size := 4096 in
    let pages := (size +64 page_size -64 1) / page_size in
    if has fl GPU_MEM_ALIGN_2MB then
      let align_2mb := 2 * 1024 * 1024 in
      let align_pages := align_2mb / page_size in
      let aligned_size := u64 ((size +64 align_2mb -64 1) / align_2mb * align_2mb) in
      let aligned_pages := aligned_size / page_size in
      let actual_pages := aligned_pages +64 align_pages in
      '(addr, h) ← pmm_alloc_pages actual_pages h;
      if addr =? 0 then Some (GPU_ERR_NO_MEMORY, no_gpu_buffer, h)
      else
        let aligned_addr := Z.ldiff (addr +64 align_2mb -64 1) (align_2mb - 1) in
        Some (GPU_OK, GpuBuffer aligned_addr aligned_addr aligned_size fl, h)
    else
      '(addr, h) ← pmm_alloc_pages pages h;
      if addr =? 0 then Some (GPU_ERR_NO_MEMORY, no_gpu_buffer, h)
      else Some (GPU_OK, GpuBuffer addr addr (u64 (pages * page_size)) fl, h).

Definition stub_free (b : gpu_buffer) (h : pmm) : option pmm :=
  if cpu_addr b =? 0 then Some h else pmm_free_pages (cpu_addr b) (gpu_size b / 4096) h.

(** [gpu_drv] is the stub driver when [initialized]. *)
Definition gpu_alloc (initialized : bool) (size fl : Z) (h : pmm) : option (Z * gpu_buffer * pmm) :=
  if size =? 0 then Some (GPU_ERR_INVALID_PARAM, no_gpu_buffer, h)
  else if negb initialized then Some (GPU_ERR_NOT_INIT, no_gpu_buffer, h)
  else stub_alloc size fl h.

Definition gpu_free (initialized : bool) (b : gpu_buffer) (h : pmm) : option pmm :=
  if negb initialized then Some h else stub_free b h.

(** ** State *)

Record shm_mapping := ShmMapping { m_task : Z; m_virt : Z; m_perms : Z; m_next : Z }.

Record shared_buffer := SharedBuffer {
  sb_id : Z; phys_base : Z; sb_size : Z; sb_flags : Z; refcount : Z; owner : Z; mappings : Z; gpu_backed : bool
}.

(** The page allocator, the bytes of buffers, the descriptors and mappings by
    address, and the buffers' part of [ipc_state]. *)
Record shm := Shm {
  heap : pmm;
  ram : Z -> Z;
  gpu_initialized : bool;
  buf_at : Z -> shared_buffer;
  map_at : Z -> shm_mapping;
  buffers : list Z;
  next_buffer_id : Z
}.

Definition with_heap (h : pmm) (s : shm) : shm := Shm h (ram s) (gpu_initialized s) (buf_at s) (map_at s) (buffers s) (next_buffer_id s).
Definition with_ram (m : Z -> Z) (s : shm) : shm := Shm (heap s) m (gpu_initialized s) (buf_at s) (map_at s) (buffers s) (next_buffer_id s).
Definition set_buf (a : Z) (b : shared_buffer) (s : shm) : shm := Shm (heap s) (ram s) (gpu_initialized s) (<[a := b]> (buf_at s)) (map_at s) (buffers s) (next_buffer_id s).
Definition set_map (a : Z) (m : shm_mapping) (s : shm) : shm := Shm (heap s) (ram s) (gpu_initialized s) (buf_at s) (<[a := m]> (map_at s)) (buffers s) (next_buffer_id s).
Definition with_buffers (l : list Z) (n : Z) (s : shm) : shm := Shm (heap s) (ram s) (gpu_initialized s) (buf_at s) (map_at s) l n.

(** The buffers' part of [ipc_init]. *)
Definition shm_init (s : shm) : shm := with_buffers (replicate SHM_BUFFER_MAX 0) 1 s.

Definition set_refs (n first : Z) (b : shared_buffer) : shared_buffer :=
  SharedBuffer (sb_id b) (phys_base b) (sb_size b) (sb_flags b) n (owner b) first (gpu_backed b).

Definition set_sb_id (n : Z) (b : shared_buffer) : shared_buffer :=
  SharedBuffer n (phys_base b) (sb_size b) (sb_flags b) (refcount b) (owner b) (mappings b) (gpu_backed b).

Definition set_m_next (n : Z) (m : shm_mapping) : shm_mapping := ShmMapping (m_task m) (m_virt m) (m_perms m) n.

(** ** Creation *)

(** The first slot that holds [v], from [i] with [n] to go. *)
Fixpoint find_buffer_slot (n i : nat) (v : Z) (l : list Z) : option nat :=
  match n with
  | O => None
  | S n => if default (-1) (l !! i) =? v then Some i else find_buffer_slot n (S i) v l
  end.

(** The backing memory: its address, 0 when there is none, and whether the GPU layer gave it. *)
Definition back_buffer (size fl : Z) (s : shm) : option (Z * bool * pmm) :=
  '(phys, gpu, h) ←
    (if has fl SHM_GPU_ACCESSIBLE && gpu_initialized s then
       let gflags := if 2 * 1024 * 1024 <=? size then Z.lor GPU_MEM_READWRITE GPU_MEM_ALIGN_2MB else GPU_MEM_READWRITE in
       '(ret, b, h) ← gpu_alloc (gpu_initialized s) size gflags (heap s);
       Some (if ret =? GPU_OK then (cpu_addr b, true, h) else (0, false, h))
     else Some (0, false, heap s));
  if phys =? 0 then '(p, h) ← pmm_alloc_pages (size / PAGE_SIZE) h; Some (p, gpu, h) else Some (phys, gpu, h).

(** [task_current()] is [cur]. *)
Definition shared_buffer_create (size fl cur : Z) (s : shm) : option (Z * shm) :=
  if size =? 0 then Some (0, s)
  else
    let size := Z.ldiff (size +64 BLOCK_SIZE -64 1) (BLOCK_SIZE - 1) in
    let pages := size / PAGE_SIZE in
    '(buf, h) ← pmm_alloc_page (heap s);
    let s := with_heap h s in
    if buf =? 0 then Some (0, s)
    else
      '(phys, gpu, h) ← back_buffer size fl s;
      let s := with_heap h s in
      if phys =? 0 then h ← pmm_free_page buf (heap s); Some (0, with_heap h s)
      else
        let s := with_ram (KString.memset phys 0 (Z.to_nat size) (ram s)) s in
        let s := set_buf buf (SharedBuffer 0 phys size fl 1 cur 0 gpu) s in
        match find_buffer_slot SHM_BUFFER_MAX 0 0 (buffers s) with
        | Some i =>
            let id := next_buffer_id s in
            Some (buf, set_buf buf (set_sb_id id (buf_at s buf)) (with_buffers (<[i := buf]> (buffers s)) (id +32 1) s))
        | None =>
            h ← pmm_free_pages phys pages (heap s);
            h ← pmm_free_page buf h;
            Some (0, with_heap h s)
        end.

(** ** Mappings *)

(** A mapping list has at most one entry per task. *)
Definition MAP_FUEL : nat := 65.

(** The walk for the mapping of [task] from [m], with its predecessor; 0 is NULL. *)
Fixpoint find_mapping (fuel : nat) (task prev m : Z) (s : shm) : option (Z * Z) :=
  match fuel with
  | O => None
  | S fuel =>
      if m =? 0 then Some (prev, 0)
      else if m_task (map_at s m) =? task then Some (prev, m)
      else find_mapping fuel task m (m_next (map_at s m)) s
  end.

(** [perms] cut down to what the buffer allows. *)
Definition limit_perms (fl perms : Z) : Z :=
  let perms := if Z.land fl SHM_READ =? 0 then Z.ldiff perms SHM_READ else perms in
  if Z.land fl SHM_WRITE =? 0 then Z.ldiff perms SHM_WRITE else perms.

Definition shared_buffer_map (buffer task perms cur : Z) (s : shm) : option (Z * shm) :=
  if buffer =? 0 then Some (0, s)
  else
    let task := if task =? 0 then cur else task in
    let b := buf_at s buffer in
    let perms := limit_perms (sb_flags b) perms in
    '(_, m) ← find_mapping MAP_FUEL task 0 (mappings b) s;
    if negb (m =? 0) then Some (0, s)
    else
      '(m, h) ← pmm_alloc_page (heap s);
      let s := with_heap h s in
      if m =? 0 then Some (0, s)
      else
        let virt_addr := phys_base b in
        let s := set_map m (ShmMapping task virt_addr perms (mappings b)) s in
        Some (virt_addr, set_buf buffer (set_refs (refcount b +32 1) m b) s).

Definition shared_buffer_unmap (buffer task cur : Z) (s : shm) : option (Z * shm) :=
  if buffer =? 0 then Some (IPC_ERR_INVALID, s)
  else
    let task := if task =? 0 then cur else task in
    let b := buf_at s buffer in
    '(prev, m) ← find_mapping MAP_FUEL task 0 (mappings b) s;
    if m =? 0 then Some (IPC_ERR_INVALID, s)
    else
      let nxt := m_next (map_at s m) in
      let s := if prev =? 0 then set_buf buffer (set_refs (refcount b -32 1) nxt b) s
               else set_buf buffer (set_refs (refcount b -32 1) (mappings b) b) (set_map prev (set_m_next nxt (map_at s prev)) s) in
      h ← pmm_free_page m (heap s);
      Some (IPC_OK, with_heap h s).

Definition shared_buffer_destroy (buffer cur : Z) (s : shm) : option (Z * shm) :=
  if buffer =? 0 then Some (IPC_ERR_INVALID, s)
  else
    let b := buf_at s buffer in
    if negb (owner b =? cur) then Some (IPC_ERR_INVALID, s)
    else
      match find_buffer_slot SHM_BUFFER_MAX 0 buffer (buffers s) with
      | None => Some (IPC_ERR_INVALID, s)
      | Some slot =>
          if 1 <? refcount b then Some (IPC_ERR_BUSY, s)
          else
            let s := with_buffers (<[slot := 0]> (buffers s)) (next_buffer_id s) s in
            h ← (if gpu_backed b then gpu_free (gpu_initialized s) (GpuBuffer (phys_base b) (phys_base b) (sb_size b) 0) (heap s)
                 else pmm_free_pages (phys_base b) (sb_size b / PAGE_SIZE) (heap s));
            h ← pmm_free_page buffer h;
            Some (IPC_OK, with_heap h s)
      end.

(** ** Queries *)

Fixpoint lookup_from (n i : nat) (id : Z) (s : shm) : Z :=
  match n with
  | O => 0
  | S n =>
      let b := default 0 (buffers s !! i) in
      if negb (b =? 0) && (sb_id (buf_at s b) =? id) then b else lookup_from n (S i) id s
  end.

Definition shared_buffer_lookup (id : Z) (s : shm) : Z := lookup_from SHM_BUFFER_MAX 0 id s.

Definition shared_buffer_phys_addr (buffer : Z) (s : shm) : Z := if buffer =? 0 then 0 else phys_base (buf_at s buffer).

(** The buffers [ipc_get_stats] counts. *)
Definition buffer_count (s : shm) : Z := Z.of_nat (length (filter (fun b => b <> 0) (take SHM_BUFFER_MAX (buffers s)))).

End SharedBuf.
