(* ===== verification/SharedSpec.v ===== *)
(** Shared buffers keep their books: any history of creation, mapping, unmapping and
    destruction leaves every page with one owner, reference counts equal to the
    mappings, and all memory back when the last buffer is gone, as long as the GPU
    layer gave none of it; what it gave is not all returned. *)

From S2P Require Import Prelude.
From S2P Require Import FreeList Buddy BuddyInv BuddySpec PmmSpec PageDesc KString Task MsgQueue Vmm VmmKernel Kbuf KbufSpec KbufSessions Elf ElfSpec SharedBuf.

Module SharedSpec.
Import Buddy BuddyInv BuddySpec PageDesc MsgQueue KbufSpec SharedBuf.
Open Scope Z_scope.
Open Scope slm_scope.

(** ** Mapping lists *)

(** The list from [a] runs through [ms]. *)
Fixpoint chain (f : Z -> shm_mapping) (a : Z) (ms : list Z) : Prop :=
  match ms with
  | [] => a = 0
  | m :: ms => a = m /\ m <> 0 /\ chain f (m_next (f m)) ms
  end.

Lemma chain_ext f f' a ms : chain f a ms -> (forall m, m ∈ ms -> f' m = f m) -> chain f' a ms.
Proof.
  revert a. induction ms as [|m ms IH]; intros a Hc He; [done|]. destruct Hc as (-> & Hm & Hc). cbn [chain]. rewrite He by (by left).
  split_and!; try done. apply IH; [done|]. intros m' Hm'. apply He. by right.
Qed.

(** Taking [m] out behind its predecessor. *)
Lemma shm_chain_remove f a pre p m post :
  chain f a (pre ++ p :: m :: post) -> NoDup (pre ++ p :: m :: post) ->
  chain (<[p := set_m_next (m_next (f m)) (f p)]> f) a (pre ++ p :: post).
Proof.
  revert a. induction pre as [|q pre IH]; intros a Hc Hn; cbn [app chain] in *.
  - destruct Hc as (-> & Hp & Em & Hm & Hc). apply NoDup_cons in Hn as [Hn1 Hn2]. rewrite fn_lookup_insert. cbn [set_m_next m_next]. split_and!; try done.
    eapply chain_ext; [exact Hc|]. intros m' Hm'. apply fn_lookup_insert_ne. intros ->. apply Hn1. by right.
  - destruct Hc as (-> & Hq & Hc). apply NoDup_cons in Hn as [Hn1 Hn2]. split_and!; try done.
    rewrite fn_lookup_insert_ne by (intros ->; apply Hn1, elem_of_app; right; by left). by apply IH.
Qed.

Lemma find_mapping_spec fuel task prev a ms s :
  chain (map_at s) a ms -> (length ms < fuel)%nat ->
  (exists p, find_mapping fuel task prev a s = Some (p, 0) /\ forall m, m ∈ ms -> m_task (map_at s m) <> task) \/
  exists pre m post, ms = pre ++ m :: post /\ m <> 0 /\ m_task (map_at s m) = task /\ find_mapping fuel task prev a s = Some (default prev (last pre), m).
Proof.
  revert prev a ms. induction fuel as [|fuel IH]; intros prev a ms Hc Hl; [lia|]. cbn [find_mapping]. destruct ms as [|m ms]; cbn [chain length] in *.
  { rewrite Hc. left. exists prev. split; [done|]. intros m []%not_elem_of_nil. }
  destruct Hc as (-> & Hm & Hc). rewrite (proj2 (Z.eqb_neq m 0)) by done. destruct (Z.eqb_spec (m_task (map_at s m)) task) as [Ht|Ht].
  { right. exists [], m, ms. done. }
  destruct (IH m _ ms Hc ltac:(lia)) as [(p & -> & Hno)|(pre & m' & post & -> & Hm' & Ht' & ->)]; [left|right].
  - exists p. split; [done|]. intros m' [->|Hin]%elem_of_cons; auto.
  - exists (m :: pre), m', post. split_and!; try done. do 2 f_equal. destruct pre as [|q pre]; [done|]. change (last (m :: q :: pre)) with (last (q :: pre)).
    by destruct (last (q :: pre)) eqn:E; [|apply last_None in E].
Qed.

(** ** The table *)

Notation live l := (filter (fun b => b <> 0) l).

Lemma find_buffer_slot_spec n i v l :
  (i + n = length l)%nat ->
  (exists j, find_buffer_slot n i v l = Some j /\ l !! j = Some v) \/ find_buffer_slot n i v l = None /\ forall j, (i <= j)%nat -> l !! j <> Some v.
Proof.
  revert i. induction n as [|n IH]; intros i Hn; cbn [find_buffer_slot].
  { right. split; [done|]. intros j Hj E. apply lookup_lt_Some in E. lia. }
  destruct (lookup_lt_is_Some_2 l i ltac:(lia)) as [x Hx]. rewrite Hx. cbn [from_option id]. destruct (Z.eqb_spec x v) as [->|Hne]; [left; by exists i|].
  destruct (IH (S i) ltac:(lia)) as [?|[E Hno]]; [by left|right]. split; [done|]. intros j Hj E'. destruct (decide (j = i)) as [->|]; [congruence|]. apply (Hno j); [lia|done].
Qed.

Lemma shm_live_insert l j b : l !! j = Some 0 -> b <> 0 -> live (<[j := b]> l) ≡ₚ b :: live l.
Proof.
  intros Hj Hb. rewrite insert_take_drop by (by eapply lookup_lt_Some). rewrite <- (take_drop_middle _ _ _ Hj) at 3. rewrite !filter_app, filter_cons_True, filter_cons_False by (done || tauto).
  by rewrite Permutation_middle.
Qed.

Lemma live_delete l j b : l !! j = Some b -> b <> 0 -> live l ≡ₚ b :: live (<[j := 0]> l).
Proof.
  intros Hj Hb. rewrite insert_take_drop by (by eapply lookup_lt_Some). rewrite <- (take_drop_middle _ _ _ Hj) at 1. rewrite !filter_app, filter_cons_True, filter_cons_False by (done || tauto).
  by rewrite Permutation_middle.
Qed.

(** ** The invariant *)

(** The pages of a live buffer with the mappings [e.2]. *)
Definition blocks (s : shm) (e : Z * list Z) : list (Z * Z) :=
  (e.1, 1) :: (phys_base (buf_at s e.1), sb_size (buf_at s e.1) / PAGE_SIZE) :: ((fun m => (m, 1)) <$> e.2).

Record mapping_ok (b : shared_buffer) (m : shm_mapping) : Prop := {
  mo_task : 1 <= m_task m <= Task.MAX_TASKS;
  mo_virt : m_virt m = phys_base b;
  mo_perms : (has (m_perms m) SHM_READ = true -> has (sb_flags b) SHM_READ = true) /\ (has (m_perms m) SHM_WRITE = true -> has (sb_flags b) SHM_WRITE = true)
}.

Record entry_ok (s : shm) (e : Z * list Z) : Prop := {
  en_chain : chain (map_at s) (mappings (buf_at s e.1)) e.2;
  en_refs : refcount (buf_at s e.1) = 1 + Z.of_nat (length e.2);
  en_tasks : NoDup ((fun m => m_task (map_at s m)) <$> e.2);
  en_maps : forall m, m ∈ e.2 -> mapping_ok (buf_at s e.1) (map_at s m);
  en_size : 0 < sb_size (buf_at s e.1) /\ (BLOCK_SIZE | sb_size (buf_at s e.1));
  en_cpu : gpu_backed (buf_at s e.1) = false;
  en_id : 1 <= sb_id (buf_at s e.1) < next_buffer_id s
}.

(** [L] are the live buffers with their mappings. *)
Record books (s : shm) (L : list (Z * list Z)) : Prop := {
  bk_len : length (buffers s) = SHM_BUFFER_MAX;
  bk_table : live (buffers s) ≡ₚ L.*1;
  bk_entries : forall e, e ∈ L -> entry_ok s e;
  bk_ids : NoDup ((fun e => sb_id (buf_at s e.1)) <$> L);
  bk_next : 1 <= next_buffer_id s
}.

(** Their pages are allocated, apart, and all that is not free. *)
Record shm_ok (total : Z) (s : shm) (L : list (Z * list Z)) : Prop := {
  so_books : books s L;
  so_sess : sess total (heap s) (L ≫= blocks s)
}.

(** Blocks in use start at different addresses. *)
Lemma sess_nodup total h l : sess total h l -> NoDup l.*1.
Proof.
  intros S. apply NoDup_alt. intros i j a Hi Hj. rewrite !list_lookup_fmap in Hi, Hj.
  destruct (l !! i) as [[p n]|] eqn:Ei; [|done]. destruct (l !! j) as [[q m]|] eqn:Ej; [|done]. cbn in Hi, Hj. injection Hi as <-. injection Hj as ->.
  eapply (PmmSpec.ss_disj _ _ S i j p n p m p Ei Ej); unfold in_block; pose proof (bsize_pos (order_for n)); pose proof (bsize_pos (order_for m)); lia.
Qed.

Lemma sess_nonzero total h l p n : sess total h l -> (p, n) ∈ l -> p <> 0.
Proof.
  intros S Hin. destruct (PmmSpec.ss_held _ _ S p n Hin) as (_ & _ & _ & Hlo & _). destruct (inv_binv _ (PmmSpec.ss_inv _ _ S)) as [L Hi].
  pose proof (g_pos _ (b_geom _ _ _ Hi)). cbn [PmmSpec.st] in *. lia.
Qed.

(** The addresses of a live buffer. *)
Lemma entry_addresses s e a : a ∈ (blocks s e).*1 <-> a = e.1 \/ a = phys_base (buf_at s e.1) \/ a ∈ e.2.
Proof.
  unfold blocks. cbn. rewrite !elem_of_cons. assert (E : ((fun m : Z => (m, 1)) <$> e.2).*1 = e.2) by (rewrite <- list_fmap_compose; apply list_fmap_id). rewrite E. tauto.
Qed.

Lemma held_address s L a : a ∈ (L ≫= blocks s).*1 <-> exists e, e ∈ L /\ (a = e.1 \/ a = phys_base (buf_at s e.1) \/ a ∈ e.2).
Proof.
  split.
  - intros ([p n] & -> & (e & He & Hin)%list_elem_of_bind)%list_elem_of_fmap. exists e. split; [done|]. apply entry_addresses, list_elem_of_fmap. by exists (p, n).
  - intros (e & Hin & Ha). apply entry_addresses, list_elem_of_fmap in Ha as ([p n] & -> & Hp). apply list_elem_of_fmap. exists (p, n). split; [done|]. apply list_elem_of_bind. eauto.
Qed.

(** ** Frames *)

Lemma entry_frame s s' e :
  entry_ok s e -> buf_at s' e.1 = buf_at s e.1 -> (forall m, m ∈ e.2 -> map_at s' m = map_at s m) -> next_buffer_id s <= next_buffer_id s' -> entry_ok s' e.
Proof.
  intros [E1 E2 E3 E4 E5 E6 E7] Eb Em Hn. assert (Ef : (fun m => m_task (map_at s' m)) <$> e.2 = (fun m => m_task (map_at s m)) <$> e.2).
  { apply list_fmap_ext. intros i m Hm. by rewrite Em by (by eapply list_elem_of_lookup_2). }
  split; rewrite ?Eb, ?Ef; try done; [by eapply chain_ext| |lia]. intros m Hm. rewrite Em by done. auto.
Qed.

Lemma blocks_frame s s' e : buf_at s' e.1 = buf_at s e.1 -> blocks s' e = blocks s e.
Proof. intros Eb. unfold blocks. by rewrite Eb. Qed.

Lemma held_frame s s' L : (forall e, e ∈ L -> buf_at s' e.1 = buf_at s e.1) -> (L ≫= blocks s') = (L ≫= blocks s).
Proof.
  induction L as [|e L IH]; intros He; [done|]. cbn [mbind list_bind]. rewrite (blocks_frame s) by (apply He; by left). f_equal. apply IH. intros e' Hin. apply He. by right.
Qed.

Lemma ids_frame s s' (L : list (Z * list Z)) :
  (forall e, e ∈ L -> sb_id (buf_at s' e.1) = sb_id (buf_at s e.1)) -> (fun e : Z * list Z => sb_id (buf_at s' e.1)) <$> L = (fun e => sb_id (buf_at s e.1)) <$> L.
Proof. intros He. apply list_fmap_ext. intros i e Hi. apply He. by eapply list_elem_of_lookup_2. Qed.

(** Other memory, the same descriptors and table. *)
Lemma books_memory s h m L : books s L -> books (with_heap h (with_ram m s)) L.
Proof. intros [O1 O2 O3 O5 O6]. split; try done. intros e He. by eapply entry_frame; [apply O3|..]. Qed.

(** A descriptor no live buffer uses. *)
Lemma books_set_buf s L a b : books s L -> (forall e, e ∈ L -> e.1 <> a) -> books (set_buf a b s) L.
Proof.
  intros [O1 O2 O3 O5 O6] Hne. assert (Hsame : forall e, e ∈ L -> buf_at (set_buf a b s) e.1 = buf_at s e.1) by (intros e He; apply fn_lookup_insert_ne; by apply not_eq_sym, Hne).
  split; try done; [|by rewrite (ids_frame s) by (intros e He; by rewrite Hsame)]. intros e He. eapply entry_frame; [by apply O3|by apply Hsame|done|done].
Qed.

Lemma held_set_buf s L a b : (forall e, e ∈ L -> e.1 <> a) -> (L ≫= blocks (set_buf a b s)) = (L ≫= blocks s).
Proof. intros Hne. apply held_frame. intros e He. apply fn_lookup_insert_ne. by apply not_eq_sym, Hne. Qed.

(** ** Allocation *)

Lemma sess_alloc_pages total h l n :
  sess total h l -> 0 <= n <= 2 ^ 63 ->
  exists p h', pmm_alloc_pages n h = Some (p, h') /\
    (p = 0 /\ h' = h \/ p <> 0 /\ 0 < n /\ sess total h' ((p, n) :: l) /\ (forall x, in_block p (order_for n) x -> is_free h x) /\ forall x, is_free h' x -> is_free h x).
Proof.
  intros S Hn. destruct (decide (n = 0)) as [->|Hne].
  { exists 0, h. split; [|by left]. unfold pmm_alloc_pages. destruct (negb _); [done|]. by rewrite Z.eqb_refl. }
  destruct (PmmSpec.alloc_pages_spec n h (PmmSpec.ss_inv _ _ S) ltac:(lia)) as (p & h' & E & Hinv & [(Hp & Ho & Hal)|(-> & -> & _)]); eexists _, _; (split; [exact E|]); [right|by left].
  split; [done|]. split; [lia|]. split; [by apply sess_alloc with h; [|lia|..]|]. destruct Hal as (_ & _ & _ & Hf & Hf' & _). split; [done|]. intros x Hx. by apply Hf' in Hx as [? _].
Qed.

(** The rounded size. *)
Definition round_block (size : Z) : Z := Z.ldiff (size +64 BLOCK_SIZE -64 1) (BLOCK_SIZE - 1).

Lemma round_block_spec size : is_u64 size -> 0 < size ->
  0 <= round_block size < 2 ^ 64 /\ (BLOCK_SIZE | round_block size) /\ 0 <= round_block size / PAGE_SIZE <= 2 ^ 52 /\ (round_block size <> 0 -> size <= round_block size < size + BLOCK_SIZE).
Proof.
  intros Hs H0. unfold round_block, is_u64, PAGE_SIZE in *. change BLOCK_SIZE with (2 ^ 21) in *. set (y := size +64 2 ^ 21 -64 1).
  assert (Hy : 0 <= y < 2 ^ 64) by apply u64_range. change (2 ^ 21 - 1) with (Z.ones 21). rewrite Z.ldiff_ones_r, Z.shiftr_div_pow2, Z.shiftl_mul_pow2 by lia.
  pose proof (Z.div_mod y (2 ^ 21) ltac:(lia)) as Hd. pose proof (Z.mod_pos_bound y (2 ^ 21) ltac:(lia)) as Hm.
  assert (Hq : 0 <= y / 2 ^ 21) by (apply Z.div_pos; lia). split; [lia|]. split; [by exists (y / 2 ^ 21)|]. split.
  { split; [apply Z.div_pos; lia|]. apply Z.lt_succ_r, Z.div_lt_upper_bound; lia. }
  intros Hne. destruct (decide (size + 2 ^ 21 < 2 ^ 64)) as [Hfit|Hbig].
  - assert (Ey : y = size + 2 ^ 21 - 1) by (unfold y; rewrite (u64_small (size + 2 ^ 21)) by (unfold is_u64; lia); apply u64_small; unfold is_u64; lia). lia.
  - assert (Hw : size +64 2 ^ 21 = size + 2 ^ 21 - 2 ^ 64) by (unfold u64; rewrite <- (Z_mod_plus_full _ (-1)), Z.mod_small by lia; lia).
    destruct (decide (size + 2 ^ 21 = 2 ^ 64)) as [He|Hgt].
    + assert (Ey : y = 2 ^ 64 - 1) by (unfold y; rewrite Hw, He; reflexivity). lia.
    + assert (Ey : y = size + 2 ^ 21 - 2 ^ 64 - 1) by (unfold y; rewrite Hw; apply u64_small; unfold is_u64; lia). exfalso. apply Hne. rewrite Z.div_small by lia. lia.
Qed.

(** ** Creation *)

(** No memory of the GPU layer is asked for. *)
Definition no_gpu (fl : Z) (s : shm) : Prop := has fl SHM_GPU_ACCESSIBLE && gpu_initialized s = false.

(** A new buffer: its size, its owner, and zeros. *)
Record fresh_buffer (s : shm) (r size fl cur : Z) : Prop := {
  fb_size : size <= sb_size (buf_at s r) < size + BLOCK_SIZE;
  fb_flags : sb_flags (buf_at s r) = fl;
  fb_owner : owner (buf_at s r) = cur;
  fb_zero : forall x, phys_base (buf_at s r) <= x < phys_base (buf_at s r) + sb_size (buf_at s r) -> ram s x = 0
}.

(** What a step may change besides the books: bytes of free pages, and later ids. *)
Record quiet_step (s s' : shm) : Prop := {
  qs_gpu : gpu_initialized s' = gpu_initialized s;
  qs_next : next_buffer_id s <= next_buffer_id s' <= next_buffer_id s + 1;
  qs_ram : forall x, ~ is_free (heap s) x -> ram s' x = ram s x
}.

Lemma register_ok total s L buf phys size fl cur i :
  books s L -> sess total (heap s) ((phys, size / PAGE_SIZE) :: (buf, 1) :: (L ≫= blocks s)) ->
  0 < size -> (BLOCK_SIZE | size) -> next_buffer_id s + 1 < 2 ^ 32 -> buffers s !! i = Some 0 ->
  shm_ok total (set_buf buf (SharedBuffer (next_buffer_id s) phys size fl 1 cur 0 false) (with_buffers (<[i := buf]> (buffers s)) (next_buffer_id s +32 1) s)) ((buf, []) :: L).
Proof.
  intros [O1 O2 O3 O5 O6] S H0 Hd Hn2 Hi. set (s' := set_buf _ _ _).
  assert (Hid : next_buffer_id s +32 1 = next_buffer_id s + 1) by (apply u32_small; unfold is_u32; lia).
  pose proof (sess_nodup _ _ _ S) as Hnd. rewrite !fmap_cons in Hnd. cbn [fst] in Hnd. apply NoDup_cons in Hnd as [_ [Hbuf _]%NoDup_cons].
  assert (Hb0 : buf <> 0) by (eapply (sess_nonzero _ _ _ buf 1 S); right; by left).
  assert (Hne : forall e, e ∈ L -> e.1 <> buf) by (intros e He ->%eq_sym; apply Hbuf, held_address; exists e; auto).
  assert (Hself : buf_at s' buf = SharedBuffer (next_buffer_id s) phys size fl 1 cur 0 false) by apply fn_lookup_insert.
  assert (Hsame : forall e, e ∈ L -> buf_at s' e.1 = buf_at s e.1) by (intros e He; apply fn_lookup_insert_ne; by apply not_eq_sym, Hne).
  split; [split|].
  - cbn. by rewrite length_insert.
  - cbn [buffers s' set_buf with_buffers]. rewrite shm_live_insert by done. by rewrite O2.
  - intros e [->|He]%elem_of_cons.
    + split; cbn [fst snd]; rewrite ?Hself; try done; [constructor|intros m []%not_elem_of_nil|]. cbn. lia.
    + eapply entry_frame; [by apply O3|by apply Hsame|done|]. cbn. lia.
  - rewrite fmap_cons, (ids_frame s s') by (intros e He; by rewrite Hsame). cbn [fst]. rewrite Hself. cbn [sb_id]. constructor; [|done].
    intros (e & Eq & He)%list_elem_of_fmap. pose proof (en_id _ _ (O3 e He)). lia.
  - cbn. lia.
  - cbn [mbind list_bind]. fold (@mbind list _ (Z * list Z) (Z * Z) (blocks s') L). rewrite (held_frame s s') by done. unfold blocks at 1. cbn [fst snd fmap list_fmap]. rewrite Hself. cbn [app].
    eapply sess_perm; [|exact S]. apply perm_swap.
Qed.

Lemma block_bytes_fit size : (BLOCK_SIZE | size) -> 0 < size -> size <= bsize (order_for (size / PAGE_SIZE)).
Proof. apply KbufSessions.chunk_bytes_fit. Qed.

Lemma shm_create_spec total s L size fl cur :
  shm_ok total s L -> is_u64 size -> no_gpu fl s -> next_buffer_id s + 1 < 2 ^ 32 ->
  exists r s', shared_buffer_create size fl cur s = Some (r, s') /\ quiet_step s s' /\
    (r = 0 /\ shm_ok total s' L \/ r <> 0 /\ shm_ok total s' ((r, []) :: L) /\ fresh_buffer s' r size fl cur).
Proof.
  intros O Hs Hg Hn. unfold shared_buffer_create. pose proof (so_sess _ _ _ O) as S.
  assert (Hq : forall h m, (forall x, ~ is_free (heap s) x -> m x = ram s x) -> quiet_step s (with_heap h (with_ram m s))) by (intros h m Hm; split; [done|cbn; lia|done]).
  destruct (Z.eqb_spec size 0) as [->|Hne]; [exists 0, s; split; [done|]; split; [by split; [done|lia|]|by left]|].
  destruct (round_block_spec size Hs ltac:(unfold is_u64 in Hs; lia)) as (Hr & Hd & Hpg & Hfit). fold (round_block size). set (sz := round_block size) in *. unfold pmm_alloc_page.
  destruct (sess_alloc_pages total (heap s) _ 1 S ltac:(lia)) as (buf & h1 & -> & [(-> & ->)|(Hb & _ & S1 & Hf1 & Hm1)]); cbn [mbind option_bind].
  { exists 0, (with_heap (heap s) (with_ram (ram s) s)). split; [by destruct s|]. split; [by apply Hq|]. left. split; [done|]. split; [by apply books_memory, O|done]. }
  rewrite (proj2 (Z.eqb_neq buf 0)) by done. unfold back_buffer. cbn [gpu_initialized with_heap]. unfold no_gpu in Hg. rewrite Hg. cbn [mbind option_bind]. rewrite Z.eqb_refl. cbn [heap with_heap].
  destruct (sess_alloc_pages total h1 _ (sz / PAGE_SIZE) S1 ltac:(lia)) as (phys & h2 & -> & [(-> & ->)|(Hp & Hpp & S2 & Hf2 & Hm2)]); cbn [mbind option_bind].
  { rewrite Z.eqb_refl. unfold pmm_free_page. cbn [heap with_heap]. destruct (sess_free _ _ _ _ _ S1) as (h3 & -> & S3 & _). cbn [mbind option_bind].
    exists 0, (with_heap h3 (with_ram (ram s) s)). split; [by destruct s|]. split; [by apply Hq|]. left. split; [done|]. split; [by apply books_memory, O|done]. }
  rewrite (proj2 (Z.eqb_neq phys 0)) by done.
  assert (Hsz : 0 < sz) by (destruct (decide (sz = 0)) as [E|]; [rewrite E in Hpp; done|lia]). specialize (Hfit ltac:(lia)).
  set (m := KString.memset phys 0 (Z.to_nat sz) (ram s)). cbn [ram with_heap]. fold m.
  assert (Hm : forall x, m x = if decide (phys <= x < phys + sz) then 0 else ram s x) by (intros x; unfold m; by rewrite KString.memset_spec, Z2Nat.id by lia).
  assert (Hram : forall x, ~ is_free (heap s) x -> m x = ram s x).
  { intros x Hx. rewrite Hm, decide_False; [done|]. intros Hin. apply Hx, Hm1, Hf2. pose proof (block_bytes_fit sz Hd Hsz). unfold in_block. lia. }
  assert (Hne' : forall e, e ∈ L -> e.1 <> buf).
  { intros e He ->%eq_sym. pose proof (sess_nodup _ _ _ S1) as [Hnd _]%NoDup_cons. apply Hnd, held_address. exists e. auto. }
  set (b0 := SharedBuffer 0 phys sz fl 1 cur 0 false). set (s2 := set_buf buf b0 (with_heap h2 (with_ram m s))).
  assert (B2 : books s2 L) by (by apply books_set_buf; [apply books_memory, O|]).
  assert (S2' : sess total (heap s2) ((phys, sz / PAGE_SIZE) :: (buf, 1) :: (L ≫= blocks s2))) by (unfold s2; rewrite held_set_buf by done; exact S2).
  change (set_buf buf b0 (with_ram m (with_heap h2 (with_heap h1 s)))) with s2. pose proof (bk_len _ _ B2) as Hlen.
  destruct (find_buffer_slot_spec SHM_BUFFER_MAX 0 0 (buffers s2) ltac:(by rewrite Hlen)) as [(i & -> & Hi)|(-> & _)].
  - assert (Eb : set_sb_id (next_buffer_id s2) (buf_at s2 buf) = SharedBuffer (next_buffer_id s2) phys sz fl 1 cur 0 false) by (unfold s2; cbn; by rewrite fn_lookup_insert).
    rewrite Eb. eexists _, _. split; [done|]. split; [split; [done| |exact Hram]|].
    { cbn. rewrite u32_small by (unfold is_u32; pose proof (bk_next _ _ (so_books _ _ _ O)); lia). lia. }
    right. split; [done|]. split; [by apply register_ok|]. split; cbn; rewrite fn_lookup_insert; cbn; try done. intros x Hx. by rewrite Hm, decide_True.
  - destruct (sess_free _ _ _ _ _ S2') as (h3 & -> & S3 & _). cbn [mbind option_bind]. unfold pmm_free_page. destruct (sess_free _ _ _ _ _ S3) as (h4 & -> & S4 & _). cbn [mbind option_bind].
    exists 0, (with_heap h4 s2). split; [done|]. split; [split; [done|cbn; lia|exact Hram]|]. left. split; [done|]. split; [exact (books_memory s2 h4 (ram s2) L B2)|exact S4].
Qed.

(** ** Mapping *)

Lemma shm_ok_perm total s L L' : L ≡ₚ L' -> shm_ok total s L -> shm_ok total s L'.
Proof.
  intros Hp [[O1 O2 O3 O5 O6] S]. split; [split; try done|].
  - by rewrite <- Hp.
  - intros e He. apply O3. by rewrite Hp.
  - by rewrite <- Hp.
  - eapply sess_perm; [|exact S]. by rewrite Hp.
Qed.

Lemma has_ldiff x b : has (Z.ldiff x b) b = false.
Proof. unfold has. apply negb_false_iff, Z.eqb_eq, Z.bits_inj'. intros n Hn. rewrite Z.land_spec, Z.ldiff_spec, Z.bits_0. by destruct (Z.testbit x n), (Z.testbit b n). Qed.

Lemma has_ldiff_le x b c : has (Z.ldiff x c) b = true -> has x b = true.
Proof.
  unfold has. rewrite !negb_true_iff, !Z.eqb_neq. intros Hn E. apply Hn. apply Z.bits_inj'. intros n Hp. apply (f_equal (fun z => Z.testbit z n)) in E.
  rewrite Z.land_spec, Z.bits_0 in *. rewrite Z.ldiff_spec. by destruct (Z.testbit x n), (Z.testbit b n), (Z.testbit c n).
Qed.

Lemma limit_perms_ok fl perms :
  (has (limit_perms fl perms) SHM_READ = true -> has fl SHM_READ = true) /\ (has (limit_perms fl perms) SHM_WRITE = true -> has fl SHM_WRITE = true).
Proof.
  unfold limit_perms. assert (Hl : forall b, (Z.land fl b =? 0) = negb (has fl b)) by (intros b; unfold has; by rewrite negb_involutive). rewrite !Hl. split; intros Hh.
  - destruct (has fl SHM_READ); [done|]. cbn [negb] in Hh. destruct (has fl SHM_WRITE); cbn [negb] in Hh; [|apply has_ldiff_le in Hh]; by rewrite has_ldiff in Hh.
  - destruct (has fl SHM_WRITE); [done|]. cbn [negb] in Hh. by rewrite has_ldiff in Hh.
Qed.

(** A mapping list fits the fuel. *)
Lemma mappings_short s e : entry_ok s e -> (length e.2 < MAP_FUEL)%nat.
Proof.
  intros E. pose proof (NoDup_range_length _ 1 (Task.MAX_TASKS + 1) (en_tasks _ _ E)) as Hl. rewrite length_fmap in Hl. unfold MAP_FUEL.
  assert (Z.of_nat (length e.2) <= 64); [|lia]. apply Hl. intros t (m & -> & Hm)%list_elem_of_fmap. pose proof (mo_task _ _ (en_maps _ _ E m Hm)). unfold Task.MAX_TASKS in *. lia.
Qed.

Lemma entry_nodup total s e L : shm_ok total s (e :: L) -> NoDup e.2 /\ e.1 ∉ e.2 /\ forall e', e' ∈ L -> e'.1 <> e.1 /\ e'.1 ∉ e.2 /\ forall m, m ∈ e'.2 -> m ∉ e.2 /\ m <> e.1.
Proof.
  intros [_ S]. pose proof (sess_nodup _ _ _ S) as Hn. cbn [mbind list_bind] in Hn. rewrite fmap_app in Hn. apply NoDup_app in Hn as (Hn1 & Hn2 & _).
  assert (E2 : ((fun m : Z => (m, 1)) <$> e.2).*1 = e.2) by (rewrite <- list_fmap_compose; apply list_fmap_id).
  assert (Hn1' : NoDup (e.1 :: phys_base (buf_at s e.1) :: e.2)) by (unfold blocks in Hn1; rewrite !fmap_cons, E2 in Hn1; exact Hn1).
  apply NoDup_cons in Hn1' as [Ha [_ Hb]%NoDup_cons]. split_and!; [done|intros ?; apply Ha; by right|].
  intros e' He'. assert (Hno : forall a, a = e'.1 \/ a = phys_base (buf_at s e'.1) \/ a ∈ e'.2 -> a ∉ (blocks s e).*1).
  { intros a Ha' Hin. apply (Hn2 a Hin). apply (held_address s L a). by exists e'. }
  split_and!.
  - intros Eq. apply (Hno e'.1); [by left|]. apply entry_addresses. by left.
  - intros Hin. apply (Hno e'.1); [by left|]. apply entry_addresses. auto.
  - intros m Hm. split; [intros Hin|intros ->]; (eapply Hno; [right; right; exact Hm|]); apply entry_addresses; auto.
Qed.

(** One more mapping at the head of the list. *)
Lemma mapped_ok total s b ms L h m tk perms :
  shm_ok total s ((b, ms) :: L) -> sess total h ((m, 1) :: (((b, ms) :: L) ≫= blocks s)) -> m <> 0 -> 1 <= tk <= Task.MAX_TASKS ->
  (forall x, x ∈ ms -> m_task (map_at s x) <> tk) ->
  shm_ok total (set_buf b (set_refs (refcount (buf_at s b) +32 1) m (buf_at s b))
    (set_map m (ShmMapping tk (phys_base (buf_at s b)) (limit_perms (sb_flags (buf_at s b)) perms) (mappings (buf_at s b))) (with_heap h s))) ((b, m :: ms) :: L).
Proof.
  intros O S1 Hm Ht Hno. pose proof O as [[O1 O2 O3 O5 O6] S]. pose proof (O3 (b, ms) ltac:(by left)) as E.
  set (bb := buf_at s b) in *. set (mm := ShmMapping tk (phys_base bb) (limit_perms (sb_flags bb) perms) (mappings bb)). set (s' := set_buf _ _ _).
  pose proof (sess_nodup _ _ _ S1) as [Hmn _]%NoDup_cons. rewrite held_address in Hmn.
  assert (Hm1 : m ∉ ms) by (intros ?; apply Hmn; exists (b, ms); split; [by left|auto]). assert (Hm2 : m <> b) by (intros ->; apply Hmn; exists (b, ms); split; [by left|auto]).
  assert (Hm3 : forall e, e ∈ L -> m <> e.1 /\ m ∉ e.2) by (intros e He; split; [intros ->|intros ?]; apply Hmn; exists e; split; [by right|auto|by right|auto]).
  assert (Ebb : buf_at s' b = set_refs (refcount bb +32 1) m bb) by apply fn_lookup_insert. assert (Emm : map_at s' m = mm) by apply fn_lookup_insert.
  assert (Eold : forall m', m' <> m -> map_at s' m' = map_at s m') by (intros m' Hne; by apply fn_lookup_insert_ne, not_eq_sym).
  destruct (entry_nodup _ _ _ _ O) as (Hnd & Hbm & Hother). cbn [fst snd] in *.
  assert (Esame : forall e, e ∈ L -> buf_at s' e.1 = buf_at s e.1) by (intros e He; apply fn_lookup_insert_ne, not_eq_sym; by apply Hother).
  assert (Href : refcount bb +32 1 = 1 + Z.of_nat (length (m :: ms))).
  { pose proof (en_refs _ _ E) as Er. pose proof (mappings_short _ _ E). cbn [fst snd length] in *. fold bb in Er. rewrite Er. unfold MAP_FUEL in *. rewrite u32_small by (unfold is_u32; lia). lia. }
  split; [split|].
  - done.
  - done.
  - intros e [->|He]%elem_of_cons.
    + destruct E as [E1 E2 E3 E4 E5 E6 E7]. split; cbn [fst snd] in *; rewrite ?Ebb; cbn [set_refs mappings refcount sb_size gpu_backed sb_id]; try done.
      * cbn [chain]. rewrite Emm. split_and!; try done. eapply chain_ext; [exact E1|]. intros m' Hm'. apply Eold. by intros ->.
      * rewrite fmap_cons, Emm. assert (Ef : (fun x => m_task (map_at s' x)) <$> ms = (fun x => m_task (map_at s x)) <$> ms).
        { apply list_fmap_ext. intros i x Hx. rewrite Eold; [done|]. intros ->. by apply Hm1, (list_elem_of_lookup_2 _ i). }
        rewrite Ef. constructor; [|done]. intros (x & Ex & Hx)%list_elem_of_fmap. by apply (Hno x Hx).
      * intros x [->|Hx]%elem_of_cons.
        -- rewrite Emm. split; [done|done|apply limit_perms_ok].
        -- rewrite Eold by (by intros ->). destruct (E4 x Hx). by split.
    + eapply entry_frame; [apply O3; by right|by apply Esame| |done]. intros m' Hm'. apply Eold. intros ->. by apply (Hm3 e He).
  - rewrite (ids_frame s s'); [done|]. intros e [->|He]%elem_of_cons; [cbn [fst]; by rewrite Ebb|by rewrite Esame].
  - done.
  - cbn [mbind list_bind] in *. fold (@mbind list _ (Z * list Z) (Z * Z) (blocks s') L). rewrite (held_frame s s') by done.
    eapply sess_perm; [|exact S1]. unfold blocks at 1 3. cbn [fst snd]. rewrite Ebb. cbn [set_refs phys_base sb_size fmap list_fmap app]. rewrite perm_swap. apply perm_skip, perm_swap.
Qed.

Lemma map_spec total s b ms L task perms cur :
  shm_ok total s ((b, ms) :: L) -> 1 <= (if task =? 0 then cur else task) <= Task.MAX_TASKS ->
  exists r s', shared_buffer_map b task perms cur s = Some (r, s') /\ quiet_step s s' /\
    (r = 0 /\ shm_ok total s' ((b, ms) :: L) \/
     r <> 0 /\ r = phys_base (buf_at s b) /\ exists m, shm_ok total s' ((b, m :: ms) :: L) /\ m_task (map_at s' m) = (if task =? 0 then cur else task)).
Proof.
  intros O Ht. unfold shared_buffer_map. set (tk := if task =? 0 then cur else task) in *. pose proof O as [[O1 O2 O3 O5 O6] S].
  assert (Hin : (b, ms) ∈ (b, ms) :: L) by (by left). pose proof (O3 _ Hin) as E. cbn [fst snd] in *.
  assert (Hb0 : b <> 0) by (eapply (sess_nonzero _ _ _ b 1 S); by left). assert (Hp0 : phys_base (buf_at s b) <> 0) by (eapply (sess_nonzero _ _ _ _ _ S); right; by left).
  rewrite (proj2 (Z.eqb_neq b 0)) by done. assert (Hq : forall s', gpu_initialized s' = gpu_initialized s -> next_buffer_id s' = next_buffer_id s -> ram s' = ram s -> quiet_step s s') by (intros s' E1 E2 E3; split; [done|lia|by rewrite E3]).
  pose proof (en_chain _ _ E) as Hch. pose proof (mappings_short _ _ E) as Hsh. cbn [fst snd] in Hch, Hsh.
  destruct (find_mapping_spec MAP_FUEL tk 0 _ _ s Hch Hsh) as [(p & -> & Hno)|(pre & m & post & _ & Hm & _ & ->)]; cbn [mbind option_bind].
  2:{ rewrite (proj2 (Z.eqb_neq m 0)) by done. cbn [negb]. exists 0, s. split; [done|]. split; [by apply Hq|by left]. }
  rewrite Z.eqb_refl. cbn [negb]. unfold pmm_alloc_page.
  destruct (sess_alloc_pages total (heap s) _ 1 S ltac:(lia)) as (m & h & -> & [(-> & ->)|(Hm & _ & S1 & _ & _)]); cbn [mbind option_bind].
  { rewrite Z.eqb_refl. exists 0, s. split; [by destruct s|]. split; [by apply Hq|by left]. }
  rewrite (proj2 (Z.eqb_neq m 0)) by done. eexists _, _. split; [done|]. split; [by apply Hq|]. right. split; [done|]. split; [done|]. exists m.
  split; [by apply mapped_ok|]. cbn. by rewrite fn_lookup_insert.
Qed.

(** ** Unmapping *)

(** The list of one buffer is relinked from [a] through [ms']. *)
Lemma books_relinked s s' b ms ms' L a :
  books s ((b, ms) :: L) -> buffers s' = buffers s -> next_buffer_id s' = next_buffer_id s ->
  buf_at s' b = set_refs (1 + Z.of_nat (length ms')) a (buf_at s b) -> (forall e, e ∈ L -> buf_at s' e.1 = buf_at s e.1) ->
  (forall e m, e ∈ L -> m ∈ e.2 -> map_at s' m = map_at s m) -> chain (map_at s') a ms' -> ms' `sublist_of` ms ->
  (forall m, m ∈ ms' -> m_task (map_at s' m) = m_task (map_at s m) /\ m_virt (map_at s' m) = m_virt (map_at s m) /\ m_perms (map_at s' m) = m_perms (map_at s m)) ->
  books s' ((b, ms') :: L).
Proof.
  intros [O1 O2 O3 O5 O6] Ebs Enx Eb Eo Em Hc Hsub Hf. pose proof (O3 (b, ms) ltac:(by left)) as [E1 E2 E3 E4 E5 E6 E7]. cbn [fst snd] in *.
  assert (Hin : forall m, m ∈ ms' -> m ∈ ms) by (intros m Hm; by eapply elem_of_sublist).
  split; rewrite ?Ebs, ?Enx; try done.
  - intros e [->|He]%elem_of_cons.
    + split; cbn [fst snd]; rewrite ?Eb, ?Enx; cbn [set_refs mappings refcount sb_size gpu_backed sb_id]; try done.
      * assert (Ef : (fun m => m_task (map_at s' m)) <$> ms' = (fun m => m_task (map_at s m)) <$> ms').
        { apply list_fmap_ext. intros i m Hm. by destruct (Hf m ltac:(by eapply list_elem_of_lookup_2)). }
        rewrite Ef. eapply sublist_NoDup; [exact E3|]. by apply fmap_sublist.
      * intros m Hm. destruct (Hf m Hm) as (F1 & F2 & F3). destruct (E4 m (Hin m Hm)) as [G1 G2 G3]. by split; rewrite ?F1, ?F2, ?F3.
    + eapply entry_frame; [apply O3; by right|by apply Eo|intros m Hm; by eapply Em|lia].
  - rewrite (fmap_cons _ (b, ms')). cbn [fst]. rewrite Eb. cbn [set_refs sb_id]. rewrite (fmap_cons _ (b, ms)) in O5. cbn [fst] in O5.
    rewrite (ids_frame s s'); [done|]. intros e He. by rewrite Eo.
Qed.

(** The state after the links have been changed, before the page is freed. *)
Definition unlinked (b prev m : Z) (s : shm) : shm :=
  let bb := buf_at s b in let nxt := m_next (map_at s m) in
  if prev =? 0 then set_buf b (set_refs (refcount bb -32 1) nxt bb) s
  else set_buf b (set_refs (refcount bb -32 1) (mappings bb) bb) (set_map prev (set_m_next nxt (map_at s prev)) s).

Lemma unlinked_same b prev m s x : x <> prev -> map_at (unlinked b prev m s) x = map_at s x.
Proof. intros Hne. unfold unlinked. destruct (prev =? 0); [done|]. cbn. by apply fn_lookup_insert_ne, not_eq_sym. Qed.

Lemma unlinked_fields b prev m s x :
  let y := map_at (unlinked b prev m s) x in m_task y = m_task (map_at s x) /\ m_virt y = m_virt (map_at s x) /\ m_perms y = m_perms (map_at s x).
Proof.
  unfold unlinked. destruct (prev =? 0); [done|]. cbn. destruct (decide (prev = x)) as [->|]; [by rewrite fn_lookup_insert|by rewrite fn_lookup_insert_ne].
Qed.

Lemma unlinked_bufs b prev m s x : x <> b -> buf_at (unlinked b prev m s) x = buf_at s x.
Proof. intros Hne. unfold unlinked. destruct (prev =? 0); cbn; by apply fn_lookup_insert_ne, not_eq_sym. Qed.

(** The chain without [m]. *)
Lemma unlinked_chain s b pre m post :
  chain (map_at s) (mappings (buf_at s b)) (pre ++ m :: post) -> NoDup (pre ++ m :: post) -> (forall p, p ∈ pre -> p <> 0) ->
  exists a, buf_at (unlinked b (default 0 (last pre)) m s) b = set_refs (refcount (buf_at s b) -32 1) a (buf_at s b) /\
    chain (map_at (unlinked b (default 0 (last pre)) m s)) a (pre ++ post).
Proof.
  intros Hc Hn H0. unfold unlinked. destruct pre as [|q pre _] using rev_ind; cbn [last from_option id].
  - rewrite Z.eqb_refl. exists (m_next (map_at s m)). split; [apply fn_lookup_insert|]. by destruct Hc as (_ & _ & Hc).
  - rewrite last_snoc. cbn [from_option id]. rewrite (proj2 (Z.eqb_neq q 0)) by (apply H0, elem_of_app; right; by left). exists (mappings (buf_at s b)). split; [apply fn_lookup_insert|].
    cbn. rewrite <- app_assoc in *. by apply shm_chain_remove.
Qed.

Lemma unmap_spec total s b ms L task cur :
  shm_ok total s ((b, ms) :: L) ->
  exists r s', shared_buffer_unmap b task cur s = Some (r, s') /\ quiet_step s s' /\
    (r = IPC_ERR_INVALID /\ s' = s /\ (forall m, m ∈ ms -> m_task (map_at s m) <> (if task =? 0 then cur else task)) \/
     exists pre m post, r = IPC_OK /\ ms = pre ++ m :: post /\ m_task (map_at s m) = (if task =? 0 then cur else task) /\ shm_ok total s' ((b, pre ++ post) :: L)).
Proof.
  intros O. unfold shared_buffer_unmap. set (tk := if task =? 0 then cur else task) in *. pose proof O as [B S]. pose proof (bk_entries _ _ B (b, ms) ltac:(by left)) as E.
  assert (Hb0 : b <> 0) by (eapply (sess_nonzero _ _ _ b 1 S); by left). rewrite (proj2 (Z.eqb_neq b 0)) by done.
  pose proof (en_chain _ _ E) as Hch. pose proof (mappings_short _ _ E) as Hsh. pose proof (en_refs _ _ E) as Er. cbn [fst snd] in Hch, Hsh, Er.
  destruct (find_mapping_spec MAP_FUEL tk 0 _ _ s Hch Hsh) as [(p & -> & Hno)|(pre & m & post & Ems & Hm & Htm & ->)]; cbn [mbind option_bind].
  { rewrite Z.eqb_refl. exists IPC_ERR_INVALID, s. split; [done|]. split; [by split; [done|lia|]|by left]. }
  rewrite (proj2 (Z.eqb_neq m 0)) by done. fold (unlinked b (default 0 (last pre)) m s). subst ms.
  destruct (entry_nodup _ _ _ _ O) as (Hnd & Hbm & Hother). cbn [fst snd] in *.
  assert (Hpre : forall p, p ∈ pre -> p <> 0).
  { intros p Hp. eapply (sess_nonzero _ _ _ p 1 S). apply list_elem_of_bind. exists (b, pre ++ m :: post). split; [|by left]. right. right. apply list_elem_of_fmap. exists p. split; [done|]. cbn. set_solver. }
  destruct (unlinked_chain s b pre m post Hch Hnd Hpre) as (a & Ea & Hc'). set (s1 := unlinked b (default 0 (last pre)) m s) in *.
  assert (Hlast : forall x, default 0 (last pre) = x -> x = 0 \/ x ∈ pre) by (intros x <-; destruct (last pre) eqn:El; [right; apply last_Some in El as [? ->]; set_solver|by left]).
  assert (Eh : heap s1 = heap s /\ buffers s1 = buffers s /\ next_buffer_id s1 = next_buffer_id s /\ gpu_initialized s1 = gpu_initialized s /\ ram s1 = ram s) by (unfold s1, unlinked; case_match; split_and!; reflexivity).
  destruct Eh as (Eh & Ebs & Enx & Eg & Eram). rewrite Eh. unfold pmm_free_page.
  assert (B1 : books s1 ((b, pre ++ post) :: L)).
  { eapply (books_relinked s s1 b (pre ++ m :: post) (pre ++ post) L a); try done.
    - rewrite Ea. f_equal. rewrite Er, !length_app. cbn [length]. unfold MAP_FUEL in Hsh. rewrite length_app in Hsh. cbn [length] in Hsh. rewrite u32_small by (unfold is_u32; lia). lia.
    - intros e He. apply unlinked_bufs. by apply Hother.
    - intros e x He Hx. apply unlinked_same. intros Eq. destruct (Hlast x (eq_sym Eq)) as [->|Hp].
      + apply (sess_nonzero _ _ _ 0 1 S); [|done]. apply list_elem_of_bind. exists e. split; [|by right]. right. right. by apply (list_elem_of_fmap_2 (fun m => (m, 1))).
      + destruct (Hother e He) as (_ & _ & Hm'). destruct (Hm' x Hx) as [Hx' _]. apply Hx'. set_solver.
    - apply sublist_app; [done|]. by apply sublist_cons.
    - intros x _. apply unlinked_fields. }
  assert (Hheld : (((b, pre ++ m :: post) :: L) ≫= blocks s) ≡ₚ (m, 1) :: (((b, pre ++ post) :: L) ≫= blocks s1)).
  { cbn [mbind list_bind]. fold (@mbind list _ (Z * list Z) (Z * Z) (blocks s) L). fold (@mbind list _ (Z * list Z) (Z * Z) (blocks s1) L).
    rewrite (held_frame s s1) by (intros e He; apply unlinked_bufs; by apply Hother). unfold blocks at 1 3. cbn [fst snd]. rewrite Ea. cbn [set_refs phys_base sb_size].
    rewrite !fmap_app, fmap_cons, <- Permutation_middle. symmetry. exact (Permutation_middle [(b, 1); (phys_base (buf_at s b), sb_size (buf_at s b) / PAGE_SIZE)] _ (m, 1)). }
  apply (sess_perm _ _ _ _ Hheld) in S. destruct (sess_free _ _ _ _ _ S) as (h' & -> & S' & _). cbn [mbind option_bind].
  exists IPC_OK, (with_heap h' s1). split; [done|]. split; [split; [done|cbn; lia|cbn; by rewrite Eram]|]. right. exists pre, m, post. split_and!; try done.
  split; [exact (books_memory s1 h' (ram s1) _ B1)|exact S'].
Qed.

(** ** Destruction *)

Lemma live_lookup total s e L : shm_ok total s (e :: L) -> exists j, buffers s !! j = Some e.1.
Proof.
  intros [B _]. assert (Hin : e.1 ∈ live (buffers s)) by (rewrite (bk_table _ _ B); by left). apply list_elem_of_filter in Hin as [_ Hin]. by apply list_elem_of_lookup in Hin.
Qed.

Lemma shm_destroy_spec total s b ms L cur :
  shm_ok total s ((b, ms) :: L) ->
  exists r s', shared_buffer_destroy b cur s = Some (r, s') /\ quiet_step s s' /\
    (r = IPC_ERR_INVALID /\ s' = s /\ owner (buf_at s b) <> cur \/ r = IPC_ERR_BUSY /\ s' = s /\ ms <> [] \/
     r = IPC_OK /\ owner (buf_at s b) = cur /\ ms = [] /\ shm_ok total s' L).
Proof.
  intros O. unfold shared_buffer_destroy. pose proof O as [B S]. pose proof (bk_entries _ _ B (b, ms) ltac:(by left)) as E.
  assert (Hb0 : b <> 0) by (eapply (sess_nonzero _ _ _ b 1 S); by left). rewrite (proj2 (Z.eqb_neq b 0)) by done.
  assert (Hq : quiet_step s s) by (split; [done|lia|done]).
  destruct (Z.eqb_spec (owner (buf_at s b)) cur) as [Ho|Ho]; cbn [negb]; [|exists IPC_ERR_INVALID, s; split; [done|]; split; [done|by left]].
  destruct (live_lookup _ _ _ _ O) as [j0 Hj0]. cbn [fst] in Hj0.
  destruct (find_buffer_slot_spec SHM_BUFFER_MAX 0 b (buffers s) ltac:(by rewrite (bk_len _ _ B))) as [(j & -> & Hj)|(_ & Hno)]; [|by destruct (Hno j0 ltac:(lia) Hj0)].
  pose proof (en_refs _ _ E) as Er. pose proof (en_cpu _ _ E) as Eg. cbn [fst snd] in Er, Eg. rewrite Er, Eg. destruct ms as [|m ms].
  2:{ rewrite (proj2 (Z.ltb_lt _ _)) by (cbn [length]; lia). exists IPC_ERR_BUSY, s. split; [done|]. split; [done|]. right. by left. }
  cbn [length]. change (1 <? 1 + Z.of_nat 0) with false. cbn [heap with_buffers]. cbn [mbind list_bind] in S. fold (@mbind list _ (Z * list Z) (Z * Z) (blocks s) L) in S.
  unfold blocks at 1 in S. cbn [fst snd fmap list_fmap app] in S. apply (sess_perm _ _ _ _ (perm_swap _ _ _)) in S.
  destruct (sess_free _ _ _ _ _ S) as (h1 & -> & S1 & _). cbn [mbind option_bind]. unfold pmm_free_page. destruct (sess_free _ _ _ _ _ S1) as (h2 & -> & S2 & _). cbn [mbind option_bind].
  exists IPC_OK, (with_heap h2 (with_buffers (<[j := 0]> (buffers s)) (next_buffer_id s) s)). split; [done|]. split; [split; [done|cbn; lia|done]|]. right. right. split_and!; try done.
  destruct B as [O1 O2 O3 O5 O6]. split; [split; cbn|exact S2]; try done.
  - by rewrite length_insert.
  - rewrite (live_delete _ _ _ Hj Hb0), fmap_cons in O2. cbn [fst] in O2. by apply Permutation_cons_inv in O2.
  - intros e He. eapply entry_frame; [apply O3; by right|done|done|done].
  - rewrite fmap_cons in O5. by apply NoDup_cons in O5 as [_ ?].
Qed.

(** ** Queries *)

Lemma lookup_from_spec total s L n i key :
  shm_ok total s L -> (i + n = length (buffers s))%nat ->
  let r := lookup_from n i key s in
  r = 0 /\ (forall j b, (i <= j)%nat -> buffers s !! j = Some b -> b <> 0 -> sb_id (buf_at s b) <> key) \/ r <> 0 /\ r ∈ buffers s /\ sb_id (buf_at s r) = key.
Proof.
  intros O. revert i. induction n as [|n IH]; intros i Hn; cbn [lookup_from].
  { left. split; [done|]. intros j b Hj Eb. apply lookup_lt_Some in Eb. lia. }
  destruct (lookup_lt_is_Some_2 (buffers s) i ltac:(lia)) as [b Hb]. rewrite Hb. cbn [from_option id]. destruct (Z.eqb_spec b 0) as [->|Hb0]; cbn [negb andb].
  - destruct (IH (S i) ltac:(lia)) as [[-> Hno]|?]; [left|by right]. split; [done|]. intros j b Hj Eb Hne. destruct (decide (j = i)) as [->|]; [congruence|]. apply (Hno j); [lia|done|done].
  - destruct (Z.eqb_spec (sb_id (buf_at s b)) key) as [He|He].
    { right. split_and!; try done. by eapply list_elem_of_lookup_2. }
    destruct (IH (S i) ltac:(lia)) as [[-> Hno]|?]; [left|by right]. split; [done|]. intros j b' Hj Eb Hne. destruct (decide (j = i)) as [->|]; [congruence|]. apply (Hno j); [lia|done|done].
Qed.

(** A live buffer is found by its id. *)
Lemma lookup_live total s e L : shm_ok total s (e :: L) -> shared_buffer_lookup (sb_id (buf_at s e.1)) s = e.1.
Proof.
  intros O. pose proof O as [B S]. unfold shared_buffer_lookup. destruct (lookup_from_spec total s _ SHM_BUFFER_MAX 0 (sb_id (buf_at s e.1)) O ltac:(by rewrite (bk_len _ _ B))) as [[_ Hno]|(Hne & Hin & Hid)].
  - exfalso. destruct (live_lookup _ _ _ _ O) as [j Hj]. apply (Hno j e.1 ltac:(lia) Hj); [|done]. eapply (sess_nonzero _ _ _ e.1 1 S). by left.
  - set (r := lookup_from _ _ _ _) in *. assert (Hl : r ∈ live (buffers s)) by (by apply list_elem_of_filter). rewrite (bk_table _ _ B) in Hl. apply list_elem_of_fmap in Hl as (e' & Er & [->|He']%elem_of_cons); [done|].
    exfalso. pose proof (bk_ids _ _ B) as Hnd. rewrite fmap_cons in Hnd. apply NoDup_cons in Hnd as [Hn _]. apply Hn. rewrite Er in Hid. rewrite <- Hid. by apply (list_elem_of_fmap_2 (fun e0 : Z * list Z => sb_id (buf_at s e0.1))).
Qed.

(** ** Sessions *)

(** Calls by the tasks; [j] is a slot of the table, an empty slot gives NULL. *)
Inductive shm_call :=
  | Create (size fl cur : Z)
  | MapBuf (j : nat) (task perms cur : Z)
  | UnmapBuf (j : nat) (task cur : Z)
  | DestroyBuf (j : nat) (cur : Z).

Definition slot (j : nat) (s : shm) : Z := default 0 (buffers s !! j).

Definition do_shm_call (c : shm_call) (s : shm) : option (Z * shm) :=
  match c with
  | Create size fl cur => shared_buffer_create size fl cur s
  | MapBuf j task perms cur => shared_buffer_map (slot j s) task perms cur s
  | UnmapBuf j task cur => shared_buffer_unmap (slot j s) task cur s
  | DestroyBuf j cur => shared_buffer_destroy (slot j s) cur s
  end.

Fixpoint run_shm (cs : list shm_call) (s : shm) : option shm :=
  match cs with
  | [] => Some s
  | c :: cs => '(_, s) ← do_shm_call c s; run_shm cs s
  end.

(** Arguments in the range of their types, and no memory of the GPU layer. *)
Definition shm_call_ok (gpu : bool) (c : shm_call) : Prop :=
  match c with
  | Create size fl _ => is_u64 size /\ has fl SHM_GPU_ACCESSIBLE && gpu = false
  | MapBuf _ task _ cur => 1 <= (if task =? 0 then cur else task) <= Task.MAX_TASKS
  | _ => True
  end.

Lemma slot_live total s L j : shm_ok total s L -> slot j s = 0 \/ exists ms L', L ≡ₚ (slot j s, ms) :: L'.
Proof.
  intros [B _]. unfold slot. destruct (buffers s !! j) as [b|] eqn:E; cbn [from_option id]; [|by left]. destruct (decide (b = 0)) as [->|Hb]; [by left|right].
  assert (Hin : b ∈ live (buffers s)) by (apply list_elem_of_filter; split; [done|by eapply list_elem_of_lookup_2]). rewrite (bk_table _ _ B) in Hin.
  apply list_elem_of_fmap in Hin as ([b' ms] & -> & Hin). apply elem_of_Permutation in Hin as [L' HL]. by exists ms, L'.
Qed.

Lemma do_shm_call_ok total c s L :
  shm_ok total s L -> shm_call_ok (gpu_initialized s) c -> next_buffer_id s + 1 < 2 ^ 32 ->
  exists r s' L', do_shm_call c s = Some (r, s') /\ quiet_step s s' /\ shm_ok total s' L'.
Proof.
  intros O Hc Hn. assert (Hq : quiet_step s s) by (split; [done|lia|done]). destruct c as [size fl cur|j task perms cur|j task cur|j cur]; cbn [do_shm_call shm_call_ok] in *.
  - destruct Hc as [Hs Hg]. destruct (shm_create_spec total s L size fl cur O Hs Hg Hn) as (r & s' & E & Q & [[_ O']|(_ & O' & _)]); eauto 10.
  - destruct (slot_live _ _ _ j O) as [->|(ms & L' & HL)]; [exists 0, s, L; done|]. apply (shm_ok_perm _ _ _ _ HL) in O.
    destruct (map_spec total s _ ms L' task perms cur O Hc) as (r & s' & E & Q & [[_ O']|(_ & _ & m & O' & _)]); eauto 10.
  - destruct (slot_live _ _ _ j O) as [->|(ms & L' & HL)]; [exists IPC_ERR_INVALID, s, L; done|]. apply (shm_ok_perm _ _ _ _ HL) in O.
    destruct (unmap_spec total s _ ms L' task cur O) as (r & s' & E & Q & [(_ & -> & _)|(pre & m & post & _ & _ & _ & O')]); eauto 10.
  - destruct (slot_live _ _ _ j O) as [->|(ms & L' & HL)]; [exists IPC_ERR_INVALID, s, L; done|]. apply (shm_ok_perm _ _ _ _ HL) in O.
    destruct (shm_destroy_spec total s _ ms L' cur O) as (r & s' & E & Q & [(_ & -> & _)|[(_ & -> & _)|(_ & _ & _ & O')]]); eauto 10.
Qed.

Lemma shm_init_ok s : inv (heap s) -> shm_ok (free_pages (heap s)) (shm_init s) [].
Proof.
  intros Hi. split; [split|exact (ElfSpec.session_start (heap s) Hi)].
  - reflexivity.
  - reflexivity.
  - by intros e []%not_elem_of_nil.
  - constructor.
  - cbn. lia.
Qed.

(** C11. Sessions of shared buffers.  From an initialised table, any sequence of
    creations, mappings, unmappings and destructions by any tasks runs to its end,
    as long as no buffer is backed by memory of the GPU layer (see [stub_buffer_leaks]).
    Every live buffer then has its descriptor, its memory and one page per mapping
    allocated and apart from all others, a reference count of one plus its mappings,
    at most one mapping per task, none with an access the buffer does not allow, and
    is found by its id; when no buffer is left, every page is free again. *)
Theorem shm_sessions_safe (cs : list shm_call) (s0 : shm) :
  inv (heap s0) -> Forall (shm_call_ok (gpu_initialized s0)) cs -> Z.of_nat (length cs) < 2 ^ 32 - 2 ->
  exists s L, run_shm cs (shm_init s0) = Some s /\ shm_ok (free_pages (heap s0)) s L /\
    (forall e, e ∈ L -> shared_buffer_lookup (sb_id (buf_at s e.1)) s = e.1) /\
    (buffer_count s = 0 -> free_pages (heap s) = free_pages (heap s0)).
Proof.
  intros Hi Hcs Hlen. pose proof (shm_init_ok s0 Hi) as O. assert (Hn : next_buffer_id (shm_init s0) + Z.of_nat (length cs) < 2 ^ 32 - 1) by (cbn; lia). clear Hlen.
  assert (Hcs' : Forall (shm_call_ok (gpu_initialized (shm_init s0))) cs) by exact Hcs. clear Hcs. revert O Hn Hcs'. generalize (shm_init s0), (@nil (Z * list Z)), (free_pages (heap s0)). clear Hi.
  intros s L total. revert s L. induction cs as [|c cs IH]; intros s L O Hn Hcs; cbn [run_shm].
  - exists s, L. split_and!; [done|done| |].
    + intros e He. apply elem_of_Permutation in He as [L' HL]. apply (lookup_live total s e L'). by eapply shm_ok_perm.
    + intros Hz. destruct O as [B S]. assert (L = []) as ->.
      { pose proof (Permutation_length (bk_table _ _ B)) as Hl. rewrite length_fmap in Hl. unfold buffer_count in Hz. rewrite take_ge in Hz by (by rewrite (bk_len _ _ B)). destruct L; [done|]. cbn [length] in Hl. lia. }
      pose proof (PmmSpec.ss_count _ _ S) as Hct. cbn in Hct. lia.
  - apply Forall_cons in Hcs as [Hc Hcs]. cbn [length] in Hn. destruct (do_shm_call_ok total c s L O Hc ltac:(lia)) as (r & s1 & L1 & -> & [Q1 Q2 Q3] & O1). cbn [mbind option_bind].
    apply (IH s1 L1 O1); [lia|]. by rewrite Q1.
Qed.

Definition demo_shm : shm :=
  Shm PmmSpec.demo (fun _ => 0xFF) true (fun _ => SharedBuffer 0 0 0 0 0 0 0 false) (fun _ => ShmMapping 0 0 0 0) [] 0.

Definition demo_shm_calls : list shm_call := [Create 5 3 1; MapBuf 0 2 3 1; DestroyBuf 0 1; UnmapBuf 0 2 1; DestroyBuf 0 1].

(** Witness of C11: a buffer is created, mapped by another task, refused destruction, unmapped and destroyed. *)
Lemma shm_sessions_safe_witness :
  exists s L, run_shm demo_shm_calls (shm_init demo_shm) = Some s /\ shm_ok (free_pages (heap demo_shm)) s L.
Proof.
  destruct (shm_sessions_safe demo_shm_calls demo_shm PmmSpec.demo_inv) as (s & L & E & O & _).
  - repeat constructor; cbn; unfold Task.MAX_TASKS; lia.
  - reflexivity.
  - exists s, L. split; [exact E|exact O].
Defined.

(** ** Memory of the GPU layer *)

(** A 2 MB request takes 1024 pages from the allocator, whose blocks of that size are
    aligned already, and gives 512 back: each buffer of the stub driver that is
    released leaves another 2 MB allocated for good. *)
Theorem stub_buffer_leaks (h h1 : pmm) (b : gpu_buffer) :
  inv h -> gpu_alloc true BLOCK_SIZE (Z.lor GPU_MEM_READWRITE GPU_MEM_ALIGN_2MB) h = Some (GPU_OK, b, h1) ->
  exists h2, gpu_free true b h1 = Some h2 /\ inv h2 /\ free_pages h2 = free_pages h - 512.
Proof.
  intros Hi. unfold gpu_alloc, gpu_free, stub_alloc. change (BLOCK_SIZE =? 0) with false. cbn [negb]. change (has _ GPU_MEM_ALIGN_2MB) with true. cbv iota.
  change ((u64 _ / 4096) +64 (2 * 1024 * 1024 / 4096)) with 1024. destruct (PmmSpec.alloc_pages_spec 1024 h Hi ltac:(lia)) as (p & h' & -> & Hi' & [(Hp & _ & Hal)|(-> & -> & _)]); cbn [mbind option_bind]; [|done].
  rewrite (proj2 (Z.eqb_neq p 0)) by done. intros [= <- <-]. destruct Hal as (Ha & Hlo & Hhi & Hfr & Hf & Hs & He & Hct).
  change (order_for 1024) with 10%nat in *. destruct (inv_binv _ Hi) as [Lb Hib]. pose proof (g_top _ (b_geom _ _ _ Hib)) as Htop. pose proof (g_pos _ (b_geom _ _ _ Hib)) as Hpos.
  assert (Hb10 : bsize 10 = 0x400000) by reflexivity. assert (Hb9 : bsize 9 = 0x200000) by reflexivity.
  assert (Eal : Z.ldiff (p +64 2 * 1024 * 1024 -64 1) (2 * 1024 * 1024 - 1) = p).
  { rewrite (u64_small (p + _)), u64_small by (unfold is_u64; lia). change (2 * 1024 * 1024 - 1) with (Z.ones 21). rewrite Z.ldiff_ones_r, Z.shiftr_div_pow2, Z.shiftl_mul_pow2 by lia.
    destruct Ha as [q Hq]. rewrite Hq, Hb10. replace (q * 0x400000 + 2 * 1024 * 1024 - 1) with (2 ^ 21 - 1 + q * 2 * 2 ^ 21) by lia. rewrite Z.div_add by lia. change ((2 ^ 21 - 1) / 2 ^ 21) with 0. lia. }
  unfold stub_free. cbn [cpu_addr gpu_size]. rewrite Eal, (proj2 (Z.eqb_neq p 0)) by done. change (u64 _ / 4096) with 512.
  destruct (PmmSpec.free_pages_spec p 512 h' Hi' ltac:(lia)) as (h2 & E & Hi2 & (_ & _ & _ & Hc2)); change (order_for 512) with 9%nat in *.
  - unfold FreeList.MAX_ORDER. lia.
  - split; [eapply aligned_le; [|exact Ha]; lia|]. rewrite Hs, He. split_and!; try lia. intros x Hx. rewrite Hf. intros [_ Hno]. apply Hno. unfold in_block in *. lia.
  - exists h2. split; [exact E|]. split; [done|]. lia.
Qed.
End SharedSpec.
